(* ===== verification/_CoqProject ===== *)
-Q . S2P
Prelude.v
GoInt.v
Floats.v
Types.v
Text.v
GlobalState.v
Database.v
Sequencer.v
SequencerSpec.v
SequencerFloor.v
Orchestrator.v
AsyncWriter.v
Pipeline.v
Fetcher.v
Limiter.v
RpcPool.v
Processor.v
Reorg.v
Ingest.v
QuotaGuard.v
Backpressure.v
HotBuffer.v
Guards.v
Watchdog.v
Service.v
Power.v
Codecs.v
Enricher.v
Emulator.v
WebHub.v
Policy.v
Monitor.v
Json.v
Replay.v
Repository.v
Status.v
Checkpoint.v
WssListener.v
Config.v
Traffic.v
Admin.v
Api.v
Metrics.v
Boot.v
Simulator.v
Events.v
LegacyPool.v
Sockets.v
Demo.v
Loops.v
Integrity.v
Chain.v
Logging.v
Tools.v
Lifecycle.v
Signatures.v
