(* ===== verification/Prelude.v ===== *)
(** * web3-indexer-go: a verification development

    ** The program

    web3-indexer-go follows an Ethereum chain through JSON-RPC nodes and stores
    its blocks and token transfers in PostgreSQL.  Data moves along one path,
    each stage a goroutine (or several) with channels in between:

    - [continuousTailFollow] asks a node for the chain head and schedules ranges;
    - the Fetcher cuts ranges into jobs, and its workers turn a job into one
      result per block, calling the RPC pool through rate limiters;
    - the Sequencer puts results back into block order, re-fetches what failed,
      and hands blocks to the Processor, singly or in batches;
    - the Processor checks parent hashes, extracts the activities of a block and
      sends a storage task to the Orchestrator;
    - the Orchestrator owns the coordinator state (heights, cursor, mode) and
      passes tasks to the AsyncWriter;
    - the AsyncWriter stores batches in transactions and reports the stored
      height back, which moves the Orchestrator's cursor.

    Beside the path: the boot sequence with its configuration and checks, the
    deadlock watchdog, the self healer, the reconciler, the deep-reorg handler,
    the quota guard, dynamic backpressure, the sinks and recorders, the HTTP API
    and the websocket hub with their metrics, and the simulators that make
    traffic on a local chain.

    ** Files and code

    File names are relative to src/; where no directory is given, to
    src/internal/engine.

    - [Prelude]: the monad of Go functions ([GoM]: state, error values, panics),
      its weakest preconditions and the two preorders of triples [keeps] and
      [always], reentrancy of locks, shared automation.
    - [GoInt]: fixed-width integers, [big.Int] conversions, float64; utils.go.
      [Floats]: quotients of integers in float64.  [Text]: the parts of the
      packages strings and net that the code uses.
    - [Types]: blocks, logs, tasks, errors, [RPCClient] (rpc_interface.go,
      internal/models/types.go, signatures.go).
    - [GlobalState]: global_state.go, with its mutex.
    - [Database]: the tables, the SQL of the engine, the schema, transactions
      (internal/database, bulk_inserter.go); PostgreSQL is the class [Postgres].
    - [Sequencer], [SequencerSpec], [SequencerFloor]: sequencer_core.go,
      sequencer_batch.go, sequencer_process.go; the abstract automaton and the
      refinement; the floor below which nothing is processed, and the restart
      loop of cmd/indexer/main_services.go.
    - [Orchestrator]: orchestrator_types.go, _core, _loop, _api, strategy.go;
      what it calls is the class [OrchWorld].
    - [AsyncWriter]: async_writer_types.go, _core, _flush.
    - [Pipeline]: Orchestrator and AsyncWriter composed, all interleavings.
    - [Fetcher]: fetcher_core.go, _schedule, _block, _control.
    - [Limiter]: internal/limiter.
    - [RpcPool]: rpc_types.go, rpc_pool_core.go, _requests, _health,
      rpc_rotator.go.
    - [Processor]: processor_core.go, _block_part1, _batch, _transfer,
      _checkpoint, labels.go; [Reorg]: processor_reorg.go.
    - [Ingest]: Fetcher, Sequencer and Processor composed through the class
      [TaskLog], which the Processor implements.
    - [QuotaGuard]: rpc_quota_guard.go; [Backpressure]: dynamic_backpressure.go;
      [HotBuffer]: hot_buffer.go, io_types.go.
    - [Guards]: consistency.go, integrity.go, reconciler.go, self_healing.go,
      height_oracle.go and the repository adapter of processor_core.go, which
      implements the class [DBUpdater].
    - [Watchdog]: watchdog_deadlock.go; [Loops]: the background loops of the
      healer, the reconciler, the watchdog and the quota's timer.
    - [Service]: the start block, the startup checks and the tail-following loop
      of cmd/indexer/main_init.go, main_services.go, service_manager.go.
    - [Power]: lazy_manager.go; state_manager_core.go, _transition, _watchdog,
      _api; the indexer service is the class [IndexerService].
    - [Codecs]: internal/models/types.go, the numbers between Go and PostgreSQL.
    - [Enricher]: metadata_enricher.go, token_registry.go.
    - [Emulator]: internal/emulator.
    - [WebHub]: internal/web/hub.go, hub_throttle.go.
    - [Policy]: indexer_policy.go, performance_profile.go, indexer_config.go,
      eco_strategy.go, tps_monitor.go.
    - [Monitor]: internal/monitor, and the fields of [Metrics] that are read back.
    - [Json]: JSON documents as encoding/json decodes them; [Replay]: recorder.go,
      sink_lz4.go, storage_guard.go, source_lz4_replay.go, cmd/indexer/replay.go.
    - [Repository]: internal/database/repository.go, bulk_inserter.go and
      sink_postgres.go, statement by statement.
    - [Status]: ui_projection.go, telemetry.go, health_core.go, health_checks.go,
      health_handlers.go.
    - [Checkpoint]: checkpoint_service.go; [WssListener]: wss_listener.go.
    - [Config]: internal/config, pkg/network/verify.go and the connections of
      cmd/indexer/main_init.go.
    - [Boot]: cmd/indexer/main_core.go, main_init.go, main_services.go,
      service_manager.go, monitor.go, internal/recovery.
    - [Api]: cmd/indexer/api_server.go, api_handlers.go, the payload signer;
      [Traffic]: api_middleware.go; [Admin]: admin_server.go.
    - [Metrics]: metrics_core.go, metrics_methods.go over the class [Prometheus].
    - [Events]: the leaderboard, events and metrics of a block
      (processor_block_part1.go), and the retry worker of processor_core.go.
    - [LegacyPool]: the basic pool of rpc_pool_core.go and rpc_pool_requests.go;
      [Sockets]: the connections of internal/web/hub.go.
    - [Simulator]: pro_simulator.go, defi_simulator_core.go, _gen, _utils,
      simulator_factory.go; [Demo]: cmd/demo/deploy.go, internal/web/static.go.
    - [Integrity]: scripts/verify_integrity.go, and what the AsyncWriter stores
      in a database that is up (the class [Reliable]); [Chain]: Processor,
      Orchestrator, AsyncWriter and audit composed.
    - [Signatures]: signatures.go against Keccak-256, defined after its
      specification and checked on known digests.
    - [Logging]: logger.go; [Tools]: tools/docs_index, tools/chaos, tools/stress.
    - [Lifecycle]: the constructors and the shutdown of the repository, the
      emulator, the HTTP server, the websocket listener and the throttled hub.

    A component's state is a record with the fields of the Go struct (a channel
    is the list of its buffered values, a nil pointer is [None]); a method is a
    definition of the same name, its guards and early returns in the order of the
    code.  A [select] is an argument or a constructor that says which case is
    taken, so theorems quantify over every choice.  What runs concurrently with a
    method that has released its lock is an argument of the method.

    ** What is shown

    - Storage: the cursor never names a block that is not stored, in every
      interleaving ([Pipeline.cursor_is_durable]); a reported flush is durable
      ([AsyncWriter.flush_durable], [awStep_reports_durable]); pruning and deep
      reorgs are atomic ([Database.PruneFutureData_atomic],
      [Reorg.HandleDeepReorg_safe]); on a database that answers, with the columns
      the flush needs, and with no queue full, the blocks of the single path are
      stored as a linked chain without a gap below the cursor
      ([Chain.no_gap_below_cursor]; a lost flush leaves one:
      [Chain.lost_flush_leaves_gap]), which is what the integrity audit decides
      ([Integrity.audit_decides_chain]).
    - Order: the Sequencer refines an automaton over the next expected block
      ([SequencerSpec.Run_refines]) and processes every block exactly once and in
      order, across restarts ([SequencerFloor.supervised_exactly_once]) and down
      to the storage tasks, which leave out the blocks that came without a body
      ([Ingest.tasks_exactly_once]).
    - Coverage: ranges and jobs tile what is asked for
      ([Service.tail_follow_tiles], [Fetcher.Schedule_covers],
      [Fetcher.fetchRange_reports_every_block]), and where a restart resumes
      ([Service.startup_start_block]).
    - Content: the Processor detects reorgs, stores all activities of a block and
      does the same on both of its paths ([Processor.processAll_detects_reorg],
      [activities_all_stored], [batch_matches_single]).
    - Resources: rate bounds and the ring buffer's refinement ([Limiter]),
      failover while no failed node's backoff runs out ([RpcPool.poolCall_failover];
      slow failures use the attempts up: [RpcPool.slow_failures_exhaust]), the
      bounded buffer of [HotBuffer].
    - Repair: the linearity check and the watchdog on every branch
      ([Guards.PerformLinearityCheck_aligns], [Watchdog.checkAndHeal_spec]); the
      healer beside the Orchestrator's loop ([Loops.healer_interleaved]); the
      quota is reset once a day ([Loops.quota_reset_daily]).
    - Liveness and termination: stalls are bypassed, loops end
      ([SequencerSpec.stall_bypasses_gap], [continuations_terminate]).
    - Modes: from its first successful transition on the state manager keeps its
      indexer in the mode its state names, once the service does not refuse
      ([Power.smRun_in_mode]); the lazy manager can leave an active engine paused
      ([Power.lazy_race_stays_paused]).
    - Numbers: the codecs round trip, scientific notation is read within a bound
      ([Codecs.Uint256_roundtrip], [Codecs.scan_scientific_bounds]), and what does
      not fit is refused ([Codecs.Uint256_Scan_overflow]); a reading of a rate
      counts what is at most four seconds old, and nothing that is more than
      thirteen ([Monitor.rate_window]).
    - Queues beside the path: an address waits for the enricher only once at a
      time ([Enricher.enrich_asks_once]), the hub never panics
      ([WebHub.hub_never_panics]), the emulator's nonces increase
      ([Emulator.transfers_nonces_increase]), announced heads arrive in order
      ([WssListener.heads_in_order]).
    - Startup: the values of the configuration and the lock on the simulator
      ([Config.Load_typed], [Config.simulator_lock]); a boot ends ready or stays
      initialising, with its parts in order ([Boot.boot_ready_or_initializing]),
      and the start block agrees with the cursor ([Boot.start_and_cursor]).
    - Output: the status of the page and the health endpoints
      ([Status.ui_status_consistent], [Status.health_endpoints_spec]); the lists
      of the API are the newest rows ([Api.api_lists_latest]); the leaderboard
      adds up the gas and fees of a block ([Events.leaderboard_spec]) and the
      hook receives a block's events in order ([Events.show_block_spec]); which
      calls on the metrics panic, and what the lag gauge shows
      ([Metrics.metrics_never_panic]); what a browser
      receives is in order, and its connection lives on pongs
      ([Sockets.writer_in_order], [Sockets.reader_lives_on_pongs]).
    - Simulation: an account whose key does not match never sends
      ([Simulator.mismatched_account_never_sends]); the calldata of the
      simulator and that of the demo ([Simulator.transfer_calldata],
      [Demo.demo_transfer_misread]).
    - Files: a recording replays in order, less some entries at its head, or not
      at all when the reader, which reads ahead, is at the end of the file before
      the first block is due ([Replay.replay_delivers]), but not
      those the program records ([Replay.own_recordings_store_nothing]); no
      checkpoint is ever saved ([Checkpoint.checkpoints_never_saved]).
    - Tools: the front matter read back ([Tools.fieldValue_quoted]), the nonces
      of the injector ([Tools.chaos_nonces], [Tools.chaos_stuck]), the end of the
      load test ([Tools.stress_ends]); levels of the log
      ([Logging.errors_always_written]); shutdown of the server and the listener
      ([Lifecycle.shutdown_stops], [Lifecycle.wssStops_wp]).
    - Defects, as theorems about the code as it is: an event table whose Transfer
      and Swap topics are not those of the events, so that real transfers are not
      recognised ([Signatures.transfers_unrecognised]); self-deadlocks
      ([GlobalState.UpdateChainHead_deadlocks],
      [QuotaGuard.RecordRequest_reset_deadlocks]), lost data
      ([AsyncWriter.shutdown_loses_batch],
      [Ingest.job_stores_only_blocks_with_logs],
      [Fetcher.failed_job_reports_only_start], [Service.tail_tick_cuts],
      [Watchdog.heal_abandons_gap]), a schema the code cannot write to
      ([AsyncWriter.flush_never_commits_on_InitSchema]), a pool without
      fail-over ([LegacyPool.basic_pool_no_failover]), an origin check that a
      substring passes ([Sockets.origin_is_substring]).

    ** Interfaces

    [Postgres], [OrchWorld], [BlockProcessor], [TaskLog], [DBUpdater],
    [IndexerService], [RateLimit], [SortSlice], [GoRange], [PickRow],
    [Uint256Lib], [AddressText], [Erc20Abi], [EthJson], [Ed25519], [Prometheus],
    [EthCrypto], [SimWorld], [DemoNode], [ChaosWorld] and [Reliable] are classes, [RPCClient] and
    [NodeEnv] records: code outside src/ (PostgreSQL, ethclient, x/time/rate,
    [sort.Slice] and the order of maps, holiman/uint256, the ABI, JSON and
    signature code of go-ethereum, the Prometheus client, ed25519) and the seams
    between components.  Each class used by a theorem
    has a concrete instance, used by the witnesses, so its laws can hold.

    ** Bounds and fuel

    Loops that are not structural take fuel, and in each case the theorems show
    that the fuel the definition passes is enough: [continuationLoop] gets one
    more than the size of the buffer and every round removes a block
    ([continuations_terminate]); [handleBlockLocked] gets 2, since the retry of
    a failed block cannot fail again ([handleBlockLocked_terminates]);
    [cutJobs] gets the number of blocks and every job takes one at least
    ([cutJobs_cover]); [evictLoop] gets the number of recorded requests
    ([evictLoop_wp]); [findAncestor] gets two more than the lookback limit of 1000
    blocks ([findAncestor_wp]); [bigBytes_fuel] gets the number of bits
    ([big_Bytes_spec]); [drawOther], whose loop need not end, takes its fuel as
    an argument and answers [None] when it is used up
    ([injector_hangs_without_randomness]); the bounds on scanned numbers hold for exponents
    up to 55, where [5 ^ k] fits in the 128 bits used.  Machine integers keep
    their width: [u64], [i64] and [i32] wrap.

    ** Not modelled

    The text of log lines and console output, the text of JSON answers where a
    record of its members stands for it, and the embedded pages; wall-clock time other than as
    arguments; the LZ4 frames and the websocket protocol; the parts of PostgreSQL
    beyond the statements used.  A round of the transaction injector and a step
    of the throttled hub are taken whole in [Tools] and [Lifecycle].  The shell
    scripts, the build files and the files that hold only comments after the code
    was split have nothing to model.  Data races on unsynchronised
    fields are modelled only where a method gives up its lock. *)

From stdpp Require Import base list gmap sets strings sorting.
From Stdlib Require Import ZArith Lia String.
From stdpp Require Import list.

(** ** Go outcomes, errors and the state monad

    A Go function of the indexer mutates shared state, may return an [error]
    and may panic.  [outcome] separates a normal return from a panic;
    [GoM S A] threads the state [S] and keeps the state reached when a panic
    unwinds (deferred unlocks do not undo mutations). *)

Inductive outcome (A : Type) : Type :=
| Val (a : A)
| Panic (why : string).
Arguments Val {A} a.
Arguments Panic {A} why.

Definition GoM (S A : Type) : Type := S → S * outcome A.

#[export] Instance GoM_ret (S : Type) : MRet (GoM S) := λ A a s, (s, Val a).

#[export] Instance GoM_bind (S : Type) : MBind (GoM S) := λ A B f m s,
  match m s with
  | (s', Val a) => f a s'
  | (s', Panic why) => (s', Panic why)
  end.

Definition gets {S A : Type} (f : S → A) : GoM S A := λ s, (s, Val (f s)).
Definition modify {S : Type} (f : S → S) : GoM S unit := λ s, (f s, Val tt).
Definition go_panic {S A : Type} (why : string) : GoM S A := λ s, (s, Panic why).

(** [zoom get put m] runs an operation on a part of the state. *)
Definition zoom {S T A : Type} (get : S → T) (put : T → S → S) (m : GoM T A) : GoM S A :=
  λ s, match m (get s) with (t, o) => (put t s, o) end.

(** A Go pair [(T, error)] where exactly one side is meaningful. *)
Inductive result (E A : Type) : Type :=
| Ok (a : A)
| Err (e : E).
Arguments Ok {E A} a.
Arguments Err {E A} e.

(** [if err := m; err != nil { return err }] followed by [k]. *)
Definition try_err {S E : Type} (m : GoM S (option E)) (k : GoM S (option E)) : GoM S (option E) :=
  m ≫= λ e, match e with Some e' => mret (Some e') | None => k end.

Declare Scope go_scope.
Delimit Scope go_scope with go.
Notation "'try' m ;;; k" := (try_err m k) (at level 100, m at level 99, k at level 200, right associativity) : go_scope.
Open Scope go_scope.

(** ** Weakest preconditions

    [wp m Q s]: running [m] from [s] ends in an outcome and a state related
    by [Q].  The rules below decompose a handler along its code. *)

Definition wp {S A : Type} (m : GoM S A) (Q : outcome A → S → Prop) (s : S) : Prop :=
  Q (snd (m s)) (fst (m s)).

Section wp.
Context {S : Type}.

Lemma wp_ret {A} (a : A) (Q : outcome A → S → Prop) s :
Q (Val a) s → wp (mret a) Q s.
Proof. done. Qed.

Lemma wp_bind {A B} (m : GoM S A) (k : A → GoM S B) Q s :
wp m (λ o s', match o with Val a => wp (k a) Q s' | Panic w => Q (Panic w) s' end) s →
wp (m ≫= k) Q s.
Proof. unfold wp, mbind, GoM_bind. destruct (m s) as [s' [a | w]]; done. Qed.

Lemma wp_gets {A} (f : S → A) Q s : Q (Val (f s)) s → wp (gets f) Q s.
Proof. done. Qed.

Lemma wp_modify (f : S → S) Q s : Q (Val tt) (f s) → wp (modify f) Q s.
Proof. done. Qed.

Lemma wp_panic {A} why (Q : outcome A → S → Prop) s :
Q (Panic why) s → wp (go_panic why) Q s.
Proof. done. Qed.

Lemma wp_mono {A} (m : GoM S A) (P Q : outcome A → S → Prop) s :
wp m P s → (∀ o s', P o s' → Q o s') → wp m Q s.
Proof. unfold wp. auto. Qed.

Lemma wp_and {A} (m : GoM S A) (P Q : outcome A → S → Prop) s :
wp m P s → wp m Q s → wp m (λ o s', P o s' ∧ Q o s') s.
Proof. by split. Qed.

Lemma wp_try {E} (m k : GoM S (option E)) Q s :
wp m (λ o s', match o with
              | Val None => wp k Q s'
              | Val (Some e) => Q (Val (Some e)) s'
              | Panic w => Q (Panic w) s'
              end) s →
wp (try_err m k) Q s.
Proof.
intros H. apply wp_bind. eapply wp_mono; [exact H |].
intros [[e |] | w] s'; simpl; auto.
Qed.

Lemma wp_zoom {T A} (get : S → T) put (m : GoM T A) Q s :
wp m (λ o t, Q o (put t s)) (get s) → wp (zoom get put m) Q s.
Proof. unfold wp, zoom. by destruct (m (get s)). Qed.

Lemma wp_run {A} (m : GoM S A) Q s : wp m Q s → ∀ s' o, m s = (s', o) → Q o s'.
Proof. unfold wp. intros H s' o E. by rewrite E in H. Qed.
End wp.

(** [keeps R m s]: from [s], [m] returns normally in a state related to [s] by
    the preorder [R]; it composes along the program. *)
Definition keeps {S A : Type} (R : S → S → Prop) (m : GoM S A) (s : S) : Prop :=
  wp m (λ o s', (∃ a, o = Val a) ∧ R s s') s.

Section keeps.
Context {S : Type} (R : S → S → Prop) `{!PreOrder R}.

Lemma keeps_bind {A B} (m : GoM S A) (k : A → GoM S B) s :
wp m (λ o s', ∃ a, o = Val a ∧ R s s' ∧ keeps R (k a) s') s → keeps R (m ≫= k) s.
Proof using Type*.
intros H. apply wp_bind. eapply wp_mono; [exact H |].
intros o s' (a & -> & Hr & Hk). unfold keeps in Hk. eapply wp_mono; [exact Hk |].
intros o' s'' [Ho Hr']. split; [done | by transitivity s'].
Qed.

Lemma keeps_seq {A B} (m : GoM S A) (k : A → GoM S B) s :
keeps R m s → (∀ a s', keeps R (k a) s') → keeps R (m ≫= k) s.
Proof using Type*.
intros Hm Hk. apply keeps_bind. unfold keeps in Hm. eapply wp_mono; [exact Hm |].
intros o s' [[a ->] Hr]. eauto.
Qed.

Lemma keeps_ret {A} (a : A) s : keeps R (mret a) s.
Proof using Type*. split; [by exists a | reflexivity]. Qed.

Lemma keeps_gets {A} (f : S → A) s : keeps R (gets f) s.
Proof using Type*. split; [by eexists | reflexivity]. Qed.

Lemma keeps_modify f s : R s (f s) → keeps R (modify f) s.
Proof using Type*. split; [by eexists | done]. Qed.
End keeps.

(** [always R m s]: from [s], however [m] ends, the state it reaches is related
    to [s] by the preorder [R]. *)
Definition always {S A : Type} (R : S → S → Prop) (m : GoM S A) (s : S) : Prop :=
  wp m (λ _ s', R s s') s.

Section always.
Context {S : Type} (R : S → S → Prop) `{!PreOrder R}.

Lemma always_bind {A B} (m : GoM S A) (k : A → GoM S B) s :
wp m (λ o s', R s s' ∧ match o with Val a => always R (k a) s' | Panic _ => True end) s →
always R (m ≫= k) s.
Proof using Type*.
intros H. apply wp_bind. eapply wp_mono; [exact H |]. intros [a | w] s' [Hr Hk]; [| done].
unfold always in Hk. eapply wp_mono; [exact Hk |]. intros o s'' Hr'. by transitivity s'.
Qed.

Lemma always_seq {A B} (m : GoM S A) (k : A → GoM S B) s :
always R m s → (∀ a s', always R (k a) s') → always R (m ≫= k) s.
Proof using Type*.
intros Hm Hk. apply always_bind. unfold always in Hm. eapply wp_mono; [exact Hm |].
intros [a | w] s' Hr; split; auto.
Qed.

Lemma always_try {E} (m k : GoM S (option E)) s :
always R m s → (∀ s', always R k s') → always R (try_err m k) s.
Proof using Type*.
intros Hm Hk. apply always_seq; [done |]. intros [e |] s'; [| auto].
unfold always. apply wp_ret. reflexivity.
Qed.

Lemma always_ret {A} (a : A) s : always R (mret a) s.
Proof using Type*. unfold always. apply wp_ret. reflexivity. Qed.

Lemma always_gets {A} (f : S → A) s : always R (gets f) s.
Proof using Type*. unfold always. apply wp_gets. reflexivity. Qed.

Lemma always_panic {A} why s : always R (go_panic (A := A) why) s.
Proof using Type*. unfold always. apply wp_panic. reflexivity. Qed.

Lemma always_modify f s : R s (f s) → always R (modify f) s.
Proof. intros H. unfold always. by apply wp_modify. Qed.
End always.

(** [wp_go] applies the structural rules as far as the program is concrete. *)
Ltac wp_step :=
  match goal with
  | |- wp (mbind _ _) _ _ => apply wp_bind
  | |- wp (try_err _ _) _ _ => apply wp_try
  | |- wp (mret _) _ _ => apply wp_ret
  | |- wp (gets _) _ _ => apply wp_gets
  | |- wp (modify _) _ _ => apply wp_modify
  | |- wp (go_panic _) _ _ => apply wp_panic
  | |- wp (if ?b then _ else _) _ _ => destruct b eqn:?
  | |- wp (match ?x with _ => _ end) _ _ => destruct x eqn:?
  end; simpl.
Ltac wp_go := repeat wp_step.

(** Boolean hypotheses to propositions. *)
Ltac bool_prop :=
  repeat match goal with
  | H : (_ && _) = true |- _ => apply andb_true_iff in H as [? ?]
  | H : (_ || _) = false |- _ => apply orb_false_iff in H as [? ?]
  | H : negb _ = true |- _ => apply negb_true_iff in H
  | H : negb _ = false |- _ => apply negb_false_iff in H
  | H : bool_decide _ = true |- _ => apply bool_decide_eq_true in H
  | H : bool_decide _ = false |- _ => apply bool_decide_eq_false in H
  | H : (_ =? _)%Z = true |- _ => apply Z.eqb_eq in H
  | H : (_ =? _)%Z = false |- _ => apply Z.eqb_neq in H
  | H : (_ <? _)%Z = true |- _ => apply Z.ltb_lt in H
  | H : (_ <? _)%Z = false |- _ => apply Z.ltb_ge in H
  | H : (_ <=? _)%Z = true |- _ => apply Z.leb_le in H
  | H : (_ <=? _)%Z = false |- _ => apply Z.leb_gt in H
  | H : (_ >? _)%Z = _ |- _ => rewrite Z.gtb_ltb in H
  | H : (_ >=? _)%Z = _ |- _ => rewrite Z.geb_leb in H
  end.

(** ** [sync.RWMutex], seen from one goroutine

    Go's locks are not reentrant: a goroutine that asks for a lock it already
    holds blocks for ever.  Where a component calls itself under its lock the
    lock is part of the state, and blocking for ever is the outcome
    [Panic deadlock], with the lock still held. *)

Inductive RWMutex : Type := Unlocked | RLocked (readers : nat) | WLocked.

Definition deadlock : string := "blocked for ever on a lock this goroutine holds".

Section locks.
Context {S : Type} (get : S → RWMutex) (put : RWMutex → S → S).

Definition mu_Lock : GoM S unit :=
s ← gets id;
match get s with
| Unlocked => modify (put WLocked)
| _ => go_panic deadlock
end.

Definition mu_RLock : GoM S unit :=
s ← gets id;
match get s with
| Unlocked => modify (put (RLocked 1))
| RLocked n => modify (put (RLocked (n + 1)))
| WLocked => go_panic deadlock
end.

Definition mu_Unlock : GoM S unit := modify (put Unlocked).

Definition mu_RUnlock : GoM S unit :=
modify (λ s, match get s with
             | RLocked (Datatypes.S (Datatypes.S n)) => put (RLocked (Datatypes.S n)) s
             | _ => put Unlocked s
             end).

(** [mu.Lock(); defer mu.Unlock(); m]: the deferred unlock runs when [m]
  returns or panics, but not when it blocks for ever. *)
Definition with_Lock {A} (m : GoM S A) : GoM S A :=
mu_Lock;;
(λ s, match m s with
      | (s', Val a) => (put Unlocked s', Val a)
      | (s', Panic why) =>
        if String.eqb why deadlock then (s', Panic why) else (put Unlocked s', Panic why)
      end) : GoM S A.
End locks.

(** ** Shared automation *)

Create HintDb indexer discriminated.
#[export] Hint Constants Opaque : indexer.

(** ** Generic lemmas on integers, lists and maps *)

Lemma seqZ_single (a : Z) : seqZ a 1 = [a].
Proof. by rewrite seqZ_cons by lia. Qed.

(** The consecutive integers from [a], [n] of them, extended at the end. *)
Lemma seqZ_snoc (a n : Z) : (0 ≤ n)%Z → seqZ a (n + 1) = seqZ a n ++ [(a + n)%Z].
Proof. intros H. rewrite seqZ_app by lia. by rewrite seqZ_single. Qed.

(** Sorted lists concatenate when a bound separates them. *)
Lemma StronglySorted_app_lt (l k : list Z) (e : Z) :
  StronglySorted Z.lt l → StronglySorted Z.lt k →
  Forall (λ x, x < e)%Z l → Forall (λ x, e ≤ x)%Z k → StronglySorted Z.lt (l ++ k).
Proof.
  intros Hl Hk Hle Hge. induction Hl as [| x l Hl IH Hx]; simpl; [done |].
  inversion Hle; subst. constructor; [by apply IH |].
  apply Forall_app. split; [done |]. eapply Forall_impl; [done |]. simpl. lia.
Qed.
