(* ===== verification/GoInt.v ===== *)
(** * Go's fixed-width integers and [internal/engine/utils.go]

    A Go [uint64], [int64], [int32] or [uint32] is a [Z] in the range of its
    width; arithmetic wraps around explicitly.  [big.Int] is [Z].  The file
    also holds the overflow-safe conversions of utils.go. *)

From S2P Require Import Prelude.
From stdpp Require Import base numbers.
From Stdlib Require Import ZArith Lia SpecFloat.
Open Scope Z_scope.

(** ** Widths and wrap-around *)

Definition max_u64 : Z := 2 ^ 64 - 1.
Definition max_i64 : Z := 2 ^ 63 - 1.
Definition min_i64 : Z := - 2 ^ 63.

Definition wrap_u (w z : Z) : Z := z mod 2 ^ w.
Definition wrap_s (w z : Z) : Z :=
  let m := z mod 2 ^ w in if m <? 2 ^ (w - 1) then m else m - 2 ^ w.

Definition u64 : Z → Z := wrap_u 64.
Definition u32 : Z → Z := wrap_u 32.
Definition i64 : Z → Z := wrap_s 64.
Definition i32 : Z → Z := wrap_s 32.

Definition is_u64 (z : Z) : Prop := 0 ≤ z ≤ max_u64.
Definition is_i64 (z : Z) : Prop := min_i64 ≤ z ≤ max_i64.

(** Go's [a - b] and [a + b] on [uint64]. *)
Definition sub_u64 (a b : Z) : Z := u64 (a - b).
Definition add_u64 (a b : Z) : Z := u64 (a + b).

(** [(x *big.Int).Uint64()] and [.Int64()]: the low 64 bits of the magnitude,
    the latter with the sign applied afterwards. *)
Definition big_Uint64 (x : Z) : Z := u64 (Z.abs x).
Definition big_Int64 (x : Z) : Z :=
  let v := i64 (Z.abs x) in if x <? 0 then i64 (- v) else v.
Definition big_IsInt64 (x : Z) : bool := (min_i64 <=? x) && (x <=? max_i64).

(** Go's [%] on signed integers truncates toward zero. *)
Definition go_rem (a b : Z) : Z := Z.rem a b.
(** Go's [/] on signed integers truncates toward zero. *)
Definition go_quot (a b : Z) : Z := Z.quot a b.

(** ** float64

    IEEE binary64 by the Standard Library's [SpecFloat]: executable and free
    of axioms.  Only the operations the engine uses. *)

Definition float64 : Type := spec_float.
Definition float_of_Z (z : Z) : float64 := binary_normalize 53 1024 z 0 false.
Definition float_div : float64 → float64 → float64 := SFdiv 53 1024.
Definition float_mul : float64 → float64 → float64 := SFmul 53 1024.
Definition float_gtb (a b : float64) : bool := SFltb b a.

(** ** utils.go *)

Definition SafeInt64Diff (a b : Z) : Z :=
  if b <=? a then
    let diff := sub_u64 a b in
    if 9223372036854775807 <? diff then 9223372036854775807 else i64 diff
  else
    let diff := sub_u64 b a in
    if 9223372036854775808 <? diff then -9223372036854775808 else i64 (- i64 diff).

Definition SafeUint64ToInt64 (v : Z) : Z :=
  if 9223372036854775807 <? v then 9223372036854775807 else i64 v.

(** Masking off the sign bit, [v & uint64(math.MaxInt64)]. *)
Definition mask_i63 (v : Z) : Z := Z.land v max_i64.

(** ** Lemmas *)

(** [lia] after exposing the 64-bit constants. *)
Ltac lia64 :=
  unfold is_u64, is_i64, max_u64, max_i64, min_i64, u64, u32, i64, i32, wrap_u, wrap_s,
    sub_u64, add_u64 in *;
  change (2 ^ 64) with 18446744073709551616 in *;
  change (2 ^ 32) with 4294967296 in *;
  change (64 - 1) with 63 in *; change (32 - 1) with 31 in *;
  change (2 ^ 63) with 9223372036854775808 in *;
  change (2 ^ 31) with 2147483648 in *;
  lia.

Lemma u64_id z : is_u64 z → u64 z = z.
Proof. intros H. apply Z.mod_small. lia64. Qed.

Lemma u64_range z : is_u64 (u64 z).
Proof. unfold u64, wrap_u. pose proof (Z.mod_pos_bound z (2 ^ 64) eq_refl). lia64. Qed.

Lemma i64_id z : is_i64 z → i64 z = z.
Proof.
  intros H. unfold i64, wrap_s. change (64 - 1) with 63.
  destruct (decide (0 ≤ z)) as [Hz | Hz].
  - rewrite Z.mod_small by lia64. destruct (Z.ltb_spec z (2 ^ 63)); lia64.
  - rewrite <- (Z.mod_add z 1 (2 ^ 64)) by done. rewrite Z.mod_small by lia64.
    destruct (Z.ltb_spec (z + 1 * 2 ^ 64) (2 ^ 63)); lia64.
Qed.

Lemma i64_range z : is_i64 (i64 z).
Proof.
  unfold i64, wrap_s. change (64 - 1) with 63.
  pose proof (Z.mod_pos_bound z (2 ^ 64) eq_refl).
  destruct (Z.ltb_spec (z mod 2 ^ 64) (2 ^ 63)); lia64.
Qed.

Lemma i32_small z : 0 ≤ z < 2 ^ 31 → i32 z = z.
Proof.
  intros Hz. unfold i32, wrap_s. rewrite Z.mod_small by lia64.
  destruct (Z.ltb_spec z (2 ^ (32 - 1))); lia64.
Qed.

Lemma sub_u64_ge a b : is_u64 a → is_u64 b → b ≤ a → sub_u64 a b = a - b.
Proof. intros. apply u64_id. lia64. Qed.

Lemma sub_u64_lt a b : is_u64 a → is_u64 b → a < b → sub_u64 a b = a - b + 2 ^ 64.
Proof.
  intros. unfold sub_u64, u64, wrap_u. rewrite <- (Z.mod_add _ 1) by done.
  apply Z.mod_small. lia64.
Qed.

Lemma add_u64_id a b : 0 ≤ a → 0 ≤ b → a + b ≤ max_u64 → add_u64 a b = a + b.
Proof. intros. apply u64_id. lia64. Qed.

Lemma big_Uint64_id x : is_u64 x → big_Uint64 x = x.
Proof. intros H. unfold big_Uint64. rewrite Z.abs_eq by lia64. by apply u64_id. Qed.

Lemma big_Int64_id x : is_i64 x → big_Int64 x = x.
Proof.
  intros H. unfold big_Int64. destruct (Z.ltb_spec x 0).
  - destruct (decide (x = min_i64)) as [-> | Hne]; [done |].
    rewrite (i64_id (Z.abs x)) by lia64. rewrite i64_id by lia64. lia.
  - rewrite i64_id by lia64. lia.
Qed.

Lemma SafeInt64Diff_spec a b :
  is_u64 a → is_u64 b →
  SafeInt64Diff a b = Z.max min_i64 (Z.min max_i64 (a - b)).
Proof.
  intros Ha Hb. unfold SafeInt64Diff. destruct (Z.leb_spec b a).
  - rewrite sub_u64_ge by done. destruct (Z.ltb_spec 9223372036854775807 (a - b)); [lia64 |].
    rewrite i64_id by lia64. lia64.
  - rewrite sub_u64_ge by (done || lia).
    destruct (Z.ltb_spec 9223372036854775808 (b - a)); [lia64 |].
    destruct (decide (b - a = 9223372036854775808)) as [He | Hne].
    + rewrite He. change (i64 (- i64 9223372036854775808)) with min_i64. lia64.
    + rewrite (i64_id (b - a)) by lia64. rewrite i64_id by lia64. lia64.
Qed.

Lemma SafeUint64ToInt64_spec v : is_u64 v → SafeUint64ToInt64 v = Z.min max_i64 v.
Proof.
  intros H. unfold SafeUint64ToInt64. destruct (Z.ltb_spec 9223372036854775807 v); [lia64 |].
  rewrite i64_id by lia64. lia64.
Qed.

Lemma mask_i63_spec v : 0 ≤ v → mask_i63 v = v mod 2 ^ 63.
Proof. intros. unfold mask_i63, max_i64. by rewrite <- (Z.land_ones v 63) by lia. Qed.

(** ** Integers below 2^53 are their own [float64] *)

Lemma digits2_pos_spec p : 2 ^ (Zpos (digits2_pos p) - 1) ≤ Zpos p < 2 ^ Zpos (digits2_pos p).
Proof.
induction p as [p IH | p IH |]; simpl digits2_pos; [.. | by split].
all: rewrite Pos2Z.inj_succ, Z.sub_1_r, Z.pred_succ, Z.pow_succ_r by lia.
all: assert (Hd : 2 ^ Zpos (digits2_pos p) = 2 * 2 ^ (Zpos (digits2_pos p) - 1)) by
  (rewrite <- Z.pow_succ_r by lia; f_equal; lia).
- rewrite (Pos2Z.inj_xI p). lia.
- rewrite (Pos2Z.inj_xO p). lia.
Qed.
Lemma digits2_pos_unique p d : 2 ^ (d - 1) ≤ Zpos p < 2 ^ d → Zpos (digits2_pos p) = d.
Proof.
intros [H1 H2]. destruct (digits2_pos_spec p) as [H3 H4].
pose proof (Z.le_lt_trans _ _ _ H1 H4) as A%Z.pow_lt_mono_r_iff; [| lia..].
pose proof (Z.le_lt_trans _ _ _ H3 H2) as B%Z.pow_lt_mono_r_iff; [lia | lia |].
destruct (Z.lt_ge_cases d 0); [| lia]. rewrite Z.pow_neg_r in H2; lia.
Qed.
Lemma iter_xO k p : Zpos (Pos.iter xO p k) = Zpos p * 2 ^ Zpos k.
Proof.
induction k as [| k IH] using Pos.peano_ind; [simpl; lia |].
rewrite Pos.iter_succ, Pos2Z.inj_xO, IH, Pos2Z.inj_succ, Z.pow_succ_r by lia. lia.
Qed.

Lemma binary_normalize_exact s p : Zpos p < 2 ^ 53 → ∃ m e,
binary_round 53 1024 s p 0 = S754_finite s m e ∧ -52 ≤ e ≤ 0 ∧ Zpos m = Zpos p * 2 ^ (- e) ∧ 2 ^ 52 ≤ Zpos m < 2 ^ 53.
Proof.
intros Hp. destruct (digits2_pos_spec p) as [H1 H2]. set (d := Zpos (digits2_pos p)) in *.
assert (Hd : 0 < d ≤ 53).
{ split; [lia |]. pose proof (Z.le_lt_trans _ _ _ H1 Hp) as A%Z.pow_lt_mono_r_iff; lia. }
assert (Hal : ∃ m, shl_align p 0 (fexp 53 1024 (d + 0)) = (m, d - 53) ∧ Zpos m = Zpos p * 2 ^ (53 - d)).
{ replace (fexp 53 1024 (d + 0)) with (d - 53) by (unfold fexp, emin; lia). unfold shl_align. rewrite Z.sub_0_r.
  destruct (d - 53) as [| q | q] eqn:Eq; [| lia |].
  - exists p. split; [done |]. replace (53 - d) with 0 by lia. lia.
  - exists (Pos.iter xO p q). split; [done |]. rewrite iter_xO. by replace (53 - d) with (Zpos q) by lia. }
destruct Hal as (m & Em & Hm). exists m, (d - 53).
assert (Hb : 2 ^ 52 ≤ Zpos m < 2 ^ 53).
{ rewrite Hm. split.
  - replace (2 ^ 52) with (2 ^ (d - 1) * 2 ^ (53 - d)) by (rewrite <- Z.pow_add_r by lia; f_equal; lia).
    apply Z.mul_le_mono_nonneg_r; [apply Z.pow_nonneg; lia | done].
  - replace (2 ^ 53) with (2 ^ d * 2 ^ (53 - d)) by (rewrite <- Z.pow_add_r by lia; f_equal; lia).
    apply Z.mul_lt_mono_pos_r; [apply Z.pow_pos_nonneg; lia | done]. }
assert (Hdm : Zpos (digits2_pos m) = 53) by (by apply digits2_pos_unique).
assert (Hsh : shr_fexp 53 1024 (Zpos m) (d - 53) loc_Exact = (Build_shr_record (Zpos m) false false, d - 53)).
{ unfold shr_fexp. simpl Zdigits2. rewrite Hdm. replace (fexp 53 1024 _ - _) with 0 by (unfold fexp, emin; lia). done. }
split_and!; [| lia | lia | rewrite Hm; f_equal; f_equal; lia | apply Hb | apply Hb].
unfold binary_round. fold d. rewrite Em. unfold binary_round_aux. rewrite Hsh. simpl. rewrite Hsh. simpl.
replace (d - 53 <=? 1024 - 53) with true by (symmetry; apply Z.leb_le; lia). done.
Qed.

Create Rewrite HintDb goint.
#[export] Hint Rewrite u64_id i64_id big_Uint64_id big_Int64_id using lia64 : goint.
#[export] Hint Resolve u64_range i64_range : indexer.
