(* ===== verification/Floats.v ===== *)
(** * Division of integers in float64

    The quotient of two positive integers below 2^53 is a normalised float64
    that is off by at most half a unit in the last place.  Comparisons of such
    quotients with a constant, which the code uses as thresholds, follow. *)

From S2P Require Import Prelude GoInt.
From Stdlib Require Import ZArith Lia SpecFloat.
From stdpp Require Import base numbers.
Open Scope Z_scope.

(** ** Rounding *)

(** What a [location] says of the remainder [r] of a division by [D]. *)
Definition loc_ok (l : location) (r D : Z) : Prop :=
  0 ≤ r < D ∧
  match l with
  | loc_Exact => r = 0
  | loc_Inexact Lt => 0 < 2 * r < D
  | loc_Inexact Eq => 2 * r = D
  | loc_Inexact Gt => D < 2 * r
  end.

Lemma new_location_ok D r : 0 ≤ r < D → loc_ok (new_location D r) r D.
Proof.
  intros Hr. unfold new_location, new_location_even, new_location_odd.
  pose proof (Zmod_even D) as Hev.
  destruct (Z.even D) eqn:He; (destruct (Z.eqb_spec r 0); [done |]); (split; [lia |]).
  - destruct (Z.compare_spec (2 * r) D); lia.
  - pose proof (Z.div_mod D 2). destruct (Z.compare_spec (2 * r + 1) D); lia.
Qed.

Lemma digits53 q : 2 ^ 52 ≤ q < 2 ^ 53 → Zdigits2 q = 53.
Proof. intros H. destruct q as [| p | p]; try lia. simpl. by apply digits2_pos_unique. Qed.

Lemma digits54 q : 2 ^ 53 ≤ q < 2 ^ 54 → Zdigits2 q = 54.
Proof. intros H. destruct q as [| p | p]; try lia. simpl. by apply digits2_pos_unique. Qed.

(** A mantissa that fits is left alone; one with a bit more loses it. *)
Lemma shr_fexp_53 q e l : 2 ^ 52 ≤ q < 2 ^ 53 → -1000 ≤ e → shr_fexp 53 1024 q e l = (shr_record_of_loc q l, e).
Proof.
  intros Hq He. unfold shr_fexp. rewrite digits53 by done.
  replace (fexp 53 1024 (53 + e) - e) with 0 by (unfold fexp, emin; lia). done.
Qed.
Lemma shr_fexp_54 q e l : 2 ^ 53 ≤ q < 2 ^ 54 → -1000 ≤ e →
  shr_fexp 53 1024 q e l = (shr_1 (shr_record_of_loc q l), e + 1).
Proof.
  intros Hq He. unfold shr_fexp. rewrite digits54 by done.
  replace (fexp 53 1024 (54 + e) - e) with 1 by (unfold fexp, emin; lia). done.
Qed.

(** The last step of [binary_round_aux], for a mantissa rounded up to [2 ^ 53] at most. *)
Lemma finish_round M e : 2 ^ 52 ≤ M ≤ 2 ^ 53 → -1000 ≤ e ≤ 900 → ∃ m k,
  (let '(mrs, e'') := shr_fexp 53 1024 M e loc_Exact in
   match shr_m mrs with
   | Z0 => S754_zero false
   | Zpos m => if Z.leb e'' (1024 - 53) then S754_finite false m e'' else S754_infinity false
   | _ => S754_nan
   end) = S754_finite false m (e + k) ∧ 0 ≤ k ≤ 1 ∧ 2 ^ 52 ≤ Zpos m < 2 ^ 53 ∧ M = Zpos m * 2 ^ k.
Proof.
  intros HM He. destruct (decide (M = 2 ^ 53)) as [-> | Hne].
  - exists 4503599627370496%positive, 1. rewrite shr_fexp_54 by lia.
    change (shr_m _) with 4503599627370496. cbn match. replace (e + 1 <=? 1024 - 53) with true by lia.
    split_and!; first [done | lia].
  - rewrite shr_fexp_53 by lia. destruct M as [| m | m]; try lia. cbn [shr_record_of_loc shr_m]. exists m, 0.
    replace (e <=? 1024 - 53) with true by lia. rewrite Z.add_0_r. split_and!; first [done | lia].
Qed.

Lemma round_nearest_bound q l r D : loc_ok l r D →
  q ≤ round_nearest_even q l ≤ q + 1 ∧ 2 * Z.abs (q * D + r - round_nearest_even q l * D) ≤ D.
Proof.
  intros [Hr Hl]. destruct l as [| []]; simpl; try (destruct (Z.even q)); simplify_eq; lia.
Qed.

(** The bit that [shr_1] drops joins the remainder. *)
Lemma shr_1_ok q l r D : 2 ^ 53 ≤ q → loc_ok l r D →
  shr_m (shr_1 (shr_record_of_loc q l)) = q / 2 ∧
  loc_ok (loc_of_shr_record (shr_1 (shr_record_of_loc q l))) (q mod 2 * D + r) (2 * D).
Proof.
  intros Hq [Hr Hl]. destruct q as [| p | p]; [lia | | lia]. destruct p as [p | p |]; [.. | lia].
  - assert (Hd : Zpos p~1 / 2 = Zpos p) by (symmetry; apply (Z.div_unique _ _ _ 1); lia).
    assert (Hm : Zpos p~1 mod 2 = 1) by (symmetry; apply (Z.mod_unique _ _ (Zpos p)); lia). rewrite Hd, Hm.
    destruct l as [| []]; simpl; (split; [done | split; lia]).
  - assert (Hd : Zpos p~0 / 2 = Zpos p) by (symmetry; apply (Z.div_unique _ _ _ 0); lia).
    assert (Hm : Zpos p~0 mod 2 = 0) by (symmetry; apply (Z.mod_unique _ _ (Zpos p)); lia). rewrite Hd, Hm.
    destruct l as [| []]; simpl; (split; [done | split; lia]).
Qed.

(** Rounding [(q * D + r) / D] with 53 or 54 bits in [q]: within half a unit. *)
Lemma binary_round_aux_bound q e l r D : 2 ^ 52 ≤ q < 2 ^ 54 → -1000 ≤ e ≤ 800 → loc_ok l r D → ∃ m k,
  binary_round_aux 53 1024 false q e l = S754_finite false m (e + k) ∧ 0 ≤ k ≤ 2 ∧ 2 ^ 52 ≤ Zpos m < 2 ^ 53 ∧
  2 * Z.abs (q * D + r - Zpos m * 2 ^ k * D) ≤ 2 ^ k * D.
Proof.
  intros Hq He Hl. unfold binary_round_aux. destruct (decide (q < 2 ^ 53)) as [Hlt | Hge].
  - rewrite shr_fexp_53 by lia.
    destruct (round_nearest_bound q l r D Hl) as [HM Herr].
    assert (E : round_nearest_even (shr_m (shr_record_of_loc q l)) (loc_of_shr_record (shr_record_of_loc q l)) = round_nearest_even q l)
      by (by destruct l as [| []]).
    rewrite E. destruct (finish_round (round_nearest_even q l) e) as (m & k & -> & Hk & Hm & HMk); [lia | lia |].
    exists m, k. split_and!; [done | lia | lia | lia | lia |]. rewrite <- HMk.
    destruct Hl as [Hr _]. assert (k = 0 ∨ k = 1) as [-> | ->] by lia; lia.
  - rewrite shr_fexp_54 by lia. destruct (shr_1_ok q l r D) as [Em Hl2]; [lia | done |]. rewrite Em.
    destruct (round_nearest_bound (q / 2) _ _ _ Hl2) as [HM Herr].
    set (l2 := loc_of_shr_record _) in *.
    pose proof (Z.div_mod q 2 ltac:(lia)) as Hdm. pose proof (Z.mod_pos_bound q 2 ltac:(lia)) as Hmb.
    destruct (finish_round (round_nearest_even (q / 2) l2) (e + 1)) as (m & k & -> & Hk & Hm & HMk); [lia | lia |].
    exists m, (k + 1). rewrite Z.pow_add_r, Z.pow_1_r by lia.
    split_and!; [f_equal; lia | lia | lia | lia | lia |].
    replace (q * D + r - Zpos m * (2 ^ k * 2) * D)
      with (q / 2 * (2 * D) + (q mod 2 * D + r) - round_nearest_even (q / 2) l2 * (2 * D)).
    2: { rewrite HMk. rewrite Hdm at 3. ring. }
    destruct Hl as [Hr _]. assert (k = 0 ∨ k = 1) as [-> | ->] by lia; lia.
Qed.

(** ** Quotients *)

Lemma float_of_pos p : Zpos p < 2 ^ 53 → ∃ m e,
  float_of_Z (Zpos p) = S754_finite false m e ∧ -52 ≤ e ≤ 0 ∧ Zpos m = Zpos p * 2 ^ (- e) ∧ 2 ^ 52 ≤ Zpos m < 2 ^ 53.
Proof. apply binary_normalize_exact. Qed.

(** The quotient [a / b] as [m * 2 ^ (- E)], within half of [2 ^ (- E)]. *)
Lemma float_div_bound a b : 0 < a < 2 ^ 53 → 0 < b < 2 ^ 53 → ∃ m E,
  float_div (float_of_Z a) (float_of_Z b) = S754_finite false m (- E) ∧ -1 ≤ E ≤ 110 ∧ 2 ^ 52 ≤ Zpos m < 2 ^ 53 ∧
  2 * Z.abs (a * 2 ^ (E + 1) - Zpos m * (2 * b)) ≤ 2 * b.
Proof.
  intros Ha Hb. destruct a as [| a | a]; [lia | | lia]. destruct b as [| b | b]; [lia | | lia].
  destruct (float_of_pos a) as (m1 & e1 & -> & He1 & Hm1 & Hb1); [lia |].
  destruct (float_of_pos b) as (m2 & e2 & -> & He2 & Hm2 & Hb2); [lia |].
  unfold float_div, SFdiv, SFdiv_core_binary. rewrite !digits53 by done.
  replace (Z.min (fexp 53 1024 (53 + e1 - (53 + e2))) (e1 - e2)) with (e1 - e2 - 53) by (unfold fexp, emin; lia).
  replace (e1 - e2 - (e1 - e2 - 53)) with 53 by lia. cbn match. rewrite Z.shiftl_mul_pow2 by lia.
  pose proof (Z_div_mod (Zpos m1 * 2 ^ 53) (Zpos m2) ltac:(lia)) as Hdiv.
  destruct (Z.div_eucl (Zpos m1 * 2 ^ 53) (Zpos m2)) as [q r]. destruct Hdiv as [Hq Hr].
  assert (Hqb : 2 ^ 52 ≤ q < 2 ^ 54) by nia.
  destruct (binary_round_aux_bound q (e1 - e2 - 53) _ r (Zpos m2) Hqb ltac:(lia) (new_location_ok _ _ Hr))
    as (m & k & E & Hk & Hm & Herr).
  exists m, (53 + e2 - e1 - k). split_and!; [| lia | lia | lia | lia |].
  - cbn [xorb]. rewrite E. f_equal. lia.
  - assert (Hpk : 2 ^ (k - e2) = 2 ^ k * 2 ^ (- e2)) by (rewrite <- Z.pow_add_r by lia; f_equal; lia).
    assert (Hpe : 2 ^ (53 + e2 - e1 - k + 1) * 2 ^ (k - e2) = 2 * (2 ^ (- e1) * 2 ^ 53)).
    { rewrite <- !Z.pow_add_r by lia. rewrite <- (Z.pow_succ_r 2) by lia. f_equal. lia. }
    assert (HX : 0 < 2 ^ (k - e2)) by (apply Z.pow_pos_nonneg; lia).
    apply (Z.mul_le_mono_pos_r _ _ _ HX).
    rewrite <- Z.mul_assoc, <- (Z.abs_eq (2 ^ (k - e2))) at 1 by lia. rewrite <- Z.abs_mul.
    replace ((Zpos a * 2 ^ (53 + e2 - e1 - k + 1) - Zpos m * (2 * Zpos b)) * 2 ^ (k - e2))
      with (2 * (q * Zpos m2 + r - Zpos m * 2 ^ k * Zpos m2)).
    { replace (2 * Zpos b * 2 ^ (k - e2)) with (2 * (2 ^ k * Zpos m2)) by (rewrite Hm2, Hpk; ring). lia. }
    rewrite Z.mul_sub_distr_r, <- (Z.mul_assoc (Zpos a)), Hpe, Hpk. replace (q * Zpos m2 + r) with (Zpos m1 * 2 ^ 53) by lia.
    rewrite Hm1, Hm2. ring.
Qed.

(** A constant [0.9] and a quotient of small integers compare as the exact
    numbers do. *)
Lemma above_nine_tenths c T : 0 ≤ c → 0 < T < 2 ^ 40 → c < 2 ^ 40 →
  float_gtb (float_div (float_of_Z c) (float_of_Z T)) (float_div (float_of_Z 9) (float_of_Z 10)) = (9 * T <? 10 * c).
Proof.
  intros Hc HT Hc2. unfold float_gtb.
  replace (float_div (float_of_Z 9) (float_of_Z 10)) with (S754_finite false 8106479329266893 (- 53)) by (by vm_compute).
  destruct (decide (c = 0)) as [-> | Hc0].
  { destruct T as [| T | T]; [lia | | lia]. destruct (float_of_pos T) as (m & e & -> & _); [lia |].
    symmetry. apply Z.ltb_ge. lia. }
  destruct (float_div_bound c T) as (m & E & -> & HE & Hm & Herr); [lia | lia |].
  assert (H2 : E ≤ 52 → 2 ^ (E + 1) ≤ 2 ^ 53) by (intros; apply Z.pow_le_mono_r; lia).
  assert (H3 : 54 ≤ E → 2 ^ 55 ≤ 2 ^ (E + 1)) by (intros; apply Z.pow_le_mono_r; lia).
  unfold SFltb, SFcompare. destruct (Z.compare_spec (- 53) (- E)) as [He | He | He].
  - assert (E = 53) as -> by lia. change (2 ^ (53 + 1)) with 18014398509481984 in Herr.
    change (Pos.compare_cont Eq 8106479329266893 m) with (Pos.compare 8106479329266893 m).
    destruct (Pos.compare_spec 8106479329266893 m) as [Hmm | Hmm | Hmm]; symmetry;
      [apply Z.ltb_ge | apply Z.ltb_lt | apply Z.ltb_ge].
    + subst m. lia.
    + assert (8106479329266894 * T ≤ Zpos m * T) by (apply Z.mul_le_mono_nonneg_r; lia). lia.
    + apply Pos2Z.pos_lt_pos in Hmm. assert (Hmz : Zpos m ≤ 8106479329266892) by (clear -Hmm; lia). clear Hmm Hm H2 H3 HE.
      assert (Zpos m * T ≤ 8106479329266892 * T) by (apply Z.mul_le_mono_nonneg_r; lia). clear Hmz. lia.
  - symmetry. apply Z.ltb_lt. assert (2 ^ 52 * T ≤ Zpos m * T) by (apply Z.mul_le_mono_nonneg_r; lia).
    assert (c * 2 ^ (E + 1) ≤ c * 2 ^ 53) by (apply Z.mul_le_mono_nonneg_l; lia). lia.
  - symmetry. apply Z.ltb_ge. assert (Zpos m * T ≤ (2 ^ 53 - 1) * T) by (apply Z.mul_le_mono_nonneg_r; lia).
    assert (c * 2 ^ 55 ≤ c * 2 ^ (E + 1)) by (apply Z.mul_le_mono_nonneg_l; lia). lia.
Qed.
