(* ===== verification/Types.v ===== *)
(** * Data shared by the engine's components

    Blocks, logs and transactions as the engine reads them from go-ethereum,
    the engine's own [BlockData], [FetchJob], [models.Transfer], [models.Block]
    and [PersistTask], Go errors, and the [RPCClient] interface
    (internal/engine/rpc_interface.go) as a record of operations over an
    arbitrary world [W]. *)

From S2P Require Import Prelude GoInt.
From stdpp Require Import base gmap strings pretty list.
From Stdlib Require Import ZArith Ascii String.
Open Scope Z_scope.

(** ** Strings of the standard library *)

Definition ascii_lower (c : ascii) : ascii :=
  let n := nat_of_ascii c in
  if ((65 <=? n) && (n <=? 90))%nat then ascii_of_nat (n + 32) else c.

(** [strings.ToLower] on ASCII text (hex addresses, error messages, URLs). *)
Fixpoint ToLower (s : string) : string :=
  match s with
  | EmptyString => EmptyString
  | String c s' => String (ascii_lower c) (ToLower s')
  end.

(** [strings.Contains(s, sub)]. *)
Fixpoint Contains (s sub : string) : bool :=
  String.prefix sub s ||
  match s with EmptyString => false | String _ s' => Contains s' sub end.

(** [strings.EqualFold] on ASCII text. *)
Definition EqualFold (s t : string) : bool := String.eqb (ToLower s) (ToLower t).

(** [new(big.Int).SetString(s, 10)]: an optional sign and at least one digit. *)
Definition digit_val (c : ascii) : option Z :=
  let n := nat_of_ascii c in
  if ((48 <=? n) && (n <=? 57))%nat then Some (Z.of_nat n - 48) else None.
Fixpoint digits_val (acc : Z) (s : string) : option Z :=
  match s with
  | EmptyString => Some acc
  | String c s' => match digit_val c with Some d => digits_val (10 * acc + d) s' | None => None end
  end.
Definition SetString10 (s : string) : option Z :=
  match s with
  | EmptyString => None
  | String "-" (String _ _ as s') => Z.opp <$> digits_val 0 s'
  | String "+" (String _ _ as s') => digits_val 0 s'
  | String _ _ => digits_val 0 s
  end.

(** ** Errors *)

(** The error values the engine compares against, other [fmt.Errorf] values,
    and the ones that wrap an error with [%w]. *)
Inductive GoErr : Type :=
| ReorgError (At : Z)
| ErrReorgDetected
| ErrReorgNeedRefetch
| ErrBlockNotYetAvailable
| Canceled
| DeadlineExceeded
| Errorf (msg : string)
| WrapErr (msg : string) (wrapped : GoErr).

(** [err.Error()]. *)
Fixpoint Error (e : GoErr) : string :=
  match e with
  | ReorgError n => ("reorg detected at block " ++ pretty n)%string
  | ErrReorgDetected => "reorg detected: parent hash mismatch"
  | ErrReorgNeedRefetch => "reorg detected: need to refetch from common ancestor"
  | ErrBlockNotYetAvailable => "block not yet available"
  | Canceled => "context canceled"
  | DeadlineExceeded => "context deadline exceeded"
  | Errorf msg => msg
  | WrapErr msg e' => (msg ++ Error e')%string
  end.

(** A type assertion [err.(ReorgError)] looks at the error itself, not at
    what it wraps. *)
Definition is_ReorgError (e : GoErr) : bool :=
  match e with ReorgError _ => true | _ => false end.

(** ** go-ethereum values, as far as the engine reads them *)

(** What the engine reads of a [*types.Transaction]: [Hash().Hex()],
    [To()] (as [Hex()]), [Value()], [Gas()] and [GasPrice()]. *)
Record Tx := mkTx {
  tx_Hash : string;
  tx_To : option string;
  tx_Value : Z;
  tx_Gas : Z;
  tx_GasPrice : Z
}.

(** What the engine reads of a [*types.Block]. *)
Record EthBlock := mkEthBlock {
  blk_Number : Z;
  blk_Hash : string;
  blk_ParentHash : string;
  blk_Time : Z;
  blk_GasLimit : Z;
  blk_GasUsed : Z;
  blk_BaseFee : option Z;
  blk_Transactions : list Tx
}.

(** A [types.Log]: the 20-byte address and the 32-byte topics as integers,
    the data as bytes. *)
Record Log := mkLog {
  log_Address : Z;
  log_Topics : list Z;
  log_Data : list Z;
  log_BlockNumber : Z;
  log_TxHash : string;
  log_Index : Z
}.

(** ** Engine data *)

(** fetcher_core.go, [BlockData]; a [nil] pointer is [None]. *)
Record BlockData := mkBlockData {
  bd_Number : option Z;
  bd_RangeEnd : option Z;
  bd_Block : option EthBlock;
  bd_Err : option GoErr;
  bd_Logs : list Log
}.

(** fetcher_core.go, [FetchJob]. *)
Record FetchJob := mkFetchJob { job_Start : Z; job_End : Z }.

(** models/types.go, [Transfer] ([Amount] is the [uint256.Int] it wraps). *)
Record Transfer := mkTransfer {
  tr_BlockNumber : Z;
  tr_TxHash : string;
  tr_LogIndex : Z;
  tr_From : string;
  tr_To : string;
  tr_Amount : Z;
  tr_TokenAddress : string;
  tr_Symbol : string;
  tr_Type : string
}.

(** models/types.go, [Block] (the columns the processor fills). *)
Record ModelBlock := mkModelBlock {
  mb_Number : Z;
  mb_Hash : string;
  mb_ParentHash : string;
  mb_Timestamp : Z;
  mb_GasLimit : Z;
  mb_GasUsed : Z;
  mb_BaseFeePerGas : option Z;
  mb_TransactionCount : Z
}.

(** async_writer_types.go, [PersistTask]. *)
Record PersistTask := mkPersistTask {
  pt_Height : Z;
  pt_Block : ModelBlock;
  pt_Transfers : list Transfer;
  pt_Sequence : Z
}.

(** ** The [RPCClient] interface *)

Record FilterQuery := mkFilterQuery {
  q_FromBlock : Z;
  q_ToBlock : Z;
  q_Addresses : list Z;
  q_Topics : list (list Z)
}.

Record RPCClient (W : Type) := mkRPCClient {
  rpc_BlockByNumber : Z → GoM W (result GoErr EthBlock);
  rpc_FilterLogs : FilterQuery → GoM W (result GoErr (list Log));
  rpc_GetLatestBlockNumber : GoM W (result GoErr Z)
}.
Arguments rpc_BlockByNumber {W}.
Arguments rpc_FilterLogs {W}.
Arguments rpc_GetLatestBlockNumber {W}.

(** ** signatures.go *)

Definition TransferEventHash : Z := 0xddf252ad1be2c89b69c2b068fc378daa952ba7f163c4a11628f5514cfc0afda6.
Definition ApprovalEventHash : Z := 0x8c5be1e5ebec7d5bd14f71427d1e84f3dd0314c0f7b2291e5b200ac8c7c3b925.
Definition SwapEventHash : Z := 0xc42079f94a6350d7e5735f2a1538197108a858e5111b9ad0a72f5db98e4c0388.
Definition MintEventHash : Z := 0x0f6711612c5b94d76f9d34343434343434343434343434343434343434343434.

(** ** Decidable equality *)

#[export] Instance Tx_eq_dec : EqDecision Tx.
Proof. solve_decision. Defined.
#[export] Instance EthBlock_eq_dec : EqDecision EthBlock.
Proof. solve_decision. Defined.
#[export] Instance Log_eq_dec : EqDecision Log.
Proof. solve_decision. Defined.
#[export] Instance GoErr_eq_dec : EqDecision GoErr.
Proof. solve_decision. Defined.
#[export] Instance BlockData_eq_dec : EqDecision BlockData.
Proof. solve_decision. Defined.
#[export] Instance FetchJob_eq_dec : EqDecision FetchJob.
Proof. solve_decision. Defined.
#[export] Instance Transfer_eq_dec : EqDecision Transfer.
Proof. solve_decision. Defined.
#[export] Instance ModelBlock_eq_dec : EqDecision ModelBlock.
Proof. solve_decision. Defined.
#[export] Instance PersistTask_eq_dec : EqDecision PersistTask.
Proof. solve_decision. Defined.

(** ** Block numbers of a [BlockData] *)

(** sequencer_core.go, [getBlockNum]: the explicit number first. *)
Definition getBlockNum (d : BlockData) : option Z :=
  match bd_Number d with
  | Some n => Some n
  | None => blk_Number <$> bd_Block d
  end.

(** The number [handleBlockLocked] orders by: the block's own number first. *)
Definition effectiveNum (d : BlockData) : option Z :=
  match bd_Block d with
  | Some b => Some (blk_Number b)
  | None => bd_Number d
  end.

(** ** Decimal numbers round trip *)

Lemma digit_val_char (x : N) : (x < 10)%N → digit_val (pretty_N_char x) = Some (Z.of_N x).
Proof.
  intros H.
  assert (H0 : (x = 0 ∨ x = 1 ∨ x = 2 ∨ x = 3 ∨ x = 4 ∨ x = 5 ∨ x = 6 ∨ x = 7 ∨ x = 8 ∨ x = 9)%N) by lia.
  destruct_or! H0; by subst.
Qed.

Lemma digits_val_pretty_go (x : N) (s : string) :
  digits_val 0 (pretty_N_go x s) = digits_val (Z.of_N x) s.
Proof.
  revert s. induction (N.lt_wf_0 x) as [x _ IH]; intros s.
  destruct (decide (x = 0)%N) as [-> | Hx]; [done |].
  rewrite pretty_N_go_step by lia. rewrite IH by (apply N.div_lt; lia).
  simpl. rewrite digit_val_char by (apply N.mod_lt; lia).
  f_equal. rewrite (N.div_mod x 10) at 3 by done. lia.
Qed.

Lemma SetString10_digits (s : string) (v : Z) :
  s ≠ EmptyString → digits_val 0 s = Some v → SetString10 s = Some v.
Proof.
  intros Hs Hv. destruct s as [| c s]; [done |]. simpl in *.
  destruct (digit_val c) as [d |] eqn:Hc; [| done].
  destruct (decide (c = "-"%char)) as [-> | Hm]; [done |].
  destruct (decide (c = "+"%char)) as [-> | Hp]; [done |].
  destruct c as [[] [] [] [] [] [] [] []]; done || congruence.
Qed.

Lemma pretty_N_digits (x : N) : pretty x ≠ EmptyString ∧ digits_val 0 (pretty x) = Some (Z.of_N x).
Proof.
  unfold pretty, pretty_N. case_decide as Hx; [by subst |]. split.
  - intros He. pose proof (digits_val_pretty_go x EmptyString) as Hd. rewrite He in Hd. simpl in Hd.
    injection Hd. lia.
  - by rewrite digits_val_pretty_go.
Qed.

(** [x.String()] parsed back: the keys of the Sequencer's buffer and the
    checkpoint column are faithful. *)
Lemma SetString10_pretty (z : Z) : SetString10 (pretty z) = Some z.
Proof.
  destruct z as [| p | p]; [done | |].
  - destruct (pretty_N_digits (N.pos p)) as [Hne Hd]. by apply SetString10_digits.
  - destruct (pretty_N_digits (N.pos p)) as [Hne Hd].
    change (pretty (Z.neg p)) with (String "-" (pretty (N.pos p))).
    destruct (pretty (N.pos p)) as [| c s] eqn:E; [done |].
    unfold SetString10. by rewrite Hd.
Qed.
