(* ===== verification/Text.v ===== *)
(** * Strings of the Go standard library

    The functions of [strings] and [net] that the configuration and the HTTP
    layer call, on byte strings: [Split], [TrimSpace], [IndexByte] and
    [SplitHostPort]; the answers of the handlers. *)

From S2P Require Import Prelude GoInt Types.
From Stdlib Require Import ZArith Lia String Ascii.
From stdpp Require Import base strings list.
Open Scope string_scope.

(** ** Slices and searches *)

(** [s[n:]]. *)
Fixpoint sdrop (n : nat) (s : string) : string :=
  match n, s with
  | S n', String _ s' => sdrop n' s'
  | _, _ => s
  end.

(** [s[:n]]. *)
Fixpoint stake (n : nat) (s : string) : string :=
  match n, s with
  | S n', String c s' => String c (stake n' s')
  | _, _ => ""
  end.

Fixpoint srev_app (s acc : string) : string :=
  match s with "" => acc | String c s' => srev_app s' (String c acc) end.
Definition srev (s : string) : string := srev_app s "".

(** [strings.IndexByte]: [None] is the result -1. *)
Fixpoint IndexByte (s : string) (c : ascii) : option nat :=
  match s with
  | "" => None
  | String d s' => if Ascii.eqb d c then Some O else S <$> IndexByte s' c
  end.

(** [strings.LastIndexByte]. *)
Fixpoint LastIndexByte (s : string) (c : ascii) : option nat :=
  match s with
  | "" => None
  | String d s' =>
    match LastIndexByte s' c with
    | Some i => Some (S i)
    | None => if Ascii.eqb d c then Some O else None
    end
  end.

(** [strings.Split(s, sep)] for a separator of one byte. *)
Fixpoint Split (s : string) (c : ascii) : list string :=
  match s with
  | "" => [""]
  | String d s' =>
    if Ascii.eqb d c then "" :: Split s' c
    else match Split s' c with
         | h :: t => String d h :: t
         | [] => [String d ""]
         end
  end.

(** ** Trimming

    The code points with the property White_Space, in UTF-8. *)
Definition bytes (ns : list nat) : string := foldr (λ n s, String (ascii_of_nat n) s) "" ns.
Definition spaces : list string :=
  bytes <$> ([[9]; [10]; [11]; [12]; [13]; [32]; [194; 133]; [194; 160]; [225; 154; 128]]
             ++ ((λ k, [226; 128; 128 + k]%nat) <$> seq 0 11)
             ++ [[226; 128; 168]; [226; 128; 169]; [226; 128; 175]; [226; 129; 159]; [227; 128; 128]])%list.

Fixpoint trimLeft_fuel (cut : list string) (n : nat) (s : string) : string :=
  match n with
  | O => s
  | S n' => match List.find (λ sp, String.prefix sp s) cut with
            | Some sp => trimLeft_fuel cut n' (sdrop (String.length sp) s)
            | None => s
            end
  end.
Definition trimLeft (cut : list string) (s : string) : string := trimLeft_fuel cut (String.length s) s.

(** [strings.TrimSpace]: from the right, the encodings are read backwards. *)
Definition TrimSpace (s : string) : string :=
  srev (trimLeft (srev <$> spaces) (srev (trimLeft spaces s))).

(** ** net.SplitHostPort *)

Definition addrErr {A} (hostport why : string) : result GoErr A :=
  Err (Errorf ("address " ++ hostport ++ ": " ++ why)).
Definition missingPort : string := "missing port in address".
Definition tooManyColons : string := "too many colons in address".

Definition hasByte (s : string) (c : ascii) : bool :=
  match IndexByte s c with Some _ => true | None => false end.

(** [i] is the position of the last colon, [host] what was cut off before it,
    [j] and [k] the positions from which brackets are unexpected. *)
Definition splitTail (hostport host : string) (i j k : nat) : result GoErr (string * string) :=
  if hasByte (sdrop j hostport) "[" then addrErr hostport "unexpected '[' in address"
  else if hasByte (sdrop k hostport) "]" then addrErr hostport "unexpected ']' in address"
  else Ok (host, sdrop (S i) hostport).

Definition SplitHostPort (hostport : string) : result GoErr (string * string) :=
  match LastIndexByte hostport ":" with
  | None => addrErr hostport missingPort
  | Some i =>
    match hostport with
    | String "[" _ =>
      match IndexByte hostport "]" with
      | None => addrErr hostport "missing ']' in address"
      | Some e =>
        if (S e =? String.length hostport)%nat then addrErr hostport missingPort
        else if (S e =? i)%nat then splitTail hostport (stake (e - 1) (sdrop 1 hostport)) i 1 (S e)
        else if String.prefix ":" (sdrop (S e) hostport) then addrErr hostport tooManyColons
        else addrErr hostport missingPort
      end
    | _ =>
      if hasByte (stake i hostport) ":" then addrErr hostport tooManyColons
      else splitTail hostport (stake i hostport) i 0 0
    end
  end.

(** ** net/http

    An answer: [http.Error] with its status and text, or a body with status 200. *)
Inductive Response (B : Type) : Type :=
| HttpError (code : Z) (text : string)
| HttpOK (body : B).
Arguments HttpError {B} code text.
Arguments HttpOK {B} body.
Definition statusCode {B} (r : Response B) : Z := match r with HttpError code _ => code | HttpOK _ => 200%Z end.

(** ** Lemmas *)

Lemma Split_not_nil s c : Split s c ≠ [].
Proof. destruct s as [| d s]; simpl; [done |]. destruct (Ascii.eqb d c); [done |]. by destruct (Split s c). Qed.

Lemma Split_length s c : (0 < List.length (Split s c))%nat.
Proof. pose proof (Split_not_nil s c). destruct (Split s c); simpl; [done | lia]. Qed.

Lemma IndexByte_app_l s t c : hasByte s c = false → hasByte (s ++ t) c = hasByte t c.
Proof.
  unfold hasByte. induction s as [| d s IH]; simpl; [done |].
  destruct (Ascii.eqb d c); [done |]. destruct (IndexByte s c); [done |].
  intros _. specialize (IH eq_refl). by destruct (IndexByte (s ++ t) c), (IndexByte t c).
Qed.

Lemma LastIndexByte_none s c : hasByte s c = false → LastIndexByte s c = None.
Proof.
  unfold hasByte. induction s as [| d s IH]; simpl; [done |].
  destruct (Ascii.eqb d c) eqn:E; [done |]. destruct (IndexByte s c); [done |]. intros _.
  by rewrite IH.
Qed.

Lemma LastIndexByte_sep s t c : hasByte t c = false → LastIndexByte (s ++ String c t) c = Some (String.length s).
Proof.
  intros Ht. induction s as [| d s IH]; simpl; [| by rewrite IH].
  by rewrite LastIndexByte_none, Ascii.eqb_refl.
Qed.

Lemma stake_app s t : stake (String.length s) (s ++ t) = s.
Proof. induction s as [| c s IH]; simpl; [by destruct t | by rewrite IH]. Qed.

Lemma sdrop_app s t : sdrop (String.length s) (s ++ t) = t.
Proof. induction s as [| c s IH]; simpl; [by destruct t | done]. Qed.

Lemma sdrop_sep s c t : sdrop (S (String.length s)) (s ++ String c t) = t.
Proof. induction s as [| d s IH]; simpl; [by destruct t | done]. Qed.

(** A host without colons and brackets, a colon and a port. *)
Lemma SplitHostPort_host host port :
  hasByte host ":" = false → hasByte host "[" = false → hasByte host "]" = false →
  hasByte port ":" = false → hasByte port "[" = false → hasByte port "]" = false →
  SplitHostPort (host ++ String ":" port) = Ok (host, port).
Proof.
  intros Hc Hl Hr Pc Pl Pr. unfold SplitHostPort.
  rewrite LastIndexByte_sep by done. rewrite stake_app, Hc.
  assert (Hbr : ∀ c, hasByte host c = false → hasByte port c = false → Ascii.eqb ":" c = false →
    hasByte (host ++ String ":" port) c = false).
  { intros c H1 H2 H3. rewrite IndexByte_app_l by done. unfold hasByte in *. cbn [IndexByte]. rewrite H3.
    by destruct (IndexByte port c). }
  assert (E : splitTail (host ++ String ":" port) host (String.length host) 0 0 = Ok (host, port)).
  { unfold splitTail. rewrite sdrop_sep. simpl sdrop. by rewrite !Hbr. }
  destruct host as [| d host']; [exact E |].
  destruct (Ascii.eqb d "[") eqn:Ed.
  - unfold hasByte in Hl. simpl in Hl. by rewrite Ed in Hl.
  - rewrite E. cbn [append]. destruct d as [[] [] [] [] [] [] [] []]; done.
Qed.

Example split_v4 : SplitHostPort "10.0.0.7:51334" = Ok ("10.0.0.7", "51334").
Proof. reflexivity. Qed.
Example split_v6 : SplitHostPort "[::1]:51334" = Ok ("::1", "51334").
Proof. reflexivity. Qed.
Example split_bare_v6 : SplitHostPort "::1" = addrErr "::1" tooManyColons.
Proof. reflexivity. Qed.
Example trim_mixed : TrimSpace (" " ++ bytes [194; 160; 9] ++ "a b" ++ bytes [226; 128; 131; 10]) = "a b".
Proof. reflexivity. Qed.
Example split_commas : Split "a,,b," "," = ["a"; ""; "b"; ""].
Proof. reflexivity. Qed.
