(* ===== verification/GlobalState.v ===== *)
(** * The GlobalState singleton (internal/engine/global_state.go)

    The process-wide snapshot of heights and queue depths.  Its methods take
    the write lock with [defer Unlock] and some of them call [Snapshot], which
    takes the read lock of the same mutex: the lock is part of the state. *)

From S2P Require Import Prelude GoInt.
From Stdlib Require Import ZArith Lia String.
From stdpp Require Import base strings list.
Open Scope Z_scope.

(** ** Data *)

Inductive SystemStateEnum : Type :=
| SystemStateUnknown | SystemStateIdle | SystemStateActive | SystemStateCatchingUp
| SystemStateStalled | SystemStateHealing | SystemStateDegraded | SystemStateRunning
| SystemStateOptimizing | SystemStateThrottled.

#[export] Instance SystemStateEnum_eq_dec : EqDecision SystemStateEnum.
Proof. solve_decision. Defined.

Definition SystemState_String (s : SystemStateEnum) : string :=
  match s with
  | SystemStateIdle => "idle"
  | SystemStateActive => "active"
  | SystemStateCatchingUp => "catching_up"
  | SystemStateStalled => "stalled"
  | SystemStateHealing => "healing"
  | SystemStateDegraded => "degraded"
  | SystemStateRunning => "running"
  | SystemStateOptimizing => "optimizing"
  | SystemStateThrottled => "throttled"
  | SystemStateUnknown => "unknown"
  end.

Record Snapshot := mkSnapshot {
  sn_OnChainHeight : Z;
  sn_DBCursor : Z;
  sn_TotalTransfers : Z;
  sn_SystemState : SystemStateEnum;
  sn_PipelineDepth : Z;
  sn_QuotaUsage : float64;
  sn_LastUpdate : Z;
  sn_JobsQueueDepth : Z;
  sn_ResultsDepth : Z;
  sn_SequencerBuffer : Z
}.

(** The fields of the struct: the snapshot's fields, the capacities, the
    subscribers' buffered channels (capacity 100) and the mutex. *)
Record GlobalState := mkGlobalState {
  gs_mu : RWMutex;
  gs_fields : Snapshot;
  gs_maxJobsCapacity : Z;
  gs_maxResultsCapacity : Z;
  gs_maxSequencerBuffer : Z;
  gs_subscribers : list (list Snapshot)
}.

Definition gs_set_mu (m : RWMutex) (s : GlobalState) : GlobalState :=
  mkGlobalState m (gs_fields s) (gs_maxJobsCapacity s) (gs_maxResultsCapacity s)
    (gs_maxSequencerBuffer s) (gs_subscribers s).
Definition gs_set_fields (f : Snapshot → Snapshot) (s : GlobalState) : GlobalState :=
  mkGlobalState (gs_mu s) (f (gs_fields s)) (gs_maxJobsCapacity s) (gs_maxResultsCapacity s)
    (gs_maxSequencerBuffer s) (gs_subscribers s).
Definition gs_set_subscribers (l : list (list Snapshot)) (s : GlobalState) : GlobalState :=
  mkGlobalState (gs_mu s) (gs_fields s) (gs_maxJobsCapacity s) (gs_maxResultsCapacity s)
    (gs_maxSequencerBuffer s) l.
Definition gs_set_caps (j r q : Z) (s : GlobalState) : GlobalState :=
  mkGlobalState (gs_mu s) (gs_fields s) j r q (gs_subscribers s).

(** [GetGlobalState], the first call. *)
Definition initGlobalState (now : Z) : GlobalState :=
  mkGlobalState Unlocked
    (mkSnapshot 0 0 0 SystemStateUnknown 0 (float_of_Z 0) now 0 0 0) 200 5000 1000 [].

(** ** Methods *)

Definition gs_M : Type → Type := GoM GlobalState.
Definition gs_Lock : gs_M unit := mu_Lock gs_mu gs_set_mu.
Definition gs_withLock {A} (m : gs_M A) : gs_M A := with_Lock gs_mu gs_set_mu m.

Definition getSnapshot : gs_M Snapshot :=
  mu_RLock gs_mu gs_set_mu;;
  sn ← gets gs_fields;
  mu_RUnlock gs_mu gs_set_mu;;
  mret sn.

(** A send with [default]: a full channel drops the snapshot. *)
Definition subscriberCap : nat := 100.
Definition trySend (sn : Snapshot) (ch : list Snapshot) : list Snapshot :=
  if bool_decide (length ch < subscriberCap)%nat then ch ++ [sn] else ch.

Definition notifySubscribers : gs_M unit :=
  sn ← getSnapshot;
  modify (λ s, gs_set_subscribers (trySend sn <$> gs_subscribers s) s).

Definition UpdateChainHead (height now : Z) : gs_M unit :=
  gs_withLock (
    s ← gets id;
    if sn_OnChainHeight (gs_fields s) <? height then
      modify (gs_set_fields (λ f, mkSnapshot height (sn_DBCursor f) (sn_TotalTransfers f) (sn_SystemState f)
        (sn_PipelineDepth f) (sn_QuotaUsage f) now (sn_JobsQueueDepth f) (sn_ResultsDepth f) (sn_SequencerBuffer f)));;
      notifySubscribers
    else mret tt).

Definition AdvanceDBCursor (newCursor now : Z) : gs_M unit :=
  gs_withLock (
    s ← gets id;
    if sn_DBCursor (gs_fields s) <? newCursor then
      modify (gs_set_fields (λ f, mkSnapshot (sn_OnChainHeight f) newCursor (sn_TotalTransfers f) (sn_SystemState f)
        (sn_PipelineDepth f) (sn_QuotaUsage f) now (sn_JobsQueueDepth f) (sn_ResultsDepth f) (sn_SequencerBuffer f)));;
      notifySubscribers
    else mret tt).

Definition IncrementTransfers (count now : Z) : gs_M unit :=
  gs_withLock (
    modify (gs_set_fields (λ f, mkSnapshot (sn_OnChainHeight f) (sn_DBCursor f) (add_u64 (sn_TotalTransfers f) count)
      (sn_SystemState f) (sn_PipelineDepth f) (sn_QuotaUsage f) now (sn_JobsQueueDepth f) (sn_ResultsDepth f)
      (sn_SequencerBuffer f)))).

Definition SetSystemState (state : SystemStateEnum) (now : Z) : gs_M unit :=
  gs_withLock (
    s ← gets id;
    if bool_decide (sn_SystemState (gs_fields s) ≠ state) then
      modify (gs_set_fields (λ f, mkSnapshot (sn_OnChainHeight f) (sn_DBCursor f) (sn_TotalTransfers f) state
        (sn_PipelineDepth f) (sn_QuotaUsage f) now (sn_JobsQueueDepth f) (sn_ResultsDepth f) (sn_SequencerBuffer f)));;
      notifySubscribers
    else mret tt).

Definition UpdatePipelineDepth (jobsDepth resultsDepth sequencerBuffer now : Z) : gs_M unit :=
  gs_withLock (
    modify (gs_set_fields (λ f, mkSnapshot (sn_OnChainHeight f) (sn_DBCursor f) (sn_TotalTransfers f)
      (sn_SystemState f) (i32 (i32 (jobsDepth + resultsDepth) + sequencerBuffer)) (sn_QuotaUsage f) now
      jobsDepth resultsDepth sequencerBuffer))).

Definition RecordQuota (usage : float64) (now : Z) : gs_M unit :=
  gs_withLock (
    modify (gs_set_fields (λ f, mkSnapshot (sn_OnChainHeight f) (sn_DBCursor f) (sn_TotalTransfers f)
      (sn_SystemState f) (sn_PipelineDepth f) usage now (sn_JobsQueueDepth f) (sn_ResultsDepth f)
      (sn_SequencerBuffer f)))).

(** [Subscribe] returns the index of the new channel. *)
Definition Subscribe : gs_M nat :=
  gs_withLock (
    s ← gets id;
    modify (gs_set_subscribers (gs_subscribers s ++ [[]]));;
    mret (length (gs_subscribers s))).

Definition GetCapacity : gs_M (Z * Z * Z) :=
  mu_RLock gs_mu gs_set_mu;;
  r ← gets (λ s, (gs_maxJobsCapacity s, gs_maxResultsCapacity s, gs_maxSequencerBuffer s));
  mu_RUnlock gs_mu gs_set_mu;;
  mret r.

Definition SetCapacity (maxJobs maxResults maxSequencer : Z) : gs_M unit :=
  gs_withLock (modify (gs_set_caps maxJobs maxResults maxSequencer)).

Definition GetStateString : gs_M string :=
  sn ← getSnapshot; mret (SystemState_String (sn_SystemState sn)).

Definition GlobalSyncLag : gs_M Z :=
  sn ← getSnapshot;
  mret (if sn_OnChainHeight sn =? 0 then 0 else SafeInt64Diff (sn_OnChainHeight sn) (sn_DBCursor sn)).

Definition IsStalled : gs_M bool :=
  sn ← getSnapshot; mret (bool_decide (sn_SystemState sn = SystemStateStalled)).

(** ** Lemmas *)

Lemma getSnapshot_locked s : gs_mu s = WLocked → getSnapshot s = (s, Panic deadlock).
Proof.
  intros Hl. unfold getSnapshot, mu_RLock. unfold mbind, GoM_bind. simpl. by rewrite Hl.
Qed.

Lemma notifySubscribers_locked s : gs_mu s = WLocked → notifySubscribers s = (s, Panic deadlock).
Proof. intros Hl. unfold notifySubscribers. unfold mbind, GoM_bind. by rewrite getSnapshot_locked. Qed.

Lemma gs_withLock_free {A} (m : gs_M A) s :
  gs_mu s = Unlocked →
  gs_withLock m s =
  match m (gs_set_mu WLocked s) with
  | (s', Val a) => (gs_set_mu Unlocked s', Val a)
  | (s', Panic why) => if String.eqb why deadlock then (s', Panic why) else (gs_set_mu Unlocked s', Panic why)
  end.
Proof.
  intros Hl. unfold gs_withLock, with_Lock, mu_Lock. unfold mbind, GoM_bind. simpl. unfold id. by rewrite Hl.
Qed.

Lemma getSnapshot_free s : gs_mu s = Unlocked → getSnapshot s = (s, Val (gs_fields s)).
Proof.
  intros Hl. destruct s. simpl in Hl. subst. reflexivity.
Qed.

(** The state after [UpdatePipelineDepth]. *)
Definition withDepths (j r q now : Z) (f : Snapshot) : Snapshot :=
  mkSnapshot (sn_OnChainHeight f) (sn_DBCursor f) (sn_TotalTransfers f) (sn_SystemState f)
    (i32 (i32 (j + r) + q)) (sn_QuotaUsage f) now j r q.

Lemma UpdatePipelineDepth_free j r q now s :
  gs_mu s = Unlocked →
  UpdatePipelineDepth j r q now s = (gs_set_fields (withDepths j r q now) s, Val tt).
Proof. intros Hl. destruct s. simpl in Hl. subst. reflexivity. Qed.

(** ** Properties *)

(** [UpdateChainHead] deadlocks on every height that advances: it notifies
    the subscribers with the write lock held, and [notifySubscribers] asks for the
    read lock of the same mutex.  The lock is never released, so every later
    reader of the snapshot blocks as well; a height that does not advance leaves
    the state alone. *)
Theorem UpdateChainHead_deadlocks (height now : Z) (s : GlobalState) :
  gs_mu s = Unlocked →
  (sn_OnChainHeight (gs_fields s) < height →
   wp (UpdateChainHead height now)
      (λ o s', o = Panic deadlock ∧ gs_mu s' = WLocked ∧ getSnapshot s' = (s', Panic deadlock)) s) ∧
  (height ≤ sn_OnChainHeight (gs_fields s) → UpdateChainHead height now s = (s, Val tt)).
Proof.
  intros Hl. unfold wp, UpdateChainHead. rewrite !(gs_withLock_free _ s Hl).
  unfold mbind, GoM_bind, gets, id. simpl. split; intros Hh.
  - rewrite (proj2 (Z.ltb_lt _ _)) by done. unfold modify.
    rewrite notifySubscribers_locked by done. simpl.
    split_and!; [done.. | by apply getSnapshot_locked].
  - rewrite (proj2 (Z.ltb_ge _ _)) by done.
    destruct s. simpl in *. by subst.
Qed.

(** What the engine really uses of the singleton works: after
    [UpdatePipelineDepth] a snapshot shows the depths it was given, their sum
    as the pipeline depth (for depths whose sum fits an [int32]), everything
    else unchanged and the lock free. *)
Theorem UpdatePipelineDepth_snapshot (j r q now : Z) (s : GlobalState) :
  gs_mu s = Unlocked → 0 ≤ j → 0 ≤ r → 0 ≤ q → j + r + q < 2 ^ 31 →
  wp (UpdatePipelineDepth j r q now;; getSnapshot)
     (λ o s', gs_mu s' = Unlocked ∧ ∃ sn, o = Val sn ∧
        sn_JobsQueueDepth sn = j ∧ sn_ResultsDepth sn = r ∧ sn_SequencerBuffer sn = q ∧
        sn_PipelineDepth sn = j + r + q ∧
        sn_OnChainHeight sn = sn_OnChainHeight (gs_fields s) ∧ sn_DBCursor sn = sn_DBCursor (gs_fields s) ∧
        sn_SystemState sn = sn_SystemState (gs_fields s)) s.
Proof.
  intros Hl Hj Hr Hq Hb. apply wp_bind. unfold wp at 1, UpdatePipelineDepth.
  rewrite (gs_withLock_free _ s Hl). simpl. unfold wp. rewrite getSnapshot_free by done. simpl.
  split; [done |]. eexists. split; [done |]. simpl. split_and!; try done.
  rewrite (i32_small (j + r)) by lia. by rewrite i32_small by lia.
Qed.

Lemma UpdateChainHead_deadlocks_witness :
  snd (UpdateChainHead 7 1 (initGlobalState 0)) = Panic deadlock ∧
  UpdateChainHead 0 1 (initGlobalState 0) = (initGlobalState 0, Val tt).
Proof.
  split.
  - destruct (UpdateChainHead_deadlocks 7 1 (initGlobalState 0)) as [H _]; [done |].
    by destruct H as [H _].
  - by apply (UpdateChainHead_deadlocks 0 1 (initGlobalState 0)).
Defined.

Lemma UpdatePipelineDepth_snapshot_witness :
  wp (UpdatePipelineDepth 3 4 5 1;; getSnapshot) (λ o _, ∃ sn, o = Val sn ∧ sn_PipelineDepth sn = 12) (initGlobalState 0).
Proof.
  destruct (UpdatePipelineDepth_snapshot 3 4 5 1 (initGlobalState 0)) as (_ & sn & Ho & _ & _ & _ & Hp & _);
    [done | lia.. |]. exists sn. split; [exact Ho | exact Hp].
Defined.
