(* ===== verification/Database.v ===== *)
(** * The database (internal/database, bulk_inserter.go, the SQL of the engine)

    The five tables the engine writes, the SQL statements of the code as
    functions on them together with the columns and conflict targets they name,
    the schema [InitSchema] creates, and the operations of [Repository].
    PostgreSQL itself is the interface [Postgres]: transactions that commit all
    of their statements or none, statements that fail when they name a column or
    a conflict target the schema does not have, a cancelled context that refuses
    to start anything.  [PgSim] is a concrete database for the witnesses. *)

From S2P Require Import Prelude GoInt Types.
From Stdlib Require Import ZArith Lia String.
From stdpp Require Import base gmap strings list pretty.
Open Scope string_scope.
Open Scope Z_scope.

(** ** Tables *)

Inductive table : Type := Tblocks | Ttransfers | Tsync_checkpoints | Tsync_status | Ttoken_metadata.

#[export] Instance table_eq_dec : EqDecision table.
Proof. solve_decision. Defined.

(** A row of [sync_status] ([None]: SQL NULL or never written). *)
Record StatusRow := mkStatusRow {
  sr_last_synced_block : option Z;
  sr_latest_block : option Z;
  sr_sync_lag : option Z;
  sr_status : string;
  sr_last_processed_block : option Z;
  sr_rpc_provider : option string;
  sr_error_message : option string
}.

(** models/token_metadata, [TokenMetadata]. *)
Record TokenMetadata := mkTokenMetadata { tm_Symbol : string; tm_Decimals : Z; tm_Name : string }.

(** Blocks are keyed by number, transfers by (block number, log index), the
    two sync tables by chain id, token metadata by address. *)
Record Tables := mkTables {
  t_blocks : gmap Z ModelBlock;
  t_transfers : gmap (Z * Z) Transfer;
  t_checkpoints : gmap Z string;
  t_status : gmap Z StatusRow;
  t_metadata : gmap string TokenMetadata
}.

Definition emptyTables : Tables := mkTables ∅ ∅ ∅ ∅ ∅.

Definition tset_blocks (v : gmap Z ModelBlock) (t : Tables) : Tables :=
  mkTables v (t_transfers t) (t_checkpoints t) (t_status t) (t_metadata t).
Definition tset_transfers (v : gmap (Z * Z) Transfer) (t : Tables) : Tables :=
  mkTables (t_blocks t) v (t_checkpoints t) (t_status t) (t_metadata t).
Definition tset_checkpoints (v : gmap Z string) (t : Tables) : Tables :=
  mkTables (t_blocks t) (t_transfers t) v (t_status t) (t_metadata t).
Definition tset_status (v : gmap Z StatusRow) (t : Tables) : Tables :=
  mkTables (t_blocks t) (t_transfers t) (t_checkpoints t) v (t_metadata t).
Definition tset_metadata (v : gmap string TokenMetadata) (t : Tables) : Tables :=
  mkTables (t_blocks t) (t_transfers t) (t_checkpoints t) (t_status t) v.

(** ** Schemas and statements *)

Record Schema := mkSchema {
  sch_columns : table → list string;
  sch_unique : list (table * list string)
}.

(** internal/database/schema.go, [InitSchema] on an empty database. *)
Definition InitSchema : Schema := {|
  sch_columns t :=
    match t with
    | Tblocks => ["number"; "hash"; "parent_hash"; "timestamp"; "gas_limit"; "gas_used";
                  "base_fee_per_gas"; "transaction_count"; "processed_at"]
    | Ttransfers => ["id"; "block_number"; "tx_hash"; "log_index"; "from_address"; "to_address"; "amount";
                     "token_address"; "symbol"; "activity_type"; "created_at"]
    | Tsync_checkpoints => ["chain_id"; "last_synced_block"; "updated_at"]
    | Tsync_status => ["chain_id"; "last_processed_block"; "last_processed_timestamp"; "rpc_provider";
                       "status"; "error_message"]
    | Ttoken_metadata => ["address"; "symbol"; "decimals"; "name"; "is_verified"; "updated_at"]
    end;
  sch_unique := [(Tblocks, ["number"]); (Ttransfers, ["id"]); (Ttoken_metadata, ["address"]);
                 (Tsync_checkpoints, ["chain_id"]); (Tsync_status, ["chain_id"])]
|}.

(** [InitSchema] on a database that has tables already: it creates the missing
    ones (CREATE TABLE IF NOT EXISTS) and then patches two of the others. *)
Definition addColumns (t : table) (cols : list string) (s : Schema) : Schema := {|
  sch_columns t' := if bool_decide (t' = t)
                    then (sch_columns s t' ++ filter (λ c, c ∉ sch_columns s t') cols)%list
                    else sch_columns s t';
  sch_unique := sch_unique s
|}.
Definition createMissing (s : Schema) : Schema := {|
  sch_columns t := match sch_columns s t with [] => sch_columns InitSchema t | cols => cols end;
  sch_unique := (sch_unique s ++ filter (λ u, sch_columns s u.1 = []) (sch_unique InitSchema))%list
|}.
Definition InitSchemaOn (s : Schema) : Schema :=
  addColumns Ttransfers ["activity_type"]
    (addColumns Tsync_status ["last_processed_block"; "last_processed_timestamp"] (createMissing s)).

(** scripts/db/init-db.sql, the script an operator (or the docker files) runs on
    an empty database. *)
Definition initDbSql : Schema := {|
  sch_columns t :=
    match t with
    | Tblocks => ["hash"; "number"; "parent_hash"; "timestamp"; "gas_limit"; "gas_used";
                  "base_fee_per_gas"; "transaction_count"; "processed_at"]
    | Ttransfers => ["id"; "tx_hash"; "block_number"; "log_index"; "token_address"; "from_address"; "to_address"; "amount"; "created_at"]
    | Tsync_checkpoints => ["chain_id"; "last_synced_block"; "updated_at"]
    | Tsync_status => ["chain_id"; "last_synced_block"; "latest_block"; "sync_lag"; "status"; "error_message"; "updated_at"]
    | Ttoken_metadata => []
    end;
  sch_unique := [(Tblocks, ["hash"]); (Tblocks, ["number"]); (Ttransfers, ["id"]); (Ttransfers, ["block_number"; "log_index"]);
                 (Tsync_checkpoints, ["chain_id"]); (Tsync_status, ["chain_id"])]
|}.
(** migrations/001_init.sql, which the operation guides name. *)
Definition migration001 : Schema := {|
  sch_columns t :=
    match t with
    | Tblocks => ["number"; "hash"; "parent_hash"; "timestamp"; "gas_limit"; "gas_used"; "base_fee_per_gas"; "transaction_count";
                  "processed_at"]
    | Ttransfers => ["id"; "block_number"; "tx_hash"; "log_index"; "from_address"; "to_address"; "amount"; "token_address"]
    | Tsync_checkpoints => ["id"; "chain_id"; "last_synced_block"; "updated_at"]
    | Tsync_status => ["id"; "chain_id"; "last_processed_block"; "last_processed_timestamp"; "batch_size"; "rpc_provider";
                       "status"; "error_message"]
    | Ttoken_metadata => []
    end;
  sch_unique := [(Tblocks, ["number"]); (Tblocks, ["hash"]); (Ttransfers, ["id"]); (Ttransfers, ["block_number"; "log_index"]);
                 (Tsync_checkpoints, ["id"]); (Tsync_checkpoints, ["chain_id"]); (Tsync_status, ["id"]); (Tsync_status, ["chain_id"])]
|}.
(** migrations/003_add_activity_type.sql. *)
Definition migration003 (s : Schema) : Schema := addColumns Ttransfers ["symbol"; "activity_type"] s.

(** The database of an operator who ran init-db.sql and this migration before the
    program started. *)
Definition deployedSchema : Schema := InitSchemaOn (migration003 initDbSql).

(** A statement: what it names and what it does. *)
Record Stmt := mkStmt {
  stmt_table : table;
  stmt_columns : list string;
  stmt_conflict : option (list string);
  stmt_run : Tables → Tables
}.

Definition stmt_ok (sch : Schema) (st : Stmt) : bool :=
  forallb (λ c, bool_decide (c ∈ sch_columns sch (stmt_table st))) (stmt_columns st) &&
  match stmt_conflict st with
  | Some cols => bool_decide ((stmt_table st, cols) ∈ sch_unique sch)
  | None => true
  end.

(** ** The SQL of the engine *)

(** [INSERT ... ON CONFLICT (key) DO NOTHING], row by row. *)
Definition insertNew `{Countable K} {A} (m : gmap K A) (k : K) (a : A) : gmap K A :=
  match m !! k with Some _ => m | None => <[k := a]> m end.

(** bulk_inserter.go, [fallbackInsertBlocks]: the columns it converts with
    [int64(...)] wrap. *)
Definition blockRow (b : ModelBlock) : ModelBlock :=
  mkModelBlock (mb_Number b) (mb_Hash b) (mb_ParentHash b) (i64 (mb_Timestamp b)) (i64 (mb_GasLimit b))
    (i64 (mb_GasUsed b)) (mb_BaseFeePerGas b) (mb_TransactionCount b).
Definition insertBlocksStmt (blocks : list ModelBlock) : Stmt :=
  mkStmt Tblocks ["number"; "hash"; "parent_hash"; "timestamp"; "gas_limit"; "gas_used"; "base_fee_per_gas"; "transaction_count"]
    (Some ["number"])
    (λ t, tset_blocks (foldl (λ m b, insertNew m (mb_Number b) (blockRow b)) (t_blocks t) blocks) t).

(** bulk_inserter.go, [fallbackInsertTransfers]: the statement has no
    [activity_type], so the column takes its default. *)
Definition transferRow (x : Transfer) : Transfer :=
  mkTransfer (tr_BlockNumber x) (tr_TxHash x) (tr_LogIndex x) (tr_From x) (tr_To x) (tr_Amount x)
    (tr_TokenAddress x) (tr_Symbol x) "TRANSFER".
Definition transferKey (x : Transfer) : Z * Z := (tr_BlockNumber x, tr_LogIndex x).
Definition insertTransfersStmt (transfers : list Transfer) : Stmt :=
  mkStmt Ttransfers ["block_number"; "tx_hash"; "log_index"; "from_address"; "to_address"; "amount"; "token_address"; "symbol"]
    (Some ["block_number"; "log_index"])
    (λ t, tset_transfers (foldl (λ m x, insertNew m (transferKey x) (transferRow x)) (t_transfers t) transfers) t).

(** The checkpoint upsert shared by async_writer_flush.go,
    processor_checkpoint.go and repository.go. *)
Definition upsertCheckpointStmt (chainID : Z) (block : string) : Stmt :=
  mkStmt Tsync_checkpoints ["chain_id"; "last_synced_block"; "updated_at"] (Some ["chain_id"])
    (λ t, tset_checkpoints (<[chainID := block]> (t_checkpoints t)) t).

(** async_writer_flush.go, the [sync_status] upsert of [updateCheckpointsTx]. *)
Definition upsertStatusStmt (chainID synced latest lag : Z) : Stmt :=
  mkStmt Tsync_status
    ["chain_id"; "last_synced_block"; "latest_block"; "sync_lag"; "status"; "last_processed_block"; "last_processed_timestamp"]
    (Some ["chain_id"])
    (λ t, tset_status
      (<[chainID :=
         match t_status t !! chainID with
         | Some r => mkStatusRow (Some synced) (Some latest) (Some lag) (sr_status r) (Some synced)
                       (sr_rpc_provider r) (sr_error_message r)
         | None => mkStatusRow (Some synced) (Some latest) (Some lag) "syncing" (Some synced) None None
         end]> (t_status t)) t).

(** processor_checkpoint.go, the [sync_status] upsert of [updateCheckpointInTx]. *)
Definition upsertStatusInTxStmt (chainID synced latest lag : Z) : Stmt :=
  mkStmt Tsync_status ["chain_id"; "last_synced_block"; "latest_block"; "sync_lag"; "status"; "updated_at"]
    (Some ["chain_id"])
    (λ t, tset_status
      (<[chainID :=
         match t_status t !! chainID with
         | Some r => mkStatusRow (Some synced) (Some latest) (Some lag) "syncing" (sr_last_processed_block r)
                       (sr_rpc_provider r) (sr_error_message r)
         | None => mkStatusRow (Some synced) (Some latest) (Some lag) "syncing" None None None
         end]> (t_status t)) t).

(** repository.go and consistency.go, the statements of [PruneFutureData] and
    [UpdateSyncCursor]. *)
Definition deleteTransfersAboveStmt (head : Z) : Stmt :=
  mkStmt Ttransfers ["block_number"] None
    (λ t, tset_transfers (filter (λ kx, kx.1.1 ≤ head) (t_transfers t)) t).
(** [transfers.block_number] references [blocks(number) ON DELETE CASCADE] in
    [InitSchema] (in init-db.sql it does not). *)
Definition deleteBlocksAboveStmt (head : Z) : Stmt :=
  mkStmt Tblocks ["number"] None
    (λ t, tset_transfers (filter (λ kx, kx.1.1 ≤ head) (t_transfers t))
            (tset_blocks (filter (λ kb, kb.1 ≤ head) (t_blocks t)) t)).
Definition updateCheckpointsStmt (head : Z) : Stmt :=
  mkStmt Tsync_checkpoints ["last_synced_block"; "updated_at"] None
    (λ t, tset_checkpoints ((λ _, pretty head) <$> t_checkpoints t) t).
Definition updateProcessedStmt (head : Z) : Stmt :=
  mkStmt Tsync_status ["last_processed_block"; "last_processed_timestamp"] None
    (λ t, tset_status ((λ r, mkStatusRow (sr_last_synced_block r) (sr_latest_block r) (sr_sync_lag r) (sr_status r)
                               (Some head) (sr_rpc_provider r) (sr_error_message r)) <$> t_status t) t).

(** processor_reorg.go, [DELETE FROM blocks WHERE number >= $1]. *)
Definition deleteBlocksFromStmt (n : Z) : Stmt :=
  mkStmt Tblocks ["number"] None
    (λ t, tset_transfers (filter (λ kx, kx.1.1 < n) (t_transfers t))
            (tset_blocks (filter (λ kb, kb.1 < n) (t_blocks t)) t)).

(** The schema has what the four statements of a flush name. *)
Definition serves_flush (sch : Schema) : bool :=
  stmt_ok sch (insertBlocksStmt []) && stmt_ok sch (insertTransfersStmt []) &&
  stmt_ok sch (upsertCheckpointStmt 0 "") && stmt_ok sch (upsertStatusStmt 0 0 0 0).

(** On an empty database [InitSchemaOn] is [InitSchema].  A flush finds its
    columns on the tables of init-db.sql with the migration; not on the program's
    own, not without the migration ([symbol] is missing), and not on those of
    migrations/001_init.sql ([last_synced_block] is missing). *)
Lemma InitSchemaOn_empty t :
  sch_columns (InitSchemaOn (mkSchema (λ _, []) [])) t = sch_columns InitSchema t ∧
  sch_unique (InitSchemaOn (mkSchema (λ _, []) [])) = sch_unique InitSchema.
Proof. by destruct t. Qed.
Lemma flush_schemas :
  serves_flush deployedSchema = true ∧ serves_flush InitSchema = false ∧
  serves_flush (InitSchemaOn initDbSql) = false ∧ serves_flush (InitSchemaOn (migration003 migration001)) = false.
Proof. by vm_compute. Qed.

(** [SELECT COALESCE(MAX(number), 0) FROM blocks]. *)
Definition maxBlockNumber (t : Tables) : Z :=
  foldr Z.max 0 (map fst (map_to_list (t_blocks t))).

(** ** PostgreSQL through database/sql *)

Class Postgres (W : Type) := {
  pg_schema : W → Schema;
  pg_tables : W → Tables;             (* committed state *)
  pg_tx : W → option Tables;          (* what the open, healthy transaction sees *)
  pg_BeginTxx : bool → GoM W (option GoErr);    (* the context is cancelled? *)
  pg_TxExec : bool → Stmt → GoM W (option GoErr);
  pg_Commit : GoM W (option GoErr);
  pg_Rollback : GoM W unit;
  pg_Exec : bool → Stmt → GoM W (option GoErr);   (* outside a transaction *)
  pg_Query : ∀ A, (Tables → A) → GoM W (result GoErr A);

  pg_BeginTxx_spec done w :
    wp (pg_BeginTxx done) (λ o w', ∃ e, o = Val e ∧ pg_schema w' = pg_schema w ∧ pg_tables w' = pg_tables w ∧
       (e = None → done = false ∧ pg_tx w' = Some (pg_tables w))) w;
  (** A failed statement aborts the transaction: [pg_tx] becomes [None] and
      stays so. *)
  pg_TxExec_spec done st w :
    wp (pg_TxExec done st) (λ o w', ∃ e, o = Val e ∧ pg_schema w' = pg_schema w ∧ pg_tables w' = pg_tables w ∧
       (e = None → done = false ∧ stmt_ok (pg_schema w) st = true ∧
                   ∃ t, pg_tx w = Some t ∧ pg_tx w' = Some (stmt_run st t)) ∧
       (e ≠ None → pg_tx w' = None)) w;
  (** Commit of an aborted transaction reports an error. *)
  pg_Commit_spec w :
    wp pg_Commit (λ o w', ∃ e, o = Val e ∧ pg_schema w' = pg_schema w ∧ pg_tx w' = None ∧
       (e = None → pg_tx w = Some (pg_tables w')) ∧
       (e ≠ None → pg_tables w' = pg_tables w ∨ pg_tx w = Some (pg_tables w'))) w;
  pg_Rollback_spec w :
    wp pg_Rollback (λ o w', o = Val tt ∧ pg_schema w' = pg_schema w ∧ pg_tables w' = pg_tables w ∧ pg_tx w' = None) w;
  (** A statement outside a transaction is committed by itself; after an error
      it has happened or not. *)
  pg_Exec_spec done st w :
    wp (pg_Exec done st) (λ o w', ∃ e, o = Val e ∧ pg_schema w' = pg_schema w ∧
       (e = None → done = false ∧ stmt_ok (pg_schema w) st = true ∧ pg_tables w' = stmt_run st (pg_tables w)) ∧
       (e ≠ None → pg_tables w' = pg_tables w ∨ pg_tables w' = stmt_run st (pg_tables w))) w;
  pg_Query_spec A (f : Tables → A) w :
    wp (pg_Query A f) (λ o w', w' = w ∧ ∃ r, o = Val r ∧ (∀ a, r = Ok a → a = f (pg_tables w))) w
}.

Section repository.
Context {W : Type} {PG : Postgres W}.

(** [_, err := tx.ExecContext(...); err != nil -> return err], for several
  statements. *)
Fixpoint execAll (done : bool) (sts : list Stmt) : GoM W (option GoErr) :=
match sts with
| [] => mret None
| st :: rest => try pg_TxExec done st ;;; execAll done rest
end.

(** BeginTxx, the statements, Commit, with [defer tx.Rollback()]: a transaction
  function of the repository. *)
Definition inTx (done : bool) (body : GoM W (option GoErr)) : GoM W (option GoErr) :=
try pg_BeginTxx done ;;;
(err ← (try body ;;; pg_Commit);
 pg_Rollback;;
 mret err).

(** repository.go, [PruneFutureData] (consistency.go has the same body). *)
Definition PruneFutureData (done : bool) (chainHead : Z) : GoM W (option GoErr) :=
inTx done (execAll done [deleteTransfersAboveStmt chainHead; deleteBlocksAboveStmt chainHead;
                         updateCheckpointsStmt chainHead; updateProcessedStmt chainHead]).

(** repository.go, [UpdateSyncCursor] (consistency.go has the same body). *)
Definition UpdateSyncCursor (done : bool) (height : Z) : GoM W (option GoErr) :=
inTx done (execAll done [updateCheckpointsStmt height; updateProcessedStmt height]).

(** consistency.go, [GetMaxStoredBlock]. *)
Definition GetMaxStoredBlock : GoM W (result GoErr Z) := pg_Query Z maxBlockNumber.

(** repository.go, [GetLatestBlockNumber]: no checkpoint is block 0. *)
Definition GetLatestBlockNumber (chainID : Z) : GoM W (result GoErr Z) :=
r ← pg_Query (option string) (λ t, t_checkpoints t !! chainID);
mret match r with
     | Ok (Some number) =>
       match SetString10 number with
       | Some n => Ok n
       | None => Err (Errorf ("invalid block number in database: " ++ number))
       end
     | Ok None | Err _ => Ok 0
     end.

(** bulk_inserter.go, [InsertBlocksBatchTx] and [InsertTransfersBatchTx]. *)
Definition InsertBlocksBatchTx (done : bool) (blocks : list ModelBlock) : GoM W (option GoErr) :=
match blocks with [] => mret None | _ => pg_TxExec done (insertBlocksStmt blocks) end.
Definition InsertTransfersBatchTx (done : bool) (transfers : list Transfer) : GoM W (option GoErr) :=
match transfers with [] => mret None | _ => pg_TxExec done (insertTransfersStmt transfers) end.
End repository.

(** ** A concrete database *)

(** Committed tables, the open transaction ([Some None]: aborted) and the
    injected faults, one per call ([true]: the call fails). *)
Record PgSim := mkPgSim {
  ps_schema : Schema;
  ps_tables : Tables;
  ps_tx : option (option Tables);
  ps_faults : list bool
}.

Definition ps_step (s : PgSim) : bool * list bool :=
  match ps_faults s with [] => (false, []) | b :: rest => (b, rest) end.
Definition pgError : GoErr := Errorf "pq: error".

Definition sim_Begin (done : bool) : GoM PgSim (option GoErr) := λ s,
  let (fault, rest) := ps_step s in
  if done || fault then (mkPgSim (ps_schema s) (ps_tables s) None rest, Val (Some pgError))
  else (mkPgSim (ps_schema s) (ps_tables s) (Some (Some (ps_tables s))) rest, Val None).
Definition sim_TxExec (done : bool) (st : Stmt) : GoM PgSim (option GoErr) := λ s,
  let (fault, rest) := ps_step s in
  match ps_tx s with
  | Some (Some t) =>
    if done || fault || negb (stmt_ok (ps_schema s) st)
    then (mkPgSim (ps_schema s) (ps_tables s) (Some None) rest, Val (Some pgError))
    else (mkPgSim (ps_schema s) (ps_tables s) (Some (Some (stmt_run st t))) rest, Val None)
  | _ => (mkPgSim (ps_schema s) (ps_tables s) (Some None) rest, Val (Some pgError))
  end.
Definition sim_Commit : GoM PgSim (option GoErr) := λ s,
  let (fault, rest) := ps_step s in
  match ps_tx s with
  | Some (Some t) =>
    if fault then (mkPgSim (ps_schema s) (ps_tables s) None rest, Val (Some pgError))
    else (mkPgSim (ps_schema s) t None rest, Val None)
  | _ => (mkPgSim (ps_schema s) (ps_tables s) None rest, Val (Some pgError))
  end.
Definition sim_Rollback : GoM PgSim unit := λ s,
  (mkPgSim (ps_schema s) (ps_tables s) None (ps_faults s), Val tt).
Definition sim_Exec (done : bool) (st : Stmt) : GoM PgSim (option GoErr) := λ s,
  let (fault, rest) := ps_step s in
  if done || fault || negb (stmt_ok (ps_schema s) st)
  then (mkPgSim (ps_schema s) (ps_tables s) (ps_tx s) rest, Val (Some pgError))
  else (mkPgSim (ps_schema s) (stmt_run st (ps_tables s)) (ps_tx s) rest, Val None).

#[export] Program Instance PgSim_Postgres : Postgres PgSim := {|
  pg_schema := ps_schema;
  pg_tables := ps_tables;
  pg_tx := λ s, mjoin (ps_tx s);
  pg_BeginTxx := sim_Begin;
  pg_TxExec := sim_TxExec;
  pg_Commit := sim_Commit;
  pg_Rollback := sim_Rollback;
  pg_Exec := sim_Exec;
  pg_Query := λ A f s, (s, Val (Ok (f (ps_tables s))))
|}.
Next Obligation.
  intros done s. unfold wp, sim_Begin. destruct (ps_step s) as [fault rest].
  destruct (done || fault) eqn:E; simpl; eexists; split_and!; try done. by bool_prop.
Qed.
Next Obligation.
  intros done st s. unfold wp, sim_TxExec. destruct (ps_step s) as [fault rest].
  destruct (ps_tx s) as [[t |] |]; simpl; [| eexists; split_and!; done..].
  destruct (done || fault || negb (stmt_ok (ps_schema s) st)) eqn:E; simpl; eexists; split_and!; try done.
  intros _. bool_prop. split_and!; [done.. | by eexists].
Qed.
Next Obligation.
  intros s. unfold wp, sim_Commit. destruct (ps_step s) as [fault rest].
  destruct (ps_tx s) as [[t |] |]; simpl; [destruct fault |..]; simpl; eexists; split_and!; try done; by left.
Qed.
Next Obligation. done. Qed.
Next Obligation.
  intros done st s. unfold wp, sim_Exec. destruct (ps_step s) as [fault rest].
  destruct (done || fault || negb (stmt_ok (ps_schema s) st)) eqn:E; simpl; eexists; split_and!; try done.
  - by left.
  - intros _. by bool_prop.
Qed.
Next Obligation. intros A f s. split; [done |]. eexists. split; [done |]. by intros a [= <-]. Qed.

(** ** Transactions are atomic *)

Section transactions.
Context {W : Type} {PG : Postgres W}.

(** [body] touches the committed tables not at all and, when it reports no
  error, has applied [F] to the transaction's view. *)
Definition tx_applies (body : GoM W (option GoErr)) (F : Tables → Tables) : Prop :=
∀ w, wp body (λ o w', pg_schema w' = pg_schema w ∧ pg_tables w' = pg_tables w ∧ ∃ e, o = Val e ∧
                (e = None → ∃ t, pg_tx w = Some t ∧ pg_tx w' = Some (F t))) w.

Lemma execAll_applies done sts :
sts ≠ [] → tx_applies (execAll done sts) (λ t, foldl (λ t st, stmt_run st t) t sts).
Proof.
intros Hne. destruct sts as [| st sts]; [done |]. clear Hne. revert st.
induction sts as [| st' sts IH]; intros st w; apply wp_try;
  (eapply wp_mono; [apply pg_TxExec_spec |]);
  intros o w1 (e & -> & Hs1 & Ht1 & Hn & _);
  (destruct e as [e |]; [split_and!; [done.. |]; by eexists |]);
  destruct (Hn eq_refl) as (_ & _ & t & Hw & Hw1).
- apply wp_ret. split_and!; [done.. |]. eexists. split; [done |]. eauto.
- eapply wp_mono; [apply (IH st') |]. intros o w2 (Hs2 & Ht2 & e & -> & Hn2).
  split_and!; [congruence.. |]. exists e. split; [done |]. intros He.
  destruct (Hn2 He) as (t' & Ht' & Hw2). exists t. split; [done |]. simplify_eq. done.
Qed.

Lemma inTx_spec done body F w :
tx_applies body F →
wp (inTx done body) (λ o w', pg_schema w' = pg_schema w ∧ ∃ e, o = Val e ∧
   (e = None → done = false ∧ pg_tables w' = F (pg_tables w)) ∧
   (pg_tables w' = pg_tables w ∨ pg_tables w' = F (pg_tables w))) w.
Proof.
intros Hb. apply wp_try. eapply wp_mono; [apply pg_BeginTxx_spec |].
intros o w1 (e & -> & Hs1 & Ht1 & Hn). destruct e as [e |].
{ split; [done |]. exists (Some e). split_and!; [done.. | by left]. }
destruct (Hn eq_refl) as [Hd Htx]. apply wp_bind, wp_try.
eapply wp_mono; [apply Hb |]. intros o w2 (Hs2 & Ht2 & e & -> & He).
destruct e as [e |].
{ apply wp_bind. eapply wp_mono; [apply pg_Rollback_spec |]. intros o w3 (-> & Hs3 & Ht3 & _).
  apply wp_ret. split; [congruence |]. exists (Some e). split_and!; [done.. | left; congruence]. }
destruct (He eq_refl) as (t & Ht & Hw2). rewrite Htx in Ht. injection Ht as <-.
eapply wp_mono; [apply pg_Commit_spec |]. intros o w3 (e & -> & Hs3 & _ & Hn3 & Hf3).
apply wp_bind. eapply wp_mono; [apply pg_Rollback_spec |]. intros o w4 (-> & Hs4 & Ht4 & _).
apply wp_ret. split; [congruence |]. exists e. split; [done |]. rewrite Ht4.
assert (Hok : pg_tx w2 = Some (pg_tables w3) → pg_tables w3 = F (pg_tables w)) by (rewrite Hw2; congruence).
split; [auto |]. destruct e; [| auto]. destruct Hf3 as [Hf3 | Hf3]; [done | left; congruence | auto].
Qed.
End transactions.

(** ** Properties *)

(** The state of the tables aligned with chain head [head], from [t]. *)
Definition aligned (head : Z) (t t' : Tables) : Prop :=
  (∀ n, t_blocks t' !! n = if decide (n ≤ head) then t_blocks t !! n else None) ∧
  (∀ n i, t_transfers t' !! (n, i) = if decide (n ≤ head) then t_transfers t !! (n, i) else None) ∧
  (∀ c, t_checkpoints t' !! c = (λ _, pretty head) <$> t_checkpoints t !! c) ∧
  (∀ c r, t_status t' !! c = Some r → sr_last_processed_block r = Some head).

Lemma lookup_filter_le {A} (m : gmap Z A) head n :
  filter (λ kx, kx.1 ≤ head) m !! n = if decide (n ≤ head) then m !! n else None.
Proof.
  rewrite map_lookup_filter. destruct (m !! n); simpl; case_decide; try done; by case_guard.
Qed.

Lemma lookup_filter_le_pair {A} (m : gmap (Z * Z) A) head n i :
  filter (λ kx, kx.1.1 ≤ head) m !! (n, i) = if decide (n ≤ head) then m !! (n, i) else None.
Proof.
  rewrite map_lookup_filter. destruct (m !! (n, i)); simpl; case_decide; try done; by case_guard.
Qed.

(** Pruning the data above a chain head is atomic: when it reports success
    the tables hold exactly the blocks and transfers up to the head and every
    checkpoint is the head; when it reports an error (any statement, the commit,
    a cancelled context) the tables are either untouched or completely pruned,
    never in between. *)
Theorem PruneFutureData_atomic {W} {PG : Postgres W} (done : bool) (head : Z) (w : W) :
  wp (PruneFutureData done head) (λ o w', ∃ e, o = Val e ∧
     (e = None → aligned head (pg_tables w) (pg_tables w')) ∧
     (pg_tables w' = pg_tables w ∨ aligned head (pg_tables w) (pg_tables w'))) w.
Proof.
  eapply wp_mono; [by apply inTx_spec, execAll_applies |].
  intros o w' (_ & e & -> & Hok & Hany). exists e. split; [done |].
  assert (Hal : ∀ t', t' = foldl (λ t st, stmt_run st t) (pg_tables w)
      [deleteTransfersAboveStmt head; deleteBlocksAboveStmt head; updateCheckpointsStmt head; updateProcessedStmt head] →
    aligned head (pg_tables w) t').
  { intros t' ->. simpl. split_and!; simpl.
    - intros n. apply lookup_filter_le.
    - intros n i. rewrite !lookup_filter_le_pair. by repeat case_decide.
    - intros c. apply lookup_fmap.
    - intros c r Hr. rewrite lookup_fmap in Hr. by apply fmap_Some in Hr as (r' & _ & ->). }
  split.
  - intros He. apply Hal. by apply Hok.
  - destruct Hany as [? | ?]; auto.
Qed.
