(* ===== verification/Sequencer.v ===== *)
(** * The Sequencer (internal/engine/sequencer_{core,batch,process}.go)

    Definitions first: the state, one definition per method, the main loop.
    [SequencerSpec] then holds the abstract specification (an automaton over
    the next expected block) and the proofs that the methods refine it. *)

From S2P Require Import Prelude GoInt Types.
From Stdlib Require Import ZArith Lia String.
From stdpp Require Import base gmap sorting strings list.
Open Scope string_scope.
Open Scope Z_scope.

(** ** Interface to the processor

    sequencer_core.go, [type BlockProcessor interface]: the operations the
    Sequencer calls, over an arbitrary world [W] (the processor, its queues
    and everything behind it). [GetRPCClient] may return [nil]. *)

Class BlockProcessor (W : Type) := {
  ProcessBlockWithRetry : BlockData → nat → GoM W (option GoErr);
  ProcessBatch : list BlockData → Z → GoM W (option GoErr);
  GetRPCClient : option (RPCClient W)
}.

(** What the Sequencer does to the outside, in order: the record the
    specification speaks about. *)
Inductive SeqEvent : Type :=
| EvProcessed (d : BlockData)          (* ProcessBlockWithRetry returned nil *)
| EvBatch (ds : list BlockData)        (* ProcessBatch returned nil *)
| EvTeleport (rangeEnd : Z)            (* a range-progress signal was applied *)
| EvSkip (to : Z)                      (* expectedBlock forced to [to] *)
| EvReorg (at_ : Z)                    (* a reorg at height [at_] was handled *)
| EvReorgSent (at_ : Z)                (* ... and reported on reorgCh *)
| EvGapFill (from to : Z)              (* go fetcher.Schedule(from, to) *)
| EvReset (to : Z)                     (* ResetExpectedBlock by the watchdog *)
| EvFatal (e : GoErr).                 (* err offered to fatalErrCh *)

(** sequencer_core.go, [type Sequencer struct].  [buffer] is keyed by the
    decimal representation of a block number, an injective encoding: the key
    is the number.  [sq_fetcher] is [None] for a nil fetcher and otherwise the
    fetcher's [paused] flag.  [sq_trace] is the record of events. *)
Record Sequencer (W : Type) := mkSequencer {
  sq_expectedBlock : Z;
  sq_buffer : gmap Z BlockData;
  sq_lastProgressAt : Z;
  sq_gapFillCount : Z;
  sq_fetcher : option bool;
  sq_world : W;
  sq_trace : list SeqEvent
}.
Arguments mkSequencer {W}.
Arguments sq_expectedBlock {W}.
Arguments sq_buffer {W}.
Arguments sq_lastProgressAt {W}.
Arguments sq_gapFillCount {W}.
Arguments sq_fetcher {W}.
Arguments sq_world {W}.
Arguments sq_trace {W}.

(** The environment of one call: the clock (nanoseconds), the chain id, the
    reorg channel ([None]: nil; [Some true]: the send is taken; [Some false]:
    [ctx.Done()] is taken), [ctx.Err()], and what other goroutines do to the
    Sequencer while [handleBatch] has released [s.mu] for its IO phase. *)
Record SeqEnv (W : Type) := mkSeqEnv {
  env_now : Z;
  env_chainID : Z;
  env_reorgCh : option bool;
  env_ctxErr : GoErr;
  env_others : GoM (Sequencer W) unit
}.
Arguments mkSeqEnv {W}.
Arguments env_now {W}.
Arguments env_chainID {W}.
Arguments env_reorgCh {W}.
Arguments env_ctxErr {W}.
Arguments env_others {W}.

Definition second : Z := 1000000000.

Section setters.
Context {W : Type}.
Implicit Types s : Sequencer W.

Definition set_expected (n : Z) s : Sequencer W :=
mkSequencer n (sq_buffer s) (sq_lastProgressAt s) (sq_gapFillCount s) (sq_fetcher s) (sq_world s) (sq_trace s).
Definition set_buffer (b : gmap Z BlockData) s : Sequencer W :=
mkSequencer (sq_expectedBlock s) b (sq_lastProgressAt s) (sq_gapFillCount s) (sq_fetcher s) (sq_world s) (sq_trace s).
Definition set_lastProgress (t : Z) s : Sequencer W :=
mkSequencer (sq_expectedBlock s) (sq_buffer s) t (sq_gapFillCount s) (sq_fetcher s) (sq_world s) (sq_trace s).
Definition set_gapFill (n : Z) s : Sequencer W :=
mkSequencer (sq_expectedBlock s) (sq_buffer s) (sq_lastProgressAt s) n (sq_fetcher s) (sq_world s) (sq_trace s).
Definition set_fetcher (f : option bool) s : Sequencer W :=
mkSequencer (sq_expectedBlock s) (sq_buffer s) (sq_lastProgressAt s) (sq_gapFillCount s) f (sq_world s) (sq_trace s).
Definition set_world (w : W) s : Sequencer W :=
mkSequencer (sq_expectedBlock s) (sq_buffer s) (sq_lastProgressAt s) (sq_gapFillCount s) (sq_fetcher s) w (sq_trace s).
Definition emit (e : SeqEvent) s : Sequencer W :=
mkSequencer (sq_expectedBlock s) (sq_buffer s) (sq_lastProgressAt s) (sq_gapFillCount s) (sq_fetcher s) (sq_world s) (sq_trace s ++ [e]).
End setters.

(** [s.fetcher.Pause()] / [s.fetcher.Resume()] under [s.fetcher != nil]. *)
Definition pauseFetcher (f : option bool) : option bool := (λ _, true) <$> f.
Definition resumeFetcher (f : option bool) : option bool := (λ _, false) <$> f.

(** The smallest key of the buffer, as the loops over [s.buffer] compute it. *)
Definition minBuffered (b : gmap Z BlockData) : option Z :=
  foldr (λ k acc, match acc with
                  | None => Some k
                  | Some m => Some (if k <? m then k else m)
                  end) None (map fst (map_to_list b)).

Section methods.
Context {W : Type} {BP : BlockProcessor W}.
Implicit Types (env : SeqEnv W) (d : BlockData).
Local Abbreviation M := (GoM (Sequencer W)).

(** A call on the processor (or its RPC client). *)
Definition onWorld {A} (m : GoM W A) : M A := zoom sq_world set_world m.

(** sequencer_core.go, [NewSequencerWithFetcher]. *)
Definition NewSequencer (startBlock now : Z) (fetcher : option bool) (w : W) : Sequencer W :=
mkSequencer startBlock ∅ now 0 fetcher w [].

(** sequencer_process.go, [handleReorgLocked]. *)
Definition handleReorgLocked env d : M (option GoErr) :=
match bd_Block d with
| None => go_panic "nil pointer dereference: data.Block.Number()"
| Some b =>
  let blockNum := blk_Number b in
  modify (λ s, set_fetcher (pauseFetcher (sq_fetcher s)) s);;
  modify (λ s, set_buffer (filter (λ kd, kd.1 < blockNum) (sq_buffer s)) s);;
  modify (λ s, emit (EvReorg blockNum) (set_expected blockNum s));;
  match env_reorgCh env with
  | None => mret (Some ErrReorgNeedRefetch)
  | Some true => modify (emit (EvReorgSent blockNum));; mret (Some ErrReorgNeedRefetch)
  | Some false => mret (Some (env_ctxErr env))
  end
end.

(** sequencer_process.go, [processSequentialLocked]. *)
Definition processSequentialLocked env d : M (option GoErr) :=
err ← onWorld (ProcessBlockWithRetry d 3);
match err with
| Some e => if is_ReorgError e then handleReorgLocked env d else mret (Some e)
| None =>
  modify (λ s, emit (EvProcessed d) (set_expected (sq_expectedBlock s + 1) s));;
  modify (set_lastProgress (env_now env));;
  modify (set_gapFill 0);;
  mret None
end.

(** sequencer_process.go, the [for] loop of
  [processBufferContinuationsLocked]. *)
Fixpoint continuationLoop env (fuel : nat) : M unit :=
match fuel with
| O => mret tt
| S fuel' =>
  s ← gets id;
  let nextNum := sq_expectedBlock s in
  match sq_buffer s !! nextNum with
  | None => mret tt
  | Some d =>
    modify (λ s, set_buffer (delete nextNum (sq_buffer s)) s);;
    err ← processSequentialLocked env d;
    match err with
    | Some _ => modify (λ s, set_buffer (<[nextNum := d]> (sq_buffer s)) s)
    | None => continuationLoop env fuel'
    end
  end
end.

(** The resume check that ends [processBufferContinuationsLocked]. *)
Definition resumeIfDrained : M unit :=
modify (λ s, if bool_decide (sq_fetcher s = Some true) && (Z.of_nat (size (sq_buffer s)) <? 200)
             then set_fetcher (resumeFetcher (sq_fetcher s)) s else s).

(** Every iteration that continues removes a buffered block, so one
  iteration more than there are blocks is enough fuel
  ([continuationLoop_fuel] below). *)
Definition processBufferContinuationsLocked env : M unit :=
s ← gets id;
continuationLoop env (S (size (sq_buffer s)));;
resumeIfDrained.

(** sequencer_batch.go, [isRangeProgressSignal]. *)
Definition isRangeProgressSignal d : bool :=
match bd_Number d, bd_Block d, bd_RangeEnd d, bd_Err d with
| None, None, Some _, None => true
| _, _, _, _ => false
end.

(** sequencer_batch.go, [teleportProgress]. *)
Definition teleportProgress env (rangeEnd : Z) : M unit :=
s ← gets id;
if sq_expectedBlock s <=? rangeEnd then
  modify (λ s, emit (EvTeleport rangeEnd) (set_expected (rangeEnd + 1) s));;
  modify (set_lastProgress (env_now env));;
  processBufferContinuationsLocked env
else mret tt.

(** sequencer_batch.go, [enforceBufferLimit]. *)
Definition bufferLimit env : Z := if env_chainID env =? 31337 then 50000 else 1000.
Definition enforceBufferLimit env : M unit :=
s ← gets id;
if bufferLimit env <? Z.of_nat (size (sq_buffer s)) then
  match minBuffered (sq_buffer s) with
  | Some m =>
    modify (λ s, emit (EvSkip m) (set_expected m s));;
    processBufferContinuationsLocked env
  | None => mret tt
  end
else mret tt.

(** sequencer_batch.go, the re-fetch in [handleBlockLocked] of a block that
  arrived without its body; a failure is logged and ignored. *)
Definition hydrate d (blockNum : option Z) : M BlockData :=
match bd_Block d, blockNum, GetRPCClient with
| None, Some n, Some rpc =>
  r ← onWorld (rpc_BlockByNumber rpc n);
  match r with
  | Ok b => mret (mkBlockData (bd_Number d) (bd_RangeEnd d) (Some b) (bd_Err d) (bd_Logs d))
  | Err _ => mret d
  end
| _, _, _ => mret d
end.

(** The tail of [handleBlockLocked], once the block is hydrated. *)
Definition placeBlock env d : M (option GoErr) :=
s ← gets id;
match effectiveNum d with
| None => mret None
| Some n =>
  if n =? sq_expectedBlock s then
    try processSequentialLocked env d ;;;
    (processBufferContinuationsLocked env;; mret None)
  else if n <? sq_expectedBlock s then mret None
  else
    modify (λ s, set_buffer (<[n := d]> (sq_buffer s)) s);;
    enforceBufferLimit env;;
    mret None
end.

(** sequencer_batch.go, the query of [handleFetchError]. *)
Definition retryQuery (n : Z) : FilterQuery := mkFilterQuery n n [] [[TransferEventHash]].

(** sequencer_batch.go, [handleBlockLocked] and [handleFetchError].  The two
  call each other; the retry runs with [data.Err = nil] and so does not
  call [handleFetchError] again: two levels of fuel are enough
  ([handleBlockLocked_fuel] below). *)
Fixpoint handleBlockLocked_fuel env (fuel : nat) d : M (option GoErr) :=
match fuel with
| O => mret None
| S fuel' =>
  if isRangeProgressSignal d then
    match bd_RangeEnd d with
    | Some re => teleportProgress env re;; mret None
    | None => mret None
    end
  else
    match bd_Err d with
    | Some _ => (* handleFetchError *)
      match getBlockNum d, GetRPCClient with
      | Some n, Some rpc =>
        r ← onWorld (rpc_BlockByNumber rpc n);
        match r with
        | Err _ => mret None
        | Ok b =>
          rl ← onWorld (rpc_FilterLogs rpc (retryQuery n));
          match rl with
          | Err _ => mret None
          | Ok logs =>
            handleBlockLocked_fuel env fuel' (mkBlockData (bd_Number d) (bd_RangeEnd d) (Some b) None logs)
          end
        end
      | _, _ => mret None
      end
    | None =>
      d' ← hydrate d (getBlockNum d);
      placeBlock env d'
    end
end.
Definition handleBlockLocked env d : M (option GoErr) := handleBlockLocked_fuel env 2 d.

(** sequencer_batch.go, [handleBlock] (the lock is released on return). *)
Definition handleBlock env d : M (option GoErr) := handleBlockLocked env d.

(** sequencer_batch.go, the number [handleBatch] classifies by is
  [getBlockNum]. The inner loop of phase 1: the longest run of healthy
  blocks numbered [next], [next+1], ..., and what follows it. *)
Fixpoint takeRun (next : Z) (batch : list BlockData) : list BlockData * list BlockData :=
match batch with
| [] => ([], [])
| nd :: rest =>
  match bd_Err nd, getBlockNum nd with
  | None, Some n =>
    if n =? next then
      let '(run, remaining) := takeRun (next + 1) rest in (nd :: run, remaining)
    else ([], batch)
  | _, _ => ([], batch)
  end
end.

(** Phase 1 of [handleBatch]: the blocks before the first healthy block
  numbered [expected] ([singleBlocks]), the run that starts there
  ([sequentialBatch]) and the rest ([remaining]). *)
Fixpoint classify (expected : Z) (batch : list BlockData)
: list BlockData * list BlockData * list BlockData :=
match batch with
| [] => ([], [], [])
| d :: rest =>
  if bool_decide (getBlockNum d = Some expected) && bool_decide (bd_Err d = None) then
    let '(run, remaining) := takeRun (expected + 1) rest in ([], d :: run, remaining)
  else
    let '(singles, sq, remaining) := classify expected rest in (d :: singles, sq, remaining)
end.

(** The [for _, data := range ...] loops of [handleBatch]. *)
Fixpoint handleBlocks env (ds : list BlockData) : M (option GoErr) :=
match ds with
| [] => mret None
| d :: rest => try handleBlock env d ;;; handleBlocks env rest
end.

(** Phases 2 and 3A for a run of at least two blocks: [ProcessBatch] runs
  without [s.mu], so [env_others] may run; the result is committed after. *)
Definition commitBatch env (sequentialBatch : list BlockData) (nextExpected : Z) : M (option GoErr) :=
env_others env;;
err ← onWorld (ProcessBatch sequentialBatch (env_chainID env));
match err with
| Some e => mret (Some e)
| None =>
  modify (λ s, emit (EvBatch sequentialBatch) (set_expected nextExpected s));;
  modify (set_lastProgress (env_now env));;
  modify (set_gapFill 0);;
  processBufferContinuationsLocked env;;
  mret None
end.

(** The watermark check that opens [handleBatch]. *)
Definition pauseIfOverfull : M unit :=
modify (λ s, if bool_decide (sq_fetcher s = Some false) && (2000 <? Z.of_nat (size (sq_buffer s)))
             then set_fetcher (pauseFetcher (sq_fetcher s)) s else s).

(** sequencer_batch.go, [handleBatch]. *)
Definition handleBatch env (batch : list BlockData) : M (option GoErr) :=
pauseIfOverfull;;
s ← gets id;
let '(singleBlocks, sequentialBatch, remaining) := classify (sq_expectedBlock s) batch in
match sequentialBatch with
| [] => handleBlocks env singleBlocks
| [d] =>
  try handleBlock env d ;;;
  try handleBlocks env remaining ;;;
  handleBlocks env singleBlocks
| _ =>
  try commitBatch env sequentialBatch
        (sq_expectedBlock s + Z.of_nat (List.length sequentialBatch)) ;;;
  try handleBlocks env remaining ;;;
  handleBlocks env singleBlocks
end.

(** sequencer_core.go, [handleStall]. *)
Definition handleStall env : M unit :=
s ← gets id;
let expected := sq_expectedBlock s in
let idleTime := env_now env - sq_lastProgressAt s in
let forceTo n := modify (λ s, set_gapFill 0 (emit (EvSkip n) (set_expected n (set_lastProgress (env_now env) s)))) in
if 55 * second <? idleTime then
  match minBuffered (sq_buffer s) with
  | Some m =>
    if expected <? m then
      if bool_decide (sq_fetcher s ≠ None) && (sq_gapFillCount s <? 3) then
        modify (λ s, set_gapFill (sq_gapFillCount s + 1) (emit (EvGapFill expected (m - 1)) s))
      else forceTo m
    else forceTo (expected + 1)
  | None => forceTo (expected + 1)
  end
else mret tt.

(** sequencer_core.go, [GetIdleTime], [GetExpectedBlock]; sequencer_process.go,
  [GetBufferSize]. *)
Definition GetIdleTime (now : Z) : M Z := gets (λ s, now - sq_lastProgressAt s).
Definition GetExpectedBlock : M Z := gets sq_expectedBlock.
Definition GetBufferSize : M nat := gets (λ s, size (sq_buffer s)).

(** sequencer_core.go, [ResetExpectedBlock] and [ClearBuffer], the deadlock
  watchdog's entry points. *)
Definition ResetExpectedBlock (block now : Z) : M unit :=
modify (λ s, set_lastProgress now (emit (EvReset block) (set_expected block s))).
Definition ClearBuffer : M unit := modify (set_buffer ∅).

(** sequencer_process.go, [drainBuffer]. *)
Definition drainBuffer env : M unit := processBufferContinuationsLocked env.
End methods.

(** ** Collecting a batch

    [sort.Slice] leaves the order of elements that compare equal open; what
    [collectBatch] relies on is that it permutes the slice and, when the
    comparison is by number alone, sorts it. *)

Definition numLess (a b : BlockData) : bool :=
  match getBlockNum a, getBlockNum b with
  | None, _ => true
  | _, None => false
  | Some x, Some y => x <? y
  end.

(** [a] may stand before [b] in a slice sorted by [numLess]. *)
Definition numLe (a b : BlockData) : Prop :=
  ∃ x y, getBlockNum a = Some x ∧ getBlockNum b = Some y ∧ x ≤ y.

Class SortSlice := {
  sort_Slice : (BlockData → BlockData → bool) → list BlockData → list BlockData;
  sort_Slice_perm less l : sort_Slice less l ≡ₚ l;
  sort_Slice_sorted l :
    (∀ d, d ∈ l → is_Some (getBlockNum d)) → StronglySorted numLe (sort_Slice numLess l)
}.

(** sequencer_core.go, [collectBatch]: [received] is what the select loop could
    receive before the timeout, [ctx.Done()] or the closing of the channel; the
    loop stops at 100 blocks. *)
Definition maxBatchSize : nat := 100.
Definition collectBatch `{SortSlice} (first : BlockData) (received : list BlockData) : list BlockData :=
  sort_Slice numLess (first :: take (maxBatchSize - 1) received).

(** ** The main loop *)

(** What the [select] of [Run] can pick. *)
Inductive SeqInput : Type :=
| InDone
| InStallTick
| InPulseTick
| InClosed
| InData (first : BlockData) (received : list BlockData).

Section run.
Context {W : Type} {BP : BlockProcessor W} `{SortSlice}.

(** One iteration of [Run]; [false]: the loop returns. *)
Definition runStep (env : SeqEnv W) (i : SeqInput) : GoM (Sequencer W) bool :=
match i with
| InDone | InClosed => drainBuffer env;; mret false
| InStallTick => handleStall env;; mret true
| InPulseTick => mret true
| InData first received =>
  err ← handleBatch env (collectBatch first received);
  match err with
  | Some e => modify (emit (EvFatal e));; mret false
  | None => mret true
  end
end.

(** sequencer_core.go, [Run], on the inputs its [select] picks in order.
  [Val true]: still in the loop when the inputs end. *)
Fixpoint Run (inputs : list (SeqEnv W * SeqInput)) : GoM (Sequencer W) bool :=
match inputs with
| [] => mret true
| (env, i) :: rest =>
  continue ← runStep env i;
  if (continue : bool) then Run rest else mret false
end.
End run.
