(* ===== verification/SequencerSpec.v ===== *)
(** * The Sequencer's specification

    The abstract Sequencer is an automaton over one number, the next expected
    block; the methods of [Sequencer.v] refine it: whatever the processor, the
    RPC node and the clock do, the events a method adds to the trace are a run
    of the automaton from the old to the new [expectedBlock]. *)

From S2P Require Import Prelude GoInt Types Sequencer.
From Stdlib Require Import ZArith Lia String.
From stdpp Require Import base gmap sorting strings pretty list.
Open Scope Z_scope.

(** ** The automaton *)

(** [spec_step e ev e']: event [ev] may happen when block [e] is expected, and
    block [e'] is expected after it. *)
Inductive spec_step : Z → SeqEvent → Z → Prop :=
| SpecProcess e d :
    effectiveNum d = Some e → bd_Err d = None → spec_step e (EvProcessed d) (e + 1)
| SpecBatch e ds :
    Forall (λ d, bd_Err d = None) ds →
    getBlockNum <$> ds = Some <$> seqZ e (Z.of_nat (length ds)) →
    spec_step e (EvBatch ds) (e + Z.of_nat (length ds))
| SpecTeleport e re : e ≤ re → spec_step e (EvTeleport re) (re + 1)
| SpecSkip e to : spec_step e (EvSkip to) to
| SpecReorg e : spec_step e (EvReorg e) e
| SpecReorgSent e : spec_step e (EvReorgSent e) e
| SpecGapFill e to : e ≤ to → spec_step e (EvGapFill e to) e
| SpecReset e to : spec_step e (EvReset to) to
| SpecFatal e err : spec_step e (EvFatal err) e.

Inductive spec_run : Z → list SeqEvent → Z → Prop :=
| SpecNil e : spec_run e [] e
| SpecCons e ev e' evs e'' :
    spec_step e ev e' → spec_run e' evs e'' → spec_run e (ev :: evs) e''.

(** The numbers of the blocks an event hands to the processor's completed
    work. *)
Definition evNumbers (ev : SeqEvent) : list Z :=
  match ev with
  | EvProcessed d => option_list (effectiveNum d)
  | EvBatch ds => omap getBlockNum ds
  | _ => []
  end.

(** Events that move [expectedBlock] without processing blocks. *)
Definition isJump (ev : SeqEvent) : bool :=
  match ev with EvTeleport _ | EvSkip _ | EvReset _ => true | _ => false end.

(** Every buffered block is healthy and filed under its own number. *)
Definition buffer_ok (b : gmap Z BlockData) : Prop :=
  ∀ k d, b !! k = Some d → effectiveNum d = Some k ∧ bd_Err d = None.

(** [s'] is reached from [s] by events the automaton allows. *)
Definition refines_step {W} (s s' : Sequencer W) : Prop :=
  buffer_ok (sq_buffer s) →
  buffer_ok (sq_buffer s') ∧
  ∃ evs, sq_trace s' = sq_trace s ++ evs ∧ spec_run (sq_expectedBlock s) evs (sq_expectedBlock s').

(** The other goroutines leave [expectedBlock] and the trace alone while a batch
    is in flight, and add nothing to the buffer (the watchdog's [ClearBuffer] is
    allowed). *)
Definition quiet {W} (env : SeqEnv W) : Prop :=
  ∀ s, wp (env_others env) (λ o s', o = Val tt ∧ sq_expectedBlock s' = sq_expectedBlock s ∧
                                    sq_trace s' = sq_trace s ∧ sq_buffer s' ⊆ sq_buffer s) s.

(** ** Runs of the automaton *)

Lemma spec_run_app e evs e' evs' e'' :
  spec_run e evs e' → spec_run e' evs' e'' → spec_run e (evs ++ evs') e''.
Proof. induction 1; simpl; eauto using spec_run. Qed.

Lemma spec_run_one e ev e' : spec_step e ev e' → spec_run e [ev] e'.
Proof. eauto using spec_run. Qed.

#[export] Instance refines_step_pre {W} : PreOrder (@refines_step W).
Proof.
  split.
  - intros s Hb. split; [done |]. exists []. rewrite app_nil_r. split; [done | constructor].
  - intros s1 s2 s3 H12 H23 Hb. destruct (H12 Hb) as [Hb2 (evs & Ht & Hr)].
    destruct (H23 Hb2) as [Hb3 (evs' & Ht' & Hr')].
    split; [done |]. exists (evs ++ evs'). rewrite Ht', Ht, app_assoc.
    eauto using spec_run_app.
Qed.

(** A step that keeps [expectedBlock] and the trace and keeps the buffer healthy. *)
Lemma refines_silent {W} (s s' : Sequencer W) :
  sq_expectedBlock s' = sq_expectedBlock s → sq_trace s' = sq_trace s →
  (buffer_ok (sq_buffer s) → buffer_ok (sq_buffer s')) → refines_step s s'.
Proof.
  intros He Ht Hb Hs. split; [auto |]. exists []. rewrite app_nil_r, He.
  split; [done | constructor].
Qed.

(** A step that adds one event and keeps the buffer healthy. *)
Lemma refines_event {W} (s s' : Sequencer W) ev :
  sq_trace s' = sq_trace s ++ [ev] →
  spec_step (sq_expectedBlock s) ev (sq_expectedBlock s') →
  (buffer_ok (sq_buffer s) → buffer_ok (sq_buffer s')) → refines_step s s'.
Proof. intros Ht Hs Hb H. split; [auto |]. exists [ev]. auto using spec_run_one. Qed.

Lemma buffer_ok_sub b b' : b' ⊆ b → buffer_ok b → buffer_ok b'.
Proof. intros Hs Hb k d Hk. apply Hb. by eapply lookup_weaken. Qed.

Lemma buffer_ok_insert b n d :
  effectiveNum d = Some n → bd_Err d = None → buffer_ok b → buffer_ok (<[n := d]> b).
Proof. intros Hn He Hb k d' Hk. apply lookup_insert_Some in Hk as [[<- <-] | [_ Hk]]; auto. Qed.

(** ** What each method may do: [safe m s] *)

(** [safe m s]: from [s], [m] refines the automaton, whether it returns or
    panics. *)
Definition safe {W A} (m : GoM (Sequencer W) A) (s : Sequencer W) : Prop :=
  wp m (λ _ s', refines_step s s') s.

Lemma safe_bind {W A B} (m : GoM (Sequencer W) A) (k : A → GoM (Sequencer W) B) s :
  wp m (λ o s', refines_step s s' ∧ match o with Val a => safe (k a) s' | Panic _ => True end) s →
  safe (m ≫= k) s.
Proof.
  intros H. apply wp_bind. eapply wp_mono; [exact H |].
  intros [a | w] s' [Hr Hk]; [| done]. unfold safe in Hk.
  eapply (wp_mono _ _ _ _ Hk). intros o s'' Hr'. by transitivity s'.
Qed.

Lemma safe_seq {W A B} (m : GoM (Sequencer W) A) (k : A → GoM (Sequencer W) B) s :
  safe m s → (∀ a s', safe (k a) s') → safe (m ≫= k) s.
Proof.
  intros Hm Hk. apply safe_bind. unfold safe in Hm. eapply (wp_mono _ _ _ _ Hm).
  intros [a | w] s' Hr; split; auto.
Qed.

Lemma safe_try {W} (m k : GoM (Sequencer W) (option GoErr)) s :
  safe m s → (∀ s', safe k s') → safe (try m ;;; k) s.
Proof.
  intros Hm Hk. apply safe_seq; [done |]. intros [e |] s'; [| auto].
  unfold safe. apply wp_ret. reflexivity.
Qed.

Lemma safe_ret {W A} (a : A) (s : Sequencer W) : safe (mret a) s.
Proof. unfold safe. apply wp_ret. reflexivity. Qed.

Lemma safe_gets {W A} (f : Sequencer W → A) (s : Sequencer W) : safe (gets f) s.
Proof. unfold safe. apply wp_gets. reflexivity. Qed.

Lemma safe_panic {W A} why (s : Sequencer W) : safe (go_panic (A := A) why) s.
Proof. unfold safe. apply wp_panic. reflexivity. Qed.

Lemma safe_modify {W} f (s : Sequencer W) : refines_step s (f s) → safe (modify f) s.
Proof. intros H. unfold safe. by apply wp_modify. Qed.

Lemma safe_world {W A} (m : GoM W A) s : safe (onWorld m) s.
Proof. unfold safe, onWorld. apply wp_zoom. unfold wp. by apply refines_silent. Qed.

#[export] Hint Resolve safe_ret safe_gets safe_panic safe_world : indexer.

(** The buffer invariant may be assumed: [refines_step] is relative to it. *)
Lemma safe_assume {W A} (m : GoM (Sequencer W) A) s :
  (buffer_ok (sq_buffer s) → safe m s) → safe m s.
Proof. unfold safe, wp, refines_step. intros H Hb. by apply H. Qed.

Lemma safe_silent {W} (f : Sequencer W → Sequencer W) s :
  sq_expectedBlock (f s) = sq_expectedBlock s → sq_trace (f s) = sq_trace s →
  (buffer_ok (sq_buffer s) → buffer_ok (sq_buffer (f s))) → safe (modify f) s.
Proof. intros. by apply safe_modify, refines_silent. Qed.

(** [safe_auto]: sequential composition of operations that are safe in every state. *)
Ltac safe_auto :=
  repeat first
    [ progress intros
    | solve [eauto with indexer nocore]
    | apply safe_silent; simpl; by intros
    | apply safe_try | apply safe_seq
    | match goal with
      | |- safe (if ?b then _ else _) _ => destruct b eqn:?
      | |- safe (match ?x with _ => _ end) _ => destruct x eqn:?
      end ].

Section methods.
Context {W : Type} {BP : BlockProcessor W}.
Implicit Types (s : Sequencer W) (env : SeqEnv W) (d : BlockData).

Lemma handleReorgLocked_safe env d s :
effectiveNum d = Some (sq_expectedBlock s) → safe (handleReorgLocked env d) s.
Proof.
unfold handleReorgLocked, effectiveNum. intros Hn.
destruct (bd_Block d) as [b |]; [| apply safe_panic]. injection Hn as Hn.
assert (Hev : ∀ evs, evs = [EvReorg (blk_Number b)] ∨
                     evs = [EvReorg (blk_Number b); EvReorgSent (blk_Number b)] →
                     spec_run (sq_expectedBlock s) evs (blk_Number b)).
{ rewrite Hn. intros evs [-> | ->]; eauto using spec_run, spec_step. }
unfold safe. wp_go; intros Hb; simpl; (split; [eapply buffer_ok_sub, Hb; apply map_filter_subseteq |]);
  eexists; (split; [by rewrite <- ?app_assoc | by auto]).
Qed.

Lemma processSequentialLocked_safe env d s :
effectiveNum d = Some (sq_expectedBlock s) → bd_Err d = None →
safe (processSequentialLocked env d) s.
Proof.
intros Hn He. unfold processSequentialLocked.
apply safe_bind, wp_zoom. unfold wp. split; [by apply refines_silent |].
destruct (snd _) as [[e |] |]; [| | done].
- destruct (is_ReorgError e); [by apply handleReorgLocked_safe | apply safe_ret].
- apply safe_seq; [| safe_auto].
  apply safe_modify, (refines_event _ _ (EvProcessed d)); [done | | done].
  by constructor.
Qed.

Lemma continuationLoop_safe env fuel s : safe (continuationLoop env fuel) s.
Proof.
revert s. induction fuel as [| fuel IH]; intros s; simpl; [apply safe_ret |].
apply safe_assume. intros Hb.
apply safe_bind, wp_gets. split; [done |]. simpl.
destruct (sq_buffer s !! sq_expectedBlock s) as [d |] eqn:Hd; [| apply safe_ret].
destruct (Hb _ _ Hd) as [Hn He].
apply safe_bind, wp_modify. split.
{ apply refines_silent; [done.. |]. apply buffer_ok_sub, delete_subseteq. }
apply safe_seq; [by apply processSequentialLocked_safe |].
intros [e |] s'; [| apply IH].
apply safe_silent; [done.. |]. by apply buffer_ok_insert.
Qed.

Lemma processBufferContinuationsLocked_safe env s :
safe (processBufferContinuationsLocked env) s.
Proof.
apply safe_seq; [apply safe_gets |]. intros a s'.
apply safe_seq; [apply continuationLoop_safe |]. intros _ s''.
apply safe_silent; simpl; by case_match.
Qed.

Lemma teleportProgress_safe env re s : safe (teleportProgress env re) s.
Proof.
apply safe_bind, wp_gets. split; [done |]. simpl.
destruct (Z.leb_spec (sq_expectedBlock s) re); [| apply safe_ret].
apply safe_seq.
{ apply safe_modify, (refines_event _ _ (EvTeleport re)); [done | by constructor | done]. }
intros _ s'. apply safe_seq; [by apply safe_silent |].
intros _ s''. apply processBufferContinuationsLocked_safe.
Qed.

(** [expectedBlock] is forced to [n]. *)
Lemma forced_safe n s (f : Sequencer W → Sequencer W) :
sq_trace (f s) = sq_trace s ++ [EvSkip n] → sq_expectedBlock (f s) = n →
sq_buffer (f s) = sq_buffer s → safe (modify f) s.
Proof.
intros Ht Hn Hb. apply safe_modify, (refines_event _ _ (EvSkip n)); [done | | by rewrite Hb].
rewrite Hn. constructor.
Qed.

Lemma enforceBufferLimit_safe env s : safe (enforceBufferLimit env) s.
Proof.
apply safe_seq; [apply safe_gets |]. intros a s'. case_match; [| apply safe_ret].
destruct (minBuffered _) as [m |]; [| apply safe_ret].
apply safe_seq; [by apply (forced_safe m) |].
intros _ s''. apply processBufferContinuationsLocked_safe.
Qed.

Lemma placeBlock_safe env d s : bd_Err d = None → safe (placeBlock env d) s.
Proof.
intros He. apply safe_bind, wp_gets. split; [done |]. simpl.
destruct (effectiveNum d) as [n |] eqn:Hn; [| apply safe_ret].
destruct (Z.eqb_spec n (sq_expectedBlock s)) as [-> | Hne].
- apply safe_try; [by apply processSequentialLocked_safe |]. intros s'.
  apply safe_seq; [apply processBufferContinuationsLocked_safe | auto with indexer].
- case_match; [apply safe_ret |].
  apply safe_seq; [| intros; apply safe_seq; [apply enforceBufferLimit_safe | auto with indexer]].
  apply safe_silent; [done.. |]. by apply buffer_ok_insert.
Qed.

(** [hydrate] only adds the block. *)
Lemma hydrate_wp d n s (Q : outcome BlockData → Sequencer W → Prop) :
(∀ d' w o, bd_Err d' = bd_Err d → bd_Number d' = bd_Number d → o = Val d' →
           Q o (set_world w s)) →
(∀ w why, Q (Panic why) (set_world w s)) →
wp (hydrate d n) Q s.
Proof.
intros Hv Hp. unfold hydrate.
assert (Hret : wp (mret d) Q s).
{ apply wp_ret. replace s with (set_world (sq_world s) s) by (by destruct s).
  by eapply Hv; [| | reflexivity]. }
destruct (bd_Block d), n, GetRPCClient; try exact Hret.
apply wp_bind, wp_zoom. unfold wp.
destruct (snd _) as [[b | e] |]; [| | by apply Hp];
  apply wp_ret; by eapply Hv; [| | reflexivity].
Qed.

Lemma handleBlockLocked_safe env fuel d s : safe (handleBlockLocked_fuel env fuel d) s.
Proof.
revert d s. induction fuel as [| fuel IH]; intros d s; simpl; [apply safe_ret |].
case_match.
- case_match; [| apply safe_ret].
  apply safe_seq; [apply teleportProgress_safe | auto with indexer].
- destruct (bd_Err d) eqn:He.
  + do 2 (case_match; [| auto with indexer]).
    apply safe_seq; [auto with indexer |]. intros [b |] s'; [| apply safe_ret].
    apply safe_seq; [auto with indexer |]. intros [l |] s''; [apply IH | apply safe_ret].
  + apply safe_bind, hydrate_wp.
    * intros d' w o He' _ ->. split; [by apply refines_silent |].
      apply placeBlock_safe. congruence.
    * intros w why. split; [by apply refines_silent | done].
Qed.

Lemma handleBlocks_safe env ds s : safe (handleBlocks env ds) s.
Proof.
revert s. induction ds as [| d ds IH]; intros s; simpl; [apply safe_ret |].
apply safe_try; [apply handleBlockLocked_safe | apply IH].
Qed.
End methods.

(** ** Classification of a batch *)

(** [ds] are healthy blocks numbered [e], [e+1], ... *)
Definition consecutive (e : Z) (ds : list BlockData) : Prop :=
  Forall (λ d, bd_Err d = None) ds ∧
  getBlockNum <$> ds = Some <$> seqZ e (Z.of_nat (length ds)).

Lemma consecutive_nil e : consecutive e [].
Proof. by split. Qed.

Lemma consecutive_cons e d ds :
  bd_Err d = None → getBlockNum d = Some e → consecutive (e + 1) ds → consecutive e (d :: ds).
Proof.
  intros He Hn [Hf Hs]. split; [by constructor |]. cbn [length]. rewrite Nat2Z.inj_succ.
  rewrite seqZ_cons by lia. rewrite !fmap_cons, Hn. f_equal.
  rewrite Hs. do 2 f_equal; lia.
Qed.

Lemma consecutive_cons_inv e d ds :
  consecutive e (d :: ds) →
  bd_Err d = None ∧ getBlockNum d = Some e ∧ consecutive (e + 1) ds.
Proof.
  intros [Hf Hs]. inversion Hf; subst. cbn [length] in Hs.
  rewrite Nat2Z.inj_succ, seqZ_cons in Hs by lia.
  rewrite !fmap_cons in Hs. injection Hs as Hn Hs. split_and!; [done.. |].
  split; [done |]. rewrite Hs. f_equal. f_equal; lia.
Qed.

Lemma takeRun_spec next batch :
  let '(run, remaining) := takeRun next batch in
  batch = run ++ remaining ∧ consecutive next run.
Proof.
  revert next. induction batch as [| d batch IH]; intros next; simpl.
  { split; [done | apply consecutive_nil]. }
  destruct (bd_Err d) eqn:He; [split; [done | apply consecutive_nil] |].
  destruct (getBlockNum d) as [n |] eqn:Hn; [| split; [done | apply consecutive_nil]].
  destruct (Z.eqb_spec n next) as [-> |]; [| split; [done | apply consecutive_nil]].
  specialize (IH (next + 1)). destruct (takeRun (next + 1) batch) as [run rem].
  destruct IH as [-> Hc]. split; [done | by apply consecutive_cons].
Qed.

Lemma classify_spec e batch :
  let '(singles, sq, remaining) := classify e batch in
  batch = singles ++ sq ++ remaining ∧ consecutive e sq.
Proof.
  induction batch as [| d batch IH]; simpl; [split; [done | apply consecutive_nil] |].
  destruct (bool_decide _ && bool_decide _) eqn:Hb; bool_prop.
  - pose proof (takeRun_spec (e + 1) batch) as Ht.
    destruct (takeRun (e + 1) batch) as [run rem]. destruct Ht as [-> Hc].
    split; [done | by apply consecutive_cons].
  - destruct (classify e batch) as [[singles sq] rem]. destruct IH as [-> Hc]. by split.
Qed.

(** A batch that is one consecutive run from [e] is classified as that run. *)
Lemma takeRun_consecutive e ds : consecutive e ds → takeRun e ds = (ds, []).
Proof.
  revert e. induction ds as [| d ds IH]; intros e Hc; simpl; [done |].
  apply consecutive_cons_inv in Hc as (-> & -> & Hc). rewrite Z.eqb_refl.
  by rewrite (IH _ Hc).
Qed.

Lemma classify_consecutive e ds : consecutive e ds → classify e ds = ([], ds, []).
Proof.
  destruct ds as [| d ds]; intros Hc; [done |].
  apply consecutive_cons_inv in Hc as (He & Hn & Hc). simpl.
  rewrite !bool_decide_eq_true_2 by done. simpl. by rewrite takeRun_consecutive.
Qed.

(** ** The batch path, the stall handler and the main loop *)

Section batches.
Context {W : Type} {BP : BlockProcessor W}.
Implicit Types (s : Sequencer W) (env : SeqEnv W).

Lemma commitBatch_safe env ds s :
quiet env → consecutive (sq_expectedBlock s) ds →
safe (commitBatch env ds (sq_expectedBlock s + Z.of_nat (length ds))) s.
Proof.
intros Hq [Hf Hs]. unfold commitBatch.
apply safe_bind. eapply (wp_mono _ _ _ _ (Hq s)).
intros o s1 (-> & He & Ht & Hb). split.
{ apply refines_silent; [done.. |]. by apply buffer_ok_sub. }
apply safe_bind, wp_zoom. unfold wp. split; [by apply refines_silent |].
destruct (snd _) as [[e |] |]; [apply safe_ret | | done].
apply safe_seq.
{ apply safe_modify, (refines_event _ _ (EvBatch ds)); [done | | done].
  simpl. rewrite <- He in Hs |- *. by constructor. }
intros _ s'. repeat (apply safe_seq; [by apply safe_silent |]; intros _ ?).
apply safe_seq; [apply processBufferContinuationsLocked_safe | auto with indexer].
Qed.

Lemma pauseIfOverfull_wp s (Q : outcome unit → Sequencer W → Prop) :
(∀ f, Q (Val tt) (set_fetcher f s)) → wp pauseIfOverfull Q s.
Proof.
intros H. apply wp_modify. case_match; [apply H |].
replace s with (set_fetcher (sq_fetcher s) s) by (by destruct s). apply H.
Qed.

Lemma handleBatch_safe env batch s : quiet env → safe (handleBatch env batch) s.
Proof.
intros Hq. apply safe_bind, pauseIfOverfull_wp. intros f. split; [by apply refines_silent |].
apply safe_bind, wp_gets. split; [done |]. simpl.
pose proof (classify_spec (sq_expectedBlock s) batch) as Hc.
destruct (classify _ batch) as [[singles sq] rem]. destruct Hc as [_ Hc].
destruct sq as [| d [| d' sq]]; [apply handleBlocks_safe | |].
- apply safe_try; [apply handleBlockLocked_safe |]. intros.
  apply safe_try; intros; apply handleBlocks_safe.
- apply safe_try; [by apply (commitBatch_safe env (d :: d' :: sq) (set_fetcher f s)) |].
  intros. apply safe_try; intros; apply handleBlocks_safe.
Qed.

Lemma handleStall_safe env s : safe (handleStall env) s.
Proof.
apply safe_bind, wp_gets. split; [done |]. simpl.
case_match; [| apply safe_ret].
destruct (minBuffered (sq_buffer s)) as [m |]; [| by apply (forced_safe (sq_expectedBlock s + 1))].
destruct (Z.ltb_spec (sq_expectedBlock s) m); [| by apply (forced_safe (sq_expectedBlock s + 1))].
case_match; [| by apply (forced_safe m)].
apply safe_modify, (refines_event _ _ (EvGapFill (sq_expectedBlock s) (m - 1))); [done | | done].
simpl. constructor. lia.
Qed.

Context `{SortSlice}.

Lemma runStep_safe env i s : quiet env → safe (runStep env i) s.
Proof.
intros Hq. destruct i; simpl.
- apply safe_seq; [apply processBufferContinuationsLocked_safe | auto with indexer].
- apply safe_seq; [apply handleStall_safe | auto with indexer].
- apply safe_ret.
- apply safe_seq; [apply processBufferContinuationsLocked_safe | auto with indexer].
- apply safe_seq; [by apply handleBatch_safe |]. intros [e |] s'; [| apply safe_ret].
  apply safe_seq; [| auto with indexer].
  apply safe_modify, (refines_event _ _ (EvFatal e)); [done | constructor | done].
Qed.

Lemma Run_safe inputs s : Forall (λ ei, quiet ei.1) inputs → safe (Run inputs) s.
Proof.
intros Hq. revert s. induction Hq as [| [env i] inputs Hq _ IH]; intros s; simpl; [apply safe_ret |].
apply safe_seq; [by apply runStep_safe |]. intros [] s'; [apply IH | apply safe_ret].
Qed.
End batches.

(** ** What a run of the automaton says about the processed numbers *)

Definition processedNumbers (evs : list SeqEvent) : list Z := evs ≫= evNumbers.

(** Events that may move [expectedBlock] backwards. *)
Definition isForced (ev : SeqEvent) : bool :=
  match ev with EvSkip _ | EvReset _ => true | _ => false end.

Lemma omap_numbers ds (l : list Z) : getBlockNum <$> ds = Some <$> l → omap getBlockNum ds = l.
Proof.
  revert l. induction ds as [| d ds IH]; intros [| x l] Hl; try done.
  rewrite !fmap_cons in Hl. injection Hl as Hd Hl. simpl. rewrite Hd. f_equal. by apply IH.
Qed.

(** One event processes the consecutive numbers from [e] to [e']. *)
Lemma spec_step_numbers e ev e' :
  spec_step e ev e' → isForced ev = false →
  e ≤ e' ∧ (isJump ev = true ∧ evNumbers ev = [] ∨ evNumbers ev = seqZ e (e' - e)).
Proof.
  intros Hs Hf. destruct Hs as [e d Hn He | e ds Hf' Hn | | | e | e | | |]; simpl in *; try done;
    try (split; [lia | right; by rewrite Z.sub_diag]).
  - split; [lia |]. right. rewrite Hn. replace (e + 1 - e) with 1 by lia. by rewrite seqZ_single.
  - split; [lia |]. right. rewrite (omap_numbers _ _ Hn). f_equal. lia.
  - split; [lia | by left].
Qed.

Lemma seqZ_between e n : Forall (λ x, e ≤ x < e + n) (seqZ e n).
Proof. apply Forall_forall. intros x. rewrite elem_of_seqZ. lia. Qed.

Lemma seqZ_sorted e n : StronglySorted Z.lt (seqZ e n).
Proof.
  destruct (Z.le_gt_cases 0 n) as [Hn |]; [| by rewrite seqZ_nil by lia; constructor].
  revert e. pattern n. apply natlike_ind; [| | done]; clear n Hn; [constructor |].
  intros n Hn IH e. rewrite seqZ_cons by lia. constructor.
  - replace (Z.pred (Z.succ n)) with n by lia. apply IH.
  - eapply Forall_impl; [apply seqZ_between |]. simpl. lia.
Qed.

(** Without forced moves the processed numbers increase strictly. *)
Lemma spec_run_sorted e evs e' :
  spec_run e evs e' → Forall (λ ev, isForced ev = false) evs →
  e ≤ e' ∧ StronglySorted Z.lt (processedNumbers evs) ∧
  Forall (λ x, e ≤ x < e') (processedNumbers evs).
Proof.
  induction 1 as [e | e ev e1 evs e2 Hs Hr IH]; intros Hf; [repeat split; auto; [lia | constructor] |].
  inversion Hf; subst. destruct IH as (Hle & Hsort & Hin); [done |].
  destruct (spec_step_numbers _ _ _ Hs) as [Hle' Hnum]; [done |].
  assert (Hev : StronglySorted Z.lt (evNumbers ev) ∧ Forall (λ x, e ≤ x < e1) (evNumbers ev)).
  { destruct Hnum as [[_ ->] | ->]; [by repeat constructor |].
    split; [apply seqZ_sorted |]. eapply Forall_impl; [apply seqZ_between |]. simpl. lia. }
  destruct Hev as [Hs1 Hin1]. split; [lia |].
  change (processedNumbers (ev :: evs)) with (evNumbers ev ++ processedNumbers evs). split.
  - apply (StronglySorted_app_lt _ _ e1); auto; eapply Forall_impl; eauto; simpl; lia.
  - apply Forall_app; split; eapply Forall_impl; eauto; simpl; lia.
Qed.

(** Without any jump they are exactly the numbers from [e] to [e']. *)
Lemma spec_run_exact e evs e' :
  spec_run e evs e' → Forall (λ ev, isJump ev = false) evs →
  e ≤ e' ∧ processedNumbers evs = seqZ e (e' - e).
Proof.
  induction 1 as [e | e ev e1 evs e2 Hs Hr IH]; intros Hf; [by rewrite Z.sub_diag |].
  inversion Hf as [| ? ? Hj Hf']; subst. destruct IH as (Hle & Hex); [done |].
  destruct (spec_step_numbers _ _ _ Hs) as [Hle' Hnum]; [by destruct ev |].
  destruct Hnum as [[Hj' _] | Hnum]; [congruence |]. split; [lia |].
  change (processedNumbers (ev :: evs)) with (evNumbers ev ++ processedNumbers evs).
  rewrite Hnum, Hex. replace (e2 - e) with ((e1 - e) + (e2 - e1)) by lia.
  rewrite seqZ_app by lia. do 2 f_equal. lia.
Qed.

(** ** The processor the witnesses run: it accepts every block. *)

Definition okProcessor : BlockProcessor unit := {|
  ProcessBlockWithRetry := λ _ _, mret None;
  ProcessBatch := λ _ _, mret None;
  GetRPCClient := None
|}.

(** Go's [insertionSort], which [sort.Slice] runs on short slices. *)
Fixpoint insertBack (less : BlockData → BlockData → bool) (x : BlockData) (revSorted : list BlockData) : list BlockData :=
  match revSorted with
  | [] => [x]
  | y :: rest => if less x y then y :: insertBack less x rest else x :: revSorted
  end.
Definition insertionSort (less : BlockData → BlockData → bool) (l : list BlockData) : list BlockData :=
  reverse (foldl (λ acc x, insertBack less x acc) [] l).

Section insertion.
Implicit Types (l acc : list BlockData) (d : BlockData).

Lemma insertBack_perm less d acc : insertBack less d acc ≡ₚ d :: acc.
Proof.
induction acc as [| y acc IH]; simpl; [done |]. case_match; [| done].
rewrite IH. apply Permutation_swap.
Qed.

Lemma insertionSort_perm less l : insertionSort less l ≡ₚ l.
Proof.
unfold insertionSort. rewrite reverse_Permutation.
assert (Hf : ∀ acc, foldl (λ acc x, insertBack less x acc) acc l ≡ₚ l ++ acc).
{ induction l as [| d l IH]; intros acc; simpl; [done |].
  rewrite IH, insertBack_perm. by rewrite Permutation_middle. }
by rewrite Hf, app_nil_r.
Qed.

Lemma insertBack_sorted d acc :
is_Some (getBlockNum d) → Forall (λ d, is_Some (getBlockNum d)) acc →
StronglySorted (flip numLe) acc → StronglySorted (flip numLe) (insertBack numLess d acc).
Proof.
intros [x Hx] Hn Hs. induction Hs as [| y acc Hs IH Hy]; simpl; [by repeat constructor |].
inversion Hn as [| ? ? [ny Hny] Hn']; subst. unfold numLess at 1. rewrite Hx, Hny.
destruct (Z.ltb_spec x ny).
- constructor; [by apply IH |]. rewrite insertBack_perm. constructor; [| done].
  exists x, ny. split_and!; [done.. | lia].
- constructor; [by constructor |]. constructor; [by exists ny, x; split_and! |].
  eapply Forall_impl; [exact Hy |]. intros z (nz & ny' & Hz & Hy' & ?).
  exists nz, x. rewrite Hny in Hy'. simplify_eq. split_and!; [done.. | lia].
Qed.

Lemma StronglySorted_snoc_flip (R : BlockData → BlockData → Prop) l :
StronglySorted (flip R) l → StronglySorted R (reverse l).
Proof.
induction 1 as [| d l Hs IH Hd]; [constructor |]. rewrite reverse_cons.
assert (Hd' : Forall (λ x, R x d) (reverse l)) by (by rewrite reverse_Permutation).
clear Hd Hs. induction IH as [| x k Hk IHk Hx]; simpl; [by repeat constructor |].
inversion Hd'; subst. constructor; [by apply IHk |].
rewrite Forall_app. split; [done | by repeat constructor].
Qed.

Lemma insertionSort_sorted l :
(∀ d, d ∈ l → is_Some (getBlockNum d)) → StronglySorted numLe (insertionSort numLess l).
Proof.
intros Hl. apply StronglySorted_snoc_flip. apply Forall_forall in Hl.
assert (Hf : ∀ acc, Forall (λ d, is_Some (getBlockNum d)) acc →
          StronglySorted (flip numLe) acc →
          StronglySorted (flip numLe) (foldl (λ acc x, insertBack numLess x acc) acc l)).
{ induction Hl as [| d l Hd Hl IH]; intros acc Ha Hs; simpl; [done |].
  apply IH; [| by apply insertBack_sorted]. rewrite insertBack_perm. by constructor. }
apply Hf; constructor.
Qed.
End insertion.

Definition goSortSlice : SortSlice := {|
  sort_Slice := insertionSort;
  sort_Slice_perm := insertionSort_perm;
  sort_Slice_sorted := insertionSort_sorted
|}.

(** A sorted slice that holds the numbers [e .. e+n-1] in some order holds
    them in order. *)
Lemma sorted_consecutive ds e n :
  StronglySorted numLe ds → Forall (λ d, bd_Err d = None) ds →
  getBlockNum <$> ds ≡ₚ Some <$> seqZ e n → consecutive e ds.
Proof.
  revert e n. induction ds as [| d ds IH]; intros e n Hs He Hp; [apply consecutive_nil |].
  destruct (decide (0 < n)) as [Hn |]; [| rewrite seqZ_nil in Hp by lia; by apply Permutation_nil_r in Hp].
  inversion Hs as [| ? ? Hs' Hd]; subst. inversion He; subst.
  rewrite seqZ_cons in Hp by done. rewrite !fmap_cons in Hp.
  assert (Hhd : getBlockNum d = Some e).
  { assert (Hin : getBlockNum d ∈ Some e :: (Some <$> seqZ (Z.succ e) (Z.pred n)))
      by (rewrite <- Hp; left).
    apply elem_of_cons in Hin as [? | Hin]; [done |].
    apply list_elem_of_fmap in Hin as (x & Hx & Hin). apply elem_of_seqZ in Hin.
    assert (He' : Some e ∈ getBlockNum d :: (getBlockNum <$> ds)) by (rewrite Hp; left).
    apply elem_of_cons in He' as [He' | He']; [congruence |].
    apply list_elem_of_fmap in He' as (d' & Hd' & Hin').
    rewrite Forall_forall in Hd. destruct (Hd _ Hin') as (a & b & Ha & Hb & ?).
    rewrite Hx in Ha. rewrite <- Hd' in Hb. simplify_eq. lia. }
  apply consecutive_cons; [done.. |]. apply (IH _ (Z.pred n)); [done.. |].
  rewrite Hhd in Hp. by apply Permutation_cons_inv in Hp.
Qed.

(** ** Runs of the buffer *)

#[local] Coercion Z.of_nat : nat >-> Z.

Section continuations.
Context {W : Type} {BP : BlockProcessor W}.
Implicit Types (s : Sequencer W) (env : SeqEnv W) (d : BlockData).

(** The processor accepts every block. *)
Definition accepts_all : Prop :=
∀ d n w, wp (ProcessBlockWithRetry d n) (λ o _, o = Val None) w.

Lemma processSequentialLocked_ok env d s :
accepts_all →
wp (processSequentialLocked env d)
   (λ o s', o = Val None ∧ sq_expectedBlock s' = sq_expectedBlock s + 1 ∧
            sq_buffer s' = sq_buffer s ∧ sq_fetcher s' = sq_fetcher s ∧
            sq_trace s' = sq_trace s ++ [EvProcessed d]) s.
Proof.
intros Hok. unfold processSequentialLocked. apply wp_bind, wp_zoom.
eapply wp_mono; [apply Hok |]. intros o w ->. by wp_go.
Qed.

(** The state after the loop has processed [n] buffered blocks from [e]. *)
Definition drained (e : Z) (n : nat) (s s' : Sequencer W) : Prop :=
sq_expectedBlock s' = e + n ∧
(∀ i, (i < n)%nat → is_Some (sq_buffer s !! (e + i))) ∧
(∀ k, sq_buffer s' !! k = if decide (e ≤ k < e + n) then None else sq_buffer s !! k) ∧
sq_fetcher s' = sq_fetcher s ∧
sq_trace s' = sq_trace s ++ (EvProcessed <$> omap (λ k, sq_buffer s !! k) (seqZ e n)).

Lemma drained_0 s : drained (sq_expectedBlock s) 0 s s.
Proof.
split_and!; [lia | lia | | done | by rewrite app_nil_r].
intros k. rewrite decide_False by lia. done.
Qed.

Lemma drained_S e n d s s1 s' :
sq_buffer s !! e = Some d → sq_buffer s1 = delete e (sq_buffer s) →
sq_fetcher s1 = sq_fetcher s → sq_trace s1 = sq_trace s ++ [EvProcessed d] →
drained (e + 1) n s1 s' → drained e (S n) s s'.
Proof.
intros Hd Hb Hf Ht (He & Hin & Hbuf & Hf' & Htr). split_and!.
- lia.
- intros i Hi. destruct i as [| i]; [by rewrite Z.add_0_r, Hd |].
  destruct (Hin i) as [x Hx]; [lia |]. rewrite Hb in Hx.
  apply lookup_delete_Some in Hx as [_ Hx]. exists x. rewrite <- Hx. f_equal. lia.
- intros k. rewrite Hbuf, Hb. destruct (decide (e ≤ k < e + S n)).
  + case_decide; [done |]. assert (k = e) as -> by lia. apply lookup_delete_eq.
  + rewrite decide_False by lia. apply lookup_delete_ne. lia.
- congruence.
- rewrite Htr, Ht, <- app_assoc. f_equal. rewrite Nat2Z.inj_succ, (seqZ_cons e) by lia.
  simpl. rewrite Hd. simpl. do 2 f_equal.
  replace (Z.pred (Z.succ n)) with (Z.of_nat n) by lia. unfold Z.succ. rewrite Hb.
  apply list_omap_ext. apply Forall2_same_length_lookup. split; [done |].
  intros i x y Hx Hy. rewrite Hx in Hy. injection Hy as <-.
  apply lookup_seqZ in Hx. apply lookup_delete_ne. lia.
Qed.

(** With an accepting processor the loop drains the run of buffered blocks
  that starts at [expectedBlock]; fuel above the buffer's size suffices. *)
Lemma continuationLoop_drains env fuel s :
accepts_all → (size (sq_buffer s) < fuel)%nat →
wp (continuationLoop env fuel)
   (λ o s', o = Val tt ∧
            ∃ n, drained (sq_expectedBlock s) n s s' ∧ sq_buffer s !! (sq_expectedBlock s + n) = None) s.
Proof.
intros Hok. revert s. induction fuel as [| fuel IH]; intros s Hs; [lia |]. simpl.
apply wp_bind, wp_gets. simpl.
destruct (sq_buffer s !! sq_expectedBlock s) as [d |] eqn:Hd.
2: { apply wp_ret. split; [done |]. exists 0%nat. rewrite Z.add_0_r. split; [apply drained_0 | done]. }
apply wp_bind, wp_modify, wp_bind.
eapply wp_mono; [by apply processSequentialLocked_ok |].
intros o s1 (-> & He & Hb & Hf & Ht). simpl in *.
assert (Hsz : size (sq_buffer s) = S (size (sq_buffer s1))).
{ rewrite Hb. rewrite map_size_delete_Some by done.
  destruct (size (sq_buffer s)) eqn:E; [| done]. apply map_size_empty_inv in E.
  rewrite E in Hd. done. }
eapply wp_mono; [apply IH; lia |]. intros o s' (-> & n & Hdr & Hnone).
split; [done |]. exists (S n). rewrite He, Hb in *. split.
- by eapply drained_S.
- apply lookup_delete_None in Hnone. replace (sq_expectedBlock s + S n) with (sq_expectedBlock s + 1 + n) by lia.
  destruct Hnone; [lia | done].
Qed.

(** Extra fuel changes nothing, whatever the processor does. *)
Lemma continuationLoop_more env fuel k s :
(size (sq_buffer s) < fuel)%nat → continuationLoop env (fuel + k) s = continuationLoop env fuel s.
Proof.
revert s. induction fuel as [| fuel IH]; intros s Hs; [lia |]. simpl.
unfold mbind, GoM_bind, gets, modify. simpl.
destruct (sq_buffer s !! sq_expectedBlock s) as [d |] eqn:Hd; [| done].
destruct (processSequentialLocked env d _) as [s1 [[e |] |]] eqn:Hp; [done | | done].
apply IH. unfold processSequentialLocked, onWorld, zoom, mbind, GoM_bind in Hp. simpl in Hp.
destruct (ProcessBlockWithRetry d 3 (sq_world s)) as [w [[e |] |]]; try done.
- destruct (is_ReorgError e); [| done]. unfold handleReorgLocked in Hp.
  destruct (bd_Block d); [| done]. by destruct (env_reorgCh env) as [[] |].
- unfold modify, mret, GoM_ret in Hp. injection Hp as <-. simpl.
  rewrite map_size_delete_Some by done.
  destruct (size (sq_buffer s)) eqn:E; [| lia]. apply map_size_empty_inv in E.
  rewrite E in Hd. done.
Qed.
End continuations.

(** With nothing buffered at [expectedBlock] only the fetcher may be resumed. *)
Lemma continuations_none {W} {BP : BlockProcessor W} (env : SeqEnv W) s
    (Q : outcome unit → Sequencer W → Prop) :
  sq_buffer s !! sq_expectedBlock s = None →
  (∀ f, Q (Val tt) (set_fetcher f s)) → wp (processBufferContinuationsLocked env) Q s.
Proof.
  intros Hn HQ. apply wp_bind, wp_gets, wp_bind. simpl. apply wp_bind, wp_gets. simpl.
  rewrite Hn. apply wp_ret, wp_modify. case_match; [apply HQ |].
  replace s with (set_fetcher (sq_fetcher s) s) by (by destruct s). apply HQ.
Qed.

(** A healthy block with its body goes straight to [placeBlock]. *)
Lemma handleBlock_hydrated {W} {BP : BlockProcessor W} (env : SeqEnv W) d b s :
  bd_Err d = None → bd_Block d = Some b → handleBlock env d s = placeBlock env d s.
Proof.
  intros He Hb. unfold handleBlock, handleBlockLocked. simpl.
  assert (isRangeProgressSignal d = false) as ->.
  { unfold isRangeProgressSignal. rewrite Hb. by destruct (bd_Number d). }
  rewrite He. unfold hydrate. by rewrite Hb.
Qed.

Lemma placeBlock_numbered {W} {BP : BlockProcessor W} (env : SeqEnv W) d n s :
  effectiveNum d = Some n →
  placeBlock env d s =
  (if n =? sq_expectedBlock s then
     try processSequentialLocked env d ;;; (processBufferContinuationsLocked env;; mret None)
   else if n <? sq_expectedBlock s then mret None
   else modify (λ s, set_buffer (<[n := d]> (sq_buffer s)) s);; enforceBufferLimit env;; mret None) s.
Proof.
  intros Hn. unfold placeBlock. unfold mbind at 1, GoM_bind at 1, gets, id. by rewrite Hn.
Qed.

(** The three outcomes of [handleStall] on an idle Sequencer. *)
Section stalls.
Context {W : Type} {BP : BlockProcessor W} (env : SeqEnv W) (s : Sequencer W).
Hypothesis Hidle : 55 * second < env_now env - sq_lastProgressAt s.

Lemma handleStall_fill m :
minBuffered (sq_buffer s) = Some m → sq_expectedBlock s < m →
sq_fetcher s ≠ None → sq_gapFillCount s < 3 →
handleStall env s =
(set_gapFill (sq_gapFillCount s + 1) (emit (EvGapFill (sq_expectedBlock s) (m - 1)) s), Val tt).
Proof using Hidle.
intros Hm He Hf Hg. unfold handleStall. unfold mbind, GoM_bind, gets, id.
rewrite (proj2 (Z.ltb_lt _ _) Hidle), Hm.
rewrite (proj2 (Z.ltb_lt _ _) He), (proj2 (Z.ltb_lt _ _) Hg).
by rewrite bool_decide_eq_true_2 by done.
Qed.

Definition forced (n : Z) : Sequencer W :=
set_gapFill 0 (emit (EvSkip n) (set_expected n (set_lastProgress (env_now env) s))).

Lemma handleStall_bypass m :
minBuffered (sq_buffer s) = Some m → sq_expectedBlock s < m →
sq_fetcher s = None ∨ 3 ≤ sq_gapFillCount s →
handleStall env s = (forced m, Val tt).
Proof using Hidle.
intros Hm He Hf. unfold handleStall. unfold mbind, GoM_bind, gets, id.
rewrite (proj2 (Z.ltb_lt _ _) Hidle), Hm, (proj2 (Z.ltb_lt _ _) He).
destruct Hf as [Hf | Hf].
- by rewrite bool_decide_eq_false_2 by auto.
- by rewrite andb_comm, (proj2 (Z.ltb_ge _ _) Hf).
Qed.

Lemma handleStall_skip :
(∀ m, minBuffered (sq_buffer s) = Some m → m ≤ sq_expectedBlock s) →
handleStall env s = (forced (sq_expectedBlock s + 1), Val tt).
Proof using Hidle.
intros Hm. unfold handleStall. unfold mbind, GoM_bind, gets, id.
rewrite (proj2 (Z.ltb_lt _ _) Hidle). destruct (minBuffered (sq_buffer s)) as [m |]; [| done].
by rewrite (proj2 (Z.ltb_ge _ _) (Hm m eq_refl)).
Qed.
End stalls.

Lemma Run_stall {W} {BP : BlockProcessor W} {SS : SortSlice} env rest (s s' : Sequencer W) :
  handleStall env s = (s', Val tt) → Run ((env, InStallTick) :: rest) s = Run rest s'.
Proof. intros Hs. cbn. unfold mbind, GoM_bind. by rewrite Hs. Qed.

#[local] Arguments Run : simpl never.

(** [s] after [k] gap-fill attempts. *)
Definition gapFilled {W} (s : Sequencer W) (m : Z) (k : nat) : Sequencer W :=
  mkSequencer (sq_expectedBlock s) (sq_buffer s) (sq_lastProgressAt s) k (sq_fetcher s) (sq_world s)
    (sq_trace s ++ replicate k (EvGapFill (sq_expectedBlock s) (m - 1))).

Lemma Run_gapFilled {W} {BP : BlockProcessor W} {SS : SortSlice} env rest (s : Sequencer W) m k :
  55 * second < env_now env - sq_lastProgressAt s →
  minBuffered (sq_buffer s) = Some m → sq_expectedBlock s < m → sq_fetcher s ≠ None → (k < 3)%nat →
  Run ((env, InStallTick) :: rest) (gapFilled s m k) = Run rest (gapFilled s m (S k)).
Proof.
  intros Hi Hm He Hf Hk. apply Run_stall.
  rewrite (handleStall_fill env (gapFilled s m k) Hi m Hm He Hf) by (cbn; lia).
  unfold set_gapFill, emit, gapFilled. cbn [sq_gapFillCount sq_trace sq_expectedBlock sq_buffer sq_lastProgressAt sq_fetcher sq_world].
  rewrite <- app_assoc, <- replicate_S_end. do 2 f_equal. lia.
Qed.

(** ** Properties *)

(** C6: Whatever the processor, the RPC node, the clock and the inputs are,
    [Run] only does what the automaton allows: it processes a block only when
    its number is the expected one, hands [ProcessBatch] only runs of
    consecutive healthy numbers that start there, keeps every buffered block
    filed under its own number, and moves [expectedBlock] only by the events
    it records. *)
Theorem Run_refines {W} {BP : BlockProcessor W} {SS : SortSlice}
    (inputs : list (SeqEnv W * SeqInput)) (s : Sequencer W) :
  Forall (λ ei, quiet ei.1) inputs → buffer_ok (sq_buffer s) →
  wp (Run inputs) (λ _ s', buffer_ok (sq_buffer s') ∧
      ∃ evs, sq_trace s' = sq_trace s ++ evs ∧
             spec_run (sq_expectedBlock s) evs (sq_expectedBlock s')) s.
Proof. intros Hq Hb. by apply (Run_safe inputs s Hq). Qed.

(** Exactly once and in order.  From a fresh Sequencer at [start], the
    numbers of the blocks processed by any run of the main loop increase
    strictly as long as no stall skip, buffer overflow or watchdog reset forced
    [expectedBlock]; and if no range signal jumped either they are exactly
    [start, start+1, ..., expectedBlock-1]: none missing, none twice. *)
Theorem Run_exactly_once {W} {BP : BlockProcessor W} {SS : SortSlice}
    (inputs : list (SeqEnv W * SeqInput)) (start now : Z) (f : option bool) (w : W) :
  Forall (λ ei, quiet ei.1) inputs →
  wp (Run inputs) (λ _ s',
      (Forall (λ ev, isForced ev = false) (sq_trace s') →
       StronglySorted Z.lt (processedNumbers (sq_trace s')) ∧
       Forall (λ n, start ≤ n < sq_expectedBlock s') (processedNumbers (sq_trace s'))) ∧
      (Forall (λ ev, isJump ev = false) (sq_trace s') →
       processedNumbers (sq_trace s') = seqZ start (sq_expectedBlock s' - start)))
     (NewSequencer start now f w).
Proof.
  intros Hq. pose proof (Run_safe inputs (NewSequencer start now f w) Hq) as Hs.
  unfold safe, wp, refines_step in *. simpl in Hs.
  destruct Hs as [_ (evs & -> & Hr)]; [done |]. split; intros Hj.
  - by destruct (spec_run_sorted _ _ _ Hr Hj) as (_ & ? & ?).
  - by destruct (spec_run_exact _ _ _ Hr Hj).
Qed.

(** One pass over a batch that is, up to order, one run. *)
Lemma collect_and_handle {W} {BP : BlockProcessor W} {SS : SortSlice}
    (env : SeqEnv W) (first : BlockData) (received : list BlockData) (s : Sequencer W) (n : nat) :
  quiet env → sq_buffer s = ∅ → (2 ≤ n ≤ maxBatchSize)%nat →
  (∀ ds c w, wp (ProcessBatch ds c) (λ o _, o = Val None) w) →
  Forall (λ d, bd_Err d = None) (first :: received) →
  getBlockNum <$> (first :: received) ≡ₚ Some <$> seqZ (sq_expectedBlock s) n →
  wp (handleBatch env (collectBatch first received))
     (λ o s', o = Val None ∧ sq_expectedBlock s' = sq_expectedBlock s + n ∧
        ∃ ds, ds ≡ₚ first :: received ∧ consecutive (sq_expectedBlock s) ds ∧
              sq_trace s' = sq_trace s ++ [EvBatch ds]) s.
Proof.
  intros Hq Hb Hn Hok He Hp.
  assert (Hlen : length received = (n - 1)%nat).
  { apply Permutation_length in Hp. rewrite !length_fmap, length_seqZ in Hp. simpl in Hp. lia. }
  assert (Hall : ∀ d, d ∈ first :: received → is_Some (getBlockNum d)).
  { intros d Hd. apply (list_elem_of_fmap_2 getBlockNum) in Hd. rewrite Hp in Hd.
    apply list_elem_of_fmap in Hd as (x & Hx & _). by exists x. }
  unfold collectBatch. rewrite take_ge by (unfold maxBatchSize in *; lia).
  pose proof (sort_Slice_perm numLess (first :: received)) as Hperm.
  pose proof (sort_Slice_sorted (first :: received) Hall) as Hsort.
  set (ds := sort_Slice numLess (first :: received)) in *.
  assert (Hc : consecutive (sq_expectedBlock s) ds).
  { apply (sorted_consecutive _ _ n); [done | by rewrite Hperm | by rewrite Hperm]. }
  assert (Hds : length ds = n) by (apply Permutation_length in Hperm; simpl in Hperm; lia).
  clearbody ds. apply wp_bind, pauseIfOverfull_wp. intros f. apply wp_bind, wp_gets. simpl.
  rewrite (classify_consecutive _ _ Hc). destruct ds as [| d [| d' ds]]; [simpl in Hds; lia.. |].
  apply wp_try. unfold commitBatch. apply wp_bind.
  eapply wp_mono; [apply Hq |]. intros o s1 (-> & He1 & Ht1 & Hb1).
  apply wp_bind, wp_zoom. eapply wp_mono; [apply Hok |]. intros o w ->.
  do 3 apply wp_bind, wp_modify. apply wp_bind, continuations_none.
  { simpl in *. eapply lookup_weaken_None, Hb1. by rewrite Hb. }
  intros f'. apply wp_ret, wp_try. simpl in *. do 2 apply wp_ret.
  split_and!; [done | by rewrite <- Hds |].
  exists (d :: d' :: ds). simpl in *; rewrite Ht1; done.
Qed.

(** Reordering.  If the blocks one pass collects are healthy, at most
    [maxBatchSize] and carry, in any arrival order, the numbers
    [expectedBlock, ..., expectedBlock+n-1], then they reach the processor as one
    batch in increasing order, and the Sequencer then expects
    [expectedBlock+n]. *)
Theorem collect_and_handle_reorders {W} {BP : BlockProcessor W} {SS : SortSlice}
    (env : SeqEnv W) (first : BlockData) (received : list BlockData) (s : Sequencer W) (n : nat) :
  quiet env → sq_buffer s = ∅ → (2 ≤ n ≤ maxBatchSize)%nat →
  (∀ ds c w, wp (ProcessBatch ds c) (λ o _, o = Val None) w) →
  Forall (λ d, bd_Err d = None) (first :: received) →
  getBlockNum <$> (first :: received) ≡ₚ Some <$> seqZ (sq_expectedBlock s) n →
  wp (handleBatch env (collectBatch first received))
     (λ o s', o = Val None ∧ sq_expectedBlock s' = sq_expectedBlock s + n ∧
        ∃ ds, ds ≡ₚ first :: received ∧ consecutive (sq_expectedBlock s) ds ∧
              sq_trace s' = sq_trace s ++ [EvBatch ds]) s.
Proof. intros. by apply collect_and_handle. Qed.

(** With a processor that accepts blocks, [processBufferContinuationsLocked]
    processes exactly the buffered blocks of the run that starts at
    [expectedBlock], in order, removes them and nothing else, and stops at the
    first missing number. *)
Theorem continuations_drain {W} {BP : BlockProcessor W} (env : SeqEnv W) (s : Sequencer W) :
  accepts_all →
  wp (processBufferContinuationsLocked env)
     (λ o s', o = Val tt ∧ ∃ n : nat,
        sq_expectedBlock s' = sq_expectedBlock s + n ∧
        (∀ i, (i < n)%nat → is_Some (sq_buffer s !! (sq_expectedBlock s + i))) ∧
        sq_buffer s !! (sq_expectedBlock s + n) = None ∧
        (∀ k, sq_buffer s' !! k =
              if decide (sq_expectedBlock s ≤ k < sq_expectedBlock s + n) then None else sq_buffer s !! k) ∧
        sq_trace s' = sq_trace s ++
          (EvProcessed <$> omap (λ k, sq_buffer s !! k) (seqZ (sq_expectedBlock s) n))) s.
Proof.
  intros Hok. apply wp_bind, wp_gets, wp_bind.
  eapply wp_mono; [apply (continuationLoop_drains env _ s Hok); unfold id; lia |].
  intros o s' (-> & n & (He & Hin & Hb & Hf & Ht) & Hnone). apply wp_modify.
  split; [done |]. exists n. by case_match.
Qed.

(** C39: Termination of the continuation loop: its fuel, one more than the
    number of buffered blocks, is never the reason it stops, whatever the
    processor answers. *)
Theorem continuations_terminate {W} {BP : BlockProcessor W} (env : SeqEnv W) (s : Sequencer W) (k : nat) :
  processBufferContinuationsLocked env s =
  (continuationLoop env (S (size (sq_buffer s)) + k);; resumeIfDrained) s.
Proof.
  unfold processBufferContinuationsLocked. unfold mbind, GoM_bind, gets, id.
  by rewrite continuationLoop_more by lia.
Qed.

(** Termination of the mutual recursion of [handleBlockLocked] and
    [handleFetchError]: two levels suffice, any more give the same result. *)
Lemma handleBlockLocked_terminates {W} {BP : BlockProcessor W} (env : SeqEnv W) (d : BlockData)
    (s : Sequencer W) (k : nat) :
  handleBlockLocked_fuel env (2 + k) d s = handleBlockLocked env d s.
Proof.
  unfold handleBlockLocked. simpl.
  destruct (isRangeProgressSignal d); [done |].
  destruct (bd_Err d); [| done]. by destruct (getBlockNum d), GetRPCClient.
Qed.

(** A healthy block is processed when its number is expected, dropped
    without any effect when it is older, and buffered under its number when it
    is newer and the buffer has room; in no case does it reach the processor
    out of turn. *)
Theorem handleBlock_healthy {W} {BP : BlockProcessor W} (env : SeqEnv W) (d : BlockData) (b : EthBlock)
    (s : Sequencer W) :
  bd_Err d = None → bd_Block d = Some b →
  let n := blk_Number b in
  (n < sq_expectedBlock s → handleBlock env d s = (s, Val None)) ∧
  (sq_expectedBlock s < n →
   Z.of_nat (size (<[n := d]> (sq_buffer s))) ≤ bufferLimit env →
   handleBlock env d s = (set_buffer (<[n := d]> (sq_buffer s)) s, Val None)) ∧
  (n = sq_expectedBlock s →
   handleBlock env d s =
   (try processSequentialLocked env d ;;; (processBufferContinuationsLocked env;; mret None)) s).
Proof.
  intros He Hb n. rewrite (handleBlock_hydrated _ _ b) by done.
  rewrite (placeBlock_numbered _ _ n) by (unfold effectiveNum; by rewrite Hb).
  split_and!; intros Hn.
  - rewrite (proj2 (Z.eqb_neq _ _)) by lia. by rewrite (proj2 (Z.ltb_lt _ _)) by lia.
  - intros Hs. rewrite (proj2 (Z.eqb_neq _ _)) by lia. rewrite (proj2 (Z.ltb_ge _ _)) by lia.
    unfold mbind, GoM_bind, modify, enforceBufferLimit, gets, mbind, GoM_bind, id. simpl.
    by rewrite (proj2 (Z.ltb_ge _ _)) by lia.
  - by rewrite (proj2 (Z.eqb_eq _ _)) by done.
Qed.

(** Reorg.  When the processor reports a reorg on the expected block, the
    Sequencer keeps expecting that block, forgets every buffered block at or
    above it and only those, pauses the fetcher, reports the height and returns
    [ErrReorgNeedRefetch] (so that [Run] ends and the block is fetched again). *)
Theorem handleBlock_reorg {W} {BP : BlockProcessor W} (env : SeqEnv W) (d : BlockData) (b : EthBlock)
    (at_ : Z) (s : Sequencer W) :
  bd_Err d = None → bd_Block d = Some b → blk_Number b = sq_expectedBlock s →
  env_reorgCh env = Some true →
  (∀ w, wp (ProcessBlockWithRetry d 3) (λ o _, o = Val (Some (ReorgError at_))) w) →
  wp (handleBlock env d)
     (λ o s', o = Val (Some ErrReorgNeedRefetch) ∧
        sq_expectedBlock s' = blk_Number b ∧
        sq_fetcher s' = pauseFetcher (sq_fetcher s) ∧
        (∀ k, sq_buffer s' !! k = if decide (k < blk_Number b) then sq_buffer s !! k else None) ∧
        sq_trace s' = sq_trace s ++ [EvReorg (blk_Number b); EvReorgSent (blk_Number b)]) s.
Proof.
  intros He Hb Hn Hch Hp. unfold wp. rewrite (handleBlock_hydrated _ _ b) by done.
  rewrite (placeBlock_numbered _ _ (blk_Number b)) by (unfold effectiveNum; by rewrite Hb).
  rewrite (proj2 (Z.eqb_eq _ _)) by done. apply wp_try, wp_bind, wp_zoom.
  eapply wp_mono; [apply Hp |]. intros o w ->. simpl.
  unfold handleReorgLocked. rewrite Hb, Hch. wp_go. split_and!; try done.
  - intros k. rewrite map_lookup_filter. simpl. destruct (sq_buffer s !! k); simpl; [| by case_decide].
    case_decide; [by case_guard | by case_guard].
  - by rewrite <- app_assoc.
Qed.

(** C38: Stall recovery.  With a gap below the lowest buffered block [m] and a
    fetcher, stall ticks later than 55 seconds schedule the gap exactly three
    times and then force [expectedBlock] to [m]: the Sequencer cannot wait on a
    missing block forever. *)
Theorem stall_bypasses_gap {W} {BP : BlockProcessor W} {SS : SortSlice}
    (e1 e2 e3 e4 : SeqEnv W) (s : Sequencer W) (m : Z) :
  minBuffered (sq_buffer s) = Some m → sq_expectedBlock s < m →
  is_Some (sq_fetcher s) → sq_gapFillCount s = 0 →
  Forall (λ env, 55 * second < env_now env - sq_lastProgressAt s) [e1; e2; e3; e4] →
  let gap := EvGapFill (sq_expectedBlock s) (m - 1) in
  Run [(e1, InStallTick); (e2, InStallTick); (e3, InStallTick); (e4, InStallTick)] s =
  (mkSequencer m (sq_buffer s) (env_now e4) 0 (sq_fetcher s) (sq_world s)
     (sq_trace s ++ [gap; gap; gap; EvSkip m]), Val true).
Proof.
  intros Hm He [p Hf] Hg Hnow gap.
  apply Forall_cons in Hnow as [H1 Hnow]. apply Forall_cons in Hnow as [H2 Hnow].
  apply Forall_cons in Hnow as [H3 Hnow]. apply Forall_cons in Hnow as [H4 _].
  assert (Hf' : sq_fetcher s ≠ None) by congruence.
  assert (Hs : s = gapFilled s m 0).
  { destruct s. unfold gapFilled. simpl in *. by rewrite Hg, app_nil_r. }
  rewrite Hs at 1. rewrite !Run_gapFilled by (done || lia).
  rewrite (Run_stall _ _ _ _ (handleStall_bypass e4 (gapFilled s m 3) H4 m Hm He (or_intror (Z.le_refl 3)))).
  unfold forced, emit, set_expected, set_gapFill, set_lastProgress, gapFilled. cbn.
  by rewrite <- app_assoc.
Qed.

(** ... but nothing resumes the block the bypass stopped at: the bypass
    does not look at the buffer, and if no further block with exactly that number
    arrives the next stall tick skips [m] itself, although [m] is still in the
    buffer and was never processed. *)
Theorem stall_skips_buffered_block {W} {BP : BlockProcessor W} {SS : SortSlice}
    (env : SeqEnv W) (s : Sequencer W) (m : Z) :
  minBuffered (sq_buffer s) = Some m → sq_expectedBlock s = m →
  55 * second < env_now env - sq_lastProgressAt s →
  Run [(env, InStallTick)] s =
  (mkSequencer (m + 1) (sq_buffer s) (env_now env) 0 (sq_fetcher s) (sq_world s)
     (sq_trace s ++ [EvSkip (m + 1)]), Val true).
Proof.
  intros Hm He Hnow. erewrite Run_stall.
  2: { apply handleStall_skip; [done |]. intros m' Hm'. rewrite He. by simplify_eq. }
  by rewrite He.
Qed.

(** The deadlock watchdog's [ResetExpectedBlock] is lost when it hits the
    unlocked phase of a batch: the commit overwrites it, and the Sequencer goes
    on behind the batch as if nothing had happened. *)
Theorem reset_during_batch_is_lost {W} {BP : BlockProcessor W}
    (env : SeqEnv W) (ds : list BlockData) (target now : Z) (s : Sequencer W) :
  env_others env = ResetExpectedBlock target now →
  sq_buffer s = ∅ → consecutive (sq_expectedBlock s) ds → (2 ≤ length ds)%nat →
  (∀ ds c w, wp (ProcessBatch ds c) (λ o _, o = Val None) w) →
  wp (handleBatch env ds)
     (λ o s', o = Val None ∧ sq_expectedBlock s' = sq_expectedBlock s + length ds ∧
              sq_trace s' = sq_trace s ++ [EvReset target; EvBatch ds]) s.
Proof.
  intros Ho Hb Hc Hlen Hok. apply wp_bind, pauseIfOverfull_wp. intros f. apply wp_bind, wp_gets. simpl.
  rewrite (classify_consecutive _ _ Hc). destruct ds as [| d [| d' ds]]; [simpl in Hlen; lia.. |].
  apply wp_try. unfold commitBatch. rewrite Ho. apply wp_bind, wp_modify, wp_bind, wp_zoom.
  eapply wp_mono; [apply Hok |]. intros o w ->.
  do 3 apply wp_bind, wp_modify. apply wp_bind, continuations_none.
  { simpl. by rewrite Hb. }
  intros f'. apply wp_ret, wp_try. simpl. do 2 apply wp_ret.
  split_and!; [done.. |]. cbn. by rewrite <- app_assoc.
Qed.

(** ** Concrete runs and witnesses *)

(** A block with number [n] (hash and parent hash named after it), and the
    [BlockData] a fetcher delivers for it. *)
Definition sampleBlock (n : Z) : EthBlock :=
  mkEthBlock n ("h" ++ pretty n)%string ("h" ++ pretty (n - 1))%string n 30000000 0 None [].
Definition sampleData (n : Z) : BlockData := mkBlockData (Some n) None (Some (sampleBlock n)) None [].

Definition sampleEnv (now : Z) : SeqEnv unit := mkSeqEnv now 1 None Canceled (mret tt).

(** A processor that reports a reorg on every block. *)
Definition reorgProcessor : BlockProcessor unit := {|
  ProcessBlockWithRetry := λ d _, mret (Some (ReorgError (default 0 (effectiveNum d))));
  ProcessBatch := λ _ _, mret None;
  GetRPCClient := None
|}.

Lemma sampleEnv_quiet now : quiet (sampleEnv now).
Proof. intros s. by apply wp_ret. Qed.

Definition sampleInputs : list (SeqEnv unit * SeqInput) :=
  [(sampleEnv 1, InData (sampleData 12) [sampleData 10; sampleData 11]);
   (sampleEnv 2, InData (sampleData 14) []);
   (sampleEnv 3, InData (sampleData 13) [])].

Lemma sampleInputs_quiet : Forall (λ ei, quiet ei.1) sampleInputs.
Proof. repeat constructor; apply sampleEnv_quiet. Qed.

Lemma Run_refines_witness :
  let BP := okProcessor in let SS := goSortSlice in
  let s := NewSequencer 10 0 None tt in
  let s' := fst (Run sampleInputs s) in
  sq_expectedBlock s' = 15 ∧
  ∃ evs, sq_trace s' = sq_trace s ++ evs ∧ spec_run (sq_expectedBlock s) evs (sq_expectedBlock s').
Proof.
  intros BP SS s s'. split; [by vm_compute |].
  apply (Run_refines sampleInputs s sampleInputs_quiet). unfold s. intros k d. cbn. by rewrite lookup_empty.
Defined.

Lemma Run_exactly_once_witness :
  let BP := okProcessor in let SS := goSortSlice in
  let s' := fst (Run sampleInputs (NewSequencer 10 0 None tt)) in
  processedNumbers (sq_trace s') = [10; 11; 12; 13; 14].
Proof.
  intros BP SS s'.
  destruct (Run_exactly_once sampleInputs 10 0 None tt sampleInputs_quiet) as [_ H].
  unfold s'. rewrite H; [by vm_compute |].
  apply (bool_decide_unpack _). by vm_compute.
Defined.

Lemma collect_and_handle_reorders_witness :
  let BP := okProcessor in let SS := goSortSlice in
  let s := NewSequencer 10 0 None tt in
  ∃ s', handleBatch (sampleEnv 1) (collectBatch (sampleData 12) [sampleData 10; sampleData 11]) s = (s', Val None) ∧
        sq_expectedBlock s' = 13.
Proof.
  intros BP SS s.
  destruct (collect_and_handle_reorders (sampleEnv 1) (sampleData 12) [sampleData 10; sampleData 11] s 3)
    as (Ho & He & _).
  - apply sampleEnv_quiet.
  - done.
  - unfold maxBatchSize. lia.
  - done.
  - by repeat constructor.
  - simpl. change (seqZ 10 3) with [10; 11; 12]. simpl.
    apply (Permutation_app_comm [Some 12] [Some 10; Some 11]).
  - destruct (handleBatch _ _ s) as [s' o]. simpl in Ho, He. exists s'. by subst o.
Defined.

Lemma continuations_drain_witness :
  let BP := okProcessor in
  let s := set_buffer (<[10 := sampleData 10]> (<[12 := sampleData 12]> ∅)) (NewSequencer 10 0 None tt) in
  accepts_all ∧ sq_expectedBlock (fst (processBufferContinuationsLocked (sampleEnv 1) s)) = 11.
Proof.
  intros BP s. assert (Hok : accepts_all) by done. split; [done |].
  destruct (continuations_drain (sampleEnv 1) s Hok) as (_ & n & He & Hin & Hnone & _).
  rewrite He. destruct n as [| [| n]]; [by vm_compute in Hnone | done |].
  destruct (Hin 1%nat) as [x Hx]; [lia |]. by vm_compute in Hx.
Defined.

Lemma handleBlock_healthy_witness :
  let BP := okProcessor in
  let s := NewSequencer 10 0 None tt in
  handleBlock (sampleEnv 1) (sampleData 9) s = (s, Val None) ∧
  sq_buffer (fst (handleBlock (sampleEnv 1) (sampleData 11) s)) !! 11 = Some (sampleData 11).
Proof.
  intros BP s. split.
  - apply (handleBlock_healthy (sampleEnv 1) (sampleData 9) (sampleBlock 9) s); done.
  - destruct (handleBlock_healthy (sampleEnv 1) (sampleData 11) (sampleBlock 11) s) as (_ & H & _); [done.. |].
    by rewrite H by (vm_compute; done).
Defined.

Lemma handleBlock_reorg_witness :
  let BP := reorgProcessor in
  let env := mkSeqEnv 1 1 (Some true) Canceled (mret tt) in
  let s := set_buffer (<[9 := sampleData 9]> (<[12 := sampleData 12]> ∅)) (NewSequencer 10 0 (Some false) tt) in
  let s' := fst (handleBlock env (sampleData 10) s) in
  sq_buffer s' !! 9 = Some (sampleData 9) ∧ sq_buffer s' !! 12 = None ∧ sq_fetcher s' = Some true.
Proof.
  intros BP env s s'.
  destruct (handleBlock_reorg env (sampleData 10) (sampleBlock 10) 10 s) as (_ & _ & Hf & Hb & _); [done.. |].
  unfold s'. by rewrite !Hb, Hf.
Defined.

Definition gapState : Sequencer unit :=
  set_buffer (<[13 := sampleData 13]> ∅) (NewSequencer 10 0 (Some false) tt).

Lemma stall_bypasses_gap_witness :
  let BP := okProcessor in let SS := goSortSlice in
  let env := sampleEnv (56 * second) in
  sq_expectedBlock (fst (Run [(env, InStallTick); (env, InStallTick); (env, InStallTick); (env, InStallTick)] gapState)) = 13.
Proof.
  intros BP SS env. rewrite (stall_bypasses_gap env env env env gapState 13); [done | done | done | by eexists | done |].
  repeat constructor.
Defined.

Lemma stall_skips_buffered_block_witness :
  let BP := okProcessor in let SS := goSortSlice in
  let s' := fst (Run [(sampleEnv (56 * second), InStallTick)] (set_expected 13 gapState)) in
  sq_expectedBlock s' = 14 ∧ sq_buffer s' !! 13 = Some (sampleData 13).
Proof.
  intros BP SS s'. unfold s'.
  by rewrite (stall_skips_buffered_block (sampleEnv (56 * second)) (set_expected 13 gapState) 13).
Defined.

Lemma reset_during_batch_is_lost_witness :
  let BP := okProcessor in
  let env := mkSeqEnv 1 1 None Canceled (ResetExpectedBlock 500 1) in
  let s := NewSequencer 10 0 None tt in
  sq_expectedBlock (fst (handleBatch env [sampleData 10; sampleData 11] s)) = 12.
Proof.
  intros BP env s.
  destruct (reset_during_batch_is_lost env [sampleData 10; sampleData 11] 500 1 s) as (_ & He & _);
    [done | done | by split; [repeat constructor |] | done | done | exact He].
Defined.

(** A buffered block that a batch overtakes stays in the buffer below
    [expectedBlock]; when the buffer later overflows, [enforceBufferLimit] takes
    it for the start of a gap, moves [expectedBlock] backwards to it and hands
    it to the processor a second time. *)
Theorem stale_block_processed_twice :
  let BP := okProcessor in let SS := goSortSlice in
  let env := sampleEnv 1 in
  let s' := fst (Run ([(env, InData (sampleData 12) []);
                       (env, InData (sampleData 10) [sampleData 11; sampleData 12; sampleData 13])]
                      ++ ((λ n, (env, InData (sampleData n) [])) <$> seqZ 100 1000))
                     (NewSequencer 10 0 None tt)) in
  processedNumbers (sq_trace s') = [10; 11; 12; 13; 12] ∧ sq_expectedBlock s' = 13.
Proof. by vm_compute. Qed.
