(* ===== verification/SequencerFloor.v ===== *)
(** * What the Sequencer can no longer reach

    [expectedBlock] can move backwards (a reorg, an overflowing buffer), but no
    method takes it, or a block it processes, below a floor that lies under
    [expectedBlock] and under everything buffered.  The components that move
    [expectedBlock] forward from outside (the watchdog, the choice of the start
    block) rely on the Fetcher to fill in what they skipped; these lemmas say
    what becomes of those results. *)

From S2P Require Import Prelude GoInt Types Sequencer SequencerSpec.
From Stdlib Require Import ZArith Lia String.
From stdpp Require Import base gmap sorting strings list.
Open Scope Z_scope.

Lemma map_Forall_sub {A} (P : Z → A → Prop) (m m' : gmap Z A) : m' ⊆ m → map_Forall P m → map_Forall P m'.
Proof. intros Hs H i x Hx. apply H. by eapply lookup_weaken. Qed.

Section floor.
Context {W : Type} {BP : BlockProcessor W} (L : Z).
Implicit Types (s : Sequencer W) (env : SeqEnv W) (d : BlockData).

(** [expectedBlock] and every buffered block are at or above [L]. *)
Definition floor s : Prop :=
  L ≤ sq_expectedBlock s ∧ map_Forall (λ k d, L ≤ k ∧ effectiveNum d = Some k) (sq_buffer s).

(** The floor is kept and nothing below it is processed. *)
Definition floored s s' : Prop :=
  floor s → floor s' ∧ ∃ evs, sq_trace s' = (sq_trace s ++ evs)%list ∧ Forall (λ n, L ≤ n) (processedNumbers evs).

#[local] Instance floored_pre : PreOrder floored.
Proof.
  split.
  - intros s Hs. split; [done |]. exists []. split; [by rewrite app_nil_r | constructor].
  - intros s1 s2 s3 H12 H23 H1. destruct (H12 H1) as (H2 & evs & Ht & Hf).
    destruct (H23 H2) as (H3 & evs' & Ht' & Hf'). split; [done |]. exists (evs ++ evs')%list.
    rewrite Ht', Ht. split; [by rewrite app_assoc |]. unfold processedNumbers. rewrite bind_app. by apply Forall_app.
Qed.

(** A floor may be assumed. *)
Lemma floored_assume {A} (m : GoM (Sequencer W) A) s : (floor s → always floored m s) → always floored m s.
Proof. unfold always, wp, floored. intros H Hf. by apply (H Hf). Qed.

Lemma floored_gets {A} (k : Sequencer W → GoM (Sequencer W) A) s :
  always floored (k s) s → always floored (s ← gets id; k s) s.
Proof. intros H. apply always_bind; [apply _ |]. apply wp_gets. by split. Qed.

Lemma floored_silent (f : Sequencer W → Sequencer W) s :
  sq_trace (f s) = sq_trace s → (floor s → floor (f s)) → always floored (modify f) s.
Proof.
  intros Ht Hf. apply always_modify. intros Hs. split; [auto |]. exists [].
  split; [by rewrite Ht, app_nil_r | constructor].
Qed.

Lemma floored_event (f : Sequencer W → Sequencer W) ev s :
  sq_trace (f s) = (sq_trace s ++ [ev])%list → (floor s → floor (f s)) →
  (floor s → Forall (λ n, L ≤ n) (evNumbers ev)) → always floored (modify f) s.
Proof.
  intros Ht Hf Hn. apply always_modify. intros Hs. split; [auto |]. exists [ev].
  split; [done |]. unfold processedNumbers. simpl. rewrite app_nil_r. auto.
Qed.

Lemma floored_world {A} (m : GoM W A) s : always floored (onWorld m) s.
Proof. apply wp_zoom. unfold wp. intros Hs. split; [done |]. exists []. split; [by rewrite app_nil_r | constructor]. Qed.

Lemma floored_done {A} (a : A) s : always floored (mret a) s.
Proof. apply always_ret, _. Qed.

(** [floored_seq] splits a sequence and closes a silent or final part. *)
Ltac floored_seq := apply always_seq; [apply _ | |].

Lemma handleReorgLocked_floored env d s :
  effectiveNum d = Some (sq_expectedBlock s) → always floored (handleReorgLocked env d) s.
Proof.
  intros Hn. unfold handleReorgLocked, effectiveNum in *. destruct (bd_Block d) as [b |]; [| apply always_panic, _].
  injection Hn as Hn. apply floored_assume. intros [Hl _]. rewrite <- Hn in Hl.
  floored_seq; [by apply floored_silent |]. intros [] s1.
  floored_seq; [apply floored_silent; [done |]; intros [? ?]; split; [done |]; by eapply map_Forall_sub; [apply map_filter_subseteq |] |]. intros [] s2.
  floored_seq.
  { eapply floored_event; [done | | intros; constructor]. intros [? ?]. by split. }
  intros [] s3. case_match; [case_match |]; try apply floored_done.
  floored_seq; [eapply floored_event; [done | done | intros; constructor] |]. intros; apply floored_done.
Qed.

Lemma processSequentialLocked_floored env d s :
  effectiveNum d = Some (sq_expectedBlock s) → always floored (processSequentialLocked env d) s.
Proof.
  intros Hn. unfold processSequentialLocked. apply floored_assume. intros [Hl Hb].
  apply always_bind; [apply _ |]. apply wp_zoom. unfold wp. set (w := fst _).
  split; [intros Hs; split; [done |]; exists []; split; [by rewrite app_nil_r | constructor] |].
  destruct (snd _) as [[e |] |]; [| | done].
  - destruct (is_ReorgError e); [by apply handleReorgLocked_floored | apply floored_done].
  - floored_seq.
    { eapply (floored_event _ (EvProcessed d)); [done | intros [? ?]; split; [simpl in *; lia | done] |].
      intros _. simpl. rewrite Hn. by repeat constructor. }
    intros [] s1. do 2 (floored_seq; [by apply floored_silent |]; intros [] ?). apply floored_done.
Qed.

Lemma continuationLoop_floored env fuel s : always floored (continuationLoop env fuel) s.
Proof.
  revert s. induction fuel as [| fuel IH]; intros s; simpl; [apply floored_done |].
  apply floored_gets. destruct (sq_buffer s !! sq_expectedBlock s) as [d |] eqn:Hd; [| apply floored_done].
  apply floored_assume. intros Hs. destruct (map_Forall_lookup_1 _ _ _ _ (proj2 Hs) Hd) as [Hl Hn].
  apply always_bind; [apply _ |]. apply wp_modify. split.
  { intros [? ?]. split; [split; [done | by apply map_Forall_delete] |]. exists [].
    split; [by rewrite app_nil_r | constructor]. }
  floored_seq; [by apply processSequentialLocked_floored |]. intros [e |] s1; [| apply IH].
  apply floored_silent; [done |]. intros [? ?]. split; [done |]. by apply map_Forall_insert_2.
Qed.

Lemma continuations_floored env s : always floored (processBufferContinuationsLocked env) s.
Proof.
  apply floored_gets. floored_seq; [apply continuationLoop_floored |]. intros [] s1.
  apply floored_silent; by case_match.
Qed.

Lemma teleportProgress_floored env re s : always floored (teleportProgress env re) s.
Proof.
  apply floored_gets. destruct (Z.leb_spec (sq_expectedBlock s) re); [| apply floored_done].
  floored_seq.
  { eapply floored_event; [done | intros [? ?]; split; [simpl; lia | done] | intros; constructor]. }
  intros [] s1. floored_seq; [by apply floored_silent |]. intros [] s2. apply continuations_floored.
Qed.

Lemma minBuffered_lookup (b : gmap Z BlockData) m : minBuffered b = Some m → ∃ d, b !! m = Some d.
Proof.
  unfold minBuffered. intros H.
  assert (Hin : m ∈ map fst (map_to_list b)).
  { revert m H. induction (map fst (map_to_list b)) as [| k l IH]; intros m H; simpl in *; [done |].
    destruct (foldr _ None l) as [a |]; injection H as <-; [| by left].
    destruct (k <? a); [by left | right; by apply IH]. }
  apply list_elem_of_In, in_map_iff in Hin as ([k d] & <- & Hkd). exists d.
  by apply elem_of_map_to_list, list_elem_of_In.
Qed.

Lemma floor_min s m : floor s → minBuffered (sq_buffer s) = Some m → L ≤ m.
Proof.
  intros [_ Hb] Hm. apply minBuffered_lookup in Hm as [d Hd].
  by destruct (map_Forall_lookup_1 _ _ _ _ Hb Hd).
Qed.

Lemma enforceBufferLimit_floored env s : always floored (enforceBufferLimit env) s.
Proof.
  apply floored_gets. case_match; [| apply floored_done].
  destruct (minBuffered (sq_buffer s)) as [m |] eqn:Hm; [| apply floored_done].
  floored_seq.
  { eapply floored_event; [done | | intros; constructor]. intros Hs. pose proof (floor_min _ _ Hs Hm).
    split; [done | apply Hs]. }
  intros [] s1. apply continuations_floored.
Qed.

Lemma placeBlock_floored env d s : always floored (placeBlock env d) s.
Proof.
  apply floored_gets. destruct (effectiveNum d) as [n |] eqn:Hn; [| apply floored_done].
  destruct (Z.eqb_spec n (sq_expectedBlock s)) as [-> | Hne].
  - apply always_try; [apply _ | by apply processSequentialLocked_floored |]. intros s1.
    floored_seq; [apply continuations_floored |]. intros; apply floored_done.
  - destruct (Z.ltb_spec n (sq_expectedBlock s)); [apply floored_done |].
    floored_seq.
    { apply floored_silent; [done |]. intros [? ?]. split; [done |]. apply map_Forall_insert_2; [| done].
      split; [lia | done]. }
    intros [] s1. floored_seq; [apply enforceBufferLimit_floored |]. intros; apply floored_done.
Qed.

Lemma handleBlock_floored env fuel d s : always floored (handleBlockLocked_fuel env fuel d) s.
Proof.
  revert d s. induction fuel as [| fuel IH]; intros d s; simpl; [apply floored_done |].
  case_match; [case_match |].
  - floored_seq; [apply teleportProgress_floored |]. intros; apply floored_done.
  - apply floored_done.
  - destruct (bd_Err d).
    + destruct (getBlockNum d), GetRPCClient; try apply floored_done.
      floored_seq; [apply floored_world |]. intros [b | e] s1; [| apply floored_done].
      floored_seq; [apply floored_world |]. intros [l | e] s2; [apply IH | apply floored_done].
    + floored_seq; [| intros; apply placeBlock_floored].
      unfold hydrate. destruct (bd_Block d), (getBlockNum d), GetRPCClient; try apply floored_done.
      floored_seq; [apply floored_world |]. intros [b | e] s1; apply floored_done.
Qed.

Lemma handleBlocks_floored env ds s : always floored (handleBlocks env ds) s.
Proof.
  revert s. induction ds as [| d ds IH]; intros s; simpl; [apply floored_done |].
  apply always_try; [apply _ | apply handleBlock_floored | apply IH].
Qed.

Lemma commitBatch_floored env ds s :
  quiet env → consecutive (sq_expectedBlock s) ds →
  always floored (commitBatch env ds (sq_expectedBlock s + Z.of_nat (length ds))) s.
Proof.
  intros Hq [_ Hc]. unfold commitBatch. apply floored_assume. intros [Hl _].
  apply always_bind; [apply _ |]. eapply wp_mono; [apply Hq |]. intros o s1 (-> & He & Ht & Hb). split.
  { intros [? Hm]. split; [split; [lia | by eapply map_Forall_sub] |].
    exists []. rewrite Ht. split; [by rewrite app_nil_r | constructor]. }
  floored_seq; [apply floored_world |]. intros [e |] s2; [apply floored_done |].
  floored_seq.
  { eapply (floored_event _ (EvBatch ds)); [done | intros [? ?]; split; [simpl; lia | done] |].
    intros _. simpl. rewrite (omap_numbers ds (seqZ (sq_expectedBlock s) (Z.of_nat (length ds)))) by done.
    apply Forall_forall. intros x. rewrite elem_of_seqZ. lia. }
  intros [] s3. do 2 (floored_seq; [by apply floored_silent |]; intros [] ?).
  floored_seq; [apply continuations_floored |]. intros; apply floored_done.
Qed.

Lemma handleBatch_floored env ds s : quiet env → always floored (handleBatch env ds) s.
Proof.
  intros Hq. floored_seq; [apply floored_silent; by case_match |]. intros [] s1.
  apply floored_gets. pose proof (classify_spec (sq_expectedBlock s1) ds) as Hc.
  destruct (classify (sq_expectedBlock s1) ds) as [[singles sq] remaining]. destruct Hc as [_ Hc].
  destruct sq as [| d [| d2 sq]].
  - apply handleBlocks_floored.
  - apply always_try; [apply _ | apply handleBlock_floored |]. intros s3.
    apply always_try; [apply _ | apply handleBlocks_floored |]. intros s4. apply handleBlocks_floored.
  - apply always_try; [apply _ | by apply commitBatch_floored |]. intros s3.
    apply always_try; [apply _ | apply handleBlocks_floored |]. intros s4. apply handleBlocks_floored.
Qed.

Lemma handleStall_floored env s : always floored (handleStall env) s.
Proof.
  apply floored_gets. apply floored_assume. intros Hs. cbn zeta. case_match; [| apply floored_done].
  assert (Hskip : ∀ n, L ≤ n → always floored (modify (λ s, set_gapFill 0 (emit (EvSkip n) (set_expected n (set_lastProgress (env_now env) s))))) s).
  { intros n Hn. eapply floored_event; [done | intros [? ?]; by split | intros; constructor]. }
  pose proof (proj1 Hs).
  destruct (minBuffered (sq_buffer s)) as [m |] eqn:Hm; [| apply Hskip; lia].
  case_match; [| apply Hskip; lia]. case_match; [| apply Hskip; by eapply floor_min].
  eapply floored_event; [done | done | intros; constructor].
Qed.

Lemma Run_floored {SS : SortSlice} (inputs : list (SeqEnv W * SeqInput)) s :
  Forall (λ ei, quiet ei.1) inputs → always floored (Run inputs) s.
Proof.
  intros H. revert s. induction H as [| [env i] inputs Hst _ IH]; intros s; simpl; [apply floored_done |].
  floored_seq; [| intros [] s'; [apply IH | apply floored_done]].
  destruct i; simpl.
  - floored_seq; [apply continuations_floored |]. intros; apply floored_done.
  - floored_seq; [apply handleStall_floored |]. intros; apply floored_done.
  - apply floored_done.
  - floored_seq; [apply continuations_floored |]. intros; apply floored_done.
  - floored_seq; [by apply handleBatch_floored |]. intros [e |] s'; [| apply floored_done].
    floored_seq; [eapply floored_event; [done | done | intros; constructor] |]. intros; apply floored_done.
Qed.
End floor.

(** ** The supervisor (cmd/indexer/main_services.go) *)

Section supervisor.
Context {W : Type} {BP : BlockProcessor W} {SS : SortSlice}.

(** recovery/panic_recovery.go, [WithRecoveryNamed]: a panic is logged. *)
Definition WithRecoveryNamed {A} (fn : GoM (Sequencer W) A) : GoM (Sequencer W) unit :=
λ s, (fst (fn s), Val tt).

(** main_services.go, [runSequencerWithSelfHealing]: [Run] is started again
  whenever it returned or panicked; [runs] are the inputs of its successive
  activations.  (After a panic that left [s.mu] locked the next activation
  blocks; it is then one without inputs.) *)
Fixpoint runSequencerWithSelfHealing (runs : list (list (SeqEnv W * SeqInput))) : GoM (Sequencer W) unit :=
match runs with
| [] => mret tt
| inputs :: rest => WithRecoveryNamed (Run inputs);; runSequencerWithSelfHealing rest
end.

Lemma recovered_always {A} R (fn : GoM (Sequencer W) A) s : always R fn s → always R (WithRecoveryNamed fn) s.
Proof. done. Qed.

Lemma supervise_returns runs s : ∃ s', runSequencerWithSelfHealing runs s = (s', Val tt).
Proof. revert s. induction runs as [| r runs IH]; intros s; [by eexists | apply IH]. Qed.

Lemma supervise_always R `{!PreOrder R} runs s :
(∀ inputs s, inputs ∈ runs → always R (Run inputs) s) → always R (runSequencerWithSelfHealing runs) s.
Proof.
revert s. induction runs as [| r runs IH]; intros s H; simpl; [by apply always_ret |].
apply always_seq; [done | apply recovered_always, H; by left |].
intros [] s'. apply IH. intros. apply H. by right.
Qed.

Definition all_quiet (runs : list (list (SeqEnv W * SeqInput))) : Prop := Forall (Forall (λ ei, quiet ei.1)) runs.

Lemma supervise_floored L runs s : all_quiet runs → always (floored L) (runSequencerWithSelfHealing runs) s.
Proof.
intros Hq. apply supervise_always; [apply floored_pre |]. intros inputs s' Hin.
apply Run_floored. by eapply Forall_forall in Hq.
Qed.

Lemma supervise_safe runs s : all_quiet runs → safe (runSequencerWithSelfHealing runs) s.
Proof.
intros Hq. apply (supervise_always refines_step). intros inputs s' Hin.
apply Run_safe. by eapply Forall_forall in Hq.
Qed.
End supervisor.

(** ** Properties *)

(** C5: Exactly once across restarts.  However often the Sequencer's main loop
    ends (a fatal error, a reorg, a panic) and is started again, from a fresh
    Sequencer at [start] the processed numbers increase strictly as long as
    nothing forced [expectedBlock], and without jumps they are exactly [start],
    [start+1], ..., [expectedBlock-1]: a restart neither repeats nor loses a
    block. *)
Theorem supervised_exactly_once {W} {BP : BlockProcessor W} {SS : SortSlice}
    (runs : list (list (SeqEnv W * SeqInput))) (start now : Z) (f : option bool) (w : W) :
  all_quiet runs →
  wp (runSequencerWithSelfHealing runs) (λ o s', o = Val tt ∧
      (Forall (λ ev, isForced ev = false) (sq_trace s') →
       StronglySorted Z.lt (processedNumbers (sq_trace s')) ∧
       Forall (λ n, start ≤ n < sq_expectedBlock s') (processedNumbers (sq_trace s'))) ∧
      (Forall (λ ev, isJump ev = false) (sq_trace s') →
       processedNumbers (sq_trace s') = seqZ start (sq_expectedBlock s' - start)))
     (NewSequencer start now f w).
Proof.
  intros Hq. pose proof (supervise_safe runs (NewSequencer start now f w) Hq) as Hs.
  destruct (supervise_returns runs (NewSequencer start now f w)) as [s' Hr].
  unfold safe, wp, refines_step in *. rewrite Hr in *. simpl in *.
  destruct Hs as [_ (evs & -> & Hrun)]; [done |]. split; [done |]. split; intros Hj.
  - by destruct (spec_run_sorted _ _ _ Hrun Hj) as (_ & ? & ?).
  - by destruct (spec_run_exact _ _ _ Hrun Hj).
Qed.

(** What lies below the Sequencer is lost to it.  From a state whose
    expected block and buffered blocks are all at or above [L], no activation of
    the main loop, whatever it receives and however often it is restarted, ever
    processes a block below [L]: reorgs, stalls, buffer overflows and range
    signals included. *)
Theorem supervised_never_below {W} {BP : BlockProcessor W} {SS : SortSlice} (L : Z)
    (runs : list (list (SeqEnv W * SeqInput))) (s : Sequencer W) :
  all_quiet runs → floor L s →
  wp (runSequencerWithSelfHealing runs)
     (λ o s', o = Val tt ∧ floor L s' ∧
        ∃ evs, sq_trace s' = (sq_trace s ++ evs)%list ∧ Forall (λ n, L ≤ n) (processedNumbers evs)) s.
Proof.
  intros Hq Hf. pose proof (supervise_floored L runs s Hq) as Hs.
  destruct (supervise_returns runs s) as [s' Hr].
  unfold always, wp, floored in *. rewrite Hr in *. by split; [| apply Hs].
Qed.

(** ** Witnesses *)

(** Two activations; blocks 5, 6 and 7 arrive. *)
Definition sampleRuns : list (list (SeqEnv unit * SeqInput)) :=
  [[(sampleEnv 1, InData (sampleData 5) [sampleData 6])]; [(sampleEnv 2, InData (sampleData 7) [])]].

Lemma sampleRuns_quiet : all_quiet sampleRuns.
Proof. repeat (apply Forall_cons_2 || apply Forall_nil_2); apply sampleEnv_quiet. Qed.

Lemma supervised_exactly_once_witness :
  let BP := okProcessor in let SS := goSortSlice in
  let s' := fst (runSequencerWithSelfHealing sampleRuns (NewSequencer 5 0 None tt)) in
  all_quiet sampleRuns ∧ processedNumbers (sq_trace s') = seqZ 5 3.
Proof.
  intros BP SS s'. split; [exact sampleRuns_quiet |].
  destruct (supervised_exactly_once sampleRuns 5 0 None tt sampleRuns_quiet) as (_ & _ & H).
  etransitivity; [apply H; by vm_compute; repeat constructor | by vm_compute].
Defined.

Lemma supervised_never_below_witness :
  let BP := okProcessor in let SS := goSortSlice in
  floor 5 (NewSequencer 5 0 None tt : Sequencer unit) ∧
  floor 5 (fst (runSequencerWithSelfHealing sampleRuns (NewSequencer 5 0 None tt))).
Proof.
  intros BP SS.
  assert (Hf : floor 5 (NewSequencer 5 0 None tt : Sequencer unit)) by (split; [done | apply map_Forall_empty]).
  split; [exact Hf |].
  destruct (supervised_never_below 5 sampleRuns _ sampleRuns_quiet Hf) as (_ & H & _). exact H.
Defined.
