(* ===== verification/Orchestrator.v ===== *)
(** * The Orchestrator (internal/engine/orchestrator_{types,core,loop,api}.go)

    The actor that owns the coordinator state: its message type, the bounded
    command channel, one definition per handler, the decision engine, the main
    loop and the readers.  What it calls (the AsyncWriter's queue, the Fetcher's
    queues) is the interface [OrchWorld]. *)

From S2P Require Import Prelude GoInt Types GlobalState.
From Stdlib Require Import ZArith Lia String.
From stdpp Require Import base strings sorting list pretty.
Open Scope string_scope.
Open Scope Z_scope.

(** ** Messages and state *)

Inductive MsgType : Type :=
| CmdUpdateChainHeight | CmdCommitBatch | CmdCommitDisk | CmdResetCursor
| CmdIncrementTransfers | CmdToggleEcoMode | CmdSetSystemState | CmdFetchFailed
| CmdFetchSuccess | CmdNotifyFetched | CmdNotifyFetchProgress | CmdLogEvent
| ReqGetStatus | ReqGetSnapshot | CmdRecordUserActivity.

#[export] Instance MsgType_eq_dec : EqDecision MsgType.
Proof. solve_decision. Defined.

(** [MsgType.String]. *)
Definition MsgType_String (t : MsgType) : string :=
  match t with
  | CmdUpdateChainHeight => "UpdateChainHeight"
  | CmdCommitBatch => "CommitBatch"
  | CmdCommitDisk => "CommitDisk"
  | CmdResetCursor => "ResetCursor"
  | CmdIncrementTransfers => "IncrementTransfers"
  | CmdToggleEcoMode => "ToggleEcoMode"
  | CmdSetSystemState => "SetSystemState"
  | CmdFetchFailed => "FetchFailed"
  | CmdFetchSuccess => "FetchSuccess"
  | CmdNotifyFetched => "NotifyFetched"
  | CmdNotifyFetchProgress => "NotifyFetchProgress"
  | CmdLogEvent => "LogEvent"
  | ReqGetStatus => "GetStatus"
  | ReqGetSnapshot => "GetSnapshot"
  | CmdRecordUserActivity => "Unknown"
  end.

(** The map [DispatchLog] builds. *)
Record LogData := mkLogData { ld_level : string; ld_msg : string; ld_ts : Z; ld_details : list string }.

(** [Message.Data], an [interface{}]: the dynamic types the handlers assert. *)
Inductive Payload : Type :=
| DNil
| DUint64 (n : Z)
| DString (s : string)
| DBool (b : bool)
| DState (s : SystemStateEnum)
| DTask (t : PersistTask)
| DLog (l : LogData).

Record Message := mkMessage {
  msg_Type : MsgType;
  msg_Data : Payload;
  msg_Reply : bool; (* a non-nil reply channel (capacity 1, one per request) *)
  msg_Sequence : Z
}.

Record CoordinatorState := mkCoordinatorState {
  cs_LatestHeight : Z;
  cs_TargetHeight : Z;
  cs_FetchedHeight : Z;
  cs_SyncedCursor : Z;
  cs_Transfers : Z;
  cs_IsEcoMode : bool;
  cs_Progress : float64;
  cs_SystemState : SystemStateEnum;
  cs_UpdatedAt : Z;
  cs_LastUserActivity : Z;
  cs_SafetyBuffer : Z;
  cs_SuccessCount : Z;
  cs_JobsDepth : Z;
  cs_ResultsDepth : Z;
  cs_LogEntry : option LogData
}.

Section cs_setters.
Definition cset_LatestHeight (v : Z) (s : CoordinatorState) : CoordinatorState :=
mkCoordinatorState v (cs_TargetHeight s) (cs_FetchedHeight s) (cs_SyncedCursor s) (cs_Transfers s) (cs_IsEcoMode s) (cs_Progress s) (cs_SystemState s) (cs_UpdatedAt s) (cs_LastUserActivity s) (cs_SafetyBuffer s) (cs_SuccessCount s) (cs_JobsDepth s) (cs_ResultsDepth s) (cs_LogEntry s).
Definition cset_TargetHeight (v : Z) (s : CoordinatorState) : CoordinatorState :=
mkCoordinatorState (cs_LatestHeight s) v (cs_FetchedHeight s) (cs_SyncedCursor s) (cs_Transfers s) (cs_IsEcoMode s) (cs_Progress s) (cs_SystemState s) (cs_UpdatedAt s) (cs_LastUserActivity s) (cs_SafetyBuffer s) (cs_SuccessCount s) (cs_JobsDepth s) (cs_ResultsDepth s) (cs_LogEntry s).
Definition cset_FetchedHeight (v : Z) (s : CoordinatorState) : CoordinatorState :=
mkCoordinatorState (cs_LatestHeight s) (cs_TargetHeight s) v (cs_SyncedCursor s) (cs_Transfers s) (cs_IsEcoMode s) (cs_Progress s) (cs_SystemState s) (cs_UpdatedAt s) (cs_LastUserActivity s) (cs_SafetyBuffer s) (cs_SuccessCount s) (cs_JobsDepth s) (cs_ResultsDepth s) (cs_LogEntry s).
Definition cset_SyncedCursor (v : Z) (s : CoordinatorState) : CoordinatorState :=
mkCoordinatorState (cs_LatestHeight s) (cs_TargetHeight s) (cs_FetchedHeight s) v (cs_Transfers s) (cs_IsEcoMode s) (cs_Progress s) (cs_SystemState s) (cs_UpdatedAt s) (cs_LastUserActivity s) (cs_SafetyBuffer s) (cs_SuccessCount s) (cs_JobsDepth s) (cs_ResultsDepth s) (cs_LogEntry s).
Definition cset_Transfers (v : Z) (s : CoordinatorState) : CoordinatorState :=
mkCoordinatorState (cs_LatestHeight s) (cs_TargetHeight s) (cs_FetchedHeight s) (cs_SyncedCursor s) v (cs_IsEcoMode s) (cs_Progress s) (cs_SystemState s) (cs_UpdatedAt s) (cs_LastUserActivity s) (cs_SafetyBuffer s) (cs_SuccessCount s) (cs_JobsDepth s) (cs_ResultsDepth s) (cs_LogEntry s).
Definition cset_IsEcoMode (v : bool) (s : CoordinatorState) : CoordinatorState :=
mkCoordinatorState (cs_LatestHeight s) (cs_TargetHeight s) (cs_FetchedHeight s) (cs_SyncedCursor s) (cs_Transfers s) v (cs_Progress s) (cs_SystemState s) (cs_UpdatedAt s) (cs_LastUserActivity s) (cs_SafetyBuffer s) (cs_SuccessCount s) (cs_JobsDepth s) (cs_ResultsDepth s) (cs_LogEntry s).
Definition cset_Progress (v : float64) (s : CoordinatorState) : CoordinatorState :=
mkCoordinatorState (cs_LatestHeight s) (cs_TargetHeight s) (cs_FetchedHeight s) (cs_SyncedCursor s) (cs_Transfers s) (cs_IsEcoMode s) v (cs_SystemState s) (cs_UpdatedAt s) (cs_LastUserActivity s) (cs_SafetyBuffer s) (cs_SuccessCount s) (cs_JobsDepth s) (cs_ResultsDepth s) (cs_LogEntry s).
Definition cset_SystemState (v : SystemStateEnum) (s : CoordinatorState) : CoordinatorState :=
mkCoordinatorState (cs_LatestHeight s) (cs_TargetHeight s) (cs_FetchedHeight s) (cs_SyncedCursor s) (cs_Transfers s) (cs_IsEcoMode s) (cs_Progress s) v (cs_UpdatedAt s) (cs_LastUserActivity s) (cs_SafetyBuffer s) (cs_SuccessCount s) (cs_JobsDepth s) (cs_ResultsDepth s) (cs_LogEntry s).
Definition cset_UpdatedAt (v : Z) (s : CoordinatorState) : CoordinatorState :=
mkCoordinatorState (cs_LatestHeight s) (cs_TargetHeight s) (cs_FetchedHeight s) (cs_SyncedCursor s) (cs_Transfers s) (cs_IsEcoMode s) (cs_Progress s) (cs_SystemState s) v (cs_LastUserActivity s) (cs_SafetyBuffer s) (cs_SuccessCount s) (cs_JobsDepth s) (cs_ResultsDepth s) (cs_LogEntry s).
Definition cset_LastUserActivity (v : Z) (s : CoordinatorState) : CoordinatorState :=
mkCoordinatorState (cs_LatestHeight s) (cs_TargetHeight s) (cs_FetchedHeight s) (cs_SyncedCursor s) (cs_Transfers s) (cs_IsEcoMode s) (cs_Progress s) (cs_SystemState s) (cs_UpdatedAt s) v (cs_SafetyBuffer s) (cs_SuccessCount s) (cs_JobsDepth s) (cs_ResultsDepth s) (cs_LogEntry s).
Definition cset_SafetyBuffer (v : Z) (s : CoordinatorState) : CoordinatorState :=
mkCoordinatorState (cs_LatestHeight s) (cs_TargetHeight s) (cs_FetchedHeight s) (cs_SyncedCursor s) (cs_Transfers s) (cs_IsEcoMode s) (cs_Progress s) (cs_SystemState s) (cs_UpdatedAt s) (cs_LastUserActivity s) v (cs_SuccessCount s) (cs_JobsDepth s) (cs_ResultsDepth s) (cs_LogEntry s).
Definition cset_SuccessCount (v : Z) (s : CoordinatorState) : CoordinatorState :=
mkCoordinatorState (cs_LatestHeight s) (cs_TargetHeight s) (cs_FetchedHeight s) (cs_SyncedCursor s) (cs_Transfers s) (cs_IsEcoMode s) (cs_Progress s) (cs_SystemState s) (cs_UpdatedAt s) (cs_LastUserActivity s) (cs_SafetyBuffer s) v (cs_JobsDepth s) (cs_ResultsDepth s) (cs_LogEntry s).
Definition cset_JobsDepth (v : Z) (s : CoordinatorState) : CoordinatorState :=
mkCoordinatorState (cs_LatestHeight s) (cs_TargetHeight s) (cs_FetchedHeight s) (cs_SyncedCursor s) (cs_Transfers s) (cs_IsEcoMode s) (cs_Progress s) (cs_SystemState s) (cs_UpdatedAt s) (cs_LastUserActivity s) (cs_SafetyBuffer s) (cs_SuccessCount s) v (cs_ResultsDepth s) (cs_LogEntry s).
Definition cset_ResultsDepth (v : Z) (s : CoordinatorState) : CoordinatorState :=
mkCoordinatorState (cs_LatestHeight s) (cs_TargetHeight s) (cs_FetchedHeight s) (cs_SyncedCursor s) (cs_Transfers s) (cs_IsEcoMode s) (cs_Progress s) (cs_SystemState s) (cs_UpdatedAt s) (cs_LastUserActivity s) (cs_SafetyBuffer s) (cs_SuccessCount s) (cs_JobsDepth s) v (cs_LogEntry s).
Definition cset_LogEntry (v : option LogData) (s : CoordinatorState) : CoordinatorState :=
mkCoordinatorState (cs_LatestHeight s) (cs_TargetHeight s) (cs_FetchedHeight s) (cs_SyncedCursor s) (cs_Transfers s) (cs_IsEcoMode s) (cs_Progress s) (cs_SystemState s) (cs_UpdatedAt s) (cs_LastUserActivity s) (cs_SafetyBuffer s) (cs_SuccessCount s) (cs_JobsDepth s) (cs_ResultsDepth s) v.
End cs_setters.

(** The zero value of [CoordinatorState]. *)
Definition zeroState : CoordinatorState :=
  mkCoordinatorState 0 0 0 0 0 false (float_of_Z 0) SystemStateUnknown 0 0 0 0 0 0 None.

(** strategy.go, the [Strategy] interface. [OnStartup] is
    [LoadInitialState] for both implementations. *)
Record Strategy := mkStrategy {
  st_Name : string;
  st_ShouldPersist : bool;
  st_GetConfirmations : Z;
  st_GetBatchSize : Z;
  st_GetInitialSafetyBuffer : Z
}.
Definition AnvilStrategy : Strategy := mkStrategy "PERSISTENT_ANVIL" true 0 200 1.
Definition TestnetStrategy : Strategy := mkStrategy "PERSISTENT_TESTNET" true 6 50 1.
Definition GetStrategy (chainID : Z) : Strategy :=
  if chainID =? 31337 then AnvilStrategy else TestnetStrategy.

(** What the Orchestrator calls: [asyncWriter.Enqueue] and [.Shutdown], and the
    fetcher's queue depths and [ClearJobs]. *)
Class OrchWorld (W : Type) := {
  ow_Enqueue : PersistTask → GoM W (option GoErr);
  ow_WriterShutdown : GoM W (option GoErr);
  ow_QueueDepth : W → Z;
  ow_ResultsDepth : W → Z;
  ow_ClearJobs : W → W
}.

(** The struct.  Channels are the lists of their buffered values; [or_replies]
    collects what is sent on reply channels, by the request's sequence number;
    [or_global] is the GlobalState singleton. *)
Record Orchestrator (W : Type) := mkOrchestrator {
  or_cmdChan : list Message;
  or_state : CoordinatorState;
  or_snapshot : CoordinatorState;
  or_msgSeq : Z;
  or_done : bool;
  or_broadcastCh : list CoordinatorState;
  or_subscribers : list (list CoordinatorState);
  or_pendingHeightUpdate : option Z;
  or_lastHeightMergeTime : Z;
  or_asyncWriter : bool;
  or_fetcher : bool;
  or_strategy : option Strategy;
  or_replies : list (Z * CoordinatorState);
  or_global : GlobalState;
  or_world : W
}.
Arguments mkOrchestrator {W}.
Arguments or_cmdChan {W}.
Arguments or_state {W}.
Arguments or_snapshot {W}.
Arguments or_msgSeq {W}.
Arguments or_done {W}.
Arguments or_broadcastCh {W}.
Arguments or_subscribers {W}.
Arguments or_pendingHeightUpdate {W}.
Arguments or_lastHeightMergeTime {W}.
Arguments or_asyncWriter {W}.
Arguments or_fetcher {W}.
Arguments or_strategy {W}.
Arguments or_replies {W}.
Arguments or_global {W}.
Arguments or_world {W}.

Section or_setters.
Context {W : Type}.
Definition oset_cmdChan (v : list Message) (s : Orchestrator W) : Orchestrator W :=
mkOrchestrator v (or_state s) (or_snapshot s) (or_msgSeq s) (or_done s) (or_broadcastCh s) (or_subscribers s) (or_pendingHeightUpdate s) (or_lastHeightMergeTime s) (or_asyncWriter s) (or_fetcher s) (or_strategy s) (or_replies s) (or_global s) (or_world s).
Definition oset_state (v : CoordinatorState) (s : Orchestrator W) : Orchestrator W :=
mkOrchestrator (or_cmdChan s) v (or_snapshot s) (or_msgSeq s) (or_done s) (or_broadcastCh s) (or_subscribers s) (or_pendingHeightUpdate s) (or_lastHeightMergeTime s) (or_asyncWriter s) (or_fetcher s) (or_strategy s) (or_replies s) (or_global s) (or_world s).
Definition oset_snapshot (v : CoordinatorState) (s : Orchestrator W) : Orchestrator W :=
mkOrchestrator (or_cmdChan s) (or_state s) v (or_msgSeq s) (or_done s) (or_broadcastCh s) (or_subscribers s) (or_pendingHeightUpdate s) (or_lastHeightMergeTime s) (or_asyncWriter s) (or_fetcher s) (or_strategy s) (or_replies s) (or_global s) (or_world s).
Definition oset_msgSeq (v : Z) (s : Orchestrator W) : Orchestrator W :=
mkOrchestrator (or_cmdChan s) (or_state s) (or_snapshot s) v (or_done s) (or_broadcastCh s) (or_subscribers s) (or_pendingHeightUpdate s) (or_lastHeightMergeTime s) (or_asyncWriter s) (or_fetcher s) (or_strategy s) (or_replies s) (or_global s) (or_world s).
Definition oset_done (v : bool) (s : Orchestrator W) : Orchestrator W :=
mkOrchestrator (or_cmdChan s) (or_state s) (or_snapshot s) (or_msgSeq s) v (or_broadcastCh s) (or_subscribers s) (or_pendingHeightUpdate s) (or_lastHeightMergeTime s) (or_asyncWriter s) (or_fetcher s) (or_strategy s) (or_replies s) (or_global s) (or_world s).
Definition oset_broadcastCh (v : list CoordinatorState) (s : Orchestrator W) : Orchestrator W :=
mkOrchestrator (or_cmdChan s) (or_state s) (or_snapshot s) (or_msgSeq s) (or_done s) v (or_subscribers s) (or_pendingHeightUpdate s) (or_lastHeightMergeTime s) (or_asyncWriter s) (or_fetcher s) (or_strategy s) (or_replies s) (or_global s) (or_world s).
Definition oset_subscribers (v : list (list CoordinatorState)) (s : Orchestrator W) : Orchestrator W :=
mkOrchestrator (or_cmdChan s) (or_state s) (or_snapshot s) (or_msgSeq s) (or_done s) (or_broadcastCh s) v (or_pendingHeightUpdate s) (or_lastHeightMergeTime s) (or_asyncWriter s) (or_fetcher s) (or_strategy s) (or_replies s) (or_global s) (or_world s).
Definition oset_pendingHeightUpdate (v : option Z) (s : Orchestrator W) : Orchestrator W :=
mkOrchestrator (or_cmdChan s) (or_state s) (or_snapshot s) (or_msgSeq s) (or_done s) (or_broadcastCh s) (or_subscribers s) v (or_lastHeightMergeTime s) (or_asyncWriter s) (or_fetcher s) (or_strategy s) (or_replies s) (or_global s) (or_world s).
Definition oset_lastHeightMergeTime (v : Z) (s : Orchestrator W) : Orchestrator W :=
mkOrchestrator (or_cmdChan s) (or_state s) (or_snapshot s) (or_msgSeq s) (or_done s) (or_broadcastCh s) (or_subscribers s) (or_pendingHeightUpdate s) v (or_asyncWriter s) (or_fetcher s) (or_strategy s) (or_replies s) (or_global s) (or_world s).
Definition oset_asyncWriter (v : bool) (s : Orchestrator W) : Orchestrator W :=
mkOrchestrator (or_cmdChan s) (or_state s) (or_snapshot s) (or_msgSeq s) (or_done s) (or_broadcastCh s) (or_subscribers s) (or_pendingHeightUpdate s) (or_lastHeightMergeTime s) v (or_fetcher s) (or_strategy s) (or_replies s) (or_global s) (or_world s).
Definition oset_fetcher (v : bool) (s : Orchestrator W) : Orchestrator W :=
mkOrchestrator (or_cmdChan s) (or_state s) (or_snapshot s) (or_msgSeq s) (or_done s) (or_broadcastCh s) (or_subscribers s) (or_pendingHeightUpdate s) (or_lastHeightMergeTime s) (or_asyncWriter s) v (or_strategy s) (or_replies s) (or_global s) (or_world s).
Definition oset_strategy (v : option Strategy) (s : Orchestrator W) : Orchestrator W :=
mkOrchestrator (or_cmdChan s) (or_state s) (or_snapshot s) (or_msgSeq s) (or_done s) (or_broadcastCh s) (or_subscribers s) (or_pendingHeightUpdate s) (or_lastHeightMergeTime s) (or_asyncWriter s) (or_fetcher s) v (or_replies s) (or_global s) (or_world s).
Definition oset_replies (v : list (Z * CoordinatorState)) (s : Orchestrator W) : Orchestrator W :=
mkOrchestrator (or_cmdChan s) (or_state s) (or_snapshot s) (or_msgSeq s) (or_done s) (or_broadcastCh s) (or_subscribers s) (or_pendingHeightUpdate s) (or_lastHeightMergeTime s) (or_asyncWriter s) (or_fetcher s) (or_strategy s) v (or_global s) (or_world s).
Definition oset_global (v : GlobalState) (s : Orchestrator W) : Orchestrator W :=
mkOrchestrator (or_cmdChan s) (or_state s) (or_snapshot s) (or_msgSeq s) (or_done s) (or_broadcastCh s) (or_subscribers s) (or_pendingHeightUpdate s) (or_lastHeightMergeTime s) (or_asyncWriter s) (or_fetcher s) (or_strategy s) (or_replies s) v (or_world s).
Definition oset_world (v : W) (s : Orchestrator W) : Orchestrator W :=
mkOrchestrator (or_cmdChan s) (or_state s) (or_snapshot s) (or_msgSeq s) (or_done s) (or_broadcastCh s) (or_subscribers s) (or_pendingHeightUpdate s) (or_lastHeightMergeTime s) (or_asyncWriter s) (or_fetcher s) (or_strategy s) (or_replies s) (or_global s) v.
End or_setters.

(** ** Operations *)

Definition cmdChanCap : Z := 50000.
Definition broadcastChCap : Z := 1000.
Definition subscriberChCap : Z := 100.

(** A select on a send with a [default] case. *)
Definition chanTrySend {A} (cap : Z) (a : A) (ch : list A) : list A :=
  if Z.of_nat (length ch) <? cap then ch ++ [a] else ch.

Section ops.
Context {W : Type} {OW : OrchWorld W}.

(** orchestrator_core.go, [GetOrchestrator], the first call. *)
Definition newOrchestrator (now : Z) (w : W) : Orchestrator W :=
mkOrchestrator []
  (cset_SafetyBuffer 1 (cset_LastUserActivity now (cset_UpdatedAt now zeroState)))
  zeroState 0 false [] [] None now false false None [] (initGlobalState now) w.

(** A method that works on [o.state]. *)
Definition onState (f : CoordinatorState → CoordinatorState) : GoM (Orchestrator W) unit :=
modify (λ o, oset_state (f (or_state o)) o).

(** orchestrator_core.go, [Init] and [SetAsyncWriter]. *)
Definition Init (fetcher : bool) (strategy : Strategy) : GoM (Orchestrator W) unit :=
modify (oset_fetcher fetcher);;
modify (oset_strategy (Some strategy));;
onState (cset_SafetyBuffer (st_GetInitialSafetyBuffer strategy)).
Definition SetAsyncWriter (present : bool) : GoM (Orchestrator W) unit :=
modify (oset_asyncWriter present).
Definition GetAsyncWriter : GoM (Orchestrator W) bool := gets or_asyncWriter.

(** orchestrator_core.go, the second half of [LoadInitialState]. *)
Definition loadCursor (last : string) : GoM (Orchestrator W) (option GoErr) :=
(if negb (String.eqb last "") && negb (String.eqb last "0") then
   match SetString10 last with
   | Some height =>
     onState (cset_SyncedCursor (big_Uint64 height));;
     modify (λ o, oset_snapshot (or_state o) o)
   | None => mret tt
   end
 else mret tt);;
mret None.

(** orchestrator_core.go, [LoadInitialState]: [checkpoint] is what the query on
  [sync_checkpoints] scans into [lastSyncedBlock] (an error leaves the empty
  string), [maxInDB] the answer of [SELECT COALESCE(MAX(number), 0) FROM blocks]. *)
Definition LoadInitialState (checkpoint : result GoErr string) (maxInDB : result GoErr Z)
: GoM (Orchestrator W) (option GoErr) :=
let scanned := match checkpoint with Ok s => s | Err _ => "" end in
let failed := match checkpoint with Ok _ => false | Err _ => true end in
let last :=
  if failed || String.eqb scanned "" || String.eqb scanned "0" then
    match maxInDB with
    | Ok m => if 0 <? m then pretty m else scanned
    | Err _ => scanned
    end
  else scanned in
loadCursor last.

(** orchestrator_core.go, [RestoreState]. *)
Definition RestoreState (state : CoordinatorState) : GoM (Orchestrator W) unit :=
modify (oset_state state);; modify (oset_snapshot state).

(** All four heights set to [h]. *)
Definition setHeights (h : Z) (s : CoordinatorState) : CoordinatorState :=
cset_TargetHeight h (cset_SyncedCursor h (cset_FetchedHeight h (cset_LatestHeight h s))).

(** orchestrator_core.go, [SnapToReality]. *)
Definition SnapToReality (rpcHeight : Z) : GoM (Orchestrator W) unit :=
o ← gets id;
if add_u64 rpcHeight 1000 <? cs_LatestHeight (or_state o) then
  onState (setHeights rpcHeight);;
  modify (λ o, oset_snapshot (or_state o) o)
else mret tt.

(** [if o.fetcher != nil { o.fetcher.ClearJobs() }] *)
Definition clearFetcherJobs : GoM (Orchestrator W) unit :=
modify (λ o, if or_fetcher o then oset_world (ow_ClearJobs (or_world o)) o else o).

(** orchestrator_core.go, [ForceSetCursors] and [ResetToZero]. *)
Definition ForceSetCursors (height : Z) : GoM (Orchestrator W) unit :=
onState (setHeights height);;
modify (λ o, oset_snapshot (or_state o) o);;
clearFetcherJobs.
Definition ResetToZero : GoM (Orchestrator W) unit :=
onState (setHeights 0);;
modify (λ o, oset_snapshot (or_state o) o);;
clearFetcherJobs.

(** orchestrator_core.go, [Reset]. *)
Definition Reset (now : Z) : GoM (Orchestrator W) unit :=
o ← gets id;
let safetyBuffer := match or_strategy o with
                    | Some st => st_GetInitialSafetyBuffer st
                    | None => 1
                    end in
modify (oset_state (cset_SafetyBuffer safetyBuffer
         (cset_LastUserActivity now (cset_UpdatedAt now zeroState))));;
modify (λ o, oset_snapshot (or_state o) o).

(** orchestrator_core.go, [Shutdown]. *)
Definition Shutdown : GoM (Orchestrator W) unit :=
modify (oset_done true);;
o ← gets id;
if or_asyncWriter o then
  zoom or_world oset_world ow_WriterShutdown;; mret tt
else mret tt.

(** orchestrator_api.go, [Dispatch].  With [ctx] cancelled the select may take
  either ready case: [takeDone] is its choice. *)
Definition Dispatch (takeDone : bool) (t : MsgType) (data : Payload) : GoM (Orchestrator W) Z :=
modify (λ o, oset_msgSeq (add_u64 (or_msgSeq o) 1) o);;
o ← gets id;
let seq := or_msgSeq o in
if or_done o && takeDone then mret seq
else
  modify (λ o, oset_cmdChan (chanTrySend cmdChanCap (mkMessage t data false seq) (or_cmdChan o)) o);;
  mret seq.

(** orchestrator_api.go, [DispatchSync], the sending half: blocked on a full
  channel for 5 seconds it gives up. The answer arrives in [or_replies] under
  the returned sequence number. *)
Definition DispatchSync (t : MsgType) (data : Payload) : GoM (Orchestrator W) (result GoErr Z) :=
modify (λ o, oset_msgSeq (add_u64 (or_msgSeq o) 1) o);;
o ← gets id;
let seq := or_msgSeq o in
if Z.of_nat (length (or_cmdChan o)) <? cmdChanCap then
  modify (λ o, oset_cmdChan (or_cmdChan o ++ [mkMessage t data true seq]) o);;
  mret (Ok seq)
else mret (Err (Errorf ("dispatch timeout: seq=" ++ pretty seq))).

(** orchestrator_api.go, the wrappers. *)
Definition UpdateChainHead (height : Z) := Dispatch false CmdUpdateChainHeight (DUint64 height).
Definition AdvanceDBCursor (height : Z) := Dispatch false CmdCommitDisk (DUint64 height).
Definition SetSystemState (state : SystemStateEnum) := Dispatch false CmdSetSystemState (DState state).
Definition RecordUserActivity := Dispatch false CmdRecordUserActivity DNil.
Definition DispatchLog (level message : string) (details : list string) (nowUnix : Z) :=
Dispatch false CmdLogEvent (DLog (mkLogData level message nowUnix details)).

(** orchestrator_loop.go, the handlers. *)
Definition handleUpdateChainHeight (data : Payload) (now : Z) : GoM (Orchestrator W) unit :=
o ← gets id;
match data with
| DUint64 h =>
  if cs_LatestHeight (or_state o) <? h then
    modify (oset_pendingHeightUpdate (Some h));;
    modify (oset_lastHeightMergeTime now);;
    onState (λ s, cset_TargetHeight
                    (if cs_SafetyBuffer s <? h then sub_u64 h (cs_SafetyBuffer s) else 0) s)
  else mret tt
| _ => mret tt
end.

Definition handleFetchFailed (data : Payload) : GoM (Orchestrator W) unit :=
match data with
| DString errType =>
  if String.eqb errType "not_found" then
    onState (cset_SuccessCount 0);;
    onState (λ s, if cs_SafetyBuffer s <? 20 then cset_SafetyBuffer (add_u64 (cs_SafetyBuffer s) 1) s else s)
  else mret tt
| _ => mret tt
end.

Definition handleFetchSuccess : GoM (Orchestrator W) unit :=
onState (λ s, cset_SuccessCount (add_u64 (cs_SuccessCount s) 1) s);;
onState (λ s, if (50 <=? cs_SuccessCount s) && (1 <? cs_SafetyBuffer s) then
                cset_SuccessCount 0 (cset_SafetyBuffer (sub_u64 (cs_SafetyBuffer s) 1) s)
              else s).

Definition handleNotifyFetch (data : Payload) : GoM (Orchestrator W) unit :=
match data with
| DUint64 h => onState (λ s, if cs_FetchedHeight s <? h then cset_FetchedHeight h s else s)
| _ => mret tt
end.

Definition handleLogEvent (data : Payload) (now : Z) : GoM (Orchestrator W) unit :=
match data with
| DLog l => onState (λ s, cset_UpdatedAt now (cset_LogEntry (Some l) s))
| _ => mret tt
end.

Definition handleCommitBatch (data : Payload) : GoM (Orchestrator W) unit :=
o ← gets id;
match data with
| DTask task =>
  if or_asyncWriter o then
    zoom or_world oset_world (ow_Enqueue task);; mret tt (* an error is only logged *)
  else mret tt
| _ => mret tt
end.

Definition handleCommitDisk (data : Payload) : GoM (Orchestrator W) unit :=
match data with
| DUint64 diskHeight =>
  onState (λ s, if cs_SyncedCursor s <? diskHeight then cset_SyncedCursor diskHeight s else s)
| _ => mret tt
end.

Definition handleResetCursor (data : Payload) : GoM (Orchestrator W) unit :=
match data with DUint64 h => onState (cset_SyncedCursor h) | _ => mret tt end.

Definition handleIncrementTransfers (data : Payload) : GoM (Orchestrator W) unit :=
match data with
| DUint64 count => onState (λ s, cset_Transfers (add_u64 (cs_Transfers s) count) s)
| _ => mret tt
end.

Definition handleToggleEcoMode (data : Payload) : GoM (Orchestrator W) unit :=
match data with DBool active => onState (cset_IsEcoMode active) | _ => mret tt end.

Definition handleSetSystemState (data : Payload) : GoM (Orchestrator W) unit :=
match data with DState state => onState (cset_SystemState state) | _ => mret tt end.

Definition handleGetStatus (reply : bool) (seq : Z) : GoM (Orchestrator W) unit :=
modify (λ o, if reply then oset_replies (or_replies o ++ [(seq, or_state o)]) o else o).

(** orchestrator_loop.go, [updateProgressAndSnapshot]. *)
Definition syncProgress (s : CoordinatorState) : CoordinatorState :=
if 0 <? cs_LatestHeight s then
  let p := float_mul (float_div (float_of_Z (cs_SyncedCursor s)) (float_of_Z (cs_LatestHeight s)))
                     (float_of_Z 100) in
  cset_Progress (if float_gtb p (float_of_Z 100) then float_of_Z 100 else p) s
else s.
Definition updateProgressAndSnapshot (now : Z) : GoM (Orchestrator W) unit :=
onState syncProgress;;
onState (cset_UpdatedAt now);;
modify (λ o, oset_snapshot (or_state o) o);;
modify (λ o, oset_broadcastCh (chanTrySend broadcastChCap (or_snapshot o) (or_broadcastCh o)) o).

(** orchestrator_loop.go, [process]. *)
Definition process (now : Z) (msg : Message) : GoM (Orchestrator W) unit :=
match msg_Type msg with
| CmdUpdateChainHeight => handleUpdateChainHeight (msg_Data msg) now
| CmdFetchFailed => handleFetchFailed (msg_Data msg)
| CmdFetchSuccess => handleFetchSuccess
| CmdNotifyFetched | CmdNotifyFetchProgress => handleNotifyFetch (msg_Data msg)
| CmdLogEvent => handleLogEvent (msg_Data msg) now
| CmdCommitBatch => handleCommitBatch (msg_Data msg)
| CmdCommitDisk => handleCommitDisk (msg_Data msg)
| CmdResetCursor => handleResetCursor (msg_Data msg)
| CmdIncrementTransfers => handleIncrementTransfers (msg_Data msg)
| CmdToggleEcoMode => handleToggleEcoMode (msg_Data msg)
| CmdSetSystemState => handleSetSystemState (msg_Data msg)
| ReqGetStatus | ReqGetSnapshot => handleGetStatus (msg_Reply msg) (msg_Sequence msg)
| CmdRecordUserActivity => onState (cset_LastUserActivity now)
end;;
updateProgressAndSnapshot now.

(** orchestrator_loop.go, [evaluateSystemState]. *)
Definition mask31 (depth : Z) : Z := i32 (Z.land (u32 depth) 0x7FFFFFFF).
Definition evaluateSystemState (now : Z) : GoM (Orchestrator W) unit :=
o ← gets id;
let jobsDepth := if or_fetcher o then ow_QueueDepth (or_world o) else 0 in
let resultsDepth := if or_fetcher o then ow_ResultsDepth (or_world o) else 0 in
(if or_fetcher o then onState (λ s, cset_ResultsDepth resultsDepth (cset_JobsDepth jobsDepth s))
 else mret tt);;
zoom or_global oset_global (UpdatePipelineDepth (mask31 jobsDepth) (mask31 resultsDepth) 0 now);;
snap ← zoom or_global oset_global getSnapshot;
if i32 (go_quot (i32 (sn_PipelineDepth snap * 80)) 100) <? sn_ResultsDepth snap then
  onState (cset_SystemState SystemStateThrottled)
else
  onState (λ s,
    if 1 <? cs_SafetyBuffer s then cset_SystemState SystemStateOptimizing s
    else if bool_decide (cs_SystemState s = SystemStateOptimizing)
            || bool_decide (cs_SystemState s = SystemStateThrottled)
            || bool_decide (cs_SystemState s = SystemStateUnknown)
         then cset_SystemState SystemStateRunning s
         else s).

(** orchestrator_loop.go, [evaluateEcoMode]; times are nanoseconds. *)
Definition minute : Z := 60000000000.
Definition evaluateEcoMode (now : Z) : GoM (Orchestrator W) unit :=
onState (λ s,
  let lag := sub_u64 (cs_LatestHeight s) (cs_SyncedCursor s) in
  let idleTime := now - cs_LastUserActivity s in
  cset_IsEcoMode ((lag <=? 10) && (2 * minute <=? idleTime)) s).

(** orchestrator_loop.go, [flushPendingHeightUpdate]. *)
Definition flushPendingHeightUpdate : GoM (Orchestrator W) unit :=
o ← gets id;
match or_pendingHeightUpdate o with
| Some h =>
  onState (λ s, if cs_LatestHeight s <? h then cset_LatestHeight h s else s);;
  modify (oset_pendingHeightUpdate None)
| None => mret tt
end.

(** orchestrator_loop.go, one iteration of [loop]: the case its [select] takes.
  [false]: the loop returns. A receive on the empty command channel is never
  taken. *)
Inductive LoopCase : Type := LoopDone | LoopMsg | LoopDecision | LoopMerge | LoopTelemetry.

Definition loopStep (now : Z) (c : LoopCase) : GoM (Orchestrator W) bool :=
match c with
| LoopDone => mret false
| LoopMsg =>
  o ← gets id;
  match or_cmdChan o with
  | [] => mret true
  | msg :: rest => modify (oset_cmdChan rest);; process now msg;; mret true
  end
| LoopDecision => evaluateEcoMode now;; evaluateSystemState now;; mret true
| LoopMerge => flushPendingHeightUpdate;; mret true
| LoopTelemetry => mret true
end.

(** orchestrator_api.go, the readers. *)
Definition GetSnapshot : GoM (Orchestrator W) CoordinatorState := gets or_snapshot.

Definition Subscribe : GoM (Orchestrator W) nat :=
o ← gets id;
modify (oset_subscribers (or_subscribers o ++ [[]]));;
mret (length (or_subscribers o)).

Definition GetSyncLag : GoM (Orchestrator W) Z :=
snap ← GetSnapshot;
if cs_LatestHeight snap =? 0 then mret 0
else
  let lag := i64 (i64 (cs_LatestHeight snap) - i64 (cs_SyncedCursor snap)) in
  mret (if lag <? 0 then 0 else lag).

(** orchestrator_api.go, [broadcaster] and [broadcastSnapshot]: [last] is the
  local [lastSnapshot]. *)
Inductive BroadcastCase : Type := BcRecv | BcTick.
Definition broadcastSnapshot (snapshot : CoordinatorState) : GoM (Orchestrator W) unit :=
modify (λ o, oset_subscribers (chanTrySend subscriberChCap snapshot <$> or_subscribers o) o).
Definition broadcasterStep (last : CoordinatorState) (c : BroadcastCase)
: GoM (Orchestrator W) CoordinatorState :=
o ← gets id;
match c with
| BcRecv =>
  match or_broadcastCh o with
  | [] => mret last
  | snapshot :: rest => modify (oset_broadcastCh rest);; mret snapshot
  end
| BcTick =>
  (if bool_decide (or_subscribers o = []) then mret tt else broadcastSnapshot last);;
  mret last
end.
End ops.

(** orchestrator_api.go, [GetStatus]: the map as a record. *)
Record Status := mkStatus {
  sv_state : string;
  sv_latest_block : string;
  sv_target_height : string;
  sv_latest_fetched : string;
  sv_fetch_progress : float64;
  sv_safety_buffer : Z;
  sv_latest_indexed : string;
  sv_sync_lag : Z;
  sv_transfers : Z;
  sv_is_eco_mode : bool;
  sv_progress : float64;
  sv_is_healthy : bool;
  sv_healthy_nodes : Z;
  sv_total_nodes : Z;
  sv_jobs_depth : Z;
  sv_results_depth : Z;
  sv_jobs_capacity : Z;
  sv_results_capacity : Z
}.

Definition GetStatus (snap : CoordinatorState) (healthyNodes totalNodes : Z)
    (capacities : option (Z * Z)) : Status :=
  let lag := SafeInt64Diff (cs_LatestHeight snap) (cs_SyncedCursor snap) in
  let fp := float_mul (float_div (float_of_Z (cs_FetchedHeight snap)) (float_of_Z (cs_LatestHeight snap)))
                      (float_of_Z 100) in
  {| sv_state := SystemState_String (cs_SystemState snap);
     sv_latest_block := pretty (cs_LatestHeight snap);
     sv_target_height := pretty (cs_TargetHeight snap);
     sv_latest_fetched := pretty (cs_FetchedHeight snap);
     sv_fetch_progress :=
       if 0 <? cs_LatestHeight snap then
         if float_gtb fp (float_of_Z 100) then float_of_Z 100 else fp
       else float_of_Z 0;
     sv_safety_buffer := cs_SafetyBuffer snap;
     sv_latest_indexed := pretty (cs_SyncedCursor snap);
     sv_sync_lag := if lag <? 0 then 0 else lag;
     sv_transfers := cs_Transfers snap;
     sv_is_eco_mode := cs_IsEcoMode snap;
     sv_progress := cs_Progress snap;
     sv_is_healthy := 0 <? healthyNodes;
     sv_healthy_nodes := healthyNodes;
     sv_total_nodes := totalNodes;
     sv_jobs_depth := cs_JobsDepth snap;
     sv_results_depth := cs_ResultsDepth snap;
     sv_jobs_capacity := from_option fst 0 capacities;
     sv_results_capacity := from_option snd 0 capacities |}.

(** ** The invariant of the actor *)

(** The safety buffer stays between 1 and 20, fifty successes in a row shrink
    it, and a pending height is above [LatestHeight]; the GlobalState's lock is
    free between two steps. *)
Record orch_ok {W} (o : Orchestrator W) : Prop := {
  ok_buffer : 1 ≤ cs_SafetyBuffer (or_state o) ≤ 20;
  ok_success : 0 ≤ cs_SuccessCount (or_state o) ∧
               (cs_SuccessCount (or_state o) < 50 ∨ cs_SafetyBuffer (or_state o) = 1);
  ok_pending : ∀ h, or_pendingHeightUpdate o = Some h → cs_LatestHeight (or_state o) < h;
  ok_global : gs_mu (or_global o) = Unlocked
}.

(** No height moves backwards. *)
Definition heights_le (s s' : CoordinatorState) : Prop :=
  cs_LatestHeight s ≤ cs_LatestHeight s' ∧ cs_FetchedHeight s ≤ cs_FetchedHeight s' ∧
  cs_SyncedCursor s ≤ cs_SyncedCursor s'.

Definition orch_rel {W} (o o' : Orchestrator W) : Prop :=
  orch_ok o → orch_ok o' ∧ heights_le (or_state o) (or_state o').

#[export] Instance orch_rel_pre {W} : PreOrder (@orch_rel W).
Proof.
  split.
  - intros o Ho. split; [done |]. repeat split; lia.
  - intros o1 o2 o3 H12 H23 H1. destruct (H12 H1) as [H2 Hle]. destruct (H23 H2) as [H3 Hle'].
    split; [done |]. unfold heights_le in *. lia.
Qed.

Lemma orch_rel_frame {W} (o o' : Orchestrator W) :
  or_state o' = or_state o → or_pendingHeightUpdate o' = or_pendingHeightUpdate o →
  gs_mu (or_global o') = gs_mu (or_global o) → orch_rel o o'.
Proof.
  intros Hs Hp Hg [Hb Hc Hq Hm]. rewrite <- Hs in Hb, Hc, Hq.
  split; [split; congruence || (intros h Hh; apply Hq; congruence) |].
  rewrite Hs. repeat split; lia.
Qed.

(** A change of the state that keeps the counters and raises heights. *)
Lemma orch_rel_state {W} (o : Orchestrator W) (s' : CoordinatorState) :
  (orch_ok o → 1 ≤ cs_SafetyBuffer s' ≤ 20 ∧ 0 ≤ cs_SuccessCount s' ∧
     (cs_SuccessCount s' < 50 ∨ cs_SafetyBuffer s' = 1) ∧
     cs_LatestHeight s' = cs_LatestHeight (or_state o) ∧ heights_le (or_state o) s') →
  orch_rel o (oset_state s' o).
Proof.
  intros H Ho. destruct (H Ho) as (Hb & Hc & Hc' & Hl & Hle). destruct Ho as [? ? Hp ?].
  split; [| done]. split; simpl; auto. rewrite Hl. auto.
Qed.

Section loop.
Context {W : Type} {OW : OrchWorld W}.
Hypothesis Enqueue_returns : ∀ t w, ∃ e, snd (ow_Enqueue t w) = Val e.
Implicit Types (o : Orchestrator W).

Lemma onState_keeps f o : orch_rel o (oset_state (f (or_state o)) o) → keeps orch_rel (onState f) o.
Proof. intros H. by apply (keeps_modify _). Qed.

(** Changes that touch none of the invariant's fields. *)
Lemma onState_frame f o :
(∀ s, cs_SafetyBuffer (f s) = cs_SafetyBuffer s ∧ cs_SuccessCount (f s) = cs_SuccessCount s ∧
      cs_LatestHeight (f s) = cs_LatestHeight s ∧ cs_FetchedHeight s ≤ cs_FetchedHeight (f s) ∧
      cs_SyncedCursor s ≤ cs_SyncedCursor (f s)) →
keeps orch_rel (onState f) o.
Proof.
intros Hf. apply onState_keeps, orch_rel_state. intros [Hb Hc Hp Hm].
destruct (Hf (or_state o)) as (-> & -> & -> & ? & ?). unfold heights_le.
destruct (Hf (or_state o)) as (_ & _ & -> & _). intuition lia.
Qed.

Lemma modify_frame f o :
or_state (f o) = or_state o → or_pendingHeightUpdate (f o) = or_pendingHeightUpdate o →
gs_mu (or_global (f o)) = gs_mu (or_global o) → keeps orch_rel (modify f) o.
Proof. intros. by apply (keeps_modify _), orch_rel_frame. Qed.

Lemma updateProgressAndSnapshot_keeps now o : keeps orch_rel (updateProgressAndSnapshot now) o.
Proof.
apply (keeps_seq _).
{ apply onState_frame. intros s. unfold syncProgress. case_match; simpl; repeat split; lia. }
intros _ o1. apply (keeps_seq _).
{ apply onState_frame. intros s. simpl. repeat split; lia. }
intros _ o2. apply (keeps_seq _); [by apply modify_frame |].
intros _ o3. by apply modify_frame.
Qed.

Lemma handleUpdateChainHeight_keeps data now o : keeps orch_rel (handleUpdateChainHeight data now) o.
Proof.
apply (keeps_bind _), wp_gets. exists o. split_and!; [done | reflexivity |]. simpl.
destruct data as [| h | | | | |]; try apply (keeps_ret _).
destruct (Z.ltb_spec (cs_LatestHeight (or_state o)) h); [| apply (keeps_ret _)].
apply (keeps_seq _).
{ apply (keeps_modify _). intros [Hb Hc Hp Hm]. split; [| repeat split; simpl; lia].
  split; simpl; auto. intros h' [= <-]. done. }
intros _ o1. apply (keeps_seq _); [by apply modify_frame |].
intros _ o2. apply onState_frame. intros s. simpl. repeat split; lia.
Qed.

Lemma handleFetchFailed_keeps data o : keeps orch_rel (handleFetchFailed data) o.
Proof.
destruct data; try apply (keeps_ret _). simpl. case_match; [| apply (keeps_ret _)].
apply wp_bind, wp_modify, wp_modify. split; [by eexists |].
apply (orch_rel_state o). intros [Hb Hc Hp Hm]. simpl.
destruct (Z.ltb_spec (cs_SafetyBuffer (or_state o)) 20); unfold heights_le; simpl; [| lia].
rewrite add_u64_id by lia64. lia.
Qed.

Lemma handleFetchSuccess_keeps o : keeps orch_rel handleFetchSuccess o.
Proof.
apply wp_bind, wp_modify, wp_modify. split; [by eexists |].
apply (orch_rel_state o). intros [Hb Hc Hp Hm]. simpl.
pose proof (u64_range (cs_SuccessCount (or_state o) + 1)) as Hu.
fold (add_u64 (cs_SuccessCount (or_state o)) 1) in Hu.
destruct (Z.leb_spec 50 (add_u64 (cs_SuccessCount (or_state o)) 1));
  destruct (Z.ltb_spec 1 (cs_SafetyBuffer (or_state o))); unfold heights_le; simpl;
  rewrite ?sub_u64_ge by lia64; unfold is_u64 in Hu; lia.
Qed.

(** A handler that only rewrites other fields or raises a height. *)
Ltac handler_frame :=
apply onState_frame; intros ?; simpl; repeat case_match; simpl; bool_prop; repeat split; lia.

Lemma process_keeps now msg o :
msg_Type msg ≠ CmdResetCursor → keeps orch_rel (process now msg) o.
Proof using Enqueue_returns.
intros Hr. apply (keeps_seq _); [| intros; apply updateProgressAndSnapshot_keeps].
destruct (msg_Type msg); [apply handleUpdateChainHeight_keeps | | | done | | | | apply handleFetchFailed_keeps
  | apply handleFetchSuccess_keeps | | | | | |].
- apply (keeps_bind _), wp_gets. exists o. split_and!; [done | reflexivity |].
  destruct (msg_Data msg) as [| | | | | t |]; try apply (keeps_ret _). simpl.
  case_match; [| apply (keeps_ret _)]. apply (keeps_bind _), wp_zoom.
  destruct (Enqueue_returns t (or_world o)) as [e He]. unfold wp. exists e. split_and!; [done | |].
  + by apply orch_rel_frame.
  + apply (keeps_ret _).
- destruct (msg_Data msg); try apply (keeps_ret _); handler_frame.
- destruct (msg_Data msg); try apply (keeps_ret _); handler_frame.
- destruct (msg_Data msg); try apply (keeps_ret _); handler_frame.
- destruct (msg_Data msg); try apply (keeps_ret _); handler_frame.
- destruct (msg_Data msg); try apply (keeps_ret _); handler_frame.
- destruct (msg_Data msg); try apply (keeps_ret _); handler_frame.
- destruct (msg_Data msg); try apply (keeps_ret _); handler_frame.
- apply modify_frame; by case_match.
- apply modify_frame; by case_match.
- handler_frame.
Qed.

Lemma flushPendingHeightUpdate_keeps o : keeps orch_rel flushPendingHeightUpdate o.
Proof.
apply wp_bind, wp_gets. simpl. destruct (or_pendingHeightUpdate o) as [h |] eqn:Hh; [| apply (keeps_ret _)].
apply wp_bind, wp_modify, wp_modify. split; [by eexists |]. intros [Hb Hc Hp Hm].
simpl. case_match; bool_prop; (split; [split; simpl; auto; done |]); repeat split; simpl; lia.
Qed.

(** [evaluateSystemState], unfolded: the new [SystemState]. *)
Definition nextSystemState (jobs results : Z) (s : CoordinatorState) : SystemStateEnum :=
if i32 (go_quot (i32 (i32 (i32 (mask31 jobs + mask31 results) + 0) * 80)) 100) <? mask31 results
then SystemStateThrottled
else if 1 <? cs_SafetyBuffer s then SystemStateOptimizing
else if bool_decide (cs_SystemState s = SystemStateOptimizing)
        || bool_decide (cs_SystemState s = SystemStateThrottled)
        || bool_decide (cs_SystemState s = SystemStateUnknown)
     then SystemStateRunning else cs_SystemState s.

Definition fetcherDepths o : Z * Z :=
if or_fetcher o then (ow_QueueDepth (or_world o), ow_ResultsDepth (or_world o)) else (0, 0).

Lemma evaluateSystemState_eq now o :
gs_mu (or_global o) = Unlocked →
wp (evaluateSystemState now)
   (λ out o', out = Val tt ∧
      cs_SystemState (or_state o') =
        nextSystemState (fst (fetcherDepths o)) (snd (fetcherDepths o)) (or_state o) ∧
      gs_mu (or_global o') = Unlocked ∧
      or_pendingHeightUpdate o' = or_pendingHeightUpdate o ∧
      cs_SafetyBuffer (or_state o') = cs_SafetyBuffer (or_state o) ∧
      cs_SuccessCount (or_state o') = cs_SuccessCount (or_state o) ∧
      cs_LatestHeight (or_state o') = cs_LatestHeight (or_state o) ∧
      cs_FetchedHeight (or_state o') = cs_FetchedHeight (or_state o) ∧
      cs_SyncedCursor (or_state o') = cs_SyncedCursor (or_state o) ∧
      or_cmdChan o' = or_cmdChan o ∧ or_world o' = or_world o) o.
Proof.
intros Hl. unfold evaluateSystemState, fetcherDepths. apply wp_bind, wp_gets. unfold id at 1.
apply wp_bind.
set (s1 := if or_fetcher o then cset_ResultsDepth (ow_ResultsDepth (or_world o))
                                  (cset_JobsDepth (ow_QueueDepth (or_world o)) (or_state o)) else or_state o).
assert (Hw : ∀ Q, Q (Val tt) (oset_state s1 o) →
  wp (if or_fetcher o then onState (λ s, cset_ResultsDepth (if or_fetcher o then ow_ResultsDepth (or_world o) else 0)
        (cset_JobsDepth (if or_fetcher o then ow_QueueDepth (or_world o) else 0) s)) else mret tt) Q o).
{ intros Q HQ. unfold s1 in HQ. destruct (or_fetcher o); [by apply wp_modify |].
  apply wp_ret. by destruct o. }
apply Hw. clear Hw.
assert (Hs1 : cs_SafetyBuffer s1 = cs_SafetyBuffer (or_state o) ∧ cs_SuccessCount s1 = cs_SuccessCount (or_state o) ∧
  cs_LatestHeight s1 = cs_LatestHeight (or_state o) ∧ cs_FetchedHeight s1 = cs_FetchedHeight (or_state o) ∧
  cs_SyncedCursor s1 = cs_SyncedCursor (or_state o) ∧ cs_SystemState s1 = cs_SystemState (or_state o))
  by (unfold s1; by destruct (or_fetcher o)).
clearbody s1. destruct Hs1 as (H1 & H2 & H3 & H4 & H5 & H6).
apply wp_bind, wp_zoom. unfold wp at 1. simpl. rewrite UpdatePipelineDepth_free by done. simpl.
apply wp_bind, wp_zoom. unfold wp at 1. simpl. rewrite getSnapshot_free by done. simpl.
replace (if or_fetcher o then (ow_QueueDepth (or_world o), ow_ResultsDepth (or_world o)) else (0, 0))
  with (if or_fetcher o then ow_QueueDepth (or_world o) else 0,
        if or_fetcher o then ow_ResultsDepth (or_world o) else 0) by (by destruct (or_fetcher o)).
simpl. unfold nextSystemState. case_match; apply wp_modify; simpl; [by split_and! |].
rewrite <- H1, <- H6. repeat case_match; by split_and!.
Qed.

Lemma evaluateSystemState_keeps now o : orch_ok o → keeps orch_rel (evaluateSystemState now) o.
Proof.
intros [Hb Hc Hp Hm]. eapply wp_mono; [by apply evaluateSystemState_eq |].
intros out o' (-> & _ & Hm' & Hp' & Hb' & Hc' & Hl & Hf & Hs & _). split; [by eexists |].
intros _. split; [split; rewrite ?Hb', ?Hc', ?Hl, ?Hp'; auto |].
unfold heights_le. lia.
Qed.

Lemma loopStep_keeps now c o :
(∀ msg rest, c = LoopMsg → or_cmdChan o = msg :: rest → msg_Type msg ≠ CmdResetCursor) →
orch_ok o → keeps orch_rel (loopStep now c) o.
Proof using Enqueue_returns.
intros Hr Ho. destruct c; try apply (keeps_ret _).
- apply wp_bind, wp_gets. unfold id. destruct (or_cmdChan o) as [| msg rest] eqn:Hq; [apply (keeps_ret _) |].
  apply (keeps_seq _); [by apply modify_frame |]. intros _ o1.
  apply (keeps_seq _); [| intros; apply (keeps_ret _)]. apply process_keeps. by eapply Hr.
- apply (keeps_bind _). eapply wp_mono.
  { apply (onState_frame (λ s, cset_IsEcoMode _ s)). intros s. simpl. repeat split; lia. }
  intros out o1 [[a ->] Hr1]. exists a. split_and!; [done.. |].
  apply (keeps_seq _); [| intros; apply (keeps_ret _)].
  apply evaluateSystemState_keeps. by apply Hr1.
- apply (keeps_seq _); [apply flushPendingHeightUpdate_keeps | intros; apply (keeps_ret _)].
Qed.

(** A reset moves the cursor to where it was told, also backwards. *)
Lemma reset_wp now msg o :
msg_Type msg = CmdResetCursor → orch_ok o →
wp (process now msg) (λ out o', out = Val tt ∧ orch_ok o' ∧
   cs_LatestHeight (or_state o) ≤ cs_LatestHeight (or_state o') ∧ cs_FetchedHeight (or_state o) ≤ cs_FetchedHeight (or_state o') ∧
   (cs_SyncedCursor (or_state o) ≤ cs_SyncedCursor (or_state o') ∨ msg_Data msg = DUint64 (cs_SyncedCursor (or_state o')))) o.
Proof.
intros Hr [Hb Hc Hp Hm]. unfold process. rewrite Hr. apply wp_bind.
assert (Hup : ∀ o1, orch_ok o1 → cs_LatestHeight (or_state o1) = cs_LatestHeight (or_state o) →
  cs_FetchedHeight (or_state o1) = cs_FetchedHeight (or_state o) →
  cs_SyncedCursor (or_state o1) = cs_SyncedCursor (or_state o) ∨ msg_Data msg = DUint64 (cs_SyncedCursor (or_state o1)) →
  wp (updateProgressAndSnapshot now) (λ out o', out = Val tt ∧ orch_ok o' ∧
   cs_LatestHeight (or_state o) ≤ cs_LatestHeight (or_state o') ∧ cs_FetchedHeight (or_state o) ≤ cs_FetchedHeight (or_state o') ∧
   (cs_SyncedCursor (or_state o) ≤ cs_SyncedCursor (or_state o') ∨ msg_Data msg = DUint64 (cs_SyncedCursor (or_state o')))) o1).
{ intros o1 [Hb1 Hc1 Hp1 Hm1] El Ef Es. do 3 apply wp_bind, wp_modify. apply wp_modify.
  assert (Hf : ∀ s, let s' := cset_UpdatedAt now (syncProgress s) in
    cs_SafetyBuffer s' = cs_SafetyBuffer s ∧ cs_SuccessCount s' = cs_SuccessCount s ∧ cs_LatestHeight s' = cs_LatestHeight s ∧
    cs_FetchedHeight s' = cs_FetchedHeight s ∧ cs_SyncedCursor s' = cs_SyncedCursor s)
    by (intros s; unfold syncProgress; simpl; case_match; by split_and!).
  destruct (Hf (or_state o1)) as (E1 & E2 & E3 & E4 & E5).
  split; [done |]. split; [split; cbn [or_state oset_state oset_broadcastCh oset_snapshot]; rewrite ?E1, ?E2, ?E3; done |].
  cbn [or_state oset_state oset_broadcastCh oset_snapshot]. rewrite E3, E4, E5. split_and!; [lia.. |].
  destruct Es as [-> | Es]; [left; lia | by right]. }
unfold handleResetCursor. destruct (msg_Data msg) as [| h | | | | |] eqn:Hd;
  try (apply wp_ret, Hup; [by split | done.. | by left]).
apply wp_modify, Hup; [by split | done.. | by right].
Qed.

(** Only an accepted chain height moves the target, and not always forwards. *)
Definition same_target (o o' : Orchestrator W) : Prop := cs_TargetHeight (or_state o') = cs_TargetHeight (or_state o).
#[local] Instance same_target_pre : PreOrder same_target.
Proof. unfold same_target. split; [done |]. intros o1 o2 o3 H12 H23. by rewrite H23. Qed.

Lemma target_wp {A} (m : GoM (Orchestrator W) A) o (Q : outcome A → Orchestrator W → Prop) :
always same_target m o → (∀ out o', same_target o o' → Q out o') → wp m Q o.
Proof. unfold always. intros Hm HQ. eapply wp_mono; [exact Hm |]. intros out o'. apply HQ. Qed.

Lemma onState_target f o : (∀ s, cs_TargetHeight (f s) = cs_TargetHeight s) → always same_target (onState f) o.
Proof. intros Hf. apply always_modify, Hf. Qed.

Ltac target_frame :=
  repeat first
    [ apply always_ret; apply _
    | apply onState_target; intros ?; simpl; by repeat case_match
    | apply always_modify; by repeat case_match
    | apply always_seq; [apply _ | | intros ? ?]
    | case_match
    | progress unfold handleFetchFailed, handleFetchSuccess, handleGetStatus ].

Lemma updateProgress_target now o : always same_target (updateProgressAndSnapshot now) o.
Proof.
apply always_seq; [apply _ | apply onState_target; intros ?; unfold syncProgress; by case_match |]. intros [] o1.
apply always_seq; [apply _ | by apply onState_target |]. intros [] o2.
apply always_seq; [apply _ | by apply always_modify |]. intros [] o3. by apply always_modify.
Qed.

Lemma process_target now msg o :
wp (process now msg) (λ _ o', cs_TargetHeight (or_state o') = cs_TargetHeight (or_state o) ∨
   ∃ h, msg_Type msg = CmdUpdateChainHeight ∧ msg_Data msg = DUint64 h ∧ cs_LatestHeight (or_state o) < h ∧
        cs_TargetHeight (or_state o') = if cs_SafetyBuffer (or_state o) <? h then sub_u64 h (cs_SafetyBuffer (or_state o)) else 0) o.
Proof.
assert (Hframe : ∀ m : GoM (Orchestrator W) unit, always same_target m o →
  wp (m;; updateProgressAndSnapshot now) (λ _ o', cs_TargetHeight (or_state o') = cs_TargetHeight (or_state o)) o).
{ intros m Hm. eapply target_wp; [| intros out o' H'; exact H'].
  apply always_seq; [apply _ | done |]. intros [] o1. apply updateProgress_target. }
unfold process. destruct (msg_Type msg) eqn:Ht; [| (eapply wp_mono; [| intros out o' E; left; exact E]); apply Hframe..].
- unfold handleUpdateChainHeight. apply wp_bind, wp_bind, wp_gets. unfold id.
  assert (Hsame : ∀ Q : outcome unit → Orchestrator W → Prop, (∀ out o', same_target o o' → Q out o') →
    wp (updateProgressAndSnapshot now) Q o).
  { intros Q HQ. by apply (target_wp _ _ _ (updateProgress_target now o)). }
  destruct (msg_Data msg) as [| h | | | | |] eqn:Hd; try (apply wp_ret, Hsame; intros; by left).
  destruct (Z.ltb_spec (cs_LatestHeight (or_state o)) h); [| apply wp_ret, Hsame; intros; by left].
  do 2 apply wp_bind, wp_modify. apply wp_modify.
  eapply target_wp; [apply updateProgress_target |]. intros out o' H'. right. exists h. split_and!; [done.. |]. by rewrite H'.
- unfold handleCommitBatch. apply always_seq; [apply _ | apply always_gets; apply _ |]. intros o1 o2.
  destruct (msg_Data msg); try (apply always_ret; apply _). case_match; [| apply always_ret; apply _].
  apply always_seq; [apply _ | | intros; apply always_ret; apply _]. by apply wp_zoom.
- destruct (msg_Data msg); target_frame.
- destruct (msg_Data msg); target_frame.
- destruct (msg_Data msg); target_frame.
- destruct (msg_Data msg); target_frame.
- destruct (msg_Data msg); target_frame.
- destruct (msg_Data msg); target_frame.
- target_frame.
- destruct (msg_Data msg); target_frame.
- destruct (msg_Data msg); target_frame.
- destruct (msg_Data msg); target_frame.
- destruct (msg_Data msg); target_frame.
- target_frame.
- target_frame.
Qed.

Lemma evaluateSystemState_target now o : always same_target (evaluateSystemState now) o.
Proof.
apply always_seq; [apply _ | apply always_gets; apply _ |]. intros o1 o2.
apply always_seq; [apply _ | case_match; [by apply onState_target | apply always_ret; apply _] |]. intros [] o3.
apply always_seq; [apply _ | by apply wp_zoom |]. intros [] o4.
apply always_seq; [apply _ | by apply wp_zoom |]. intros snap o5.
case_match; apply onState_target; [done |]. intros s. by repeat case_match.
Qed.

Lemma loopStep_target now c o :
wp (loopStep now c) (λ _ o', cs_TargetHeight (or_state o') = cs_TargetHeight (or_state o) ∨
   ∃ msg rest h, c = LoopMsg ∧ or_cmdChan o = msg :: rest ∧ msg_Type msg = CmdUpdateChainHeight ∧ msg_Data msg = DUint64 h ∧
        cs_LatestHeight (or_state o) < h ∧
        cs_TargetHeight (or_state o') = if cs_SafetyBuffer (or_state o) <? h then sub_u64 h (cs_SafetyBuffer (or_state o)) else 0) o.
Proof.
assert (Hframe : ∀ m : GoM (Orchestrator W) bool, always same_target m o →
  wp m (λ _ o', cs_TargetHeight (or_state o') = cs_TargetHeight (or_state o) ∨
   ∃ msg rest h, c = LoopMsg ∧ or_cmdChan o = msg :: rest ∧ msg_Type msg = CmdUpdateChainHeight ∧ msg_Data msg = DUint64 h ∧
        cs_LatestHeight (or_state o) < h ∧
        cs_TargetHeight (or_state o') = if cs_SafetyBuffer (or_state o) <? h then sub_u64 h (cs_SafetyBuffer (or_state o)) else 0) o).
{ intros m Hm. apply (target_wp _ _ _ Hm). intros out o' H'. by left. }
destruct c; try (apply Hframe, always_ret; apply _).
- apply wp_bind, wp_gets. unfold id. destruct (or_cmdChan o) as [| msg rest] eqn:Hq; [apply wp_ret; by left |].
  apply wp_bind, wp_modify, wp_bind. eapply wp_mono; [apply process_target |].
  intros out o' H'. assert (Hfin : cs_TargetHeight (or_state o') = cs_TargetHeight (or_state o) ∨
   ∃ msg0 rest0 h, LoopMsg = LoopMsg ∧ msg :: rest = msg0 :: rest0 ∧ msg_Type msg0 = CmdUpdateChainHeight ∧ msg_Data msg0 = DUint64 h ∧
        cs_LatestHeight (or_state o) < h ∧
        cs_TargetHeight (or_state o') = if cs_SafetyBuffer (or_state o) <? h then sub_u64 h (cs_SafetyBuffer (or_state o)) else 0).
  { destruct H' as [H' | (h & H')]; [by left | right]. by exists msg, rest, h. }
  destruct out; [apply wp_ret |]; exact Hfin.
- apply Hframe. apply always_seq; [apply _ | by apply onState_target |]. intros [] o1.
  apply always_seq; [apply _ | apply evaluateSystemState_target |]. intros [] o2. apply always_ret; apply _.
- apply Hframe. apply always_seq; [apply _ | | intros; apply always_ret; apply _].
  apply always_seq; [apply _ | apply always_gets; apply _ |]. intros o1 o2.
  case_match; [| apply always_ret; apply _].
  apply always_seq; [apply _ | apply onState_target; intros ?; simpl; by repeat case_match |]. intros [] o3. by apply always_modify.
Qed.


Lemma loopStep_rel now c o :
orch_ok o →
wp (loopStep now c) (λ out o', (∃ b, out = Val b) ∧ orch_ok o' ∧
   cs_LatestHeight (or_state o) ≤ cs_LatestHeight (or_state o') ∧ cs_FetchedHeight (or_state o) ≤ cs_FetchedHeight (or_state o') ∧
   (cs_SyncedCursor (or_state o) ≤ cs_SyncedCursor (or_state o') ∨
    ∃ msg rest, c = LoopMsg ∧ or_cmdChan o = msg :: rest ∧ msg_Type msg = CmdResetCursor ∧
                msg_Data msg = DUint64 (cs_SyncedCursor (or_state o')))) o.
Proof using Enqueue_returns.
intros Ho.
assert (Hplain : (∀ msg rest, c = LoopMsg → or_cmdChan o = msg :: rest → msg_Type msg ≠ CmdResetCursor) →
  wp (loopStep now c) (λ out o', (∃ b, out = Val b) ∧ orch_ok o' ∧ heights_le (or_state o) (or_state o')) o).
{ intros Hr. pose proof (loopStep_keeps now c o Hr Ho) as Hk. unfold keeps in Hk.
  eapply wp_mono; [exact Hk |]. intros out o' [Hout Hrel]. split; [done | by apply Hrel]. }
destruct c; try (eapply wp_mono; [by apply Hplain |]; intros out o' (H1 & H2 & H3 & H4 & H5); split_and!; auto).
destruct (or_cmdChan o) as [| msg rest] eqn:Hq.
{ eapply wp_mono; [apply Hplain; by intros |]; intros out o' (H1 & H2 & H3 & H4 & H5); split_and!; auto. }
destruct (decide (msg_Type msg = CmdResetCursor)) as [Hr | Hr].
- unfold loopStep. apply wp_bind, wp_gets. unfold id. rewrite Hq. apply wp_bind, wp_modify, wp_bind.
  eapply wp_mono; [apply (reset_wp now msg (oset_cmdChan rest o) Hr); destruct Ho; by split |].
  intros out o' (-> & H1 & H2 & H3 & H4). apply wp_ret. split_and!; [by eexists | done.. |].
  destruct H4 as [H4 | H4]; [by left | right]. by exists msg, rest.
- eapply wp_mono; [apply Hplain; intros ? ? _ [= <- <-]; done |]; intros out o' (H1 & H2 & H3 & H4 & H5); split_and!; auto.
Qed.
End loop.

(** ** What a step does to the cursor, the queue and the world *)

(** A step that leaves the command queue alone, moves the cursor only to a
    height it was told, and changes the world only by enqueueing a task. *)
Definition process_frame {W} {OW : OrchWorld W} (msg : Message) (o o' : Orchestrator W) : Prop :=
  or_cmdChan o' = or_cmdChan o ∧ or_global o' = or_global o ∧
  (cs_SyncedCursor (or_state o') = cs_SyncedCursor (or_state o) ∨
   (msg_Type msg = CmdCommitDisk ∨ msg_Type msg = CmdResetCursor) ∧
   msg_Data msg = DUint64 (cs_SyncedCursor (or_state o'))) ∧
  (or_world o' = or_world o ∨
   ∃ t, msg_Type msg = CmdCommitBatch ∧ msg_Data msg = DTask t ∧ or_world o' = fst (ow_Enqueue t (or_world o))).

Lemma updateProgress_cursor {W} now (o : Orchestrator W) (Q : outcome unit → Orchestrator W → Prop) :
  (∀ o', or_cmdChan o' = or_cmdChan o → cs_SyncedCursor (or_state o') = cs_SyncedCursor (or_state o) →
         or_world o' = or_world o → or_global o' = or_global o → Q (Val tt) o') →
  wp (updateProgressAndSnapshot now) Q o.
Proof.
  intros HQ. do 3 apply wp_bind, wp_modify. apply wp_modify. apply HQ; try done.
  simpl. unfold syncProgress. by repeat case_match.
Qed.

Lemma process_frame_wp {W} {OW : OrchWorld W} now msg (o : Orchestrator W) :
  (∀ t w, ∃ e, snd (ow_Enqueue t w) = Val e) →
  wp (process now msg) (λ _ o', process_frame msg o o') o.
Proof.
  intros He. unfold process. apply wp_bind.
  assert (Hk : ∀ (Q : outcome unit → Orchestrator W → Prop) m,
     wp m (λ out o', out = Val tt ∧ process_frame msg o o') o →
     wp m (λ out s', match out with
                     | Val a => wp (updateProgressAndSnapshot now) (λ _ o', process_frame msg o o') s'
                     | Panic w => Q (Panic w) s'
                     end) o).
  { intros Q m Hm. eapply wp_mono; [exact Hm |]. intros out o1 [-> (H1 & Hg & H2 & H3)].
    apply updateProgress_cursor. intros o' Hc Hs Hw Hg'. unfold process_frame. rewrite Hc, Hs, Hw, Hg'. auto. }
  apply (Hk (λ _ o', process_frame msg o o')). clear Hk. unfold process_frame.
  destruct (msg_Type msg) eqn:Ht, (msg_Data msg) eqn:Hd;
    unfold handleUpdateChainHeight, handleFetchFailed, handleFetchSuccess, handleNotifyFetch, handleLogEvent,
      handleCommitDisk, handleResetCursor, handleIncrementTransfers, handleToggleEcoMode, handleSetSystemState,
      handleGetStatus, onState;
    try (wp_go; repeat case_match; simpl; split_and!; by eauto).
  unfold handleCommitBatch.
  apply wp_bind, wp_gets. unfold id. case_match; [| by apply wp_ret; split_and!; auto].
  apply wp_bind, wp_zoom. unfold wp. destruct (He t (or_world o)) as [e ->]. simpl.
  split_and!; [done.. | by left | right; by exists t].
Qed.

(** ** Heights: the merge of [CmdUpdateChainHeight] messages *)

Section heights.
Context {W : Type} {OW : OrchWorld W}.
Implicit Types (o : Orchestrator W).

(** Processing one update: only the pending height matters for [LatestHeight]. *)
Lemma process_update now h o :
∃ o', process now (mkMessage CmdUpdateChainHeight (DUint64 h) false 0) o = (o', Val tt) ∧
      cs_LatestHeight (or_state o') = cs_LatestHeight (or_state o) ∧
      or_pendingHeightUpdate o' =
        (if cs_LatestHeight (or_state o) <? h then Some h else or_pendingHeightUpdate o).
Proof.
unfold process, mbind, GoM_bind. simpl. unfold handleUpdateChainHeight, mbind, GoM_bind. simpl. unfold id.
destruct (Z.ltb_spec (cs_LatestHeight (or_state o)) h) as [Hlt | Hge];
  (eexists; split; [reflexivity |]); simpl; unfold syncProgress; split;
  try (by repeat case_match); done.
Qed.

(** The merge tick. *)
Lemma flush_latest o :
∃ o', flushPendingHeightUpdate o = (o', Val tt) ∧ or_pendingHeightUpdate o' = None ∧
      cs_LatestHeight (or_state o') =
        match or_pendingHeightUpdate o with
        | Some h => Z.max (cs_LatestHeight (or_state o)) h
        | None => cs_LatestHeight (or_state o)
        end.
Proof.
unfold flushPendingHeightUpdate, mbind, GoM_bind. simpl. unfold id.
destruct (or_pendingHeightUpdate o) as [h |] eqn:Hp.
- eexists. split; [reflexivity |]. split; [done |]. simpl.
  destruct (Z.ltb_spec (cs_LatestHeight (or_state o)) h); simpl; lia.
- exists o. by rewrite Hp.
Qed.

(** Update messages for the heights [hs], processed one after the other. *)
Fixpoint processUpdates (now : Z) (hs : list Z) : GoM (Orchestrator W) unit :=
match hs with
| [] => mret tt
| h :: rest => process now (mkMessage CmdUpdateChainHeight (DUint64 h) false 0);; processUpdates now rest
end.

Lemma processUpdates_pending now hs o :
∃ o', processUpdates now hs o = (o', Val tt) ∧
      cs_LatestHeight (or_state o') = cs_LatestHeight (or_state o) ∧
      or_pendingHeightUpdate o' =
        match last (filter (λ h, cs_LatestHeight (or_state o) < h) hs) with
        | Some h => Some h
        | None => or_pendingHeightUpdate o
        end.
Proof.
revert o. induction hs as [| h hs IH]; intros o; [by exists o |].
destruct (process_update now h o) as (o1 & E1 & Hl1 & Hp1).
destruct (IH o1) as (o2 & E2 & Hl2 & Hp2). exists o2.
split; [simpl; unfold mbind, GoM_bind; by rewrite E1 |]. split; [congruence |].
rewrite Hp2, Hp1, Hl1, filter_cons. destruct (Z.ltb_spec (cs_LatestHeight (or_state o)) h) as [Hlt | Hge].
- rewrite decide_True by lia. rewrite last_cons. clear. set (f := filter _ hs). by destruct (last f).
- by rewrite decide_False by lia.
Qed.
End heights.

Lemma mask31_small z : 0 ≤ z < 2 ^ 20 → mask31 z = z.
Proof.
  intros Hz. unfold mask31. assert (Hu : u32 z = z) by (apply Z.mod_small; lia64).
  rewrite Hu. change 0x7FFFFFFF with (Z.ones 31). rewrite Z.land_ones by lia.
  rewrite Z.mod_small by lia. apply i32_small. lia.
Qed.

Lemma pretty_nonzero (z : Z) : 0 < z → String.eqb (pretty z) "" = false ∧ String.eqb (pretty z) "0" = false.
Proof.
  intros Hz. pose proof (SetString10_pretty z) as Hr.
  split; apply String.eqb_neq; intros He; rewrite He in Hr; vm_compute in Hr. all: simplify_eq; lia.
Qed.

Lemma StronglySorted_snoc (l : list Z) x :
  StronglySorted Z.lt l → Forall (λ y, y < x) l → StronglySorted Z.lt (l ++ [x]).
Proof.
  induction 1 as [| y l Hs IH Hy]; intros Hx; simpl; [by repeat constructor |].
  inversion Hx; subst. constructor; [by apply IH |]. apply Forall_app. by repeat constructor.
Qed.

(** ** Properties *)

(** C21: Every step of the loop, whatever the message and its payload, returns
    (no deadlock, no panic), keeps the safety buffer in [1, 20] with fifty
    successes in a row always spent, and keeps pending heights above the
    published one.  [LatestHeight] and [FetchedHeight] never move backwards;
    [SyncedCursor] does so only when the step takes a [CmdResetCursor], to the
    height it names.  [TargetHeight] may move backwards: only a
    [CmdUpdateChainHeight] with a height above [LatestHeight] moves it, to that
    height less the safety buffer. *)
Theorem loopStep_invariant {W} {OW : OrchWorld W} (now : Z) (c : LoopCase) (o : Orchestrator W) :
  (∀ t w, ∃ e, snd (ow_Enqueue t w) = Val e) →
  orch_ok o →
  wp (loopStep now c) (λ out o', (∃ b, out = Val b) ∧ orch_ok o' ∧
     cs_LatestHeight (or_state o) ≤ cs_LatestHeight (or_state o') ∧
     cs_FetchedHeight (or_state o) ≤ cs_FetchedHeight (or_state o') ∧
     (cs_SyncedCursor (or_state o) ≤ cs_SyncedCursor (or_state o') ∨
      ∃ msg rest, c = LoopMsg ∧ or_cmdChan o = msg :: rest ∧ msg_Type msg = CmdResetCursor ∧
                  msg_Data msg = DUint64 (cs_SyncedCursor (or_state o'))) ∧
     (cs_TargetHeight (or_state o') = cs_TargetHeight (or_state o) ∨
      ∃ msg rest h, c = LoopMsg ∧ or_cmdChan o = msg :: rest ∧ msg_Type msg = CmdUpdateChainHeight ∧ msg_Data msg = DUint64 h ∧
                    cs_LatestHeight (or_state o) < h ∧
                    cs_TargetHeight (or_state o') =
                      if cs_SafetyBuffer (or_state o) <? h then sub_u64 h (cs_SafetyBuffer (or_state o)) else 0)) o.
Proof.
  intros He Ho. pose proof (loopStep_target now c o) as Htarget.
  assert (Hmain : wp (loopStep now c) (λ out o', (∃ b, out = Val b) ∧ orch_ok o' ∧
     cs_LatestHeight (or_state o) ≤ cs_LatestHeight (or_state o') ∧ cs_FetchedHeight (or_state o) ≤ cs_FetchedHeight (or_state o') ∧
     (cs_SyncedCursor (or_state o) ≤ cs_SyncedCursor (or_state o') ∨
      ∃ msg rest, c = LoopMsg ∧ or_cmdChan o = msg :: rest ∧ msg_Type msg = CmdResetCursor ∧
                  msg_Data msg = DUint64 (cs_SyncedCursor (or_state o')))) o) by (by apply loopStep_rel).
  destruct Hmain as (H1 & H2 & H3 & H4 & H5). by split_and!.
Qed.

(** What a burst of chain heights leaves after the merge tick: the last of
    the heights above [LatestHeight], not the highest one: a lower height that
    arrives later in the same window overwrites a higher one. *)
Theorem chain_heights_merge {W} {OW : OrchWorld W} (now : Z) (hs : list Z) (o : Orchestrator W) :
  or_pendingHeightUpdate o = None →
  wp (processUpdates now hs;; flushPendingHeightUpdate)
     (λ out o', out = Val tt ∧ cs_LatestHeight (or_state o') =
        default (cs_LatestHeight (or_state o)) (last (filter (λ h, cs_LatestHeight (or_state o) < h) hs))) o.
Proof.
  intros Hp. destruct (processUpdates_pending now hs o) as (o1 & E1 & Hl1 & Hp1).
  destruct (flush_latest o1) as (o2 & E2 & _ & Hl2).
  unfold wp, mbind, GoM_bind. rewrite E1, E2. simpl. split; [done |].
  rewrite Hl2, Hp1, Hl1. destruct (last (filter _ hs)) as [h |] eqn:Hh; simpl; [| by rewrite Hp].
  apply last_Some_elem_of, list_elem_of_filter in Hh as [Hlt _]. lia.
Qed.

(** The eco mode decision, for heights a chain can have: on exactly when the
    cursor is at most ten blocks behind the head, not ahead of it, and no user was
    active for two minutes.  (With the cursor ahead, as between a commit and the
    merge of the height that caused it, the unsigned subtraction wraps and the
    engine leaves eco mode.) *)
Theorem evaluateEcoMode_spec {W} {OW : OrchWorld W} (now : Z) (o : Orchestrator W) :
  0 ≤ cs_LatestHeight (or_state o) < 2 ^ 63 → 0 ≤ cs_SyncedCursor (or_state o) < 2 ^ 63 →
  wp (evaluateEcoMode now)
     (λ out o', out = Val tt ∧ cs_IsEcoMode (or_state o') =
        bool_decide (cs_SyncedCursor (or_state o) ≤ cs_LatestHeight (or_state o) ≤ cs_SyncedCursor (or_state o) + 10
                     ∧ 2 * minute ≤ now - cs_LastUserActivity (or_state o))) o.
Proof.
  intros HL HS. apply wp_modify. split; [done |]. simpl. apply eq_bool_prop_intro.
  rewrite bool_decide_spec, andb_True, !Is_true_true, !Z.leb_le.
  destruct (decide (cs_SyncedCursor (or_state o) ≤ cs_LatestHeight (or_state o))).
  - rewrite sub_u64_ge by lia64. lia.
  - rewrite sub_u64_lt by lia64. lia64.
Qed.

(** The throttling decision, for queue depths below 2^20: throttled
    exactly when the result queue holds more than 80% (rounded down) of all queued
    work; otherwise optimising while the safety buffer is raised; otherwise
    running, unless another state was set.  In particular one fetched block with no
    job left throttles the system. *)
Theorem evaluateSystemState_spec {W} {OW : OrchWorld W} (now jobs results : Z) (o : Orchestrator W) :
  gs_mu (or_global o) = Unlocked → fetcherDepths o = (jobs, results) →
  0 ≤ jobs < 2 ^ 20 → 0 ≤ results < 2 ^ 20 →
  wp (evaluateSystemState now)
     (λ out o', out = Val tt ∧ cs_SystemState (or_state o') =
        if decide ((jobs + results) * 80 / 100 < results) then SystemStateThrottled
        else if decide (1 < cs_SafetyBuffer (or_state o)) then SystemStateOptimizing
        else if decide (cs_SystemState (or_state o) ∈ [SystemStateOptimizing; SystemStateThrottled; SystemStateUnknown])
             then SystemStateRunning else cs_SystemState (or_state o)) o.
Proof.
  intros Hl Hd Hj Hr. eapply wp_mono; [by apply evaluateSystemState_eq |].
  intros out o' (-> & Hs & _). split; [done |]. rewrite Hs, Hd. simpl. unfold nextSystemState.
  rewrite !mask31_small by lia. rewrite (i32_small (jobs + results)) by lia.
  rewrite Z.add_0_r, (i32_small (jobs + results)) by lia.
  rewrite (i32_small (_ * 80)) by lia. unfold go_quot. rewrite Z.quot_div_nonneg by lia.
  assert (Hq : 0 ≤ (jobs + results) * 80 / 100 < 2 ^ 31).
  { split; [apply Z.div_pos; lia | apply Z.div_lt_upper_bound; lia]. }
  rewrite i32_small by done.
  destruct (Z.ltb_spec ((jobs + results) * 80 / 100) results); [by rewrite decide_True by done |].
  rewrite decide_False by lia.
  destruct (Z.ltb_spec 1 (cs_SafetyBuffer (or_state o))); [by rewrite decide_True by done |].
  rewrite decide_False by lia. by destruct (cs_SystemState (or_state o)).
Qed.

(** A checkpoint written as a decimal number is the cursor the Orchestrator
    starts from: [LoadInitialState] restores exactly the height, into the state
    and the snapshot, for every non-zero [uint64]; without a usable checkpoint
    (missing, empty or zero) it restores the highest stored block, if any. *)
Theorem LoadInitialState_restores {W} {OW : OrchWorld W} (h m : Z) (o : Orchestrator W) :
  0 < h ≤ max_u64 → 0 < m ≤ max_i64 →
  wp (LoadInitialState (Ok (pretty h)) (Ok m))
     (λ out o', out = Val None ∧ cs_SyncedCursor (or_state o') = h ∧ or_snapshot o' = or_state o') o ∧
  (∀ missing, missing = Ok EmptyString ∨ missing = Ok "0" ∨ (∃ e, missing = Err e) →
   (wp (LoadInitialState missing (Ok m))
      (λ out o', out = Val None ∧ cs_SyncedCursor (or_state o') = m ∧ or_snapshot o' = or_state o') o)).
Proof.
  intros Hh Hm.
  assert (Hk : ∀ z, 0 < z ≤ max_u64 → ∀ o',
    wp (loadCursor (pretty z)) (λ out o', out = Val None ∧ cs_SyncedCursor (or_state o') = z ∧ or_snapshot o' = or_state o') (o' : Orchestrator W)).
  { intros z Hz o'. destruct (pretty_nonzero z) as [H0 H1]; [lia |]. unfold loadCursor. rewrite H0, H1. simpl.
    rewrite SetString10_pretty. wp_go. split_and!; [done | apply big_Uint64_id; lia64 | done]. }
  destruct (pretty_nonzero h) as [H0 H1]; [lia |]. unfold LoadInitialState. rewrite H0, H1. split.
  - by apply Hk.
  - assert (Hm' : (0 <? m) = true) by (apply Z.ltb_lt; lia).
    intros missing [-> | [-> | [e ->]]]; simpl; rewrite Hm'; apply Hk; lia64.
Qed.

(** Dispatching.  While the Orchestrator runs, a command gets a fresh
    sequence number and goes to the end of the queue, unless the queue holds
    [cmdChanCap] commands: then it is dropped, and the caller gets the same
    kind of answer.  The queue stays ordered by sequence number. *)
Theorem Dispatch_spec {W} {OW : OrchWorld W} (takeDone : bool) (t : MsgType) (data : Payload) (o : Orchestrator W) :
  or_done o = false → 0 ≤ or_msgSeq o < max_u64 →
  StronglySorted Z.lt (msg_Sequence <$> or_cmdChan o) →
  Forall (λ m, msg_Sequence m ≤ or_msgSeq o) (or_cmdChan o) →
  wp (Dispatch takeDone t data)
     (λ out o', out = Val (or_msgSeq o + 1) ∧ or_msgSeq o' = or_msgSeq o + 1 ∧
        or_cmdChan o' = (or_cmdChan o ++
          (if decide (Z.of_nat (length (or_cmdChan o)) < cmdChanCap)
           then [mkMessage t data false (or_msgSeq o + 1)] else []))%list ∧
        StronglySorted Z.lt (msg_Sequence <$> or_cmdChan o') ∧
        Forall (λ m, msg_Sequence m ≤ or_msgSeq o') (or_cmdChan o') ∧
        or_state o' = or_state o) o.
Proof.
  intros Hd Hs Hsort Hall. unfold Dispatch. wp_go; [by rewrite Hd in Heqb |].
  rewrite add_u64_id by lia64. unfold chanTrySend.
  assert (Hcase : ∀ l : list Message, (l = [] ∨ l = [mkMessage t data false (or_msgSeq o + 1)]) →
    StronglySorted Z.lt (msg_Sequence <$> (or_cmdChan o ++ l)%list) ∧
    Forall (λ m, msg_Sequence m ≤ or_msgSeq o + 1) (or_cmdChan o ++ l)%list).
  { intros l Hl. split.
    - rewrite fmap_app. destruct Hl as [-> | ->]; [by rewrite app_nil_r |]. apply StronglySorted_snoc; [done |].
      apply Forall_fmap. eapply Forall_impl; [done |]. simpl. lia.
    - apply Forall_app. split; [eapply Forall_impl; [done |]; simpl; lia |].
      destruct Hl as [-> | ->]; repeat constructor. simpl. lia. }
  destruct (Z.ltb_spec (Z.of_nat (length (or_cmdChan o))) cmdChanCap).
  - rewrite decide_True by done. destruct (Hcase [mkMessage t data false (or_msgSeq o + 1)]); auto.
    by split_and!.
  - rewrite decide_False by lia. destruct (Hcase []); auto. rewrite app_nil_r in *. by split_and!.
Qed.

(** ** Witnesses *)

(** A world of two queue depths whose writer accepts everything. *)
Definition depthsWorld : OrchWorld (Z * Z) := {|
  ow_Enqueue := λ _, mret None;
  ow_WriterShutdown := mret None;
  ow_QueueDepth := fst;
  ow_ResultsDepth := snd;
  ow_ClearJobs := λ w, (0, snd w)
|}.

Definition sampleOrch : Orchestrator (Z * Z) := oset_fetcher true (newOrchestrator 0 (0, 1)).

Lemma sampleOrch_ok : orch_ok sampleOrch.
Proof. by split; simpl; auto with lia. Qed.

(** Two heads in one merge window, the lower one second: the target moves back. *)
Example target_moves_back :
  let OW := depthsWorld in
  let step h o := fst (process 5 (mkMessage CmdUpdateChainHeight (DUint64 h) false 1) o) in
  let o1 := step 103 sampleOrch in
  cs_TargetHeight (or_state o1) = 102 ∧ cs_TargetHeight (or_state (step 101 o1)) = 100.
Proof. by vm_compute. Qed.

Lemma loopStep_invariant_witness :
  let OW := depthsWorld in
  let o := oset_cmdChan [mkMessage CmdFetchFailed (DString "not_found") false 1] sampleOrch in
  orch_ok o ∧ orch_ok (fst (loopStep 5 LoopMsg o)) ∧ cs_SafetyBuffer (or_state (fst (loopStep 5 LoopMsg o))) = 2.
Proof.
  intros OW o. assert (Ho : orch_ok o) by (destruct sampleOrch_ok; by split).
  split; [done |]. split; [| by vm_compute].
  destruct (loopStep_invariant 5 LoopMsg o) as (_ & H & _); [| done | exact H].
  intros t w. by exists None.
Defined.

Lemma chain_heights_merge_witness :
  let OW := depthsWorld in
  cs_LatestHeight (or_state (fst ((processUpdates 1 [100; 250; 200];; flushPendingHeightUpdate) sampleOrch))) = 200.
Proof. intros OW. by destruct (chain_heights_merge 1 [100; 250; 200] sampleOrch eq_refl) as [_ ->]. Defined.

Lemma evaluateEcoMode_spec_witness :
  let OW := depthsWorld in
  let o := oset_state (cset_LatestHeight 100 (cset_SyncedCursor 95 zeroState)) sampleOrch in
  cs_IsEcoMode (or_state (fst (evaluateEcoMode (3 * minute) o))) = true.
Proof.
  intros OW o. destruct (evaluateEcoMode_spec (3 * minute) o) as [_ ->]; [by simpl.. | by vm_compute].
Defined.

Lemma evaluateSystemState_spec_witness :
  let OW := depthsWorld in
  cs_SystemState (or_state (fst (evaluateSystemState 1 sampleOrch))) = SystemStateThrottled.
Proof.
  intros OW. destruct (evaluateSystemState_spec 1 0 1 sampleOrch) as [_ ->]; [done | done | lia | lia | by vm_compute].
Defined.

Lemma LoadInitialState_restores_witness :
  let OW := depthsWorld in
  cs_SyncedCursor (or_state (fst (LoadInitialState (Ok (pretty 4711)) (Ok 9) sampleOrch))) = 4711 ∧
  cs_SyncedCursor (or_state (fst (LoadInitialState (Ok "0") (Ok 9) sampleOrch))) = 9.
Proof.
  intros OW. destruct (LoadInitialState_restores 4711 9 sampleOrch) as [(_ & H1 & _) H2]; [by simpl.. |].
  split; [exact H1 |]. destruct (H2 (Ok "0")) as (_ & H & _); [by right; left | exact H].
Defined.

Lemma Dispatch_spec_witness :
  let OW := depthsWorld in
  msg_Sequence <$> or_cmdChan (fst ((Dispatch false CmdFetchSuccess DNil;; Dispatch false CmdCommitDisk (DUint64 3)) sampleOrch)) = [1; 2].
Proof.
  intros OW. destruct (Dispatch_spec false CmdFetchSuccess DNil sampleOrch) as (_ & _ & Hc & _);
    [done | by simpl | constructor | constructor |].
  by vm_compute.
Defined.
