(* ===== verification/AsyncWriter.v ===== *)
(** * The AsyncWriter (internal/engine/async_writer_{types,core,flush}.go)

    The persistence pipeline behind the Orchestrator: a bounded queue, batches
    flushed in one transaction, an emergency drain, and the commands it sends
    back.  The database is the interface [Postgres]; the Orchestrator is the
    list of commands dispatched to it and the [LatestHeight] its snapshot shows. *)

From S2P Require Import Prelude GoInt Types GlobalState Database Orchestrator.
From Stdlib Require Import ZArith Lia String.
From stdpp Require Import base gmap strings list pretty.
Open Scope Z_scope.

(** ** State *)

(** [aw_batch] is the local [batch] of [run]; [aw_out] what it dispatched;
    [aw_latestHeight] the [LatestHeight] of the Orchestrator's snapshot. *)
Record AsyncWriter (W : Type) := mkAsyncWriter {
  aw_taskChan : list PersistTask;
  aw_cap : Z;
  aw_chainID : Z;
  aw_ephemeralMode : bool;
  aw_batchSize : Z;
  aw_done : bool;
  aw_diskWatermark : Z;
  aw_cooldown : bool;
  aw_batch : list PersistTask;
  aw_latestHeight : Z;
  aw_out : list (MsgType * Payload);
  aw_db : W
}.
Arguments mkAsyncWriter {W}.
Arguments aw_taskChan {W}.
Arguments aw_cap {W}.
Arguments aw_chainID {W}.
Arguments aw_ephemeralMode {W}.
Arguments aw_batchSize {W}.
Arguments aw_done {W}.
Arguments aw_diskWatermark {W}.
Arguments aw_cooldown {W}.
Arguments aw_batch {W}.
Arguments aw_latestHeight {W}.
Arguments aw_out {W}.
Arguments aw_db {W}.

Section aw_setters.
Context {W : Type}.
Definition wset_taskChan (v : list PersistTask) (s : AsyncWriter W) : AsyncWriter W :=
mkAsyncWriter v (aw_cap s) (aw_chainID s) (aw_ephemeralMode s) (aw_batchSize s) (aw_done s) (aw_diskWatermark s) (aw_cooldown s) (aw_batch s) (aw_latestHeight s) (aw_out s) (aw_db s).
Definition wset_done (v : bool) (s : AsyncWriter W) : AsyncWriter W :=
mkAsyncWriter (aw_taskChan s) (aw_cap s) (aw_chainID s) (aw_ephemeralMode s) (aw_batchSize s) v (aw_diskWatermark s) (aw_cooldown s) (aw_batch s) (aw_latestHeight s) (aw_out s) (aw_db s).
Definition wset_diskWatermark (v : Z) (s : AsyncWriter W) : AsyncWriter W :=
mkAsyncWriter (aw_taskChan s) (aw_cap s) (aw_chainID s) (aw_ephemeralMode s) (aw_batchSize s) (aw_done s) v (aw_cooldown s) (aw_batch s) (aw_latestHeight s) (aw_out s) (aw_db s).
Definition wset_cooldown (v : bool) (s : AsyncWriter W) : AsyncWriter W :=
mkAsyncWriter (aw_taskChan s) (aw_cap s) (aw_chainID s) (aw_ephemeralMode s) (aw_batchSize s) (aw_done s) (aw_diskWatermark s) v (aw_batch s) (aw_latestHeight s) (aw_out s) (aw_db s).
Definition wset_batch (v : list PersistTask) (s : AsyncWriter W) : AsyncWriter W :=
mkAsyncWriter (aw_taskChan s) (aw_cap s) (aw_chainID s) (aw_ephemeralMode s) (aw_batchSize s) (aw_done s) (aw_diskWatermark s) (aw_cooldown s) v (aw_latestHeight s) (aw_out s) (aw_db s).
Definition wset_latestHeight (v : Z) (s : AsyncWriter W) : AsyncWriter W :=
mkAsyncWriter (aw_taskChan s) (aw_cap s) (aw_chainID s) (aw_ephemeralMode s) (aw_batchSize s) (aw_done s) (aw_diskWatermark s) (aw_cooldown s) (aw_batch s) v (aw_out s) (aw_db s).
Definition wset_out (v : list (MsgType * Payload)) (s : AsyncWriter W) : AsyncWriter W :=
mkAsyncWriter (aw_taskChan s) (aw_cap s) (aw_chainID s) (aw_ephemeralMode s) (aw_batchSize s) (aw_done s) (aw_diskWatermark s) (aw_cooldown s) (aw_batch s) (aw_latestHeight s) v (aw_db s).
Definition wset_db (v : W) (s : AsyncWriter W) : AsyncWriter W :=
mkAsyncWriter (aw_taskChan s) (aw_cap s) (aw_chainID s) (aw_ephemeralMode s) (aw_batchSize s) (aw_done s) (aw_diskWatermark s) (aw_cooldown s) (aw_batch s) (aw_latestHeight s) (aw_out s) v.
End aw_setters.

(** ** Operations *)

Section ops.
Context {W : Type} {PG : Postgres W}.

(** async_writer_core.go, [NewAsyncWriter]. *)
Definition NewAsyncWriter (ephemeral : bool) (chainID : Z) (db : W) : AsyncWriter W :=
mkAsyncWriter [] 15000 chainID ephemeral 200 false 0 false [] 0 [] db.

Definition onDb {A} (m : GoM W A) : GoM (AsyncWriter W) A := zoom aw_db wset_db m.
Definition awDispatch (t : MsgType) (data : Payload) : GoM (AsyncWriter W) unit :=
modify (λ w, wset_out (aw_out w ++ [(t, data)]) w).

(** async_writer_core.go, [Enqueue]. *)
Definition Enqueue (task : PersistTask) : GoM (AsyncWriter W) (option GoErr) :=
w ← gets id;
if Z.of_nat (length (aw_taskChan w)) <? aw_cap w then
  modify (λ w, wset_taskChan (aw_taskChan w ++ [task]) w);; mret None
else mret (Some DeadlineExceeded).

(** The [maxHeight] loops. *)
Definition maxHeight (batch : list PersistTask) : Z :=
foldl (λ m t, if m <? pt_Height t then pt_Height t else m) 0 batch.

(** async_writer_flush.go, [handleEphemeralFlush]. *)
Definition handleEphemeralFlush (batch : list PersistTask) : GoM (AsyncWriter W) unit :=
modify (wset_diskWatermark (maxHeight batch));;
awDispatch CmdCommitDisk (DUint64 (maxHeight batch)).

(** async_writer_flush.go, [updateCheckpointsTx]; errors are only logged. *)
Definition updateCheckpointsTx (done : bool) (chainID maxH latestHeight : Z) : GoM W unit :=
pg_TxExec done (upsertCheckpointStmt chainID (pretty maxH));;
let syncedBlock := SafeUint64ToInt64 (mask_i63 maxH) in
let latestBlock := SafeUint64ToInt64 (mask_i63 latestHeight) in
pg_TxExec done (upsertStatusStmt chainID syncedBlock latestBlock (i64 (latestBlock - syncedBlock)));;
mret tt.

(** The statements of [flush] between BeginTxx and Commit; errors of the
  inserts are only logged. *)
Definition flushStatements (done : bool) (chainID latestHeight : Z) (batch : list PersistTask) : GoM W unit :=
InsertBlocksBatchTx done (pt_Block <$> batch);;
InsertTransfersBatchTx done (batch ≫= pt_Transfers);;
updateCheckpointsTx done chainID (maxHeight batch) latestHeight.

(** async_writer_flush.go, [flush]. *)
Definition flush (batch : list PersistTask) : GoM (AsyncWriter W) unit :=
match batch with
| [] => mret tt
| _ =>
  w ← gets id;
  if aw_ephemeralMode w then handleEphemeralFlush batch
  else
    err ← onDb (pg_BeginTxx (aw_done w));
    match err with
    | Some _ => mret tt
    | None =>
      onDb (flushStatements (aw_done w) (aw_chainID w) (aw_latestHeight w) batch);;
      err ← onDb pg_Commit;
      match err with
      | Some _ => onDb pg_Rollback
      | None =>
        modify (wset_diskWatermark (maxHeight batch));;
        awDispatch CmdCommitDisk (DUint64 (maxHeight batch));;
        onDb pg_Rollback
      end
    end
end.

(** async_writer_flush.go, [emergencyDrain]; the timer that clears the cooldown
  after 60 seconds is the case [AwCooldownOver] below. *)
Definition emergencyDrain : GoM (AsyncWriter W) unit :=
w ← gets id;
if aw_cooldown w then mret tt
else
  modify (wset_cooldown true);;
  awDispatch CmdSetSystemState (DState SystemStateDegraded);;
  let targetDepth := go_quot (aw_cap w * 50) 100 in
  let n := Z.to_nat (Z.of_nat (length (aw_taskChan w)) - targetDepth) in
  modify (wset_taskChan (drop n (aw_taskChan w)));;
  flush (take n (aw_taskChan w));;
  awDispatch CmdSetSystemState (DState SystemStateRunning).

(** async_writer_core.go, one iteration of [run]; [false]: it returns.
  [AwTask] is taken only when the queue is not empty. *)
Inductive AwCase : Type := AwDone | AwTask | AwTick | AwCooldownOver.

Definition flushBatch : GoM (AsyncWriter W) unit :=
w ← gets id;
(if bool_decide (aw_batch w = []) then mret tt else flush (aw_batch w));;
modify (wset_batch []).

Definition awStep (c : AwCase) : GoM (AsyncWriter W) bool :=
match c with
| AwDone => flushBatch;; mret false
| AwTask =>
  w ← gets id;
  match aw_taskChan w with
  | [] => mret true
  | task :: rest =>
    modify (wset_taskChan rest);;
    modify (λ w, wset_batch (aw_batch w ++ [task]) w);;
    w ← gets id;
    let drainThreshold := go_quot (aw_cap w * 75) 100 in
    if drainThreshold <? Z.of_nat (length (aw_taskChan w)) then
      flushBatch;; emergencyDrain;; mret true
    else if aw_batchSize w <=? Z.of_nat (length (aw_batch w)) then
      flushBatch;; mret true
    else mret true
  end
| AwTick => flushBatch;; mret true
| AwCooldownOver => modify (wset_cooldown false);; mret true
end.

(** async_writer_core.go, [Shutdown]: the context is cancelled first. *)
Definition Shutdown : GoM (AsyncWriter W) unit := modify (wset_done true).
End ops.

(** ** Lemmas: inserts *)

Lemma insertNew_sub `{Countable K} {A} (m : gmap K A) k a : m ⊆ insertNew m k a.
Proof. unfold insertNew. destruct (m !! k) eqn:E; [done |]. by apply insert_subseteq. Qed.

Lemma insertNew_in `{Countable K} {A} (m : gmap K A) k a : is_Some (insertNew m k a !! k).
Proof. unfold insertNew. destruct (m !! k) eqn:E; [by rewrite E |]. by rewrite lookup_insert_eq. Qed.

Section folds.
Context `{Countable K} {A B : Type} (key : B → K) (row : B → A).

Lemma insertAll_sub (l : list B) (m : gmap K A) :
m ⊆ foldl (λ m b, insertNew m (key b) (row b)) m l.
Proof.
revert m. induction l as [| b l IH]; intros m; simpl; [done |].
etransitivity; [apply insertNew_sub | apply IH].
Qed.

Lemma insertAll_in (l : list B) (m : gmap K A) b :
b ∈ l → is_Some (foldl (λ m b, insertNew m (key b) (row b)) m l !! key b).
Proof.
revert m. induction l as [| b' l IH]; intros m Hin; [by apply elem_of_nil in Hin |].
apply elem_of_cons in Hin as [<- | Hin]; [| by apply IH]. simpl.
destruct (insertNew_in m (key b) (row b)) as [a Ha]. exists a.
by eapply lookup_weaken, insertAll_sub.
Qed.
End folds.

Lemma maxHeight_ge (batch : list PersistTask) t : t ∈ batch → pt_Height t ≤ maxHeight batch.
Proof.
  unfold maxHeight.
  assert (Hge : ∀ l m, m ≤ foldl (λ m t, if m <? pt_Height t then pt_Height t else m) m l ∧
            ∀ t, t ∈ l → pt_Height t ≤ foldl (λ m t, if m <? pt_Height t then pt_Height t else m) m l).
  { induction l as [| x l IH]; intros m; simpl; [split; [lia |]; by intros ? ?%elem_of_nil |].
    destruct (IH (if m <? pt_Height x then pt_Height x else m)) as [H1 H2].
    destruct (Z.ltb_spec m (pt_Height x)); (split; [lia |]);
      intros y [-> | Hy]%elem_of_cons; auto; lia. }
  intros Ht. by apply (Hge batch 0).
Qed.

(** The maximum is the height of a task of the batch, or 0. *)
Lemma maxHeight_in (batch : list PersistTask) :
  maxHeight batch = 0 ∨ ∃ t, t ∈ batch ∧ pt_Height t = maxHeight batch.
Proof.
  unfold maxHeight.
  assert (Hin : ∀ l m, foldl (λ m t, if m <? pt_Height t then pt_Height t else m) m l = m ∨
            ∃ t, t ∈ l ∧ pt_Height t = foldl (λ m t, if m <? pt_Height t then pt_Height t else m) m l).
  { induction l as [| x l IH]; intros m; simpl; [by left |].
    destruct (IH (if m <? pt_Height x then pt_Height x else m)) as [-> | (t & Ht & Hh)].
    - destruct (m <? pt_Height x); [right; exists x; split; [left | done] | by left].
    - right. exists t. split; [by right | done]. }
  apply (Hin batch 0).
Qed.

(** ** Lemmas: one flush *)

(** What a successful flush of [batch] makes of the tables. *)
Definition persisted (chainID latest : Z) (batch : list PersistTask) (t : Tables) : Tables :=
  let t1 := stmt_run (insertBlocksStmt (pt_Block <$> batch)) t in
  let t2 := match batch ≫= pt_Transfers with [] => t1 | l => stmt_run (insertTransfersStmt l) t1 end in
  let t3 := stmt_run (upsertCheckpointStmt chainID (pretty (maxHeight batch))) t2 in
  let synced := SafeUint64ToInt64 (mask_i63 (maxHeight batch)) in
  let latest := SafeUint64ToInt64 (mask_i63 latest) in
  stmt_run (upsertStatusStmt chainID synced latest (i64 (latest - synced))) t3.

Section flushing.
Context {W : Type} {PG : Postgres W}.

(** A sequence of statements whose errors are ignored: a statement that
  failed leaves no healthy transaction behind. *)
Definition tx_runs {A} (body : GoM W A) (F : Tables → Tables) : Prop :=
∀ w, wp body (λ o w', (∃ a, o = Val a) ∧ pg_schema w' = pg_schema w ∧ pg_tables w' = pg_tables w ∧
                (∀ t', pg_tx w' = Some t' → ∃ t, pg_tx w = Some t ∧ t' = F t)) w.

Lemma exec_runs done st : tx_runs (pg_TxExec done st) (stmt_run st).
Proof.
intros w. eapply wp_mono; [apply pg_TxExec_spec |]. intros o w' (e & -> & Hs & Ht & Hn & Hf).
split_and!; [by eexists | done.. |]. intros t' Ht'. destruct e as [e |].
- by rewrite Hf in Ht' by done.
- destruct (Hn eq_refl) as (_ & _ & t & Hw & Hw'). exists t. split; [done | congruence].
Qed.

Lemma ret_runs {A} (a : A) : tx_runs (mret a) id.
Proof. intros w. apply wp_ret. split_and!; [by eexists | done.. |]. eauto. Qed.

Lemma seq_runs {A B} (m : GoM W A) (k : A → GoM W B) F G :
tx_runs m F → (∀ a, tx_runs (k a) G) → tx_runs (m ≫= k) (λ t, G (F t)).
Proof.
intros Hm Hk w. apply wp_bind. eapply wp_mono; [apply Hm |].
intros o w1 ([a ->] & Hs1 & Ht1 & Hx1). eapply wp_mono; [apply Hk |].
intros o w2 (Ho & Hs2 & Ht2 & Hx2). split_and!; [done | congruence.. |].
intros t' Ht'. destruct (Hx2 _ Ht') as (t1 & H1 & ->). destruct (Hx1 _ H1) as (t & H & ->). eauto.
Qed.

Lemma flushStatements_runs done chainID latest batch :
batch ≠ [] → tx_runs (flushStatements done chainID latest batch) (persisted chainID latest batch).
Proof.
intros Hne. unfold flushStatements.
assert (Hb : tx_runs (InsertBlocksBatchTx done (pt_Block <$> batch)) (stmt_run (insertBlocksStmt (pt_Block <$> batch)))).
{ destruct batch; [done |]. apply exec_runs. }
assert (Ht : tx_runs (InsertTransfersBatchTx done (batch ≫= pt_Transfers))
          (λ t, match batch ≫= pt_Transfers with [] => t | l => stmt_run (insertTransfersStmt l) t end)).
{ destruct (batch ≫= pt_Transfers); [apply ret_runs | apply exec_runs]. }
intros w. eapply wp_mono.
{ apply (seq_runs _ _ _ _ Hb (λ _, seq_runs _ _ _ _ Ht (λ _,
    seq_runs _ _ _ _ (exec_runs _ _) (λ _, seq_runs _ _ _ _ (exec_runs _ _) (λ _, ret_runs tt))))). }
intros o w' (Ho & Hs & Htb & Hx). by split_and!.
Qed.

Lemma onDb_wp {A} (m : GoM W A) Q (w : AsyncWriter W) :
wp m (λ o db, Q o (wset_db db w)) (aw_db w) → wp (onDb m) Q w.
Proof. apply wp_zoom. Qed.

(** Everything but the outputs, the watermark and the database. *)
Definition same_queue (w w' : AsyncWriter W) : Prop :=
aw_taskChan w' = aw_taskChan w ∧ aw_batch w' = aw_batch w ∧ aw_cap w' = aw_cap w ∧
aw_done w' = aw_done w ∧ aw_cooldown w' = aw_cooldown w ∧ aw_chainID w' = aw_chainID w ∧
aw_ephemeralMode w' = aw_ephemeralMode w ∧ aw_batchSize w' = aw_batchSize w ∧
pg_schema (aw_db w') = pg_schema (aw_db w).

(** A flush commits everything and says so, or says nothing. *)
Lemma flush_wp batch (w : AsyncWriter W) :
batch ≠ [] → aw_ephemeralMode w = false →
wp (flush batch)
   (λ o w', o = Val tt ∧ same_queue w w' ∧
      let new := persisted (aw_chainID w) (aw_latestHeight w) batch (pg_tables (aw_db w)) in
      (aw_done w = false ∧ pg_tables (aw_db w') = new ∧ aw_diskWatermark w' = maxHeight batch ∧
       aw_out w' = (aw_out w ++ [(CmdCommitDisk, DUint64 (maxHeight batch))])%list) ∨
      (aw_out w' = aw_out w ∧ aw_diskWatermark w' = aw_diskWatermark w ∧
       (pg_tables (aw_db w') = pg_tables (aw_db w) ∨ pg_tables (aw_db w') = new))) w.
Proof.
intros Hne He. unfold flush. destruct batch as [| t0 batch0] eqn:Eb; [done |]. rewrite <- Eb in *. clear Eb.
apply wp_bind, wp_gets. unfold id. rewrite He.
apply wp_bind, onDb_wp. eapply wp_mono; [apply pg_BeginTxx_spec |].
intros o d1 (e & -> & Hs1 & Ht1 & Hn1). destruct e as [e |].
{ apply wp_ret. split; [done |]. split; [by split_and! |]. right. split_and!; [done.. | left; done]. }
destruct (Hn1 eq_refl) as [Hd Hx1].
apply wp_bind, onDb_wp. eapply wp_mono; [by apply flushStatements_runs |].
intros o d2 ([a ->] & Hs2 & Ht2 & Hx2). simpl in *.
apply wp_bind, onDb_wp. eapply wp_mono; [apply pg_Commit_spec |].
intros o d3 (e & -> & Hs3 & _ & Hn3 & Hf3). simpl in *.
assert (Hnew : pg_tx d2 = Some (pg_tables d3) →
          pg_tables d3 = persisted (aw_chainID w) (aw_latestHeight w) batch (pg_tables (aw_db w))).
{ intros Hx. destruct (Hx2 _ Hx) as (t & Ht & ->). congruence. }
destruct e as [e |].
- apply onDb_wp. eapply wp_mono; [apply pg_Rollback_spec |]. intros o d4 (-> & Hs4 & Ht4 & _). simpl in *.
  split; [done |]. split; [split_and!; simpl; congruence |]. right. simpl.
  split_and!; [done.. |]. rewrite Ht4. destruct Hf3 as [Hf3 | Hf3]; [done | left; congruence | right; auto].
- apply wp_bind, wp_modify, wp_bind, wp_modify. apply onDb_wp.
  eapply wp_mono; [apply pg_Rollback_spec |]. intros o d4 (-> & Hs4 & Ht4 & _). simpl in *.
  split; [done |]. split; [split_and!; simpl; congruence |]. left. simpl. rewrite Ht4. auto.
Qed.
End flushing.

(** ** What a successful flush leaves in the tables *)

Lemma persisted_blocks chainID latest batch t b :
  b ∈ (pt_Block <$> batch) → is_Some (t_blocks (persisted chainID latest batch t) !! mb_Number b).
Proof.
  intros Hb. unfold persisted.
  destruct (batch ≫= pt_Transfers); simpl; by apply (insertAll_in mb_Number blockRow).
Qed.

Lemma persisted_transfers chainID latest batch t x :
  x ∈ (batch ≫= pt_Transfers) → is_Some (t_transfers (persisted chainID latest batch t) !! transferKey x).
Proof.
  intros Hx. unfold persisted. destruct (batch ≫= pt_Transfers) as [| y l]; [by apply elem_of_nil in Hx |].
  by apply (insertAll_in transferKey transferRow).
Qed.

Lemma persisted_keeps chainID latest batch t :
  t_blocks t ⊆ t_blocks (persisted chainID latest batch t) ∧
  t_transfers t ⊆ t_transfers (persisted chainID latest batch t).
Proof.
  unfold persisted. split; destruct (batch ≫= pt_Transfers) as [| y l]; simpl;
    try apply (insertAll_sub mb_Number blockRow); try done.
  apply (insertAll_sub transferKey transferRow (y :: l)).
Qed.

Lemma persisted_checkpoint chainID latest batch t :
  t_checkpoints (persisted chainID latest batch t) !! chainID = Some (pretty (maxHeight batch)).
Proof. unfold persisted. simpl. apply lookup_insert_eq. Qed.

(** ** The durability invariant *)

(** Every height the writer reported as committed belongs to a stored block
    (0 is the height of the empty maximum). *)
Definition durable_height (t : Tables) (h : Z) : Prop := h = 0 ∨ is_Some (t_blocks t !! h).
Definition report_ok (t : Tables) (cmd : MsgType * Payload) : Prop :=
  match cmd with
  | (CmdCommitDisk, DUint64 h) => durable_height t h
  | (CmdSetSystemState, _) => True
  | _ => False
  end.
Definition reports_durable {W} {PG : Postgres W} (w : AsyncWriter W) : Prop :=
  Forall (report_ok (pg_tables (aw_db w))) (aw_out w).

(** A task carries the block of its height. *)
Definition task_ok (t : PersistTask) : Prop := mb_Number (pt_Block t) = pt_Height t.

Record aw_ok {W} {PG : Postgres W} (w : AsyncWriter W) : Prop := {
  aw_ok_mode : aw_ephemeralMode w = false;
  aw_ok_queue : Forall task_ok (aw_taskChan w);
  aw_ok_batch : Forall task_ok (aw_batch w);
  aw_ok_out : reports_durable w
}.

Definition aw_rel {W} {PG : Postgres W} (w w' : AsyncWriter W) : Prop :=
  aw_ok w → aw_ok w' ∧ t_blocks (pg_tables (aw_db w)) ⊆ t_blocks (pg_tables (aw_db w')).

#[export] Instance aw_rel_pre {W} {PG : Postgres W} : PreOrder aw_rel.
Proof.
  split.
  - by intros w Hw.
  - intros w1 w2 w3 H12 H23 H1. destruct (H12 H1) as [H2 ?]. destruct (H23 H2) as [H3 ?].
    split; [done | by etransitivity].
Qed.

Lemma durable_height_mono t t' h : t_blocks t ⊆ t_blocks t' → durable_height t h → durable_height t' h.
Proof.
  intros Hsub [-> | [b Hb]]; [by left |]. right. exists b. by eapply lookup_weaken.
Qed.

Lemma report_ok_mono t t' cmd : t_blocks t ⊆ t_blocks t' → report_ok t cmd → report_ok t' cmd.
Proof.
  intros Hsub. destruct cmd as [c d]. destruct c; try done. destruct d; try done. by apply durable_height_mono.
Qed.

Section steps.
Context {W : Type} {PG : Postgres W}.
Implicit Types (w : AsyncWriter W).

Lemma flush_keeps batch w : Forall task_ok batch → keeps aw_rel (flush batch) w.
Proof.
intros Hb. destruct (decide (batch = [])) as [-> | Hne]; [apply (keeps_ret _) |].
destruct (aw_ephemeralMode w) eqn:He.
- unfold keeps, wp. destruct batch; [done |]. simpl. unfold mbind, GoM_bind, gets, id. rewrite He. simpl.
  split; [by eexists |]. intros [Hm _ _ _]. congruence.
- eapply wp_mono; [by apply flush_wp |].
  intros o w' (-> & (Hq & Hbt & _ & _ & _ & _ & Hm & _) & Hcase). split; [by eexists |]. intros [_ Hok1 Hok2 Hout].
  destruct (persisted_keeps (aw_chainID w) (aw_latestHeight w) batch (pg_tables (aw_db w))) as [Hsub _].
  assert (Htab : t_blocks (pg_tables (aw_db w)) ⊆ t_blocks (pg_tables (aw_db w'))).
  { destruct Hcase as [(_ & -> & _) | (_ & _ & [-> | ->])]; done. }
  split; [| done]. split; [congruence.. |]. unfold reports_durable in *.
  assert (Hold : Forall (report_ok (pg_tables (aw_db w'))) (aw_out w)).
  { eapply Forall_impl; [exact Hout |]. intros cmd. by apply report_ok_mono. }
  destruct Hcase as [(_ & Ht & _ & Ho) | (Ho & _ & _)]; rewrite Ho; [| done].
  apply Forall_app. split; [done |]. apply Forall_singleton. simpl.
  destruct (maxHeight_in batch) as [-> | (t & Hin & <-)]; [by left |]. right. rewrite Ht.
  rewrite Forall_forall in Hb. rewrite <- (Hb _ Hin). apply persisted_blocks.
  by apply list_elem_of_fmap_2.
Qed.

(** Changes of the queue, the batch, the flags and other dispatched commands. *)
Lemma modify_keeps f w :
(aw_ok w → aw_ephemeralMode (f w) = false ∧ Forall task_ok (aw_taskChan (f w)) ∧ Forall task_ok (aw_batch (f w))) →
aw_db (f w) = aw_db w →
(aw_out (f w) = aw_out w ∨ ∃ data, aw_out (f w) = (aw_out w ++ [(CmdSetSystemState, data)])%list) →
keeps aw_rel (modify f) w.
Proof.
intros Hf Hd Ho. apply (keeps_modify _). intros Hw. destruct (Hf Hw) as (? & ? & ?).
split; [split; auto | by rewrite Hd]. pose proof (aw_ok_out _ Hw) as Hout. unfold reports_durable in *. rewrite Hd.
destruct Ho as [-> | [data ->]]; [done |]. apply Forall_app. split; [done | by apply Forall_singleton].
Qed.

Lemma awDispatch_keeps data w : keeps aw_rel (awDispatch CmdSetSystemState data) w.
Proof. apply modify_keeps; [by intros [] | done |]. right. by exists data. Qed.

(** [aw_ok] may be assumed. *)
Lemma keeps_assume {A} (m : GoM (AsyncWriter W) A) w :
(∀ w, ∃ a, snd (m w) = Val a) → (aw_ok w → keeps aw_rel m w) → keeps aw_rel m w.
Proof.
intros Hv Hk. split; [apply Hv |]. intros Hw. by apply Hk.
Qed.

Lemma flush_returns batch w : snd (flush batch w) = Val tt.
Proof.
destruct (decide (batch = [])) as [-> | Hne]; [done |].
destruct (aw_ephemeralMode w) eqn:He.
- destruct batch; [done |]. simpl. unfold mbind, GoM_bind, gets, id. by rewrite He.
- by destruct (flush_wp batch w Hne He) as [-> _].
Qed.

Lemma flushBatch_keeps w : keeps aw_rel flushBatch w.
Proof.
apply (keeps_bind _), wp_gets. exists w. split_and!; [done | reflexivity |]. unfold id.
apply (keeps_seq _).
- case_match; [apply (keeps_ret _) |]. apply keeps_assume; [intros w'; exists tt; apply flush_returns |].
  intros Hw. apply flush_keeps, (aw_ok_batch _ Hw).
- intros _ w'. apply modify_keeps; [| done | by left]. intros []. by split_and!; try constructor.
Qed.

Lemma emergencyDrain_returns w : ∃ a, snd (emergencyDrain w) = Val a.
Proof.
assert (H : wp emergencyDrain (λ o _, o = Val tt) w); [| by exists tt].
apply wp_bind, wp_gets. unfold id. case_match; [by apply wp_ret |].
do 3 apply wp_bind, wp_modify. apply wp_bind. unfold wp at 1. rewrite flush_returns.
by apply wp_modify.
Qed.

Lemma emergencyDrain_keeps w : keeps aw_rel emergencyDrain w.
Proof.
apply keeps_assume; [apply emergencyDrain_returns |]. intros Hw.
apply (keeps_bind _), wp_gets. exists w. split_and!; [done | reflexivity |]. unfold id.
case_match; [apply (keeps_ret _) |].
apply (keeps_seq _); [apply modify_keeps; [by intros [] | done | by left] |]. intros _ w1.
apply (keeps_seq _); [apply awDispatch_keeps |]. intros _ w2.
apply (keeps_seq _).
{ apply modify_keeps; [| done | by left]. intros []. simpl. split_and!; [done | apply Forall_drop, (aw_ok_queue _ Hw) | done]. }
intros _ w3. apply (keeps_seq _); [apply flush_keeps, Forall_take, (aw_ok_queue _ Hw) |].
intros _ w4. apply awDispatch_keeps.
Qed.

Lemma awStep_keeps c w : aw_ok w → keeps aw_rel (awStep c) w.
Proof.
intros Hw. destruct c.
- apply (keeps_seq _); [apply flushBatch_keeps | intros; apply (keeps_ret _)].
- apply (keeps_bind _), wp_gets. exists w. split_and!; [done | reflexivity |]. unfold id.
  destruct (aw_taskChan w) as [| task rest] eqn:Hq; [apply (keeps_ret _) |].
  pose proof (aw_ok_queue _ Hw) as Hok. rewrite Hq in Hok. inversion Hok as [| ? ? Ht Hrest]; subst.
  apply (keeps_seq _); [apply modify_keeps; [intros []; by split_and! | done | by left] |]. intros _ w1.
  apply (keeps_seq _).
  { apply modify_keeps; [| done | by left]. intros []. simpl. split_and!; [done.. |].
    apply Forall_app. by split; [| repeat constructor]. }
  intros _ w2. apply (keeps_seq _); [apply (keeps_gets _) |]. intros w' w3. case_match.
  + apply (keeps_seq _); [apply flushBatch_keeps |]. intros _ w4.
    apply (keeps_seq _); [apply emergencyDrain_keeps | intros; apply (keeps_ret _)].
  + case_match; [| apply (keeps_ret _)].
    apply (keeps_seq _); [apply flushBatch_keeps | intros; apply (keeps_ret _)].
- apply (keeps_seq _); [apply flushBatch_keeps | intros; apply (keeps_ret _)].
- apply (keeps_seq _); [| intros; apply (keeps_ret _)].
  apply modify_keeps; [by intros [] | done | by left].
Qed.

Lemma Enqueue_keeps t w : task_ok t → keeps aw_rel (Enqueue t) w.
Proof.
intros Ht. apply (keeps_seq _); [apply (keeps_gets _) |]. intros w' w1. case_match; [| apply (keeps_ret _)].
apply (keeps_seq _); [| intros; apply (keeps_ret _)]. apply modify_keeps; [| done | by left].
intros []. simpl. split_and!; [done | | done]. apply Forall_app. by split; [| repeat constructor].
Qed.
End steps.

(** ** Properties *)

(** C11: Durability of one flush outside the ephemeral mode.  Either the transaction committed, and then
    every block and every transfer of the batch is stored, nothing stored before
    was lost, the checkpoint is the batch's highest height, and only then is that
    height reported to the Orchestrator; or nothing is reported. *)
Theorem flush_durable {W} {PG : Postgres W} (batch : list PersistTask) (w : AsyncWriter W) :
  batch ≠ [] → aw_ephemeralMode w = false →
  wp (flush batch)
     (λ o w', o = Val tt ∧
        (aw_out w' = aw_out w ∨
         aw_out w' = (aw_out w ++ [(CmdCommitDisk, DUint64 (maxHeight batch))])%list ∧
         let t := pg_tables (aw_db w) in
         let t' := pg_tables (aw_db w') in
         (∀ b, b ∈ (pt_Block <$> batch) → is_Some (t_blocks t' !! mb_Number b)) ∧
         (∀ x, x ∈ (batch ≫= pt_Transfers) → is_Some (t_transfers t' !! transferKey x)) ∧
         t_blocks t ⊆ t_blocks t' ∧ t_transfers t ⊆ t_transfers t' ∧
         t_checkpoints t' !! aw_chainID w = Some (pretty (maxHeight batch)))) w.
Proof.
  intros Hne He. eapply wp_mono; [by apply flush_wp |].
  intros o w' (-> & _ & [(_ & Ht & _ & Ho) | (Ho & _)]); (split; [done |]); [right | by left].
  split; [done |]. simpl. rewrite Ht.
  destruct (persisted_keeps (aw_chainID w) (aw_latestHeight w) batch (pg_tables (aw_db w))).
  split_and!; [intros; by apply persisted_blocks | intros; by apply persisted_transfers | done.. |].
  apply persisted_checkpoint.
Qed.

(** Single source of truth.  Every step of the writer's loop (a task with
    or without an emergency drain, a tick, the shutdown, the cooldown) keeps the
    invariant that each height it ever reported as committed is the height of a
    stored block, and never removes a stored block, whatever the database
    answers. *)
Theorem awStep_reports_durable {W} {PG : Postgres W} (c : AwCase) (w : AsyncWriter W) :
  aw_ok w →
  wp (awStep c) (λ o w', (∃ b, o = Val b) ∧ aw_ok w' ∧
       t_blocks (pg_tables (aw_db w)) ⊆ t_blocks (pg_tables (aw_db w'))) w.
Proof.
  intros Hw. eapply wp_mono; [by apply awStep_keeps |]. intros o w' [Ho Hr].
  split; [done | by apply Hr].
Qed.

(** On the schema of [InitSchema] the [sync_status] statement is rejected, so
    the transaction is aborted when the statements end. *)
Lemma flushStatements_rejected {W} {PG : Postgres W} done chainID latest batch db :
  pg_schema db = InitSchema → batch ≠ [] →
  wp (flushStatements done chainID latest batch)
     (λ o w', o = Val tt ∧ pg_tables w' = pg_tables db ∧ pg_schema w' = InitSchema ∧ pg_tx w' = None) db.
Proof.
  intros Hs Hne.
  assert (Hb : tx_runs (InsertBlocksBatchTx done (pt_Block <$> batch)) (stmt_run (insertBlocksStmt (pt_Block <$> batch)))).
  { destruct batch; [done |]. apply exec_runs. }
  unfold flushStatements. apply wp_bind. eapply wp_mono; [apply Hb |].
  intros o d1 ([a1 ->] & Hs1 & Ht1 & _). apply wp_bind.
  eapply (wp_mono _ (λ o w', (∃ a, o = Val a) ∧ pg_schema w' = pg_schema d1 ∧ pg_tables w' = pg_tables d1)).
  { destruct (batch ≫= pt_Transfers); [apply wp_ret; split_and!; [by eexists | done..] |].
    eapply wp_mono; [apply exec_runs |]. intros o w' (? & ? & ? & _). by split_and!. }
  intros o d2 ([a2 ->] & Hs2 & Ht2). unfold updateCheckpointsTx. apply wp_bind.
  eapply wp_mono; [apply exec_runs |]. intros o d3 ([a3 ->] & Hs3 & Ht3 & _). apply wp_bind.
  eapply wp_mono; [apply pg_TxExec_spec |]. intros o d4 (e & -> & Hs4 & Ht4 & Hn4 & Hf4).
  apply wp_ret. split_and!; [done | congruence.. |]. apply Hf4. intros ->.
  destruct (Hn4 eq_refl) as (_ & Hok & _). rewrite Hs3, Hs2, Hs1, Hs in Hok. discriminate Hok.
Qed.

(** C40: On the schema the program itself creates ([InitSchema] on an empty
    database) no flush ever persists or reports anything: the [sync_status]
    upsert names columns that schema does not have, its error is only logged, and
    the aborted transaction cannot commit. *)
Theorem flush_never_commits_on_InitSchema {W} {PG : Postgres W} (batch : list PersistTask) (w : AsyncWriter W) :
  pg_schema (aw_db w) = InitSchema → aw_ephemeralMode w = false →
  wp (flush batch)
     (λ o w', o = Val tt ∧ pg_tables (aw_db w') = pg_tables (aw_db w) ∧ aw_out w' = aw_out w ∧
              aw_diskWatermark w' = aw_diskWatermark w) w.
Proof.
  intros Hs He. destruct batch as [| t0 batch0] eqn:Eb; [by apply wp_ret |].
  unfold flush. rewrite <- Eb. assert (Hne : batch ≠ []) by congruence. clear Eb.
  apply wp_bind, wp_gets. unfold id. rewrite He.
  apply wp_bind, onDb_wp. eapply wp_mono; [apply pg_BeginTxx_spec |].
  intros o d1 (e & -> & Hs1 & Ht1 & _). destruct e as [e |]; [by apply wp_ret |].
  apply wp_bind, onDb_wp. eapply wp_mono; [apply flushStatements_rejected; [simpl; congruence | done] |].
  intros o d2 (-> & Ht2 & _ & Hx2). simpl in *.
  apply wp_bind, onDb_wp. eapply wp_mono; [apply pg_Commit_spec |].
  intros o d3 (e & -> & _ & _ & Hn3 & Hf3). simpl in *. destruct e as [e |].
  - apply onDb_wp. eapply wp_mono; [apply pg_Rollback_spec |]. intros o d4 (-> & _ & Ht4 & _). simpl in *.
    split_and!; [done | | done..]. destruct Hf3 as [Hf3 | Hf3]; [done | congruence | congruence].
  - rewrite (Hn3 eq_refl) in Hx2. discriminate.
Qed.

(** The last batch does not survive a shutdown: [Shutdown] cancels the very
    context the final flush begins its transaction with, so the blocks that were
    collected and those still queued are dropped without being stored or
    reported. *)
Theorem shutdown_loses_batch {W} {PG : Postgres W} (w : AsyncWriter W) :
  aw_ephemeralMode w = false →
  wp (Shutdown;; awStep AwDone)
     (λ o w', o = Val false ∧ aw_batch w' = [] ∧ aw_taskChan w' = aw_taskChan w ∧
              pg_tables (aw_db w') = pg_tables (aw_db w) ∧ aw_out w' = aw_out w) w.
Proof.
  intros He. apply wp_bind, wp_modify, wp_bind, wp_bind, wp_gets. unfold id. apply wp_bind. case_match.
  { by apply wp_ret, wp_modify, wp_ret. }
  unfold flush. simpl. destruct (aw_batch w) as [| t l] eqn:Hb; [by bool_prop |].
  apply wp_bind, wp_gets. unfold id. simpl. rewrite He.
  apply wp_bind, onDb_wp. eapply wp_mono; [apply pg_BeginTxx_spec |].
  intros o d1 (e & -> & _ & Ht1 & Hn1). simpl in *. destruct e as [e |].
  - apply wp_ret, wp_modify, wp_ret. by split_and!.
  - by destruct (Hn1 eq_refl).
Qed.

(** ** Witnesses *)

Definition sampleTask (n : Z) : PersistTask :=
  mkPersistTask n (mkModelBlock n "h" "p" 0 0 0 None 0)
    [mkTransfer n "tx" 0 "a" "b" 5 "t" "SYM" "SWAP"] n.
Definition sampleWriter (sch : Schema) : AsyncWriter PgSim :=
  wset_batch [sampleTask 7; sampleTask 8] (NewAsyncWriter false 1 (mkPgSim sch emptyTables None [])).

Lemma sampleWriter_ok sch : aw_ok (sampleWriter sch).
Proof.
  split; [done | constructor | by repeat constructor | constructor].
Qed.

Lemma flush_durable_witness :
  let w := sampleWriter deployedSchema in
  let w' := fst (flush (aw_batch w) w) in
  aw_out w' = [(CmdCommitDisk, DUint64 8)] ∧ is_Some (t_blocks (pg_tables (aw_db w')) !! 7).
Proof.
  intros w w'. assert (Ho : aw_out w' = [(CmdCommitDisk, DUint64 8)]) by by vm_compute. split; [done |].
  destruct (flush_durable (aw_batch w) w) as (_ & [Hc | (_ & Hb & _)]); [done | done | |].
  - fold w' in Hc. rewrite Ho in Hc. discriminate.
  - apply (Hb (pt_Block (sampleTask 7))). apply (bool_decide_unpack _). by vm_compute.
Defined.

Lemma awStep_reports_durable_witness :
  let w := sampleWriter deployedSchema in
  aw_ok w ∧ aw_ok (fst (awStep AwTick w)) ∧ aw_out (fst (awStep AwTick w)) = [(CmdCommitDisk, DUint64 8)].
Proof.
  intros w. split; [apply sampleWriter_ok |]. split; [| by vm_compute].
  by destruct (awStep_reports_durable AwTick w (sampleWriter_ok deployedSchema)) as (_ & H & _).
Defined.

Lemma flush_never_commits_on_InitSchema_witness :
  let w := sampleWriter InitSchema in
  aw_out (fst (flush (aw_batch w) w)) = [] ∧ pg_tables (aw_db (fst (flush (aw_batch w) w))) = emptyTables.
Proof.
  intros w. destruct (flush_never_commits_on_InitSchema (aw_batch w) w) as (_ & Ht & Ho & _); [done.. |].
  split; [exact Ho | exact Ht].
Defined.

Lemma shutdown_loses_batch_witness :
  let w := sampleWriter deployedSchema in
  t_blocks (pg_tables (aw_db (fst ((Shutdown;; awStep AwDone) w)))) !! 7 = None.
Proof.
  intros w. destruct (shutdown_loses_batch w) as (_ & _ & _ & Ht & _); [done |]. by rewrite Ht.
Defined.
