(* ===== verification/Pipeline.v ===== *)
(** * Orchestrator and AsyncWriter together

    The commit path of the engine as one system: commands enter the
    Orchestrator's queue, [CmdCommitBatch] hands a task to the AsyncWriter, the
    writer flushes to the database and dispatches [CmdCommitDisk] back, and only
    that command advances [SyncedCursor].  The Orchestrator runs against the
    interface [OrchWorld]; the AsyncWriter is its implementation here. *)

From S2P Require Import Prelude GoInt Types GlobalState Database Orchestrator AsyncWriter.
From Stdlib Require Import ZArith Lia String.
From stdpp Require Import base gmap strings list.
Open Scope Z_scope.

(** ** The AsyncWriter implements [OrchWorld] *)

(** The writer and the fetcher's two queue depths. *)
Definition World (W : Type) : Type := AsyncWriter W * (Z * Z).

Definition onWriter {W A} (m : GoM (AsyncWriter W) A) : GoM (World W) A :=
  zoom fst (λ w p, (w, p.2)) m.

#[export] Instance writerWorld {W} {PG : Postgres W} : OrchWorld (World W) := {|
  ow_Enqueue t := onWriter (AsyncWriter.Enqueue t);
  ow_WriterShutdown := onWriter AsyncWriter.Shutdown;; mret None;
  ow_QueueDepth p := p.2.1;
  ow_ResultsDepth p := p.2.2;
  ow_ClearJobs p := (p.1, (0, p.2.2))
|}.

(** ** The system *)

(** The Orchestrator with its world, and how many of the writer's commands have
    been delivered to the command queue. *)
Record Pipe (W : Type) := mkPipe { pp_orch : Orchestrator (World W); pp_delivered : nat }.
Arguments mkPipe {W}.
Arguments pp_orch {W}.
Arguments pp_delivered {W}.

(** One step: an iteration of the Orchestrator's loop, one of the writer's loop
    (which reads the Orchestrator's snapshot), the delivery of the writer's next
    command, or a command from elsewhere. *)
Inductive PipeCase : Type :=
| PLoop (now : Z) (c : LoopCase)
| PWriter (c : AwCase)
| PDeliver
| PExtern (t : MsgType) (data : Payload).

Section pipe.
Context {W : Type} {PG : Postgres W}.

Definition onOrch {A} (m : GoM (Orchestrator (World W)) A) : GoM (Pipe W) A :=
zoom pp_orch (λ o p, mkPipe o (pp_delivered p)) m.

Definition writerOf (p : Pipe W) : AsyncWriter W := fst (or_world (pp_orch p)).

Definition writerStep (c : AwCase) : GoM (Orchestrator (World W)) bool :=
o ← gets id;
zoom or_world oset_world
  (onWriter (modify (wset_latestHeight (cs_LatestHeight (or_snapshot o)));; awStep c)).

Definition pipeStep (c : PipeCase) : GoM (Pipe W) unit :=
match c with
| PLoop now c => onOrch (loopStep now c);; mret tt
| PWriter c => onOrch (writerStep c);; mret tt
| PDeliver =>
  p ← gets id;
  match aw_out (writerOf p) !! pp_delivered p with
  | Some (t, data) =>
    onOrch (Dispatch false t data);;
    modify (λ p, mkPipe (pp_orch p) (S (pp_delivered p)))
  | None => mret tt
  end
| PExtern t data => onOrch (Dispatch false t data);; mret tt
end.

Fixpoint pipeRun (cs : list PipeCase) : GoM (Pipe W) unit :=
match cs with [] => mret tt | c :: rest => pipeStep c;; pipeRun rest end.

(** ** The invariant *)

(** Commands other components may send: they do not claim commits themselves,
  do not reset the cursor, and persist well-formed tasks. *)
Definition extern_ok (t : MsgType) (data : Payload) : Prop :=
t ≠ CmdCommitDisk ∧ t ≠ CmdResetCursor ∧ (∀ task, t = CmdCommitBatch → data = DTask task → task_ok task).

Definition message_ok (t : Tables) (m : Message) : Prop :=
msg_Type m ≠ CmdResetCursor ∧
(∀ h, msg_Type m = CmdCommitDisk → msg_Data m = DUint64 h → durable_height t h) ∧
(∀ task, msg_Type m = CmdCommitBatch → msg_Data m = DTask task → task_ok task).

Definition tablesOf (o : Orchestrator (World W)) : Tables := pg_tables (aw_db (fst (or_world o))).

(** [c0]: the cursor the system started from. *)
Record pipe_ok (c0 : Z) (o : Orchestrator (World W)) : Prop := {
pipe_writer : aw_ok (fst (or_world o));
pipe_queue : Forall (message_ok (tablesOf o)) (or_cmdChan o);
pipe_cursor : cs_SyncedCursor (or_state o) = c0 ∨ durable_height (tablesOf o) (cs_SyncedCursor (or_state o));
pipe_lock : gs_mu (or_global o) = Unlocked
}.

(** ** Preservation *)

Lemma message_ok_mono t t' m : t_blocks t ⊆ t_blocks t' → message_ok t m → message_ok t' m.
Proof.
intros Hsub (H1 & H2 & H3). split_and!; [done | | done]. intros h Ht Hd. eapply durable_height_mono; eauto.
Qed.

(** A step of the Orchestrator that works on the rest of its state. *)
Lemma pipe_ok_frame c0 o o' :
or_world o' = or_world o → cs_SyncedCursor (or_state o') = cs_SyncedCursor (or_state o) →
gs_mu (or_global o') = gs_mu (or_global o) →
(∀ m, m ∈ or_cmdChan o' → m ∈ or_cmdChan o ∨ message_ok (tablesOf o) m) →
pipe_ok c0 o → pipe_ok c0 o'.
Proof.
intros Hw Hs Hg Hq [H1 H2 H3 H4]. unfold tablesOf in *. split; unfold tablesOf; rewrite ?Hw, ?Hs, ?Hg; auto.
apply Forall_forall. intros m Hm. rewrite Forall_forall in H2. destruct (Hq m Hm); auto.
Qed.

(** A step of the writer: the world changes along [aw_rel]. *)
Lemma pipe_ok_world c0 o w' :
aw_ok w' → t_blocks (tablesOf o) ⊆ t_blocks (pg_tables (aw_db w')) →
pipe_ok c0 o → pipe_ok c0 (oset_world (w', snd (or_world o)) o).
Proof.
intros Hw Hsub [H1 H2 H3 H4]. split; simpl; auto.
- eapply Forall_impl; [exact H2 |]. intros m. by apply message_ok_mono.
- destruct H3 as [H3 | H3]; [by left | right]. eapply durable_height_mono; eauto.
Qed.

Lemma Dispatch_ok c0 t data o :
(∀ seq, message_ok (tablesOf o) (mkMessage t data false seq)) →
pipe_ok c0 o → wp (Dispatch false t data) (λ out o', (∃ n, out = Val n) ∧ pipe_ok c0 o') o.
Proof.
intros Hm Ho. unfold Dispatch. rewrite andb_comm || idtac. wp_go; (split; [by eexists |]).
- by rewrite andb_false_r in Heqb.
- eapply pipe_ok_frame; [..| exact Ho]; try done. simpl. intros m Hin.
  unfold chanTrySend in Hin. case_match; [| by left].
  apply elem_of_app in Hin as [? | ->%list_elem_of_singleton]; auto.
Qed.

Lemma writer_returns t (w : World W) : ∃ e, snd (ow_Enqueue t w) = Val e.
Proof.
simpl. unfold onWriter, zoom, AsyncWriter.Enqueue, mbind, GoM_bind, gets, id.
destruct (Z.of_nat (length (aw_taskChan w.1)) <? aw_cap w.1); by eexists.
Qed.

Lemma Enqueue_world_ok t (w : World W) :
task_ok t → aw_ok (fst w) →
aw_ok (fst (fst (ow_Enqueue t w))) ∧ snd (fst (ow_Enqueue t w)) = snd w ∧
t_blocks (pg_tables (aw_db (fst w))) ⊆ t_blocks (pg_tables (aw_db (fst (fst (ow_Enqueue t w))))).
Proof.
intros Ht Hw. destruct (Enqueue_keeps t (fst w) Ht) as [_ Hr]. destruct (Hr Hw) as [Hok Hsub].
simpl. unfold onWriter, zoom. destruct (AsyncWriter.Enqueue t w.1) as [w' out]. simpl in *. auto.
Qed.

Lemma process_ok c0 now msg o :
message_ok (tablesOf o) msg → pipe_ok c0 o → pipe_ok c0 (fst (process now msg o)).
Proof.
intros (Hm1 & Hm2 & Hm3) Ho. destruct (process_frame_wp now msg o writer_returns) as (Hq & Hg & Hs & Hw).
set (o' := fst (process now msg o)) in *. clearbody o'. destruct Ho as [H1 H2 H3 H4].
assert (Hwok : aw_ok (fst (or_world o')) ∧ t_blocks (tablesOf o) ⊆ t_blocks (tablesOf o')).
{ unfold tablesOf. destruct Hw as [-> | (t & Ht & Hd & ->)]; [done |].
  destruct (Enqueue_world_ok t (or_world o)) as (? & _ & ?); [by eapply Hm3 | done | done]. }
destruct Hwok as [Hok Hsub]. split; [done | | | congruence].
- rewrite Hq. eapply Forall_impl; [exact H2 |]. intros m. by apply message_ok_mono.
- destruct Hs as [-> | [[Ht | Ht] Hd]]; [| | done].
  + destruct H3 as [? | H3]; [by left | right]. eapply durable_height_mono; eauto.
  + right. eapply durable_height_mono; [exact Hsub | eauto].
Qed.

Lemma loopStep_ok c0 now c o :
pipe_ok c0 o → wp (loopStep now c) (λ out o', pipe_ok c0 o') o.
Proof.
intros Ho. destruct c; simpl; try by apply wp_ret.
- apply wp_bind, wp_gets. unfold id. destruct (or_cmdChan o) as [| msg rest] eqn:Hq; [by apply wp_ret |].
  apply wp_bind, wp_modify. set (o1 := oset_cmdChan rest o).
  pose proof (pipe_queue _ _ Ho) as Hall. rewrite Hq in Hall. inversion Hall as [| ? ? Hm Hrest]; subst.
  assert (Ho1 : pipe_ok c0 o1).
  { eapply pipe_ok_frame; [..| exact Ho]; try done. simpl. intros m Hin. left. rewrite Hq. by right. }
  pose proof (process_ok c0 now msg o1 Hm Ho1) as Hp.
  apply wp_bind. unfold wp. destruct (process now msg o1) as [o2 [a | w]]; done.
- apply wp_bind, wp_modify. apply wp_bind.
  set (o1 := oset_state _ o).
  assert (Ho1 : pipe_ok c0 o1) by (eapply pipe_ok_frame; [..| exact Ho]; try done; auto).
  eapply wp_mono; [apply evaluateSystemState_eq, (pipe_lock _ _ Ho1) |].
  intros out o2 (-> & _ & Hg & _ & _ & _ & _ & _ & Hs & Hq & Hw). apply wp_ret.
  eapply pipe_ok_frame; [..| exact Ho1]; try done.
  + by rewrite Hg, (pipe_lock _ _ Ho1).
  + intros m. rewrite Hq. auto.
- apply wp_bind. unfold flushPendingHeightUpdate. wp_go; eapply pipe_ok_frame; try exact Ho; try done; auto.
  simpl. by case_match.
Qed.

Lemma writerStep_ok c0 c o : pipe_ok c0 o → wp (writerStep c) (λ out o', pipe_ok c0 o') o.
Proof.
intros Ho. apply wp_bind, wp_gets. unfold id. apply wp_zoom, wp_zoom, wp_bind, wp_modify.
set (w1 := wset_latestHeight _ _).
assert (Hw1 : aw_ok w1) by (by destruct (pipe_writer _ _ Ho)).
eapply wp_mono; [by apply awStep_keeps |]. intros out w2 [_ Hr]. destruct (Hr Hw1) as [Hok Hsub].
by apply pipe_ok_world.
Qed.

Lemma pipeStep_ok c0 c (p : Pipe W) :
(∀ t data, c = PExtern t data → extern_ok t data) →
pipe_ok c0 (pp_orch p) → wp (pipeStep c) (λ _ p', pipe_ok c0 (pp_orch p')) p.
Proof.
intros Hext Ho. destruct c as [now c | c | | t data]; simpl.
- apply wp_bind, wp_zoom. eapply wp_mono; [by apply loopStep_ok |]. by intros [b | w] o' Ho'.
- apply wp_bind, wp_zoom. eapply wp_mono; [by apply writerStep_ok |]. by intros [b | w] o' Ho'.
- apply wp_bind, wp_gets. unfold id. destruct (aw_out (writerOf p) !! pp_delivered p) as [[t data] |] eqn:Hc; [| by apply wp_ret].
  apply wp_bind, wp_zoom. pose proof (aw_ok_out _ (pipe_writer _ _ Ho)) as Hout.
  unfold reports_durable in Hout. rewrite Forall_lookup in Hout. pose proof (Hout _ _ Hc) as Hrep.
  eapply wp_mono; [apply (Dispatch_ok c0); [| exact Ho] |].
  + intros seq. destruct t; try done; split_and!; simpl; try done.
    intros h _ ->. exact Hrep.
  + intros out o' ([n ->] & Ho'). by apply wp_modify.
- apply wp_bind, wp_zoom. destruct (Hext t data eq_refl) as (H1 & H2 & H3).
  eapply wp_mono; [apply (Dispatch_ok c0); [| exact Ho] |].
  + intros seq. split_and!; simpl; [done | by intros | done].
  + by intros out o' ([n ->] & Ho').
Qed.

Lemma pipeRun_ok c0 cs (p : Pipe W) :
Forall (λ c, ∀ t data, c = PExtern t data → extern_ok t data) cs →
pipe_ok c0 (pp_orch p) → wp (pipeRun cs) (λ _ p', pipe_ok c0 (pp_orch p')) p.
Proof.
intros Hext. revert p. induction Hext as [| c cs Hc _ IH]; intros p Ho; simpl; [by apply wp_ret |].
apply wp_bind. eapply wp_mono; [by apply pipeStep_ok |]. intros [a | w] p' Ho'; [by apply IH | done].
Qed.
End pipe.

(** ** Properties *)

(** C1: The cursor never runs ahead of the data.  Outside the ephemeral mode
    ([pipe_ok]), in every interleaving of the Orchestrator's loop, the
    AsyncWriter's loop, the delivery of its commands and the commands of other
    components, except resets and reports of storage ([extern_ok]), whatever the
    database answers, the
    Orchestrator's [SyncedCursor] is the height it started from or the height of
    a block that is stored in the database. *)
Theorem cursor_is_durable {W} {PG : Postgres W} (cs : list PipeCase) (p : Pipe W) :
  Forall (λ c, ∀ t data, c = PExtern t data → extern_ok t data) cs →
  pipe_ok (cs_SyncedCursor (or_state (pp_orch p))) (pp_orch p) →
  wp (pipeRun cs)
     (λ _ p', cs_SyncedCursor (or_state (pp_orch p')) = cs_SyncedCursor (or_state (pp_orch p)) ∨
              durable_height (tablesOf (pp_orch p')) (cs_SyncedCursor (or_state (pp_orch p')))) p.
Proof.
  intros Hext Ho. eapply wp_mono; [by apply pipeRun_ok |]. intros out p' Ho'. by apply Ho'.
Qed.

(** ** Witness *)

Definition samplePipe : Pipe PgSim :=
  mkPipe (oset_asyncWriter true (newOrchestrator 0 (NewAsyncWriter false 1 (mkPgSim deployedSchema emptyTables None []), (0, 0)))) 0.
Definition sampleCases : list PipeCase :=
  [PExtern CmdCommitBatch (DTask (sampleTask 7)); PExtern CmdCommitBatch (DTask (sampleTask 8));
   PLoop 1 LoopMsg; PLoop 2 LoopMsg; PWriter AwTask; PWriter AwTask; PWriter AwTick; PDeliver; PLoop 3 LoopMsg].

Lemma cursor_is_durable_witness :
  let p' := fst (pipeRun sampleCases samplePipe) in
  cs_SyncedCursor (or_state (pp_orch p')) = 8 ∧ durable_height (tablesOf (pp_orch p')) 8.
Proof.
  intros p'. assert (Hs : cs_SyncedCursor (or_state (pp_orch p')) = 8) by by vm_compute.
  split; [exact Hs |]. destruct (cursor_is_durable sampleCases samplePipe) as [H | H].
  - unfold sampleCases.
    repeat (apply Forall_cons_2;
            [intros t data Heq; first [discriminate Heq | injection Heq as <- <-; split_and!; [done.. |]; by intros task _ [= <-]] |]).
    constructor.
  - split; [split; [done | constructor | constructor | constructor] | constructor | by left | done].
  - fold p' in H. rewrite Hs in H. discriminate H.
  - fold p' in H. rewrite Hs in H. exact H.
Defined.
