(* ===== verification/Fetcher.v ===== *)
(** * The Fetcher (internal/engine/fetcher_{core,schedule,block,control}.go)

    Scheduling of block ranges into jobs, the worker that turns a job into one
    result per block, the retry loops around the RPC pool, and the pause and
    stop switches.  The RPC pool is an [RPCClient]; the token-bucket limiters of
    golang.org/x/time/rate are the interface [RateLimit]. *)

From S2P Require Import Prelude GoInt Types GlobalState Orchestrator.
From Stdlib Require Import ZArith Lia String SpecFloat.
From stdpp Require Import base strings list pretty.
Open Scope Z_scope.

(** ** State *)

(** What a blocking [select] takes: the send (or the timer), [ctx.Done()] or
    [f.stopCh]. *)
Inductive Pick : Type := PickSend | PickCtxDone | PickStop.

(** Where a worker goroutine stands after a step. *)
Inductive WorkerState : Type := WorkerIdle | WorkerHolds (job : FetchJob) | WorkerExited.

(** The struct.  [fe_Results] are the results sent so far, oldest first;
    [fe_throughput] and [fe_bpsLimiter] are the limiters' bursts ([None]: an
    unlimited limiter); [fe_sequencer] is the Sequencer's buffer size, if one is
    linked; [fe_recorder] what was recorded, if there is a recorder; [fe_out]
    the commands dispatched to the Orchestrator; [fe_picks] the choices the
    blocking selects will make ([PickSend] when it runs out). *)
Record Fetcher (W : Type) := mkFetcher {
  fe_jobs : list FetchJob;
  fe_jobsCap : Z;
  fe_Results : list BlockData;
  fe_resultsCap : Z;
  fe_stopped : bool;
  fe_paused : bool;
  fe_watchedAddresses : list Z;
  fe_headerOnlyMode : bool;
  fe_throughput : option Z;
  fe_bpsLimiter : option Z;
  fe_sequencer : option Z;
  fe_recorder : option (list BlockData);
  fe_out : list (MsgType * Payload);
  fe_picks : list Pick;
  fe_world : W
}.
Arguments mkFetcher {W}.
Arguments fe_jobs {W}.
Arguments fe_jobsCap {W}.
Arguments fe_Results {W}.
Arguments fe_resultsCap {W}.
Arguments fe_stopped {W}.
Arguments fe_paused {W}.
Arguments fe_watchedAddresses {W}.
Arguments fe_headerOnlyMode {W}.
Arguments fe_throughput {W}.
Arguments fe_bpsLimiter {W}.
Arguments fe_sequencer {W}.
Arguments fe_recorder {W}.
Arguments fe_out {W}.
Arguments fe_picks {W}.
Arguments fe_world {W}.

Section fe_setters.
Context {W : Type}.
Definition fset_jobs (v : list FetchJob) (s : Fetcher W) : Fetcher W :=
  mkFetcher v (fe_jobsCap s) (fe_Results s) (fe_resultsCap s) (fe_stopped s) (fe_paused s) (fe_watchedAddresses s) (fe_headerOnlyMode s) (fe_throughput s) (fe_bpsLimiter s) (fe_sequencer s) (fe_recorder s) (fe_out s) (fe_picks s) (fe_world s).
Definition fset_jobsCap (v : Z) (s : Fetcher W) : Fetcher W :=
  mkFetcher (fe_jobs s) v (fe_Results s) (fe_resultsCap s) (fe_stopped s) (fe_paused s) (fe_watchedAddresses s) (fe_headerOnlyMode s) (fe_throughput s) (fe_bpsLimiter s) (fe_sequencer s) (fe_recorder s) (fe_out s) (fe_picks s) (fe_world s).
Definition fset_Results (v : list BlockData) (s : Fetcher W) : Fetcher W :=
  mkFetcher (fe_jobs s) (fe_jobsCap s) v (fe_resultsCap s) (fe_stopped s) (fe_paused s) (fe_watchedAddresses s) (fe_headerOnlyMode s) (fe_throughput s) (fe_bpsLimiter s) (fe_sequencer s) (fe_recorder s) (fe_out s) (fe_picks s) (fe_world s).
Definition fset_resultsCap (v : Z) (s : Fetcher W) : Fetcher W :=
  mkFetcher (fe_jobs s) (fe_jobsCap s) (fe_Results s) v (fe_stopped s) (fe_paused s) (fe_watchedAddresses s) (fe_headerOnlyMode s) (fe_throughput s) (fe_bpsLimiter s) (fe_sequencer s) (fe_recorder s) (fe_out s) (fe_picks s) (fe_world s).
Definition fset_stopped (v : bool) (s : Fetcher W) : Fetcher W :=
  mkFetcher (fe_jobs s) (fe_jobsCap s) (fe_Results s) (fe_resultsCap s) v (fe_paused s) (fe_watchedAddresses s) (fe_headerOnlyMode s) (fe_throughput s) (fe_bpsLimiter s) (fe_sequencer s) (fe_recorder s) (fe_out s) (fe_picks s) (fe_world s).
Definition fset_paused (v : bool) (s : Fetcher W) : Fetcher W :=
  mkFetcher (fe_jobs s) (fe_jobsCap s) (fe_Results s) (fe_resultsCap s) (fe_stopped s) v (fe_watchedAddresses s) (fe_headerOnlyMode s) (fe_throughput s) (fe_bpsLimiter s) (fe_sequencer s) (fe_recorder s) (fe_out s) (fe_picks s) (fe_world s).
Definition fset_watchedAddresses (v : list Z) (s : Fetcher W) : Fetcher W :=
  mkFetcher (fe_jobs s) (fe_jobsCap s) (fe_Results s) (fe_resultsCap s) (fe_stopped s) (fe_paused s) v (fe_headerOnlyMode s) (fe_throughput s) (fe_bpsLimiter s) (fe_sequencer s) (fe_recorder s) (fe_out s) (fe_picks s) (fe_world s).
Definition fset_headerOnlyMode (v : bool) (s : Fetcher W) : Fetcher W :=
  mkFetcher (fe_jobs s) (fe_jobsCap s) (fe_Results s) (fe_resultsCap s) (fe_stopped s) (fe_paused s) (fe_watchedAddresses s) v (fe_throughput s) (fe_bpsLimiter s) (fe_sequencer s) (fe_recorder s) (fe_out s) (fe_picks s) (fe_world s).
Definition fset_throughput (v : option Z) (s : Fetcher W) : Fetcher W :=
  mkFetcher (fe_jobs s) (fe_jobsCap s) (fe_Results s) (fe_resultsCap s) (fe_stopped s) (fe_paused s) (fe_watchedAddresses s) (fe_headerOnlyMode s) v (fe_bpsLimiter s) (fe_sequencer s) (fe_recorder s) (fe_out s) (fe_picks s) (fe_world s).
Definition fset_bpsLimiter (v : option Z) (s : Fetcher W) : Fetcher W :=
  mkFetcher (fe_jobs s) (fe_jobsCap s) (fe_Results s) (fe_resultsCap s) (fe_stopped s) (fe_paused s) (fe_watchedAddresses s) (fe_headerOnlyMode s) (fe_throughput s) v (fe_sequencer s) (fe_recorder s) (fe_out s) (fe_picks s) (fe_world s).
Definition fset_sequencer (v : option Z) (s : Fetcher W) : Fetcher W :=
  mkFetcher (fe_jobs s) (fe_jobsCap s) (fe_Results s) (fe_resultsCap s) (fe_stopped s) (fe_paused s) (fe_watchedAddresses s) (fe_headerOnlyMode s) (fe_throughput s) (fe_bpsLimiter s) v (fe_recorder s) (fe_out s) (fe_picks s) (fe_world s).
Definition fset_recorder (v : option (list BlockData)) (s : Fetcher W) : Fetcher W :=
  mkFetcher (fe_jobs s) (fe_jobsCap s) (fe_Results s) (fe_resultsCap s) (fe_stopped s) (fe_paused s) (fe_watchedAddresses s) (fe_headerOnlyMode s) (fe_throughput s) (fe_bpsLimiter s) (fe_sequencer s) v (fe_out s) (fe_picks s) (fe_world s).
Definition fset_out (v : list (MsgType * Payload)) (s : Fetcher W) : Fetcher W :=
  mkFetcher (fe_jobs s) (fe_jobsCap s) (fe_Results s) (fe_resultsCap s) (fe_stopped s) (fe_paused s) (fe_watchedAddresses s) (fe_headerOnlyMode s) (fe_throughput s) (fe_bpsLimiter s) (fe_sequencer s) (fe_recorder s) v (fe_picks s) (fe_world s).
Definition fset_picks (v : list Pick) (s : Fetcher W) : Fetcher W :=
  mkFetcher (fe_jobs s) (fe_jobsCap s) (fe_Results s) (fe_resultsCap s) (fe_stopped s) (fe_paused s) (fe_watchedAddresses s) (fe_headerOnlyMode s) (fe_throughput s) (fe_bpsLimiter s) (fe_sequencer s) (fe_recorder s) (fe_out s) v (fe_world s).
Definition fset_world (v : W) (s : Fetcher W) : Fetcher W :=
  mkFetcher (fe_jobs s) (fe_jobsCap s) (fe_Results s) (fe_resultsCap s) (fe_stopped s) (fe_paused s) (fe_watchedAddresses s) (fe_headerOnlyMode s) (fe_throughput s) (fe_bpsLimiter s) (fe_sequencer s) (fe_recorder s) (fe_out s) (fe_picks s) v.
End fe_setters.

(** golang.org/x/time/rate: [WaitN] on a limiter with burst [b] fails when
    asked for more than [b] tokens; an unlimited limiter always grants. *)
Class RateLimit (W : Type) := {
  rl_WaitN : option Z → Z → GoM W bool;
  rl_WaitN_burst b n w : b < n → wp (rl_WaitN (Some b) n) (λ o _, o = Val false) w;
  rl_WaitN_inf n w : wp (rl_WaitN None n) (λ o _, o = Val true) w
}.

(** ** Pure helpers *)

(** fetcher_core.go, [getFetcherResultsChannelSize]; [strconv.Atoi] on
    decimal text. *)
Definition getFetcherResultsChannelSize (env : string) : Z :=
  if String.eqb env "" then 15000
  else match SetString10 env with
       | Some size => if (size <=? 0) || negb (big_IsInt64 size) then 15000 else size
       | None => 15000
       end.

(** fetcher_block.go, [isNotFound]. *)
Definition isNotFound (e : GoErr) : bool :=
  let msg := ToLower (Error e) in Contains msg "not found" || Contains msg "404".

(** [int(f)] of a finite float: truncation; the value Go's amd64 conversion
    gives outside the range otherwise. *)
Definition float_int (f : float64) : Z :=
  match f with
  | S754_zero _ => 0
  | S754_finite s m e =>
    let v := if 0 <=? e then Zpos m * 2 ^ e else Z.quot (Zpos m) (2 ^ (- e)) in
    let v := if s then - v else v in
    if (min_i64 <=? v) && (v <=? max_i64) then v else min_i64
  | _ => min_i64
  end.

(** fetcher_core.go, the bursts of [SetThroughputLimit]. *)
Definition throughputBurst (tps : float64) : option Z :=
  if SFleb tps (float_of_Z 0) || negb (SFeqb tps tps) then None
  else
    let burst := float_int tps in
    let burst := if burst <? 1 then 1 else burst in
    let burst := if 10000 <? burst then 10000 else burst in
    Some burst.

(** The jobs [Schedule] cuts a range into: [fuel] bounds their number. *)
Definition batchSize : Z := 50.
Fixpoint cutJobs (fuel : nat) (current last : Z) : list FetchJob :=
  match fuel with
  | O => []
  | S fuel' =>
    if current <=? last then
      let batchEnd := if last <? current + batchSize then last else current + batchSize in
      mkFetchJob current batchEnd :: cutJobs fuel' (batchEnd + 1) last
    else []
  end.

(** ** Operations *)

Section ops.
Context {W : Type} {RL : RateLimit W} (pool : RPCClient W).

(** fetcher_core.go, [NewFetcherWithLimiter]. *)
Definition NewFetcherWithLimiter (concurrency : Z) (resultsSize : string) (recorder : bool) (w : W) : Fetcher W :=
  mkFetcher [] (concurrency * 10) [] (getFetcherResultsChannelSize resultsSize) false false [] false None None None
    (if recorder then Some [] else None) [] [] w.

Definition nextPick : GoM (Fetcher W) Pick :=
  f ← gets id;
  match fe_picks f with
  | [] => mret PickSend
  | p :: rest => modify (fset_picks rest);; mret p
  end.

Definition feDispatch (t : MsgType) (data : Payload) : GoM (Fetcher W) unit :=
  modify (λ f, fset_out (fe_out f ++ [(t, data)]) f).

Definition onPool {A} (m : GoM W A) : GoM (Fetcher W) A := zoom fe_world fset_world m.

(** fetcher_core.go and fetcher_control.go, the small methods. *)
Definition QueueDepth : GoM (Fetcher W) Z := gets (λ f, Z.of_nat (length (fe_jobs f))).
Definition ResultsDepth : GoM (Fetcher W) Z := gets (λ f, Z.of_nat (length (fe_Results f))).
Definition ClearJobs : GoM (Fetcher W) unit := modify (fset_jobs []).
Definition SetSequencer (bufferSize : Z) : GoM (Fetcher W) unit := modify (fset_sequencer (Some bufferSize)).
Definition SetHeaderOnlyMode (enabled : bool) : GoM (Fetcher W) unit := modify (fset_headerOnlyMode enabled).
Definition SetWatchedAddresses (hexToAddress : string → Z) (addresses : list string) : GoM (Fetcher W) unit :=
  modify (fset_watchedAddresses (hexToAddress <$> filter (λ a, a ≠ EmptyString) addresses)).
Definition SetThroughputLimit (tps : float64) : GoM (Fetcher W) unit :=
  modify (λ f, fset_bpsLimiter ((λ b, b * 10) <$> throughputBurst tps) (fset_throughput (throughputBurst tps) f)).
Definition Stop : GoM (Fetcher W) unit :=
  modify (λ f, if fe_stopped f then f else fset_jobs [] (fset_stopped true f)).
Definition Pause : GoM (Fetcher W) unit := modify (fset_paused true).
Definition Resume : GoM (Fetcher W) unit := modify (fset_paused false).
Definition IsPaused : GoM (Fetcher W) bool := gets fe_paused.

(** fetcher_schedule.go, the sending loop of [Schedule]. *)
Fixpoint sendJobs (ctxErr : GoErr) (jobs : list FetchJob) : GoM (Fetcher W) (option GoErr) :=
  match jobs with
  | [] => mret None
  | job :: rest =>
    p ← nextPick;
    match p with
    | PickCtxDone => mret (Some ctxErr)
    | PickStop => mret (Some (Errorf "fetcher stopped"))
    | PickSend => modify (λ f, fset_jobs (fe_jobs f ++ [job]) f);; sendJobs ctxErr rest
    end
  end.

(** fetcher_schedule.go, [Schedule]; [latestHeight] is the snapshot's. *)
Definition Schedule (latestHeight : Z) (ctxErr : GoErr) (start last : Z) : GoM (Fetcher W) (option GoErr) :=
  let chainHeight := SafeUint64ToInt64 latestHeight in
  if chainHeight <? start then mret (Some ErrBlockNotYetAvailable)
  else
    let last := if chainHeight <? last then chainHeight else last in
    if last <? start then mret None
    else
      f ← gets id;
      let jobsDepth := Z.of_nat (length (fe_jobs f)) in
      let resultsDepth := Z.of_nat (length (fe_Results f)) in
      if go_quot (fe_jobsCap f * 90) 100 <? jobsDepth then
        mret (Some (Errorf ("fetcher jobs queue backpressure: depth=" ++ pretty jobsDepth ++ "/" ++ pretty (fe_jobsCap f))))
      else if go_quot (fe_resultsCap f * 90) 100 <? resultsDepth then
        mret (Some (Errorf ("fetcher results channel backpressure: depth=" ++ pretty resultsDepth ++ "/" ++ pretty (fe_resultsCap f))))
      else if (match fe_sequencer f with Some size => 2000 <? size | None => false end) then
        mret (Some (Errorf ("sequencer buffer backpressure: size=" ++ pretty (default 0 (fe_sequencer f)))))
      else sendJobs ctxErr (cutJobs (Z.to_nat (last - start + 1)) start last).

(** fetcher_block.go, [sendResult]. *)
Definition sendResult (data : BlockData) : GoM (Fetcher W) bool :=
  modify (λ f, if bool_decide (bd_Err data = None)
               then fset_recorder ((λ l, l ++ [data])%list <$> fe_recorder f) f else f);;
  f ← gets id;
  let tokens := match bd_Logs data with [] => 1 | l => Z.of_nat (length l) end in
  granted ← onPool (rl_WaitN (fe_throughput f) tokens);
  if (granted : bool) then
    (* the pacemaker's timeout is ignored *)
    onPool (rl_WaitN (fe_bpsLimiter f) 1);;
    p ← nextPick;
    match p with
    | PickSend => modify (λ f, fset_Results (fe_Results f ++ [data]) f);; mret true
    | PickCtxDone | PickStop => mret false
    end
  else mret false.

(** fetcher_block.go, the retry loops: five attempts, a "not found" waits and
    tries again, any other error gives up. [None]: the context ended during a
    wait. [onOk] is dispatched on success. *)
Fixpoint retryFetch {A} (retries : nat) (call : GoM W (result GoErr A)) (onOk : list (MsgType * Payload))
    (lastErr : GoErr) : GoM (Fetcher W) (option (result GoErr A)) :=
  match retries with
  | O => mret (Some (Err lastErr))
  | S retries' =>
    r ← onPool call;
    match r with
    | Ok a => modify (λ f, fset_out (fe_out f ++ onOk)%list f);; mret (Some (Ok a))
    | Err e =>
      if isNotFound e then
        feDispatch CmdFetchFailed (DString "not_found");;
        p ← nextPick;
        match p with
        | PickCtxDone => mret None
        | _ => retryFetch retries' call onOk e
        end
      else mret (Some (Err e))
    end
  end.

(** fetcher_block.go, the reporting loop of [fetchRangeWithLogs]: block [n] of
    the [count] that remain up to [last]. *)
Fixpoint reportBlocks (count : nat) (n last : Z) (logs : list Log) : GoM (Fetcher W) unit :=
  match count with
  | O => mret tt
  | S count' =>
    let blockLogs := filter (λ l, log_BlockNumber l = big_Uint64 n) logs in
    r ← (if bool_decide (blockLogs ≠ []) || (n =? last)
         then retryFetch 5 (rpc_BlockByNumber pool n) [(CmdFetchSuccess, DNil)] Canceled ≫= λ r,
              mret ((λ r, match r with Ok b => (Some b, None) | Err e => (None, Some e) end) <$> r)
         else mret (Some (None, None)));
    match r with
    | None => mret tt
    | Some (block, err) =>
      sent ← sendResult (mkBlockData (Some n) (Some last) block err blockLogs);
      if (sent : bool) then
        feDispatch CmdNotifyFetchProgress (DUint64 (big_Uint64 n));;
        reportBlocks count' (n + 1) last logs
      else mret tt
    end
  end.

(** fetcher_block.go, the query of [fetchRangeWithLogs]. *)
Definition rangeQuery (watched : list Z) (start last : Z) : FilterQuery :=
  match watched with
  | [] => mkFilterQuery start last [] []
  | _ => mkFilterQuery start last watched [[TransferEventHash]]
  end.

(** fetcher_block.go, [fetchRangeWithLogs]. *)
Definition fetchRangeWithLogs (start last : Z) : GoM (Fetcher W) unit :=
  f ← gets id;
  r ← retryFetch 5 (rpc_FilterLogs pool (rangeQuery (fe_watchedAddresses f) start last))
        [(CmdFetchSuccess, DNil); (CmdNotifyFetched, DUint64 (big_Uint64 last))] Canceled;
  match r with
  | None => mret tt
  | Some (Err e) =>
    p ← nextPick;
    match p with
    | PickSend => modify (λ f, fset_Results (fe_Results f ++ [mkBlockData (Some start) (Some last) None (Some e) []]) f)
    | _ => mret tt
    end
  | Some (Ok logs) => reportBlocks (Z.to_nat (last - start + 1)) start last logs
  end.

(** fetcher_core.go, [worker] with the job it took: while the fetcher is paused
    the goroutine waits holding the job ([ClearJobs] no longer reaches it);
    [limiterErr] is the answer of [f.limiter.Wait]. *)
Definition workerRun (job : FetchJob) (limiterErr : option GoErr) : GoM (Fetcher W) WorkerState :=
  f ← gets id;
  if fe_paused f then mret (WorkerHolds job)
  else if fe_stopped f then mret WorkerExited
  else
    match limiterErr with
    | Some e =>
      p ← nextPick;
      match p with
      | PickSend =>
        modify (λ f, fset_Results (fe_Results f ++ [mkBlockData (Some (job_Start job)) (Some (job_End job)) None (Some e) []]) f);;
        mret WorkerIdle
      | _ => mret WorkerExited
      end
    | None => fetchRangeWithLogs (job_Start job) (job_End job);; mret WorkerIdle
    end.

(** fetcher_core.go, one iteration of [worker]: its select takes a job, or ends
    when the fetcher is stopped. *)
Definition workerStep (limiterErr : option GoErr) : GoM (Fetcher W) WorkerState :=
  f ← gets id;
  match fe_jobs f with
  | [] => mret (if fe_stopped f then WorkerExited else WorkerIdle)
  | job :: rest => modify (fset_jobs rest);; workerRun job limiterErr
  end.

(** fetcher_block.go, [fetchHeaderWithRetry] with its three attempts as
    [retries]; [header] is the pool's answer. *)
Fixpoint fetchHeaderWithRetry (retries : nat) (header : GoM W (result GoErr EthBlock)) (ctxErr lastErr : GoErr)
    : GoM (Fetcher W) (result GoErr EthBlock) :=
  match retries with
  | O => mret (Err lastErr)
  | S retries' =>
    r ← onPool header;
    match r with
    | Ok h => mret (Ok h)
    | Err e =>
      p ← nextPick;
      match p with
      | PickCtxDone => mret (Err ctxErr)
      | _ => fetchHeaderWithRetry retries' header ctxErr e
      end
    end
  end.
End ops.

(** ** Lemmas: cutting *)

(** The block numbers of a job. *)
Definition jobBlocks (j : FetchJob) : list Z := seqZ (job_Start j) (job_End j - job_Start j + 1).

Lemma cutJobs_cover fuel current last :
  last - current + 1 ≤ Z.of_nat fuel →
  concat (jobBlocks <$> cutJobs fuel current last) = seqZ current (last - current + 1).
Proof.
  revert current. induction fuel as [| fuel IH]; intros current Hf; simpl; [by rewrite seqZ_nil by lia |].
  destruct (Z.leb_spec current last); [| by rewrite seqZ_nil by lia].
  unfold batchSize. destruct (Z.ltb_spec last (current + 50)); simpl.
  - rewrite IH by lia. unfold jobBlocks. simpl.
    rewrite (seqZ_nil (last + 1)) by lia. by rewrite app_nil_r.
  - rewrite IH by lia. unfold jobBlocks. simpl.
    replace (last - current + 1) with ((current + 50 - current + 1) + (last - (current + 50 + 1) + 1)) by lia.
    etransitivity; [| symmetry; apply seqZ_app; lia]. f_equal. f_equal; lia.
Qed.

Lemma cutJobs_sizes fuel current last :
  Forall (λ j, job_Start j ≤ job_End j ≤ job_Start j + batchSize) (cutJobs fuel current last).
Proof.
  revert current. induction fuel as [| fuel IH]; intros current; simpl; [constructor |].
  destruct (Z.leb_spec current last); [| constructor].
  constructor; [| apply IH]. simpl. unfold batchSize. destruct (Z.ltb_spec last (current + 50)); lia.
Qed.

(** ** Lemmas: operations *)

Section lemmas.
Context {W : Type} {RL : RateLimit W} (pool : RPCClient W).
Implicit Types (f : Fetcher W).

Lemma nextPick_none f (Q : outcome Pick → Fetcher W → Prop) :
  fe_picks f = [] → Q (Val PickSend) f → wp nextPick Q f.
Proof. intros Hp HQ. apply wp_bind, wp_gets. unfold id. rewrite Hp. by apply wp_ret. Qed.

Lemma sendJobs_all ctxErr jobs f :
  fe_picks f = [] → sendJobs ctxErr jobs f = (fset_jobs (fe_jobs f ++ jobs) f, Val None).
Proof.
  revert f. induction jobs as [| j jobs IH]; intros f Hp.
  - rewrite app_nil_r. by destruct f.
  - unfold sendJobs; fold (@sendJobs W). unfold nextPick, mbind, GoM_bind, gets, id. rewrite Hp.
    unfold mret, GoM_ret, modify. rewrite IH by done. simpl. by rewrite <- app_assoc.
Qed.

(** The RPC calls return. *)
Definition rpc_returns {A} (call : GoM W (result GoErr A)) : Prop := ∀ w, ∃ r, snd (call w) = Val r.

(** What a fetch may change besides the results. *)
Definition fetch_frame f f' : Prop :=
  fe_picks f' = fe_picks f ∧ fe_throughput f' = fe_throughput f ∧ fe_bpsLimiter f' = fe_bpsLimiter f ∧
  fe_jobs f' = fe_jobs f ∧ fe_watchedAddresses f' = fe_watchedAddresses f ∧ fe_stopped f' = fe_stopped f.

#[local] Instance fetch_frame_pre : PreOrder fetch_frame.
Proof.
  split; [intros f; by split_and! |].
  unfold fetch_frame. intros f1 f2 f3. intuition congruence.
Qed.

(** Without a cancellation the retry loop ends with an answer. *)
Lemma retryFetch_wp {A} retries (call : GoM W (result GoErr A)) onOk e0 f :
  fe_picks f = [] → rpc_returns call →
  wp (retryFetch retries call onOk e0)
     (λ o f', ∃ r, o = Val (Some r) ∧ fetch_frame f f' ∧ fe_Results f' = fe_Results f) f.
Proof.
  intros Hp Hr. revert e0 f Hp. induction retries as [| n IH]; intros e0 f Hp; simpl.
  { apply wp_ret. eexists. by split_and!. }
  apply wp_bind, wp_zoom. unfold wp. destruct (Hr (fe_world f)) as [r ->].
  destruct r as [a | e].
  - apply wp_bind, wp_modify, wp_ret. eexists. by split_and!.
  - case_match; [| apply wp_ret; eexists; by split_and!].
    apply wp_bind, wp_modify, wp_bind, nextPick_none; [done |].
    eapply wp_mono; [by apply IH |]. intros o f' (r & -> & Hfr & Hres).
    exists r. split_and!; [done | | done]. etransitivity; [| exact Hfr]. by split_and!.
Qed.

Lemma retryFetch_ok {A} n (call : GoM W (result GoErr A)) onOk e0 a f :
  (∀ w, wp call (λ o _, o = Val (Ok a)) w) →
  wp (retryFetch (S n) call onOk e0)
     (λ o f', o = Val (Some (Ok a)) ∧ fetch_frame f f' ∧ fe_Results f' = fe_Results f) f.
Proof.
  intros Hc. apply wp_bind, wp_zoom. eapply wp_mono; [apply Hc |]. intros o w ->.
  apply wp_bind, wp_modify, wp_ret. by split_and!.
Qed.

Lemma retryFetch_err {A} n (call : GoM W (result GoErr A)) onOk e0 e f :
  isNotFound e = false → (∀ w, wp call (λ o _, o = Val (Err e)) w) →
  wp (retryFetch (S n) call onOk e0)
     (λ o f', o = Val (Some (Err e)) ∧ fetch_frame f f' ∧ fe_Results f' = fe_Results f) f.
Proof.
  intros Hnf Hc. apply wp_bind, wp_zoom. eapply wp_mono; [apply Hc |]. intros o w ->. rewrite Hnf.
  apply wp_ret. by split_and!.
Qed.

#[local] Arguments retryFetch : simpl never.

(** A block's logs fit the burst of the throughput limiter. *)
Definition fits (burst : option Z) (logs : list Log) : bool :=
  match burst with
  | None => true
  | Some b => match logs with [] => 1 <=? b | _ => Z.of_nat (length logs) <=? b end
  end.
Definition blockLogs (logs : list Log) (n : Z) : list Log := filter (λ l, log_BlockNumber l = big_Uint64 n) logs.

(** The limiters while nothing is cancelled: the first grants what fits its
    burst, the second answers. *)
Record limiters_ok f : Prop := {
  lo_grants : ∀ n w, match fe_throughput f with None => True | Some b => n ≤ b end →
              wp (rl_WaitN (fe_throughput f) n) (λ o _, o = Val true) w;
  lo_pace : ∀ w, wp (rl_WaitN (fe_bpsLimiter f) 1) (λ o _, ∃ r, o = Val r) w
}.

Lemma limiters_unlimited f : fe_throughput f = None → fe_bpsLimiter f = None → limiters_ok f.
Proof.
  intros Ht Hb. split; intros; rewrite ?Ht, ?Hb; [apply rl_WaitN_inf |].
  eapply wp_mono; [apply rl_WaitN_inf |]. intros o w' ->. by eexists.
Qed.
Lemma limiters_frame f f' : fetch_frame f f' → limiters_ok f → limiters_ok f'.
Proof. intros (_ & Ht & Hb & _) [H1 H2]. split; rewrite ?Ht, ?Hb; assumption. Qed.

(** Without a cancellation a result is sent exactly when its logs fit. *)
Lemma sendResult_limited data f :
  fe_picks f = [] → limiters_ok f →
  wp (sendResult data)
     (λ o f', o = Val (fits (fe_throughput f) (bd_Logs data)) ∧ fetch_frame f f' ∧
              fe_Results f' = (fe_Results f ++ if fits (fe_throughput f) (bd_Logs data) then [data] else [])%list) f.
Proof.
  intros Hp Hl. apply wp_bind, wp_modify, wp_bind, wp_gets. unfold id.
  set (f1 := if bool_decide (bd_Err data = None) then _ else _).
  assert (Hf1 : fetch_frame f f1 ∧ fe_Results f1 = fe_Results f) by (unfold f1; case_match; by split_and!).
  clearbody f1. destruct Hf1 as [Hfr <-]. pose proof (limiters_frame _ _ Hfr Hl) as [Hg Hpace].
  assert (Hp1 : fe_picks f1 = []) by (destruct Hfr; congruence).
  replace (fe_throughput f) with (fe_throughput f1) by (by destruct Hfr as (_ & ? & _)).
  set (tokens := match bd_Logs data with [] => 1 | _ => _ end).
  assert (Hfit : fits (fe_throughput f1) (bd_Logs data) = true ∧ match fe_throughput f1 with None => True | Some b => tokens ≤ b end ∨
                 fits (fe_throughput f1) (bd_Logs data) = false ∧ ∃ b, fe_throughput f1 = Some b ∧ b < tokens).
  { unfold fits, tokens. destruct (fe_throughput f1) as [b |]; [| by left].
    destruct (bd_Logs data) as [| l ls]; [destruct (Z.leb_spec 1 b) | destruct (Z.leb_spec (Z.of_nat (length (l :: ls))) b)]; eauto. }
  clearbody tokens. apply wp_bind, wp_zoom. destruct Hfit as [[-> Hfit] | (-> & b & Hb & Hlt)].
  - eapply wp_mono; [by apply Hg |]. intros o w1 ->. apply wp_bind, wp_zoom.
    eapply wp_mono; [apply Hpace |]. intros o w2 [r ->].
    apply wp_bind, nextPick_none; [done |]. apply wp_bind, wp_modify, wp_ret.
    split_and!; [done | | done]. etransitivity; [exact Hfr |]. by split_and!.
  - rewrite Hb. eapply wp_mono; [by apply rl_WaitN_burst |]. intros o w1 ->. apply wp_ret.
    split_and!; [done | | simpl; by rewrite app_nil_r]. etransitivity; [exact Hfr |]. by split_and!.
Qed.

Lemma sendResult_wp data f :
  fe_picks f = [] → fe_throughput f = None → fe_bpsLimiter f = None →
  wp (sendResult data)
     (λ o f', o = Val true ∧ fetch_frame f f' ∧ fe_Results f' = (fe_Results f ++ [data])%list) f.
Proof.
  intros Hp Ht Hb. eapply wp_mono; [by apply sendResult_limited, limiters_unlimited |].
  intros o f' H. by rewrite Ht in H.
Qed.

(** The loop reports its blocks, once and in order, up to the first one that
    does not fit. *)
Lemma reportBlocks_prefix count n last logs f :
  fe_picks f = [] → limiters_ok f →
  (∀ k, rpc_returns (rpc_BlockByNumber pool k)) →
  wp (reportBlocks pool count n last logs)
     (λ o f', o = Val tt ∧
        ∃ new, fe_Results f' = (fe_Results f ++ new)%list ∧
               bd_Number <$> new = Some <$> seqZ n (Z.of_nat (length new)) ∧ (length new ≤ count)%nat ∧
               Forall (λ d, ∃ k, bd_Number d = Some k ∧ bd_Logs d = blockLogs logs k ∧
                                 fits (fe_throughput f) (blockLogs logs k) = true) new ∧
               ((length new < count)%nat → fits (fe_throughput f) (blockLogs logs (n + Z.of_nat (length new))) = false)) f.
Proof.
  intros Hp Hl Hrpc. revert n f Hp Hl. induction count as [| count IH]; intros n f Hp Hl.
  { apply wp_ret. split; [done |]. exists []. rewrite app_nil_r. split_and!; [done.. | simpl; lia]. }
  simpl. apply wp_bind.
  eapply (wp_mono _ (λ o f', ∃ b e, o = Val (Some (b, e)) ∧ fetch_frame f f' ∧ fe_Results f' = fe_Results f)).
  { case_match; [| apply wp_ret; by do 2 eexists].
    apply wp_bind. eapply wp_mono; [by apply retryFetch_wp |]. intros o f' (r & -> & Hfr & Hres).
    apply wp_ret. destruct r; by do 2 eexists. }
  intros o f1 (b & e & -> & Hfr1 & Hres1). pose proof (limiters_frame _ _ Hfr1 Hl) as Hl1. apply wp_bind.
  assert (Et : fe_throughput f1 = fe_throughput f) by (by destruct Hfr1 as (_ & ? & _)).
  eapply wp_mono; [apply sendResult_limited; [destruct Hfr1; congruence | done] |].
  intros o f2 (-> & Hfr2 & Hres2). rewrite Et in *. simpl in *. fold (blockLogs logs n) in *.
  destruct (fits (fe_throughput f) (blockLogs logs n)) eqn:Hfit.
  - apply wp_bind, wp_modify. set (f3 := fset_out _ f2).
    assert (Hfr3 : fetch_frame f f3) by (etransitivity; [exact Hfr1 |]; etransitivity; [exact Hfr2 |]; by split_and!).
    eapply wp_mono; [apply IH; [destruct Hfr3; congruence | by eapply limiters_frame] |].
    intros o f4 (-> & new & Hres4 & Hnum & Hle & Hall & Hend). split; [done |].
    assert (E3 : fe_throughput f3 = fe_throughput f) by (by destruct Hfr3 as (_ & ? & _)). rewrite E3 in *.
    eexists (_ :: new). split_and!.
    + etransitivity; [exact Hres4 |]. simpl. rewrite Hres2, Hres1, <- app_assoc. reflexivity.
    + cbn [length]. rewrite Nat2Z.inj_succ, seqZ_cons by lia. rewrite !fmap_cons, Hnum. simpl. repeat f_equal; lia.
    + simpl. lia.
    + constructor; [| done]. by exists n.
    + intros Hlt. cbn [length] in *. replace (n + Z.of_nat (S (length new))) with (n + 1 + Z.of_nat (length new)) by lia.
      apply Hend. lia.
  - apply wp_ret. split; [done |]. exists []. split_and!; [by rewrite Hres2, Hres1 | done | simpl; lia | done |].
    simpl. intros _. by rewrite Z.add_0_r.
Qed.
End lemmas.

#[local] Arguments retryFetch : simpl never.

(** Whatever [Schedule] answers, when no select is interrupted it has appended
    the jobs of the whole clamped range or none. *)
Lemma Schedule_jobs {W} (latestHeight : Z) (ctxErr : GoErr) (start last : Z) (f : Fetcher W) :
  let chainHeight := SafeUint64ToInt64 latestHeight in
  fe_picks f = [] →
  ∃ e jobs, Schedule latestHeight ctxErr start last f = (fset_jobs (fe_jobs f ++ jobs)%list f, Val e) ∧
    (e ≠ None → jobs = []) ∧
    (e = None → start ≤ chainHeight ∧
       concat (jobBlocks <$> jobs) = seqZ start (Z.min last chainHeight - start + 1)).
Proof.
  intros chainHeight Hp. unfold Schedule. fold chainHeight. clearbody chainHeight.
  assert (Hno : ∀ e : option GoErr, (f, Val e) = (fset_jobs (fe_jobs f ++ [])%list f, Val e))
    by (intros e; rewrite app_nil_r; by destruct f).
  destruct (Z.ltb_spec chainHeight start) as [Hlt | Hle].
  { eexists _, []. split; [apply Hno | by split]. }
  set (e := if chainHeight <? last then chainHeight else last).
  assert (He : e = Z.min last chainHeight) by (unfold e; destruct (Z.ltb_spec chainHeight last); lia).
  clearbody e. subst e. destruct (Z.ltb_spec (Z.min last chainHeight) start).
  { eexists _, []. split; [apply Hno |]. split; [done |]. intros _. split; [done |]. by rewrite seqZ_nil by lia. }
  unfold mbind, GoM_bind, gets, id. destruct (_ <? Z.of_nat (length (fe_jobs f))).
  { eexists _, []. split; [apply Hno | by split]. }
  destruct (_ <? Z.of_nat (length (fe_Results f))).
  { eexists _, []. split; [apply Hno | by split]. }
  destruct (match fe_sequencer f with Some size => 2000 <? size | None => false end).
  { eexists _, []. split; [apply Hno | by split]. }
  rewrite sendJobs_all by done. eexists _, _. split; [reflexivity |]. split; [done |].
  intros _. split; [done |]. apply cutJobs_cover. lia.
Qed.

(** No select of the next send is interrupted and no watermark is exceeded. *)
Record has_room {W} (f : Fetcher W) : Prop := {
  room_picks : fe_picks f = [];
  room_jobsCap : 0 ≤ fe_jobsCap f;
  room_resultsCap : 0 ≤ fe_resultsCap f;
  room_jobs : Z.of_nat (length (fe_jobs f)) ≤ fe_jobsCap f * 90 / 100;
  room_results : Z.of_nat (length (fe_Results f)) ≤ fe_resultsCap f * 90 / 100;
  room_sequencer : ∀ size, fe_sequencer f = Some size → size ≤ 2000
}.

Lemma Schedule_room {W} (latestHeight : Z) (ctxErr : GoErr) (start last : Z) (f : Fetcher W) :
  0 ≤ latestHeight ≤ max_i64 → start ≤ latestHeight → start ≤ last → has_room f →
  ∃ jobs, Schedule latestHeight ctxErr start last f = (fset_jobs (fe_jobs f ++ jobs)%list f, Val None) ∧
    concat (jobBlocks <$> jobs) = seqZ start (Z.min last latestHeight - start + 1) ∧
    Forall (λ j, job_Start j ≤ job_End j ≤ job_Start j + batchSize) jobs.
Proof.
  intros Hl Hs Hse [Hp Hc1 Hc2 Hw1 Hw2 Hseq]. unfold Schedule.
  rewrite SafeUint64ToInt64_spec by lia64. rewrite Z.min_r by lia.
  rewrite (proj2 (Z.ltb_ge _ _)) by lia.
  set (e := if latestHeight <? last then latestHeight else last).
  assert (He : e = Z.min last latestHeight) by (unfold e; destruct (Z.ltb_spec latestHeight last); lia).
  clearbody e. subst e. rewrite (proj2 (Z.ltb_ge _ _)) by lia.
  unfold mbind, GoM_bind, gets, id, go_quot. rewrite !Z.quot_div_nonneg by lia.
  rewrite (proj2 (Z.ltb_ge _ (Z.of_nat (length (fe_jobs f))))) by done.
  rewrite (proj2 (Z.ltb_ge _ (Z.of_nat (length (fe_Results f))))) by done.
  replace (match fe_sequencer f with Some size => 2000 <? size | None => false end) with false.
  2: { destruct (fe_sequencer f) as [size |]; [| done]. symmetry. apply Z.ltb_ge. by apply Hseq. }
  rewrite sendJobs_all by done. eexists. split; [reflexivity |]. split; [| apply cutJobs_sizes].
  apply cutJobs_cover. lia.
Qed.

(** ** Properties *)

(** Scheduling covers the range exactly.  When nothing blocks it and no
    watermark is exceeded, [Schedule start last] appends jobs that are non-empty
    ranges of at most 51 blocks whose concatenation is exactly
    [start, ..., min(last, chain head)], in order: no block is missing, none is
    scheduled twice. *)
Theorem Schedule_covers {W} (latestHeight : Z) (ctxErr : GoErr) (start last : Z) (f : Fetcher W) :
  0 ≤ latestHeight ≤ max_i64 → start ≤ latestHeight → start ≤ last → has_room f →
  ∃ jobs, Schedule latestHeight ctxErr start last f = (fset_jobs (fe_jobs f ++ jobs)%list f, Val None) ∧
    concat (jobBlocks <$> jobs) = seqZ start (Z.min last latestHeight - start + 1) ∧
    Forall (λ j, job_Start j ≤ job_End j ≤ job_Start j + batchSize) jobs.
Proof. apply Schedule_room. Qed.

(** C35: The blocks of a job are reported one by one, each exactly once, in
    ascending order, each with exactly the logs of its number, whether or not
    their bodies could be fetched, up to the first block with more logs than the
    burst of the throughput limiter; that block and the rest of the job are not
    reported at all.  So nothing is dropped exactly when every block fits.  The
    log query answers, nothing is cancelled, the limiter grants what fits its
    burst and the pacemaker answers. *)
Theorem fetchRange_reports_every_block {W} {RL : RateLimit W} (pool : RPCClient W) (start last : Z)
    (logs : list Log) (f : Fetcher W) :
  start ≤ last → fe_picks f = [] → limiters_ok f →
  (∀ q w, wp (rpc_FilterLogs pool q) (λ o _, o = Val (Ok logs)) w) →
  (∀ k, rpc_returns (rpc_BlockByNumber pool k)) →
  wp (fetchRangeWithLogs pool start last)
     (λ o f', o = Val tt ∧ ∃ new stop, fe_Results f' = (fe_Results f ++ new)%list ∧
        start ≤ stop ≤ last + 1 ∧ bd_Number <$> new = Some <$> seqZ start (stop - start) ∧
        Forall (λ d, ∃ k, bd_Number d = Some k ∧ bd_Logs d = blockLogs logs k) new ∧
        (∀ k, start ≤ k < stop → fits (fe_throughput f) (blockLogs logs k) = true) ∧
        (stop ≤ last → fits (fe_throughput f) (blockLogs logs stop) = false)) f.
Proof.
  intros Hse Hp Hl Hq Hrpc. apply wp_bind, wp_gets. unfold id. apply wp_bind.
  eapply wp_mono; [apply retryFetch_ok, Hq |]. intros o f1 (-> & Hfr & Hres1).
  assert (Et : fe_throughput f1 = fe_throughput f) by (by destruct Hfr as (_ & ? & _)).
  eapply wp_mono; [apply reportBlocks_prefix; [destruct Hfr; congruence | by eapply limiters_frame | done] |].
  intros o f' (-> & new & Hres & Hnum & Hle & Hall & Hend). split; [done |]. rewrite Et in *.
  exists new, (start + Z.of_nat (length new)). split_and!; [congruence | lia | lia | | | | ].
  - rewrite Hnum. do 2 f_equal. lia.
  - eapply Forall_impl; [exact Hall |]. intros d (k & H1 & H2 & _). by exists k.
  - intros k Hk. assert (Hin : Some k ∈ bd_Number <$> new).
    { rewrite Hnum. apply list_elem_of_fmap_2, elem_of_seqZ. lia. }
    apply list_elem_of_fmap in Hin as (d & Hd & Hin). rewrite Forall_forall in Hall.
    destruct (Hall _ Hin) as (k' & Hk' & _ & Hfit). rewrite Hk' in Hd. by injection Hd as ->.
  - intros Hlt. apply Hend. lia.
Qed.

(** A failed log query loses all blocks of the job but one: exactly one
    result is sent, under the number of the first block; the other numbers of
    the range are not reported at all. *)
Theorem failed_job_reports_only_start {W} {RL : RateLimit W} (pool : RPCClient W) (start last : Z)
    (e : GoErr) (f : Fetcher W) :
  fe_picks f = [] → isNotFound e = false →
  (∀ q w, wp (rpc_FilterLogs pool q) (λ o _, o = Val (Err e)) w) →
  wp (fetchRangeWithLogs pool start last)
     (λ o f', o = Val tt ∧
        fe_Results f' = (fe_Results f ++ [mkBlockData (Some start) (Some last) None (Some e) []])%list) f.
Proof.
  intros Hp Hnf Hq. apply wp_bind, wp_gets. unfold id. apply wp_bind.
  eapply wp_mono; [apply (retryFetch_err _ _ _ _ _ _ Hnf), Hq |]. intros o f1 (-> & (Hp1 & _) & Hres1).
  apply wp_bind, nextPick_none; [congruence |]. apply wp_modify. split; [done |]. simpl. by rewrite Hres1.
Qed.

(** Contrary to its comment, [sendResult] drops data silently when a block
    has more logs than the throughput limiter's burst: [WaitN] refuses, the
    worker takes that for a cancellation, and neither the block nor the rest of
    the job is reported in any form. *)
Theorem oversized_block_drops_job {W} {RL : RateLimit W} (pool : RPCClient W) (start last b : Z)
    (logs : list Log) (f : Fetcher W) :
  start ≤ last → fe_picks f = [] → fe_throughput f = Some b → 0 < b →
  b < Z.of_nat (length (filter (λ l, log_BlockNumber l = big_Uint64 start) logs)) →
  (∀ q w, wp (rpc_FilterLogs pool q) (λ o _, o = Val (Ok logs)) w) →
  (∀ k, rpc_returns (rpc_BlockByNumber pool k)) →
  wp (fetchRangeWithLogs pool start last) (λ o f', o = Val tt ∧ fe_Results f' = fe_Results f) f.
Proof.
  intros Hse Hp Ht Hb Hlen Hq Hrpc. apply wp_bind, wp_gets. unfold id. apply wp_bind.
  eapply wp_mono; [apply retryFetch_ok, Hq |]. intros o f0 (-> & (Hp0 & Ht0 & _) & Hres0).
  replace (Z.to_nat (last - start + 1)) with (S (Z.to_nat (last - start))) by lia. simpl.
  set (bl := filter (λ l, log_BlockNumber l = big_Uint64 start) logs) in *.
  rewrite bool_decide_eq_true_2 by (intros E; rewrite E in Hlen; simpl in Hlen; lia). simpl.
  apply wp_bind, wp_bind. eapply wp_mono; [apply retryFetch_wp; [congruence | done] |].
  intros o f1 (r & -> & Hfr & Hres). apply wp_ret.
  assert (Hsend : ∀ d, bd_Logs d = bl → wp (sendResult d) (λ o f', o = Val false ∧ fe_Results f' = fe_Results f) f1).
  { intros d Hd. apply wp_bind, wp_modify, wp_bind, wp_gets. unfold id. apply wp_bind, wp_zoom. rewrite Hd.
    set (f2 := if bool_decide _ then _ else _).
    assert (Hf2 : fe_throughput f2 = Some b ∧ fe_Results f2 = fe_Results f).
    { destruct Hfr as (_ & Hft & _). unfold f2. case_match; simpl; split; congruence. }
    clearbody f2. destruct Hf2 as [-> Hr2].
    destruct bl as [| l0 bl']; [simpl in Hlen; lia |].
    eapply wp_mono; [by apply rl_WaitN_burst |]. intros o w' ->. by apply wp_ret. }
  destruct r as [blk | e]; simpl; apply wp_bind;
    (eapply wp_mono; [by apply Hsend |]); intros o f2 [-> Hr2]; by apply wp_ret.
Qed.

(** ** Witnesses *)

(** A limiter of x/time/rate with all its tokens, and a node that answers. *)
Definition fullLimiter : RateLimit unit.
Proof.
  refine {| rl_WaitN := λ b n w, (w, Val (match b with Some b => n <=? b | None => true end)) |}.
  - intros b n w Hbn. unfold wp. simpl. f_equal. apply Z.leb_gt. exact Hbn.
  - done.
Defined.
Definition answeringNode (logs : list Log) : RPCClient unit :=
  mkRPCClient unit (λ n, mret (Ok (mkEthBlock n "h" "p" 0 0 0 None [])))
    (λ _, mret (Ok logs)) (mret (Ok 100)).
Definition brokenNode : RPCClient unit :=
  mkRPCClient unit (λ n, mret (Err (Errorf "down"))) (λ _, mret (Err (Errorf "down"))) (mret (Ok 100)).
Definition sampleLog (n i : Z) : Log := mkLog 1 [] [] n "tx" i.
Definition sampleFetcher : Fetcher unit := NewFetcherWithLimiter 10 "" false tt.

Lemma Schedule_covers_witness :
  ∃ jobs, Schedule 130 Canceled 10 200 sampleFetcher = (fset_jobs (fe_jobs sampleFetcher ++ jobs)%list sampleFetcher, Val None) ∧
    length jobs = 3%nat.
Proof.
  destruct (Schedule_covers 130 Canceled 10 200 sampleFetcher) as (jobs & H & _);
    [done | done | done | by split |].
  exists jobs. split; [exact H |].
  apply (f_equal (λ r, length (fe_jobs (fst r)))) in H. symmetry. exact H.
Defined.

(** A limiter of two transactions: block 12 has three logs. *)
Lemma fetchRange_reports_every_block_witness :
  let RL := fullLimiter in
  let logs := [sampleLog 11 0; sampleLog 12 0; sampleLog 12 1; sampleLog 12 2] in
  let f := fset_bpsLimiter (Some 20) (fset_throughput (Some 2) sampleFetcher) in
  wp (fetchRangeWithLogs (answeringNode logs) 10 13)
     (λ o f', o = Val tt ∧ bd_Number <$> fe_Results f' = [Some 10; Some 11]) f.
Proof.
  intros RL logs f.
  destruct (fetchRange_reports_every_block (answeringNode logs) 10 13 logs f)
    as (Ho & new & stop & Hres & Hstop & Hnum & _ & Hfit & Hend); [lia | done | | done | |].
  - split; [| intros w; by eexists]. intros n w Hn. unfold wp. simpl in *. f_equal. by apply Z.leb_le.
  - intros k w. by eexists.
  - split; [exact Ho |]. rewrite Hres. simpl. rewrite Hnum.
    assert (stop = 12) as ->; [| by vm_compute].
    destruct (decide (stop = 12)) as [-> | Hne]; [done |]. exfalso. destruct (Z_lt_le_dec stop 12).
    + assert (Hs : stop = 10 ∨ stop = 11) by lia. destruct Hs as [-> | ->]; discriminate (Hend ltac:(lia)).
    + assert (H12 := Hfit 12 ltac:(lia)). discriminate H12.
Defined.

Lemma failed_job_reports_only_start_witness :
  let RL := fullLimiter in
  fe_Results (fst (fetchRangeWithLogs brokenNode 10 12 sampleFetcher)) =
  [mkBlockData (Some 10) (Some 12) None (Some (Errorf "down")) []].
Proof.
  intros RL. by destruct (failed_job_reports_only_start brokenNode 10 12 (Errorf "down") sampleFetcher) as [_ ->].
Defined.

Lemma oversized_block_drops_job_witness :
  let RL := fullLimiter in
  fe_Results (fst (fetchRangeWithLogs (answeringNode [sampleLog 10 0; sampleLog 10 1; sampleLog 10 2]) 10 12
                     (fset_throughput (Some 2) sampleFetcher))) = [].
Proof.
  intros RL.
  destruct (oversized_block_drops_job (answeringNode [sampleLog 10 0; sampleLog 10 1; sampleLog 10 2]) 10 12 2
    [sampleLog 10 0; sampleLog 10 1; sampleLog 10 2] (fset_throughput (Some 2) sampleFetcher)) as [_ ->];
    [lia | done | done | lia | vm_compute; done | done | | done].
  intros k w. by eexists.
Defined.
