(* ===== verification/Limiter.v ===== *)
(** * Rate limiters (internal/limiter/sliding_window.go, rate_limiter.go)

    The sliding-window limiter is a ring buffer of request times; it refines a
    queue of times, and with a clock that does not run backwards it never grants
    more than [limit] requests within one window.  The file also holds the
    configuration of the token-bucket limiter. *)

From S2P Require Import Prelude GoInt Types.
From Stdlib Require Import ZArith Lia String SpecFloat.
From stdpp Require Import base strings sorting list.
Open Scope Z_scope.

(** ** The sliding window *)

(** Times in nanoseconds; the field [throttleRPS] is never read or written. *)
Record SlidingWindowLimiter := mkSlidingWindowLimiter {
  sl_window : Z;
  sl_limit : Z;
  sl_timestamps : list Z;
  sl_head : Z;
  sl_count : Z;
  sl_ecoThreshold : float64;
  sl_balancedThreshold : float64
}.

Section sl_setters.
Definition lset_timestamps (v : list Z) (s : SlidingWindowLimiter) : SlidingWindowLimiter :=
  mkSlidingWindowLimiter (sl_window s) (sl_limit s) v (sl_head s) (sl_count s) (sl_ecoThreshold s) (sl_balancedThreshold s).
Definition lset_head (v : Z) (s : SlidingWindowLimiter) : SlidingWindowLimiter :=
  mkSlidingWindowLimiter (sl_window s) (sl_limit s) (sl_timestamps s) v (sl_count s) (sl_ecoThreshold s) (sl_balancedThreshold s).
Definition lset_count (v : Z) (s : SlidingWindowLimiter) : SlidingWindowLimiter :=
  mkSlidingWindowLimiter (sl_window s) (sl_limit s) (sl_timestamps s) (sl_head s) v (sl_ecoThreshold s) (sl_balancedThreshold s).
Definition lset_ecoThreshold (v : float64) (s : SlidingWindowLimiter) : SlidingWindowLimiter :=
  mkSlidingWindowLimiter (sl_window s) (sl_limit s) (sl_timestamps s) (sl_head s) (sl_count s) v (sl_balancedThreshold s).
Definition lset_balancedThreshold (v : float64) (s : SlidingWindowLimiter) : SlidingWindowLimiter :=
  mkSlidingWindowLimiter (sl_window s) (sl_limit s) (sl_timestamps s) (sl_head s) (sl_count s) (sl_ecoThreshold s) v.
End sl_setters.

Inductive ThrottleMode : Type := ThrottleAggressive | ThrottleBalanced | ThrottleEco.
Definition ThrottleMode_String (m : ThrottleMode) : string :=
  match m with
  | ThrottleAggressive => "Aggressive"
  | ThrottleBalanced => "Balanced"
  | ThrottleEco => "Eco"
  end.

Definition float_ratio (a b : Z) : float64 := float_div (float_of_Z a) (float_of_Z b).

(** [NewSlidingWindowLimiter]; [make] panics on a negative length. *)
Definition NewSlidingWindowLimiter (limit window : Z) : SlidingWindowLimiter :=
  mkSlidingWindowLimiter window limit (replicate (Z.to_nat limit) 0) 0 0 (float_ratio 80 100) (float_ratio 50 100).

Definition slM : Type → Type := GoM SlidingWindowLimiter.

Definition SetThresholds (balanced eco : float64) : slM unit :=
  modify (λ s, lset_ecoThreshold eco (lset_balancedThreshold balanced s)).

(** [s.timestamps[i]]. *)
Definition tsAt (i : Z) : slM Z :=
  s ← gets id;
  match (if 0 <=? i then sl_timestamps s !! Z.to_nat i else None) with
  | Some t => mret t
  | None => go_panic "index out of range"
  end.

(** [evict] at time [now]: [fuel] is the count, one eviction each. *)
Fixpoint evictLoop (fuel : nat) (cutoff : Z) : slM unit :=
  match fuel with
  | O => mret tt
  | S fuel' =>
    s ← gets id;
    if 0 <? sl_count s then
      t ← tsAt (sl_head s);
      if t <? cutoff then
        modify (λ s, lset_count (sl_count s - 1) (lset_head (go_rem (sl_head s + 1) (sl_limit s)) s));;
        evictLoop fuel' cutoff
      else mret tt
    else mret tt
  end.
Definition evict (now : Z) : slM unit :=
  s ← gets id;
  evictLoop (Z.to_nat (sl_count s)) (now - sl_window s).

(** [record] at time [now]. *)
Definition record (now : Z) : slM unit :=
  s ← gets id;
  if sl_limit s =? 0 then go_panic "integer divide by zero" else
  let tail := go_rem (sl_head s + sl_count s) (sl_limit s) in
  if (0 <=? tail) && (tail <? Z.of_nat (length (sl_timestamps s)))
  then modify (λ s, lset_count (sl_count s + 1) (lset_timestamps (<[Z.to_nat tail := now]> (sl_timestamps s)) s))
  else go_panic "index out of range".

(** [Allow]; [evict] and [record] read the clock at [now] and [now']. *)
Definition Allow (now now' : Z) : slM bool :=
  evict now;;
  s ← gets id;
  if sl_limit s <=? sl_count s then mret false
  else record now';; mret true.

(** [Wait]: [clock] are the readings of the loop's iterations, [cancelled] when
    the wait is interrupted. [None]: still waiting when the clock ends. *)
Fixpoint Wait (clock : list (Z * Z * bool)) (ctxErr : GoErr) : slM (option (option GoErr)) :=
  match clock with
  | [] => mret None
  | (now, now', cancelled) :: rest =>
    evict now;;
    s ← gets id;
    if sl_count s <? sl_limit s then record now';; mret (Some None)
    else
      oldest ← tsAt (sl_head s);
      if oldest + sl_window s - now' <=? 0 then Wait rest ctxErr
      else if (cancelled : bool) then mret (Some (Some ctxErr))
      else Wait rest ctxErr
  end.

Definition QuotaUsed (now : Z) : slM Z := evict now;; gets sl_count.
Definition QuotaRemaining (now : Z) : slM Z := evict now;; gets (λ s, sl_limit s - sl_count s).
Definition UsageFraction (now : Z) : slM float64 :=
  evict now;;
  gets (λ s, if sl_limit s =? 0 then float_of_Z 1 else float_ratio (sl_count s) (sl_limit s)).
Definition CurrentMode (now : Z) : slM ThrottleMode :=
  fraction ← UsageFraction now;
  gets (λ s, if SFleb (sl_ecoThreshold s) fraction then ThrottleEco
             else if SFleb (sl_balancedThreshold s) fraction then ThrottleBalanced
             else ThrottleAggressive).
Definition float_sub : float64 → float64 → float64 := SFsub 53 1024.
Definition RecommendedRPS (now : Z) (maxRPS : float64) : slM float64 :=
  fraction ← UsageFraction now;
  gets (λ s,
    if SFleb (sl_ecoThreshold s) fraction then float_mul maxRPS (float_ratio 10 100)
    else if SFleb (sl_balancedThreshold s) fraction then
      let scale := float_sub (float_of_Z 1)
        (float_mul (float_div (float_sub fraction (sl_balancedThreshold s))
                              (float_sub (sl_ecoThreshold s) (sl_balancedThreshold s)))
                   (float_ratio 90 100)) in
      float_mul maxRPS scale
    else maxRPS).
Definition WindowResetIn (now now' : Z) : slM Z :=
  evict now;;
  s ← gets id;
  if sl_count s =? 0 then mret 0
  else oldest ← tsAt (sl_head s); mret (oldest + sl_window s - now').

(** ** rate_limiter.go *)

Definition MaxSafetyRPS : Z := 3.
Definition LocalMaxRPS : Z := 500.
Definition BurstMultiplier : Z := 10.

(** [isLocalEnvironment] on the values of RPC_URLS, RPC_URL and DATABASE_URL. *)
Definition isLocalEnvironment (vals : list string) : bool :=
  existsb (λ val, negb (String.eqb val "") &&
                  (Contains val "localhost" || Contains val "127.0.0.1" || Contains val "anvil")) vals.

(** [NewRateLimiter]: the rate and the burst of the limiter it builds. *)
Definition NewRateLimiter (isLocal : bool) (envRPS : Z) : Z * Z :=
  let maxAllowedRPS := if isLocal then LocalMaxRPS else MaxSafetyRPS in
  let rps := if (0 <? envRPS) && (envRPS <=? maxAllowedRPS) then envRPS else maxAllowedRPS in
  let burst := rps * BurstMultiplier in
  (rps, if burst <? 1 then 1 else burst).

(** ** The abstract limiter: a queue of times *)

Fixpoint dropExpired (cutoff : Z) (q : list Z) : list Z :=
  match q with
  | [] => []
  | t :: q' => if t <? cutoff then dropExpired cutoff q' else q
  end.
Definition specAllow (window limit now now' : Z) (q : list Z) : list Z * bool :=
  let q' := dropExpired (now - window) q in
  if limit <=? Z.of_nat (length q') then (q', false) else ((q' ++ [now'])%list, true).

(** ** The ring buffer represents a queue *)

Record ring_ok (s : SlidingWindowLimiter) : Prop := {
  ring_limit : 0 < sl_limit s;
  ring_len : Z.of_nat (length (sl_timestamps s)) = sl_limit s;
  ring_head : 0 ≤ sl_head s < sl_limit s;
  ring_count : 0 ≤ sl_count s ≤ sl_limit s
}.

Definition ringAt (s : SlidingWindowLimiter) (i : Z) : Z :=
  sl_timestamps s !!! Z.to_nat ((sl_head s + i) mod sl_limit s).
Definition ringQueue (s : SlidingWindowLimiter) : list Z := ringAt s <$> seqZ 0 (sl_count s).

(** What the methods never change. *)
Definition same_config (s s' : SlidingWindowLimiter) : Prop :=
  sl_window s' = sl_window s ∧ sl_limit s' = sl_limit s.

Lemma tsAt_wp i s (Q : outcome Z → SlidingWindowLimiter → Prop) :
  ring_ok s → 0 ≤ i < sl_limit s → Q (Val (sl_timestamps s !!! Z.to_nat i)) s → wp (tsAt i) Q s.
Proof.
  intros [Hl Hlen _ _] Hi HQ. apply wp_bind, wp_gets. unfold id.
  rewrite (proj2 (Z.leb_le 0 i)) by lia.
  destruct (lookup_lt_is_Some_2 (sl_timestamps s) (Z.to_nat i)) as [t Ht]; [lia |].
  rewrite Ht. apply wp_ret. by rewrite (list_lookup_total_correct _ _ _ Ht) in HQ.
Qed.

Lemma ringQueue_length s : ring_ok s → Z.of_nat (length (ringQueue s)) = sl_count s.
Proof. intros [_ _ _ Hc]. unfold ringQueue. rewrite length_fmap, length_seqZ. lia. Qed.

Lemma ringQueue_nil s : sl_count s = 0 → ringQueue s = [].
Proof. intros H. unfold ringQueue. by rewrite H. Qed.

(** Advancing the head by one drops the oldest time. *)
Definition popped (s : SlidingWindowLimiter) : SlidingWindowLimiter :=
  lset_count (sl_count s - 1) (lset_head (go_rem (sl_head s + 1) (sl_limit s)) s).

Lemma popped_ok s : ring_ok s → 0 < sl_count s → ring_ok (popped s).
Proof.
  intros [Hl Hlen Hh Hc] Hpos. unfold popped, go_rem. constructor; simpl; try lia.
  rewrite Z.rem_mod_nonneg by lia. apply Z.mod_pos_bound. lia.
Qed.

Lemma ringQueue_cons s :
  ring_ok s → 0 < sl_count s →
  ringQueue s = (sl_timestamps s !!! Z.to_nat (sl_head s)) :: ringQueue (popped s).
Proof.
  intros [Hl Hlen Hh Hc] Hpos. unfold ringQueue. rewrite seqZ_cons by lia. rewrite fmap_cons. f_equal.
  - unfold ringAt. rewrite Z.add_0_r, Z.mod_small by lia. done.
  - simpl. replace (Z.pred (sl_count s)) with (sl_count s - 1) by lia.
    replace (Z.succ 0) with (1 + 0) by lia. rewrite <- fmap_add_seqZ, <- list_fmap_compose. apply list_fmap_ext. intros i x _.
    unfold ringAt, go_rem; simpl. rewrite Z.rem_mod_nonneg by lia.
    rewrite Zplus_mod_idemp_l. do 3 f_equal. lia.
Qed.

Definition recorded (now : Z) (s : SlidingWindowLimiter) : SlidingWindowLimiter :=
  lset_count (sl_count s + 1)
    (lset_timestamps (<[Z.to_nat ((sl_head s + sl_count s) mod sl_limit s) := now]> (sl_timestamps s)) s).

Lemma mod_window_inj h n i j :
  0 < n → 0 ≤ i < n → 0 ≤ j < n → (h + i) mod n = (h + j) mod n → i = j.
Proof.
  intros Hn Hi Hj E.
  assert (H : (i - j) mod n = 0).
  { replace (i - j) with ((h + i) - (h + j)) by lia. rewrite Zminus_mod, E, Z.sub_diag. apply Zmod_0_l. }
  rewrite Z.mod_eq in H by lia. set (k := (i - j) `div` n) in H.
  assert (k = 0) by nia. nia.
Qed.

Lemma ringQueue_snoc s now :
  ring_ok s → sl_count s < sl_limit s → ringQueue (recorded now s) = (ringQueue s ++ [now])%list.
Proof.
  intros [Hl Hlen Hh Hc] Hlt. unfold ringQueue; simpl. rewrite seqZ_snoc by lia. rewrite fmap_app. simpl.
  pose proof (Z.mod_pos_bound (sl_head s + sl_count s) (sl_limit s) Hl) as Hm.
  f_equal.
  - apply list_fmap_ext. intros k x [-> Hk]%lookup_seqZ. unfold ringAt; simpl.
    apply list_lookup_total_insert_ne. intros E%Z2Nat.inj; [| lia | by apply Z.mod_pos_bound].
    apply mod_window_inj in E; lia.
  - unfold ringAt; simpl. rewrite list_lookup_total_insert_eq; [done | lia].
Qed.

Lemma recorded_ok s now : ring_ok s → sl_count s < sl_limit s → ring_ok (recorded now s).
Proof. intros [Hl Hlen Hh Hc] Hlt. constructor; simpl; rewrite ?length_insert; lia. Qed.

(** ** [evict] and [record] on the queue *)

Definition ringPost {A} (s : SlidingWindowLimiter) (a : A) (q : list Z) (o : outcome A) (s' : SlidingWindowLimiter) : Prop :=
  o = Val a ∧ ring_ok s' ∧ same_config s s' ∧ ringQueue s' = q.

Lemma evictLoop_wp fuel cutoff s :
  ring_ok s → sl_count s ≤ Z.of_nat fuel →
  wp (evictLoop fuel cutoff) (ringPost s tt (dropExpired cutoff (ringQueue s))) s.
Proof.
  revert s. induction fuel as [| fuel IH]; intros s Hok Hf; simpl; pose proof (ring_count s Hok).
  - apply wp_ret. rewrite (ringQueue_nil s) by lia. split_and!; [done | done | done | apply ringQueue_nil; lia].
  - apply wp_bind, wp_gets. unfold id. destruct (Z.ltb_spec 0 (sl_count s)) as [Hpos | Hz].
    2:{ apply wp_ret. rewrite (ringQueue_nil s) by lia. split_and!; [done | done | done | apply ringQueue_nil; lia]. }
    apply wp_bind, tsAt_wp; [done | apply ring_head, Hok |].
    rewrite (ringQueue_cons s) by done. simpl. destruct (_ <? cutoff).
    + apply wp_bind, wp_modify. eapply wp_mono; [apply (IH (popped s)); [by apply popped_ok | simpl; lia] |].
      intros o s' (-> & Hok' & Hcfg & Hq). by split_and!.
    + apply wp_ret. split_and!; [done | done | done |]. by apply ringQueue_cons.
Qed.

Lemma evict_wp now s :
  ring_ok s → wp (evict now) (ringPost s tt (dropExpired (now - sl_window s) (ringQueue s))) s.
Proof.
  intros Hok. apply wp_bind, wp_gets. unfold id. apply evictLoop_wp; [done |].
  destruct (ring_count s Hok). lia.
Qed.

Lemma record_wp now s :
  ring_ok s → sl_count s < sl_limit s → wp (record now) (ringPost s tt (ringQueue s ++ [now])%list) s.
Proof.
  intros Hok Hlt. destruct (Hok) as [Hl Hlen Hh Hc]. apply wp_bind, wp_gets. unfold id, go_rem.
  rewrite (proj2 (Z.eqb_neq _ _)) by lia. rewrite Z.rem_mod_nonneg by lia.
  pose proof (Z.mod_pos_bound (sl_head s + sl_count s) (sl_limit s) Hl).
  rewrite (proj2 (Z.leb_le _ _)) by lia. rewrite (proj2 (Z.ltb_lt _ _)) by lia. simpl. apply wp_modify.
  split_and!; [done | by apply recorded_ok | done | by apply ringQueue_snoc].
Qed.

(** ** Sequences of calls *)

(** [Allow] called at the given clock readings; the times it granted. *)
Fixpoint allowAll (calls : list (Z * Z)) : slM (list Z) :=
  match calls with
  | [] => mret []
  | (now, now') :: rest =>
    ok ← Allow now now';
    granted ← allowAll rest;
    mret (if (ok : bool) then now' :: granted else granted)
  end.
Fixpoint specAllowAll (window limit : Z) (calls : list (Z * Z)) (q : list Z) : list Z * list Z :=
  match calls with
  | [] => (q, [])
  | (now, now') :: rest =>
    let '(q1, ok) := specAllow window limit now now' q in
    let '(q2, granted) := specAllowAll window limit rest q1 in
    (q2, if ok then now' :: granted else granted)
  end.

Lemma Allow_wp now now' s :
  ring_ok s →
  wp (Allow now now')
     (ringPost s (snd (specAllow (sl_window s) (sl_limit s) now now' (ringQueue s)))
                 (fst (specAllow (sl_window s) (sl_limit s) now now' (ringQueue s)))) s.
Proof.
  intros Hok. apply wp_bind. eapply wp_mono; [by apply evict_wp |].
  intros o s1 (-> & Hok1 & [Hw Hl] & Hq). apply wp_bind, wp_gets. unfold id, specAllow.
  rewrite <- Hq, ringQueue_length, Hl by done.
  destruct (Z.leb_spec (sl_limit s) (sl_count s1)).
  - by apply wp_ret.
  - apply wp_bind. eapply wp_mono; [apply record_wp; [done | lia] |].
    intros o s2 (-> & Hok2 & [Hw2 Hl2] & Hq2). apply wp_ret.
    split_and!; [done | done | split; congruence | done].
Qed.

(** the ring buffer implements the sliding window: starting from any
    consistent state, a sequence of [Allow] calls answers exactly as the queue
    of request times that drops the times older than the window and refuses
    when [limit] remain; no call panics, the state stays consistent, and the
    buffer holds that queue. *)
Theorem allowAll_refines (calls : list (Z * Z)) (s : SlidingWindowLimiter) (Hok : ring_ok s) :
  let spec := specAllowAll (sl_window s) (sl_limit s) calls (ringQueue s) in
  wp (allowAll calls) (ringPost s (snd spec) (fst spec)) s.
Proof.
  revert s Hok. induction calls as [| [now now'] rest IH]; intros s Hok; cbn zeta; simpl.
  { by apply wp_ret. }
  apply wp_bind. eapply wp_mono; [by apply Allow_wp |]. intros o s1 (-> & Hok1 & [Hw Hl] & Hq).
  destruct (specAllow _ _ _ _ _) as [q1 ok]; simpl in *.
  apply wp_bind. eapply wp_mono; [apply (IH s1 Hok1) |]. intros o s2 (-> & Hok2 & [Hw2 Hl2] & Hq2).
  rewrite Hw, Hl, Hq in *. destruct (specAllowAll _ _ rest q1) as [q2 granted]; simpl in *.
  apply wp_ret. split_and!; [done | done | split; congruence | done].
Qed.

Lemma New_ring_ok limit window : 0 < limit → ring_ok (NewSlidingWindowLimiter limit window).
Proof. intros H. constructor; simpl; rewrite ?length_replicate; lia. Qed.

Theorem allowAll_refines_witness :
  ring_ok (NewSlidingWindowLimiter 2 10) ∧
  snd (allowAll [(1, 1); (2, 2); (3, 3); (12, 12); (13, 13); (13, 13)] (NewSlidingWindowLimiter 2 10)) = Val [1; 2; 12; 13].
Proof.
  assert (H : ring_ok (NewSlidingWindowLimiter 2 10)) by (constructor; simpl; lia).
  split; [exact H |].
  destruct (allowAll_refines [(1, 1); (2, 2); (3, 3); (12, 12); (13, 13); (13, 13)] (NewSlidingWindowLimiter 2 10) H) as [E _].
  rewrite E. vm_compute. reflexivity.
Defined.

(** ** The rate bound *)

(** The readings never go backwards. *)
Fixpoint clock_ok (t : Z) (calls : list (Z * Z)) : Prop :=
  match calls with
  | [] => True
  | (now, now') :: rest => t ≤ now ∧ now ≤ now' ∧ clock_ok now' rest
  end.
(** Any [limit + 1] consecutive grants span more than the window. *)
Definition spaced (window limit : Z) (gs : list Z) : Prop :=
  ∀ (i : nat) (a b : Z), gs !! i = Some a → gs !! (i + Z.to_nat limit)%nat = Some b → window < b - a.

Lemma dropExpired_suffix cutoff q :
  ∃ old, q = (old ++ dropExpired cutoff q)%list ∧ Forall (λ t, t < cutoff) old.
Proof.
  induction q as [| t q (old & E & Hold)]; simpl; [by exists [] |].
  destruct (Z.ltb_spec t cutoff) as [Hlt | Hge].
  - exists (t :: old). rewrite E at 1. by split; [| constructor].
  - by exists [].
Qed.

Lemma spaced_snoc window limit old q now :
  Forall (λ t, t < now - window) old → (Z.of_nat (length q) < limit) →
  spaced window limit (old ++ q)%list → spaced window limit ((old ++ q) ++ [now])%list.
Proof.
  intros Hold Hlen Hsp i a b Ha Hb.
  apply lookup_app_Some in Hb as [Hb | [Hge Hb]].
  - apply lookup_lt_Some in Hb as Hlt. rewrite lookup_app_l in Ha by lia. by eapply Hsp.
  - apply list_lookup_singleton_Some in Hb as [Hi <-].
    rewrite length_app in Hge, Hi. rewrite <- app_assoc, lookup_app_l in Ha by lia.
    rewrite Forall_lookup in Hold. specialize (Hold _ _ Ha). lia.
Qed.

Lemma specAllowAll_spaced window limit calls :
  ∀ t old q, clock_ok t calls → Forall (λ x, x < t - window) old → 0 ≤ window →
  spaced window limit (old ++ q)%list →
  spaced window limit ((old ++ q) ++ snd (specAllowAll window limit calls q))%list.
Proof.
  induction calls as [| [now now'] rest IH]; intros t old q Hclk Hold Hw Hsp; simpl.
  { by rewrite app_nil_r. }
  destruct Hclk as (Ht & Hn & Hclk). unfold specAllow.
  destruct (dropExpired_suffix (now - window) q) as (dead & E & Hdead).
  set (q' := dropExpired (now - window) q) in *.
  assert (Hold' : Forall (λ x, x < now' - window) (old ++ dead)%list).
  { apply Forall_app. split; (eapply Forall_impl; [eassumption | simpl; lia]). }
  rewrite E, app_assoc in Hsp |- *. destruct (Z.leb_spec limit (Z.of_nat (length q'))) as [Hfull | Hroom].
  - specialize (IH now' (old ++ dead)%list q' Hclk Hold' Hw Hsp).
    by destruct (specAllowAll _ _ rest q').
  - pose proof (spaced_snoc _ _ _ _ now' Hold' Hroom Hsp) as Hsp'. rewrite <- app_assoc in Hsp'.
    specialize (IH now' (old ++ dead)%list (q' ++ [now'])%list Hclk Hold' Hw Hsp').
    destruct (specAllowAll _ _ rest (q' ++ [now'])%list) as [q2 g]; simpl in *.
    rewrite <- !app_assoc in IH. rewrite <- !app_assoc. exact IH.
Qed.

(** C36: the rate bound the limiter exists for: on a clock that does not run
    backwards, of the times at which a fresh limiter of [limit] requests per
    [window] granted a request, any two that lie [limit] grants apart are more
    than one window apart, so no window ever holds more than [limit] grants;
    and [Allow] never panics.  ([Wait] is not part of the sequences.) *)
Theorem allowAll_rate_bound (limit window t : Z) (calls : list (Z * Z))
  (Hlimit : 0 < limit) (Hwindow : 0 ≤ window) (Hclock : clock_ok t calls) :
  ∃ s' granted, allowAll calls (NewSlidingWindowLimiter limit window) = (s', Val granted) ∧
    spaced window limit granted.
Proof.
  destruct (allowAll_refines calls _ (New_ring_ok limit window Hlimit)) as [E _].
  exists (fst (allowAll calls (NewSlidingWindowLimiter limit window))).
  eexists. split; [by rewrite <- E, <- surjective_pairing |].
  apply (specAllowAll_spaced window limit calls t [] [] Hclock); [constructor | done |].
  intros i a b Ha. done.
Qed.

Theorem allowAll_rate_bound_witness :
  spaced 10 2 [1; 2; 12; 13].
Proof.
  destruct (allowAll_rate_bound 2 10 0 [(1, 1); (2, 2); (3, 3); (12, 12); (13, 13); (13, 13)])
    as (s' & granted & E & H); [lia | lia | simpl; lia |].
  assert (granted = [1; 2; 12; 13]) as <-; [| exact H].
  assert (E' : snd (allowAll [(1, 1); (2, 2); (3, 3); (12, 12); (13, 13); (13, 13)] (NewSlidingWindowLimiter 2 10)) = Val granted)
    by (rewrite E; reflexivity).
  vm_compute in E'. congruence.
Defined.

(** A limiter of no requests has no oldest time: [Wait] reads an empty buffer. *)
Lemma Wait_limit_zero_panics window now now' cancelled rest err :
  snd (Wait ((now, now', cancelled) :: rest) err (NewSlidingWindowLimiter 0 window)) = Panic "index out of range".
Proof. reflexivity. Qed.

Lemma NewRateLimiter_bounds isLocal envRPS :
  let '(rps, burst) := NewRateLimiter isLocal envRPS in
  0 < rps ≤ (if isLocal then LocalMaxRPS else MaxSafetyRPS) ∧ burst = rps * BurstMultiplier ∧
  (0 < envRPS → rps ≤ envRPS).
Proof.
  unfold NewRateLimiter, LocalMaxRPS, MaxSafetyRPS, BurstMultiplier.
  destruct isLocal; destruct (Z.ltb_spec 0 envRPS), (Z.leb_spec envRPS 500), (Z.leb_spec envRPS 3); simpl;
    repeat case_match; bool_prop; split_and!; try lia.
Qed.
