(* ===== verification/RpcPool.v ===== *)
(** * The RPC pools (internal/engine/rpc_types.go, rpc_pool_{core,requests,health}.go,
    rpc_rotator.go)

    Node selection, failover, the circuit breaker and the health check of the
    enhanced pool; the round robin of the legacy pool; the rotator.  The nodes
    themselves (ethclient) and the token buckets are a parameter, [NodeEnv]. *)

From S2P Require Import Prelude GoInt Types.
From Stdlib Require Import ZArith Lia String.
From stdpp Require Import base strings list.
Open Scope Z_scope.

(** Times and durations are nanoseconds. *)
Definition Second : Z := 1000000000.
Definition Minute : Z := 60 * Second.

(** ** State *)

(** rpc_types.go, [rpcNode]; the client is identified by the node's index. *)
Record rpcNode := mkNode {
  url : string;
  isHealthy : bool;
  failCount : Z;
  lastError : Z;
  retryAfter : Z;
  weight : Z
}.

Definition markFailed (now retry fails : Z) (n : rpcNode) : rpcNode :=
  mkNode (url n) false fails now retry (weight n).
Definition markRecovered (n : rpcNode) : rpcNode :=
  mkNode (url n) true 0 (lastError n) (retryAfter n) (weight n).

(** What the pool uses of the outside: the clock, the token buckets and the
    clients, by the index of their node, on a world [W]. *)
Record NodeEnv (W : Type) := mkNodeEnv {
  ne_now : GoM W Z;
  ne_globalWait : GoM W (option GoErr);
  ne_nodeWait : string → GoM W (option GoErr);
  ne_BlockByNumber : nat → Z → GoM W (result GoErr EthBlock);
  ne_HeaderByNumber : nat → option Z → GoM W (result GoErr EthBlock);
  ne_FilterLogs : nat → FilterQuery → GoM W (result GoErr (list Log));
  ne_CallContract : nat → list Z → GoM W (result GoErr (list Z));
  ne_BlockNumber : nat → GoM W (result GoErr Z)
}.
Arguments mkNodeEnv {W}.
Arguments ne_now {W}.
Arguments ne_globalWait {W}.
Arguments ne_nodeWait {W}.
Arguments ne_BlockByNumber {W}.
Arguments ne_HeaderByNumber {W}.
Arguments ne_FilterLogs {W}.
Arguments ne_CallContract {W}.
Arguments ne_BlockNumber {W}.

(** rpc_pool_core.go, [EnhancedRPCClientPool]; [ep_slept] is the total time
    [enforceSyncBatchLimit] slept, [ep_quota] the quota monitor's count. *)
Record EnhancedPool (W : Type) := mkEnhancedPool {
  ep_clients : list rpcNode;
  ep_requestCount : Z;
  ep_isTestnetMode : bool;
  ep_currentSyncBatch : Z;
  ep_slept : Z;
  ep_quota : Z;
  ep_world : W
}.
Arguments mkEnhancedPool {W}.
Arguments ep_clients {W}.
Arguments ep_requestCount {W}.
Arguments ep_isTestnetMode {W}.
Arguments ep_currentSyncBatch {W}.
Arguments ep_slept {W}.
Arguments ep_quota {W}.
Arguments ep_world {W}.

Section ep_setters.
Context {W : Type}.
Definition epset_clients (v : list rpcNode) (p : EnhancedPool W) : EnhancedPool W :=
  mkEnhancedPool v (ep_requestCount p) (ep_isTestnetMode p) (ep_currentSyncBatch p) (ep_slept p) (ep_quota p) (ep_world p).
Definition epset_requestCount (v : Z) (p : EnhancedPool W) : EnhancedPool W :=
  mkEnhancedPool (ep_clients p) v (ep_isTestnetMode p) (ep_currentSyncBatch p) (ep_slept p) (ep_quota p) (ep_world p).
Definition epset_batch (batch slept : Z) (p : EnhancedPool W) : EnhancedPool W :=
  mkEnhancedPool (ep_clients p) (ep_requestCount p) (ep_isTestnetMode p) batch slept (ep_quota p) (ep_world p).
Definition epset_quota (v : Z) (p : EnhancedPool W) : EnhancedPool W :=
  mkEnhancedPool (ep_clients p) (ep_requestCount p) (ep_isTestnetMode p) (ep_currentSyncBatch p) (ep_slept p) v (ep_world p).
Definition epset_world (v : W) (p : EnhancedPool W) : EnhancedPool W :=
  mkEnhancedPool (ep_clients p) (ep_requestCount p) (ep_isTestnetMode p) (ep_currentSyncBatch p) (ep_slept p) (ep_quota p) v.
End ep_setters.

(** ** rpc_pool_core.go *)

(** A URL names a local node. *)
Definition isLocalURL (u : string) : bool :=
  Contains u "localhost" || Contains u "127.0.0.1" || Contains u "anvil".

(** The rate of the constructor's limiters, in requests per second. *)
Definition globalRPS (forceRPS : bool) (urls : list string) (isTestnet : bool) : Z :=
  if forceRPS then 20
  else if existsb isLocalURL urls then 500
  else if isTestnet then 15
  else 20.

(** [NewEnhancedRPCClientPoolWithTimeout]; [dial u] is [None] when the
    connection fails and tells whether the first header arrived otherwise. *)
Definition NewEnhancedRPCClientPool {W} (urls : list string) (isTestnet : bool) (dial : string → option bool) (w : W)
    : result GoErr (EnhancedPool W) :=
  if bool_decide (urls = []) then Err (Errorf "no RPC URLs provided")
  else
    let clients := omap (λ u, (λ ok, mkNode u ok 0 0 0 1) <$> dial u) urls in
    if bool_decide (clients = []) then Err (Errorf "no healthy RPC nodes available")
    else Ok (mkEnhancedPool clients 0 (isTestnet && negb (existsb isLocalURL urls)) 0 0 0 w).

Definition GetHealthyNodeCount {W} (p : EnhancedPool W) : Z :=
  Z.of_nat (length (filter (λ n, isHealthy n = true) (ep_clients p))).
Definition GetTotalNodeCount {W} (p : EnhancedPool W) : Z := Z.of_nat (length (ep_clients p)).

(** ** rpc_pool_health.go *)

(** [CalculateOptimalRPS]; the rates are whole numbers. *)
Definition CalculateOptimalRPS (rpcURL : string) (currentLag userConfigRPS : Z) : Z :=
  let isLocal := Contains rpcURL "localhost" || Contains rpcURL "127.0.0.1" in
  let policyRPS :=
    if isLocal then 500
    else if Contains rpcURL "infura.io" || Contains rpcURL "quiknode.pro" then 15
    else if Contains rpcURL "public.com" then 5
    else 10 in
  let policyRPS := if (1000 <? currentLag) && negb isLocal then policyRPS * 2 else policyRPS in
  if 0 <? userConfigRPS then
    if isLocal then userConfigRPS else Z.min policyRPS userConfigRPS
  else policyRPS.

(** [int(math.Min(math.Pow(2, float64(failCount-1)), 60))]. *)
Definition backoffSec (fails : Z) : Z :=
  if fails - 1 <? 0 then 0 else if fails - 1 <? 6 then 2 ^ (fails - 1) else 60.

(** A "too many requests" answer, by its text. *)
Definition isRateLimited (e : GoErr) : bool :=
  let errStr := Error e in
  Contains errStr "429" || Contains errStr "too many requests" || Contains errStr "limit exceeded".

Section enhanced.
Context {W : Type} (env : NodeEnv W).
Abbreviation epM := (GoM (EnhancedPool W)).

Definition outside {A} (m : GoM W A) : epM A := zoom ep_world epset_world m.

(** A change of the node of index [i]. *)
Definition updateNode (i : nat) (f : rpcNode → rpcNode) : epM unit :=
  modify (λ p, epset_clients (alter f i (ep_clients p)) p).

Definition markNodeUnhealthy (i : nat) : epM unit :=
  now ← outside (ne_now env);
  updateNode i (λ n,
    let fails := i64 (failCount n + 1) in
    markFailed now (now + backoffSec fails * Second) fails n).

Definition handleRPCError (i : nat) (e : GoErr) : epM unit :=
  if isRateLimited e then
    now ← outside (ne_now env);
    updateNode i (λ n, markFailed now (now + 5 * Minute) (failCount n) n)
  else markNodeUnhealthy i.

Definition incrementRequestCount : epM unit :=
  modify (λ p, epset_quota (ep_quota p + 1) (epset_requestCount (i64 (ep_requestCount p + 1)) p)).

Definition enforceSyncBatchLimit : epM unit :=
  modify (λ p,
    if ep_isTestnetMode p then
      let n := ep_currentSyncBatch p + 1 in
      if 50 <? n then epset_batch 0 (ep_slept p + 200 * (Second / 1000)) p
      else epset_batch n (ep_slept p) p
    else p).

Definition GetRequestCount : epM Z := gets ep_requestCount.
Definition ResetRequestCount : epM unit := modify (epset_requestCount 0).

(** [checkHealth]: node [i] of those that remain. *)
Fixpoint checkNodes (i : nat) (nodes : list rpcNode) : epM Z :=
  match nodes with
  | [] => mret 0
  | n :: rest =>
    up ← (if isHealthy n then
            r ← outside (ne_BlockNumber env i);
            match r with
            | Ok _ => mret 1
            | Err _ =>
              now ← outside (ne_now env);
              updateNode i (λ n, markFailed now (retryAfter n) (i64 (failCount n + 1)) n);;
              mret 0
            end
          else
            now ← outside (ne_now env);
            if 30 * Second <? now - lastError n then
              r ← outside (ne_BlockNumber env i);
              match r with
              | Ok _ => updateNode i (λ n, mkNode (url n) true (failCount n) (lastError n) (retryAfter n) (weight n));; mret 1
              | Err _ => mret 0
              end
            else mret 0);
    more ← checkNodes (S i) rest;
    mret (up + more)
  end.
Definition checkHealth : epM Z := p ← gets id; checkNodes 0 (ep_clients p).

(** ** rpc_pool_requests.go *)

Definition nodeWeight (n : rpcNode) : Z := if weight n <=? 0 then 1 else weight n.

(** The nodes that may serve a request at [now], with their indices. *)
Definition selectable (now : Z) (n : rpcNode) : bool := isHealthy n || (retryAfter n <? now).
Definition healthyNodes (now : Z) (clients : list rpcNode) : list (nat * rpcNode) :=
  filter (λ x, selectable now (snd x) = true) (imap pair clients).

(** The node whose weight interval holds [val]; the first one otherwise. *)
Fixpoint pickFrom (current val : Z) (nodes : list (nat * rpcNode)) : option nat :=
  match nodes with
  | [] => None
  | (i, n) :: rest =>
    let current := current + nodeWeight n in
    if val <? current then Some i else pickFrom current val rest
  end.
Definition pickNode (val : Z) (nodes : list (nat * rpcNode)) : option nat :=
  match pickFrom 0 val nodes with
  | Some i => Some i
  | None => fst <$> head nodes
  end.

(** [getNextHealthyNode]: the clock is read once for all nodes. *)
Definition getNextHealthyNode : epM (option nat) :=
  now ← outside (ne_now env);
  p ← gets id;
  let nodes := healthyNodes now (ep_clients p) in
  match nodes with
  | [] => mret None
  | _ =>
    let totalWeight := foldr (λ x acc, nodeWeight (snd x) + acc) 0 nodes in
    let count := i64 (ep_requestCount p + 1) in
    modify (epset_requestCount count);;
    mret (pickNode (go_rem count totalWeight) nodes)
  end.

(** What the methods of the pool differ in. *)
Record Method := mkMethod {
  m_name : string;
  m_batchLimit : bool;   (* calls enforceSyncBatchLimit *)
  m_nodeLimit : bool;    (* waits for the node's own limiter *)
  m_recovers : bool      (* a success makes the node healthy again *)
}.
Definition mBlockByNumber : Method := mkMethod "BlockByNumber" true true true.
Definition mHeaderByNumber : Method := mkMethod "HeaderByNumber" true true true.
Definition mFilterLogs : Method := mkMethod "FilterLogs" true true true.
Definition mGetLatestBlockNumber : Method := mkMethod "GetLatestBlockNumber" false true true.
Definition mCallContract : Method := mkMethod "CallContract" false false false.

(** The attempts of a method: [call i] asks node [i]. *)
Fixpoint poolAttempts {A} (m : Method) (call : nat → GoM W (result GoErr A)) (attempts : nat) : epM (result GoErr A) :=
  match attempts with
  | O => mret (Err (Errorf ("all RPC nodes failed for " ++ m_name m)))
  | S attempts' =>
    node ← getNextHealthyNode;
    match node with
    | None => mret (Err (Errorf "no healthy RPC nodes available"))
    | Some i =>
      p ← gets id;
      limited ← (if m_nodeLimit m && ep_isTestnetMode p
                 then outside (ne_nodeWait env (default EmptyString (url <$> ep_clients p !! i)))
                 else mret None);
      match limited with
      | Some e => mret (Err (Errorf ("node rate limiter error: " ++ Error e)))
      | None =>
        r ← outside (call i);
        incrementRequestCount;;
        match r with
        | Err e => handleRPCError i e;; poolAttempts m call attempts'
        | Ok a =>
          (if m_recovers m then updateNode i (λ n, if isHealthy n then n else markRecovered n) else mret tt);;
          mret (Ok a)
        end
      end
    end
  end.

(** A method of the pool. *)
Definition poolCall {A} (m : Method) (call : nat → GoM W (result GoErr A)) : epM (result GoErr A) :=
  p ← gets id;
  limited ← (if ep_isTestnetMode p then
               (if m_batchLimit m then enforceSyncBatchLimit else mret tt);;
               outside (ne_globalWait env)
             else mret None);
  match limited with
  | Some e =>
    mret (Err (if m_nodeLimit m then Errorf ("global rate limiter error: " ++ Error e) else e))
  | None => poolAttempts m call (length (ep_clients p))
  end.

Definition BlockByNumber (number : Z) : epM (result GoErr EthBlock) :=
  poolCall mBlockByNumber (λ i, ne_BlockByNumber env i number).
Definition HeaderByNumber (number : option Z) : epM (result GoErr EthBlock) :=
  poolCall mHeaderByNumber (λ i, ne_HeaderByNumber env i number).
Definition FilterLogs (q : FilterQuery) : epM (result GoErr (list Log)) :=
  poolCall mFilterLogs (λ i, ne_FilterLogs env i q).
Definition GetLatestBlockNumber : epM (result GoErr Z) :=
  r ← poolCall mGetLatestBlockNumber (λ i, ne_HeaderByNumber env i None);
  mret (match r with Ok h => Ok (blk_Number h) | Err e => Err e end).
Definition CallContract (msg : list Z) : epM (result GoErr (list Z)) :=
  poolCall mCallContract (λ i, ne_CallContract env i msg).
Definition GetClientForMetadata : epM (option nat) :=
  gets (λ p, match list_find (λ n, isHealthy n = true) (ep_clients p) with
             | Some (i, _) => Some i
             | None => match ep_clients p with [] => None | _ => Some O end
             end).

(** The pool as the engine's [RPCClient]. *)
Definition enhancedClient : RPCClient (EnhancedPool W) :=
  mkRPCClient _ BlockByNumber FilterLogs GetLatestBlockNumber.
End enhanced.

(** ** The legacy pool *)

(** rpc_types.go, [RPCClientPool]: the number of its clients and the index. *)
Record LegacyPool := mkLegacyPool { lp_size : Z; lp_index : Z }.

(** [getNextHealthyNode] of the legacy pool: the client's index. *)
Definition legacyGetNext : GoM LegacyPool (option Z) :=
  p ← gets id;
  if lp_size p =? 0 then mret None
  else
    let idx := i32 (lp_index p + 1) in
    modify (λ p, mkLegacyPool (lp_size p) idx);;
    let k := go_rem idx (lp_size p) in
    if (0 <=? k) && (k <? lp_size p) then mret (Some k) else go_panic "index out of range".

(** ** The rotator *)

Record RPCNode := mkRPCNode { rn_URL : string; rn_Weight : Z; rn_IsHealthy : bool; rn_ErrorCount : Z }.
Record RPCRotator := mkRPCRotator { ro_nodes : list RPCNode; ro_currentIdx : Z }.

Definition NewRPCRotator (urls : list string) : RPCRotator :=
  mkRPCRotator ((λ u, mkRPCNode u 1 true 0) <$> urls) 0.

(** [GetNext]: [tries] of the loop remain. *)
Fixpoint rotate (tries : nat) : GoM RPCRotator string :=
  r ← gets id;
  match tries with
  | O => mret (default EmptyString (rn_URL <$> head (ro_nodes r)))
  | S tries' =>
    let cur := u32 (ro_currentIdx r + 1) in
    modify (λ r, mkRPCRotator (ro_nodes r) cur);;
    match ro_nodes r !! Z.to_nat (cur mod Z.of_nat (length (ro_nodes r))) with
    | Some n => if rn_IsHealthy n then mret (rn_URL n) else rotate tries'
    | None => go_panic "index out of range"
    end
  end.
Definition GetNext : GoM RPCRotator string :=
  r ← gets id;
  if bool_decide (ro_nodes r = []) then mret EmptyString else rotate (length (ro_nodes r)).

(** The first node with the URL. *)
Definition updateURL (u : string) (f : RPCNode → RPCNode) (r : RPCRotator) : RPCRotator :=
  match list_find (λ n, rn_URL n = u) (ro_nodes r) with
  | Some (i, _) => mkRPCRotator (alter f i (ro_nodes r)) (ro_currentIdx r)
  | None => r
  end.
Definition MarkUnhealthy (u : string) : GoM RPCRotator unit :=
  modify (updateURL u (λ n, mkRPCNode (rn_URL n) (rn_Weight n) false (rn_ErrorCount n))).
Definition MarkHealthy (u : string) : GoM RPCRotator unit :=
  modify (updateURL u (λ n, mkRPCNode (rn_URL n) (rn_Weight n) true (rn_ErrorCount n))).
Definition RecordError (u : string) : GoM RPCRotator unit :=
  modify (updateURL u (λ n, mkRPCNode (rn_URL n) (rn_Weight n) (rn_IsHealthy n) (i64 (rn_ErrorCount n + 1))));;
  r ← gets id;
  match list_find (λ n, rn_URL n = u) (ro_nodes r) with
  | Some (_, n) => if 10 <? rn_ErrorCount n then MarkUnhealthy u else mret tt
  | None => mret tt
  end.
Definition GetHealthyCount (r : RPCRotator) : Z :=
  Z.of_nat (length (filter (λ n, rn_IsHealthy n = true) (ro_nodes r))).

Definition maskURL (u : string) : string :=
  if (20 <? String.length u)%nat
  then (substring 0 10 u ++ "..." ++ substring (String.length u - 10) 10 u)%string
  else u.

(** ** Lemmas: choosing a node *)

Lemma pickFrom_In cur val nodes i : pickFrom cur val nodes = Some i → ∃ n, (i, n) ∈ nodes.
Proof.
  revert cur. induction nodes as [| [j n] nodes IH]; intros cur; simpl; [done |].
  case_match; [intros [= ->]; exists n; left |].
  intros [n' H']%IH. exists n'. by right.
Qed.

Lemma pickNode_In val nodes : nodes ≠ [] → ∃ i n, pickNode val nodes = Some i ∧ (i, n) ∈ nodes.
Proof.
  unfold pickNode. destruct (pickFrom 0 val nodes) as [i |] eqn:E.
  - destruct (pickFrom_In _ _ _ _ E) as [n H]. eauto.
  - destruct nodes as [| [i n] nodes]; [done |]. intros _. exists i, n. split; [done | left].
Qed.

Lemma healthyNodes_In now clients i n :
  (i, n) ∈ healthyNodes now clients ↔ clients !! i = Some n ∧ selectable now n = true.
Proof.
  unfold healthyNodes. rewrite list_elem_of_filter, elem_of_lookup_imap. simpl. split.
  - intros [Hs (j & m & [= -> ->] & Hl)]. done.
  - intros [Hl Hs]. split; [done |]. eauto.
Qed.

Lemma selectable_mono t T n : t ≤ T → selectable t n = true → selectable T n = true.
Proof.
  unfold selectable. intros Ht [H | H]%orb_true_iff; apply orb_true_iff; [by left | right].
  bool_prop. apply Z.ltb_lt. lia.
Qed.

(** How many nodes could still be asked before [T]. *)
Definition candidates (T : Z) (clients : list rpcNode) : nat :=
  length (filter (λ n, selectable T n = true) clients).

Lemma candidates_fail T clients i n f :
  clients !! i = Some n → selectable T n = true → selectable T (f n) = false →
  candidates T clients = S (candidates T (alter f i clients)).
Proof.
  unfold candidates. revert i. induction clients as [| m clients IH]; intros [| i]; simpl; try done.
  - intros [= ->] Hs Hf. rewrite filter_cons_True by done. rewrite filter_cons_False by (by rewrite Hf). done.
  - intros Hl Hs Hf. unfold alter in IH. rewrite !filter_cons. case_decide; simpl; by rewrite (IH i).
Qed.

Lemma backoffSec_pos fails : 1 ≤ fails → 1 ≤ backoffSec fails ≤ 60.
Proof.
  intros H. unfold backoffSec. rewrite (proj2 (Z.ltb_ge _ _)) by lia.
  destruct (Z.ltb_spec (fails - 1) 6); [| lia].
  assert (Hc : fails - 1 = 0 ∨ fails - 1 = 1 ∨ fails - 1 = 2 ∨ fails - 1 = 3 ∨ fails - 1 = 4 ∨ fails - 1 = 5) by lia.
  destruct_or! Hc; rewrite Hc; lia.
Qed.

(** ** Failover *)

Section failover.
Context {W A : Type} (env : NodeEnv W) (m : Method) (call : nat → GoM W (result GoErr A)) (P : nat → result GoErr A → Prop).
Context (t T : Z).

(** The clock reads between [t] and [T] during the call, and nothing cancels
    it; [P i] are the answers node [i] may give. *)
Context (Htime : t ≤ T).
Context (Hnow : ∀ w, wp (ne_now env) (λ o _, ∃ n, o = Val n ∧ t ≤ n ≤ T) w).
Context (Hglobal : ∀ w, wp (ne_globalWait env) (λ o _, o = Val None) w).
Context (Hnode : ∀ u w, wp (ne_nodeWait env u) (λ o _, o = Val None) w).
Context (Hcall : ∀ i w, wp (call i) (λ o _, ∃ r, o = Val r ∧ P i r) w).

(** A node that fails at [t] is not due again before [T]. *)
Definition not_due (n : rpcNode) : Prop := 0 ≤ failCount n < max_i64 ∧ T < t + backoffSec (failCount n + 1) * Second.
Definition fails_ok (clients : list rpcNode) : Prop :=
  ∀ i n, clients !! i = Some n → selectable T n = true → not_due n.
Definition same_pool (p p' : EnhancedPool W) : Prop :=
  ep_clients p' = ep_clients p ∧ ep_isTestnetMode p' = ep_isTestnetMode p.

Lemma outside_wp {B} (x : GoM W B) (R : B → Prop) p (Q : outcome B → EnhancedPool W → Prop) :
  (∀ w, wp x (λ o _, ∃ b, o = Val b ∧ R b) w) →
  (∀ b p', R b → same_pool p p' → Q (Val b) p') → wp (outside x) Q p.
Proof using.
  intros Hx HQ. apply wp_zoom. eapply wp_mono; [apply Hx |]. intros o w (b & -> & HR). by apply HQ.
Qed.

Lemma getNext_wp p i n :
  ep_clients p !! i = Some n → selectable t n = true →
  wp (getNextHealthyNode env)
     (λ o p', ∃ j n', o = Val (Some j) ∧ ep_clients p !! j = Some n' ∧ selectable T n' = true ∧ same_pool p p') p.
Proof using Hnow.
  intros Hi Hs. apply wp_bind. eapply outside_wp; [apply Hnow |]. intros now p1 [Hn1 Hn2] [Hc Hm].
  apply wp_bind, wp_gets. unfold id. rewrite Hc.
  assert (Hin : (i, n) ∈ healthyNodes now (ep_clients p)).
  { apply healthyNodes_In. split; [done | by eapply selectable_mono; [| exact Hs]]. }
  destruct (healthyNodes now (ep_clients p)) as [| x nodes] eqn:E; [by apply elem_of_nil in Hin |].
  apply wp_bind, wp_modify, wp_ret.
  match goal with |- context [pickNode ?v _] => destruct (pickNode_In v (x :: nodes)) as (j & n' & -> & Hj) end; [done |].
  rewrite <- E in Hj. apply healthyNodes_In in Hj as [Hj1 Hj2].
  exists j, n'. split_and!; [done | done | by eapply selectable_mono; [| exact Hj2] | by split].
Qed.

Lemma handleRPCError_wp p j n e :
  ep_clients p !! j = Some n → not_due n →
  wp (handleRPCError env j e)
     (λ o p', o = Val tt ∧ ep_isTestnetMode p' = ep_isTestnetMode p ∧
        ∃ f, ep_clients p' = alter f j (ep_clients p) ∧ selectable T (f n) = false) p.
Proof using Htime Hnow.
  intros Hj [Hf Hdue]. unfold handleRPCError, markNodeUnhealthy.
  pose proof (backoffSec_pos (failCount n + 1) ltac:(lia)) as Hback.
  assert (Hset : ∀ (p1 : EnhancedPool W) now (d k : Z → Z), t ≤ now → backoffSec (failCount n + 1) * Second ≤ d (failCount n) →
    ep_clients p1 = ep_clients p →
    ∃ f, alter (λ n, markFailed now (now + d (failCount n)) (k (failCount n)) n) j (ep_clients p1) =
         alter f j (ep_clients p) ∧ selectable T (f n) = false).
  { intros p1 now d k H1 H2 ->. eexists. split; [done |]. unfold selectable; simpl. apply Z.ltb_ge. lia. }
  case_match; apply wp_bind; (eapply outside_wp; [apply Hnow |]); intros now p1 [Hn1 Hn2] [Hc Hm]; apply wp_modify;
    (split_and!; [done | done |]).
  - apply (Hset p1 now (λ _, 5 * Minute) id); [done | unfold Minute, Second in *; lia | done].
  - apply (Hset p1 now (λ k, backoffSec (i64 (k + 1)) * Second) (λ k, i64 (k + 1))); [done | | done].
    rewrite (i64_id (failCount n + 1)) by lia64. lia.
Qed.

Lemma poolAttempts_wp k p good n0 :
  (candidates T (ep_clients p) ≤ k)%nat → fails_ok (ep_clients p) →
  ep_clients p !! good = Some n0 → selectable t n0 = true → (∀ e, ¬ P good (Err e)) →
  wp (poolAttempts env m call k)
     (λ o p', ∃ j n a, o = Val (Ok a) ∧ P j (Ok a) ∧ ep_clients p !! j = Some n ∧ selectable T n = true) p.
Proof using Htime Hnow Hnode Hcall.
  revert p. induction k as [| k IH]; intros p Hk Hok Hgood Hs Hans.
  - assert (Hin : n0 ∈ filter (λ n, selectable T n = true) (ep_clients p)).
    { apply list_elem_of_filter. split; [by eapply selectable_mono; [| exact Hs]; lia | by eapply list_elem_of_lookup_2]. }
    unfold candidates in Hk. destruct (filter _ (ep_clients p)); [by apply elem_of_nil in Hin | simpl in Hk; lia].
  - simpl. apply wp_bind. eapply wp_mono; [by eapply getNext_wp |].
    intros o p1 (j & n & -> & Hj & Hsj & Hc1 & Hm1). apply wp_bind, wp_gets. unfold id. apply wp_bind.
    eapply (wp_mono _ (λ o p', o = Val None ∧ same_pool p p')).
    { case_match; [| by apply wp_ret].
      eapply (outside_wp _ (λ b, b = None)); [intros w; eapply wp_mono; [apply Hnode |]; intros ? ? ->; eauto |].
      intros b p' -> [H1 H2]. split; [done |]. split; congruence. }
    intros o p2 (-> & Hc2 & Hm2). apply wp_bind.
    eapply (outside_wp _ (P j)); [intros w; apply Hcall |].
    intros b p3 Hb [Hc3 Hm3]. apply wp_bind, wp_modify.
    destruct b as [a | e].
    + apply wp_bind. eapply (wp_mono _ (λ o _, o = Val tt)); [case_match; [by apply wp_modify | by apply wp_ret] |].
      intros o p4 ->. apply wp_ret. exists j, n, a. done.
    + apply wp_bind. eapply wp_mono.
      { apply (handleRPCError_wp _ j n e); [simpl; by rewrite Hc3, Hc2 | by eapply Hok]. }
      intros o p4 (-> & _ & f & Hc4 & Hf). simpl in Hc4. rewrite Hc3, Hc2 in Hc4.
      assert (Hne : good ≠ j) by (intros ->; by eapply Hans).
      eapply wp_mono.
      { apply IH; [| | | exact Hs | exact Hans]; rewrite Hc4.
        - pose proof (candidates_fail T _ _ _ f Hj Hsj Hf). lia.
        - intros i ni Hi Hsi. destruct (decide (i = j)) as [-> | Hij].
          + rewrite list_lookup_alter_eq, Hj in Hi. injection Hi as <-. congruence.
          + rewrite list_lookup_alter_ne in Hi by done. by eapply Hok.
        - by rewrite list_lookup_alter_ne. }
      intros o p' (j' & n' & a & -> & Ha & Hj' & Hs'). rewrite Hc4 in Hj'.
      destruct (decide (j' = j)) as [-> | Hij]; [rewrite list_lookup_alter_eq, Hj in Hj'; injection Hj' as <-; congruence |].
      rewrite list_lookup_alter_ne in Hj' by done. by exists j', n', a.
Qed.
End failover.

(** C37: Failover.  Some node that may be asked always answers, the others may
    fail, differently each time: then a call of the enhanced pool succeeds with
    the answer of one of the nodes that may be asked, in whatever order they are
    tried.  The limiters grant, and the call ends before a node that failed in it
    is due again ([not_due]): a second after its failure when it had not failed
    before, up to a minute after six failures.  A slower call can ask a failed
    node again until its attempts are used up ([slow_failures_exhaust]). *)
Theorem poolCall_failover {W A : Type} (env : NodeEnv W) (m : Method) (call : nat → GoM W (result GoErr A))
    (P : nat → result GoErr A → Prop) (t T : Z) (p : EnhancedPool W) (good : nat) (n0 : rpcNode) :
  t ≤ T →
  (∀ w, wp (ne_now env) (λ o _, ∃ n, o = Val n ∧ t ≤ n ≤ T) w) →
  (∀ w, wp (ne_globalWait env) (λ o _, o = Val None) w) →
  (∀ u w, wp (ne_nodeWait env u) (λ o _, o = Val None) w) →
  (∀ i w, wp (call i) (λ o _, ∃ r, o = Val r ∧ P i r) w) →
  Forall (not_due t T) (ep_clients p) →
  ep_clients p !! good = Some n0 → selectable t n0 = true → (∀ e, ¬ P good (Err e)) →
  wp (poolCall env m call)
     (λ o p', ∃ j n a, o = Val (Ok a) ∧ P j (Ok a) ∧ ep_clients p !! j = Some n ∧ selectable T n = true) p.
Proof.
  intros Htime Hnow Hglobal Hnode Hcall Hf Hgood Hs Hans. apply wp_bind, wp_gets. unfold id. apply wp_bind.
  eapply (wp_mono _ (λ o p', o = Val None ∧ ep_clients p' = ep_clients p)).
  { case_match; [| by apply wp_ret]. apply wp_bind.
    eapply (wp_mono _ (λ o p', o = Val tt ∧ ep_clients p' = ep_clients p)).
    { case_match; [apply wp_modify | by apply wp_ret]. split; [done |]. destruct (ep_isTestnetMode p), (50 <? ep_currentSyncBatch p + 1) eqn:E; simpl; rewrite ?E; done. }
    intros o p1 [-> Hc].
    eapply (outside_wp _ (λ b, b = None)); [intros w; eapply wp_mono; [apply Hglobal |]; intros ? ? ->; eauto |].
    intros b p' -> [H1 _]. split; [done | congruence]. }
  intros o p1 [-> Hc]. rewrite <- Hc in Hf, Hgood |- *.
  eapply poolAttempts_wp; try eassumption; [apply length_filter |].
  intros i n Hi _. rewrite Forall_lookup in Hf. by eapply Hf.
Qed.

(** An environment with a standing clock, open limiters and nodes that answer
    every header request with [head i]. *)
Definition stillEnv (now : Z) (head : nat → result GoErr EthBlock) : NodeEnv unit :=
  mkNodeEnv (mret now) (mret None) (λ _, mret None) (λ i _, mret (head i)) (λ i _, mret (head i))
    (λ _ _, mret (Ok [])) (λ _ _, mret (Ok [])) (λ i, mret (match head i with Ok b => Ok (blk_Number b) | Err e => Err e end)).
Definition sampleHeader (n : Z) : EthBlock := mkEthBlock n "h" "p" 0 0 0 None [].

(** Three nodes: the second is rate limited, the third down, the first cooling
    down but due again. *)
Definition sampleAnswers (i : nat) : result GoErr EthBlock :=
  match i with
  | O => Ok (sampleHeader 7)
  | 1%nat => Err (Errorf "429 Too Many Requests")
  | _ => Err (Errorf "connection refused")
  end.
Definition samplePool : EnhancedPool unit :=
  mkEnhancedPool [mkNode "a" false 3 10 20 1; mkNode "b" true 0 0 0 1; mkNode "c" true 0 0 0 1] 0 true 0 0 0 tt.

Lemma poolCall_failover_witness :
  snd (HeaderByNumber (stillEnv 100 sampleAnswers) (Some 7) samplePool) = Val (Ok (sampleHeader 7)).
Proof.
  destruct (poolCall_failover (stillEnv 100 sampleAnswers) mHeaderByNumber
    (λ i, ne_HeaderByNumber (stillEnv 100 sampleAnswers) i (Some 7)) (λ i r, r = sampleAnswers i) 100 100 samplePool
    0%nat (mkNode "a" false 3 10 20 1)) as (j & n & a & Ho & Hj & _ & _);
    [lia | intros w; exists 100; split; [done | lia] | done | done | intros i w; by eexists
    | repeat constructor; simpl; unfold Second; lia64 | done | done | by intros e |].
  unfold HeaderByNumber. rewrite Ho, Hj. destruct j as [| [| j]]; [reflexivity | done | done].
Defined.

(** Three healthy nodes, of which the third answers and the others fail after ten
    seconds: when the second has failed the first is due again and asked again,
    and the call fails without having asked the third. *)
Definition slowEnv : NodeEnv Z :=
  let ask (i : nat) : GoM Z (result GoErr EthBlock) :=
    if (i <? 2)%nat then modify (λ now, now + 10 * Second);; mret (Err (Errorf "timeout"))
    else mret (Ok (sampleHeader 7)) in
  mkNodeEnv (gets id) (mret None) (λ _, mret None) (λ i _, ask i) (λ i _, ask i) (λ _ _, mret (Ok [])) (λ _ _, mret (Ok [])) (λ _, mret (Ok 0)).
Lemma slow_failures_exhaust :
  let nodes := (λ u, mkNode u true 0 0 0 1) <$> ["a"; "b"; "c"]%string in
  snd (HeaderByNumber slowEnv (Some 7) (mkEnhancedPool nodes 5 true 0 0 0 0)) =
  Val (Err (Errorf "all RPC nodes failed for HeaderByNumber")).
Proof. by vm_compute. Qed.

(** ** Two healthy nodes *)

(** Successive calls of a method. *)
Fixpoint poolCalls {W A} (env : NodeEnv W) (m : Method) (calls : list (nat → GoM W (result GoErr A)))
    : GoM (EnhancedPool W) (list (result GoErr A)) :=
  match calls with
  | [] => mret []
  | call :: rest => r ← poolCall env m call; rs ← poolCalls env m rest; mret (r :: rs)
  end.

Lemma go_rem_2_odd c : 0 ≤ c → Z.even c = true → go_rem (c + 1) 2 = 1.
Proof.
  intros Hc He. apply Z.even_spec in He as [k ->]. unfold go_rem. rewrite Z.rem_mod_nonneg by lia.
  replace (2 * k + 1) with (1 + k * 2) by lia. by rewrite Z.mod_add.
Qed.

Lemma getNext_two {W} (env : NodeEnv W) n0 n1 p :
  (∀ w, wp (ne_now env) (λ o _, ∃ n, o = Val n) w) →
  ep_clients p = [n0; n1] → isHealthy n0 = true → isHealthy n1 = true → weight n0 = 1 → weight n1 = 1 →
  0 ≤ ep_requestCount p → ep_requestCount p + 1 < max_i64 → Z.even (ep_requestCount p) = true →
  wp (getNextHealthyNode env)
     (λ o p', o = Val (Some 1%nat) ∧ same_pool p p' ∧ ep_requestCount p' = ep_requestCount p + 1) p.
Proof.
  intros Hnow Hc H0 H1 Hw0 Hw1 Hlo Hhi Hev. apply wp_bind, wp_zoom. eapply wp_mono; [apply Hnow |].
  intros o w (now & ->). apply wp_bind, wp_gets. unfold id. simpl. rewrite Hc.
  assert (Hs0 : selectable now n0 = true) by (unfold selectable; by rewrite H0).
  assert (Hs1 : selectable now n1 = true) by (unfold selectable; by rewrite H1).
  unfold healthyNodes. simpl. rewrite !filter_cons_True by done. simpl.
  apply wp_bind, wp_modify, wp_ret. unfold nodeWeight. rewrite Hw0, Hw1. simpl.
  rewrite i64_id by lia64. change (1 + (1 + 0)) with 2. rewrite go_rem_2_odd by done.
  unfold pickNode, nodeWeight. simpl. unfold nodeWeight. by rewrite Hw0, Hw1.
Qed.

(** With two healthy nodes the enhanced pool does not balance the load.
    Choosing a node and recording the request both increment [requestCount], so
    from an even count every one of any number of successful calls in sequence
    goes to the second node and the first is never used. *)
Theorem two_nodes_never_rotate {W A : Type} (env : NodeEnv W) (m : Method)
    (calls : list (nat → GoM W (result GoErr A))) (n0 n1 : rpcNode) (p : EnhancedPool W) :
  (∀ w, wp (ne_now env) (λ o _, ∃ n, o = Val n) w) →
  Forall (λ call, ∀ w, wp (call 1%nat) (λ o _, ∃ a : A, o = Val (Ok a)) w) calls →
  ep_clients p = [n0; n1] → isHealthy n0 = true → isHealthy n1 = true → weight n0 = 1 → weight n1 = 1 →
  ep_isTestnetMode p = false → 0 ≤ ep_requestCount p →
  ep_requestCount p + 2 * Z.of_nat (length calls) < max_i64 → Z.even (ep_requestCount p) = true →
  wp (poolCalls env m ((λ (call : nat → GoM W (result GoErr A)) i, if bool_decide (i = 1%nat) then call i else go_panic "first node") <$> calls))
     (λ o p', (∃ rs, o = Val rs) ∧ ep_clients p' = [n0; n1] ∧
        ep_requestCount p' = ep_requestCount p + 2 * Z.of_nat (length calls)) p.
Proof.
  intros Hnow Hcalls Hc H0 H1 Hw0 Hw1. revert p Hc.
  induction Hcalls as [| call calls Hcall _ IH]; intros p Hc Htn Hlo Hhi Hev; simpl.
  { apply wp_ret. split_and!; [eauto | done | simpl; lia]. }
  simpl in Hhi. apply wp_bind.
  eapply (wp_mono _ (λ o p', (∃ r, o = Val r) ∧ ep_clients p' = [n0; n1] ∧ ep_isTestnetMode p' = false ∧
                             ep_requestCount p' = ep_requestCount p + 2)).
  - apply wp_bind, wp_gets. unfold id. rewrite Htn. apply wp_bind, wp_ret. rewrite Hc. simpl.
    apply wp_bind. eapply wp_mono; [eapply getNext_two; try eassumption; lia |].
    intros o p1 (-> & [Hc1 Hm1] & Hq1). apply wp_bind, wp_gets. unfold id. rewrite Hm1, Htn, andb_false_r.
    apply wp_bind, wp_ret, wp_bind, wp_zoom. eapply wp_mono; [apply Hcall |]. intros o w (a & ->).
    apply wp_bind, wp_modify, wp_bind. rewrite Hc in Hc1. simpl.
    eapply (wp_mono _ (λ o p', o = Val tt ∧ ep_clients p' = [n0; n1] ∧ ep_isTestnetMode p' = false ∧
                               ep_requestCount p' = ep_requestCount p + 2)).
    { assert (Hq : i64 (ep_requestCount p1 + 1) = ep_requestCount p + 2) by (rewrite i64_id by lia64; lia).
      case_match; [apply wp_modify | apply wp_ret]; simpl; rewrite Hc1, Hq, Hm1; [simpl; rewrite H1 | done].
      split_and!; done. }
    intros o p2 (-> & H2). apply wp_ret. split; [eauto | done].
  - intros o p1 ([r ->] & Hc1 & Hm1 & Hq1). apply wp_bind.
    eapply wp_mono; [apply IH; [done | done | lia | lia |] |].
    { rewrite Hq1. by rewrite Z.even_add, Hev. }
    intros o p2 ([rs ->] & Hc2 & Hq2). apply wp_ret. split_and!; [eauto | done | lia].
Qed.

Definition twoNodes : EnhancedPool unit :=
  mkEnhancedPool [mkNode "a" true 0 0 0 1; mkNode "b" true 0 0 0 1] 0 false 0 0 0 tt.

Lemma two_nodes_never_rotate_witness :
  ep_requestCount (fst (poolCalls (stillEnv 100 sampleAnswers) mHeaderByNumber
    (replicate 5 (λ i, if bool_decide (i = 1%nat) then mret (Ok 5) else go_panic "first node")) twoNodes)) = 10.
Proof.
  destruct (two_nodes_never_rotate (stillEnv 100 sampleAnswers) mHeaderByNumber
    (replicate 5 (λ _ : nat, (mret (Ok 5) : GoM unit (result GoErr Z)))) (mkNode "a" true 0 0 0 1) (mkNode "b" true 0 0 0 1) twoNodes)
    as (_ & _ & H); try done.
  - intros w; by exists 100.
  - apply Forall_replicate; intros w; by exists 5.
Defined.

(** ** The legacy pool *)

(** Before the index wraps, the next client is its remainder. *)
Lemma legacyGetNext_step (size index : Z) : 0 < size → 0 ≤ index < 2 ^ 31 → index + 1 < 2 ^ 31 →
  legacyGetNext (mkLegacyPool size index) = (mkLegacyPool size (index + 1), Val (Some ((index + 1) mod size))).
Proof.
  intros Hs Hi Hlt. unfold legacyGetNext, mbind, GoM_bind, gets, modify, id, go_rem. simpl.
  rewrite (proj2 (Z.eqb_neq size 0)) by lia. rewrite i32_small by lia. rewrite Z.rem_mod_nonneg by lia.
  pose proof (Z.mod_pos_bound (index + 1) size Hs).
  rewrite (proj2 (Z.leb_le _ _)) by lia. by rewrite (proj2 (Z.ltb_lt _ _)) by lia.
Qed.

(** The legacy pool is a round robin while its 32-bit index does not wrap:
    each call moves to the next client, cyclically.  At the wrap the index
    becomes negative, Go's remainder with it, and within two calls a pool of
    two or more clients panics with an index out of range. *)
Theorem legacyGetNext_spec (size index : Z) (Hs : 0 < size) (Hi : 0 ≤ index < 2 ^ 31) :
  (index + 1 < 2 ^ 31 →
   legacyGetNext (mkLegacyPool size index) = (mkLegacyPool size (index + 1), Val (Some ((index + 1) mod size)))) ∧
  (index + 1 = 2 ^ 31 → 2 ≤ size →
   ∃ why, snd ((legacyGetNext;; legacyGetNext) (mkLegacyPool size index)) = Panic why).
Proof.
  split; [by apply legacyGetNext_step |].
  unfold legacyGetNext, mbind, GoM_bind, gets, modify, id, go_rem. simpl.
  rewrite (proj2 (Z.eqb_neq size 0)) by lia.
  - intros -> Hs2. change (i32 (2 ^ 31)) with (- 2 ^ 31). rewrite Z.rem_opp_l by lia.
    pose proof (Z.rem_bound_pos (2 ^ 31) size ltac:(lia) Hs).
    destruct (Z.leb_spec 0 (- Z.rem (2 ^ 31) size)) as [Hz | Hz]; simpl; [| by eexists].
    rewrite (proj2 (Z.ltb_lt _ size)) by lia. simpl. rewrite (proj2 (Z.eqb_neq size 0)) by lia.
    change (i32 (- 2 ^ 31 + 1)) with (- (2 ^ 31 - 1)). rewrite Z.rem_opp_l by lia.
    assert (Hd : Z.rem (2 ^ 31 - 1) size ≠ 0).
    { rewrite Z.rem_mod_nonneg in * by lia. intros Hm.
      assert (2 ^ 31 mod size = 0) by lia.
      replace (2 ^ 31) with (1 + (2 ^ 31 - 1)) in H0 by lia.
      rewrite Zplus_mod, Hm, Z.add_0_r, Z.mod_mod, Z.mod_1_l in H0 by lia. lia. }
    pose proof (Z.rem_bound_pos (2 ^ 31 - 1) size ltac:(lia) Hs).
    destruct (Z.leb_spec 0 (- Z.rem (2 ^ 31 - 1) size)); [lia |]. simpl. by eexists.
Qed.

Lemma legacyGetNext_spec_witness :
  snd (legacyGetNext (mkLegacyPool 3 4)) = Val (Some 2) ∧
  ∃ why, snd ((legacyGetNext;; legacyGetNext) (mkLegacyPool 3 (2 ^ 31 - 1))) = Panic why.
Proof.
  split.
  - destruct (legacyGetNext_spec 3 4) as [H _]; [done | done |]. by rewrite H.
  - destruct (legacyGetNext_spec 3 (2 ^ 31 - 1)) as [_ H]; [done | done |]. by apply H.
Defined.

(** ** The rotator *)

Lemma rotate_healthy tries h n r :
  let len := Z.of_nat (length (ro_nodes r)) in
  0 ≤ ro_currentIdx r → ro_currentIdx r + Z.of_nat tries < 2 ^ 32 →
  ro_nodes r !! h = Some n → rn_IsHealthy n = true →
  (∃ k, 1 ≤ k ≤ Z.of_nat tries ∧ (ro_currentIdx r + k) mod len = Z.of_nat h) →
  wp (rotate tries)
     (λ o r', ∃ n', o = Val (rn_URL n') ∧ n' ∈ ro_nodes r ∧ rn_IsHealthy n' = true ∧ ro_nodes r' = ro_nodes r) r.
Proof.
  cbn zeta. revert r. induction tries as [| tries IH]; intros r H0 Hw Hh Hn (k & Hk & Hm); [lia |].
  assert (Hlen : 0 < Z.of_nat (length (ro_nodes r))) by (apply lookup_lt_Some in Hh; lia).
  simpl. apply wp_bind, wp_gets. unfold id. apply wp_bind, wp_modify.
  assert (Hc : u32 (ro_currentIdx r + 1) = ro_currentIdx r + 1).
  { unfold u32, wrap_u. apply Z.mod_small. lia. }
  rewrite Hc. pose proof (Z.mod_pos_bound (ro_currentIdx r + 1) _ Hlen) as Hb.
  destruct (lookup_lt_is_Some_2 (ro_nodes r) (Z.to_nat ((ro_currentIdx r + 1) mod Z.of_nat (length (ro_nodes r))))) as [m Hl]; [lia |].
  rewrite Hl. destruct (rn_IsHealthy m) eqn:Hm'.
  - apply wp_ret. exists m. split_and!; [done | by eapply list_elem_of_lookup_2 | done | done].
  - apply (IH (mkRPCRotator (ro_nodes r) (ro_currentIdx r + 1))); simpl; [lia | lia | done | done |].
    exists (k - 1). replace (ro_currentIdx r + 1 + (k - 1)) with (ro_currentIdx r + k) by lia.
    split; [| done]. destruct (decide (k = 1)) as [-> | Hk1]; [| lia].
    rewrite Hm, Nat2Z.id in Hl. congruence.
Qed.

Lemma mod_reach c n h : 0 < n → 0 ≤ h < n → ∃ k, 1 ≤ k ≤ n ∧ (c + k) mod n = h.
Proof.
  intros Hn Hh. exists ((h - c - 1) mod n + 1).
  pose proof (Z.mod_pos_bound (h - c - 1) n Hn). split; [lia |].
  replace (c + ((h - c - 1) mod n + 1)) with ((h - c - 1) mod n + (c + 1)) by lia.
  rewrite Zplus_mod_idemp_l. replace (h - c - 1 + (c + 1)) with h by lia. by apply Z.mod_small.
Qed.

(** As long as the rotator's 32-bit counter does not wrap during the call
    and some node is healthy, [GetNext] returns the URL of a healthy node. *)
Theorem GetNext_healthy (r : RPCRotator) (h : nat) (n : RPCNode)
    (Hidx : 0 ≤ ro_currentIdx r) (Hwrap : ro_currentIdx r + Z.of_nat (length (ro_nodes r)) < 2 ^ 32)
    (Hnode : ro_nodes r !! h = Some n) (Hhealthy : rn_IsHealthy n = true) :
  wp GetNext (λ o r', ∃ n', o = Val (rn_URL n') ∧ n' ∈ ro_nodes r ∧ rn_IsHealthy n' = true ∧ ro_nodes r' = ro_nodes r) r.
Proof.
  apply wp_bind, wp_gets. unfold id. apply lookup_lt_Some in Hnode as Hlt.
  rewrite bool_decide_eq_false_2 by (intros E; rewrite E in Hlt; simpl in Hlt; lia).
  eapply rotate_healthy; try eassumption. apply mod_reach; lia.
Qed.

Definition sampleRotator (idx : Z) : RPCRotator :=
  mkRPCRotator [mkRPCNode "a" 1 false 0; mkRPCNode "b" 1 false 0; mkRPCNode "c" 1 true 0] idx.

Lemma GetNext_healthy_witness : snd (GetNext (sampleRotator 5)) = Val "c".
Proof.
  destruct (GetNext_healthy (sampleRotator 5) 2 (mkRPCNode "c" 1 true 0)) as (n' & -> & Hin & Hh & _);
    [simpl; lia | simpl; lia | reflexivity | reflexivity |].
  simpl in Hin. rewrite !elem_of_cons in Hin.
  destruct Hin as [-> | [-> | [-> | Hin]]]; [discriminate Hh | discriminate Hh | reflexivity | by apply elem_of_nil in Hin].
Defined.

(** At the wrap three increments need not visit three nodes: the only healthy
    node is missed and an unhealthy one is returned. *)
Lemma GetNext_wrap_misses : snd (GetNext (sampleRotator (2 ^ 32 - 2))) = Val "a".
Proof. reflexivity. Qed.

(** The health check marks a node without a retry time: it stays selectable. *)
Lemma checkHealth_leaves_selectable :
  let p := fst (checkHealth (stillEnv 100 (λ _, Err (Errorf "down"))) twoNodes) in
  isHealthy <$> ep_clients p = [false; false] ∧ selectable 101 <$> ep_clients p = [true; true].
Proof. vm_compute. done. Qed.
