(* ===== verification/Processor.v ===== *)
(** * The Processor (internal/engine/processor_{core,block_part1,batch,transfer,
    checkpoint}.go, labels.go, signatures.go)

    What a block becomes: the reorg check against the previous block, the
    activities extracted from logs and transactions, the task dispatched to the
    Orchestrator, and the retries around it.  [ProcessBlock] is the path of
    single blocks, [ProcessBatch] that of catch-up batches.  The database is the
    interface [Postgres], the sender recovery of go-ethereum a parameter. *)

From S2P Require Import Prelude GoInt Types GlobalState Database Sequencer Orchestrator.
From Stdlib Require Import ZArith Lia Ascii String.
From stdpp Require Import base gmap strings list pretty.
Open Scope string_scope.
Open Scope Z_scope.

(** ** Hexadecimal text *)

Definition hexDigit (d : Z) : ascii :=
  ascii_of_nat (Z.to_nat (if d <? 10 then 48 + d else 87 + d)).
(** The [n] low hex digits of [z], in lower case. *)
Fixpoint hexFixed (n : nat) (z : Z) : string :=
  match n with
  | O => EmptyString
  | S n' => String (hexDigit (z / 16 ^ Z.of_nat n' mod 16)) (hexFixed n' z)
  end.
(** [strings.ToLower(addr.Hex())]; [BytesToAddress] keeps the last 20 bytes. *)
Definition addrHexLower (a : Z) : string := "0x" ++ hexFixed 40 a.
(** The bytes of a text, in hex. *)
Fixpoint hexOfText (s : string) : string :=
  match s with
  | EmptyString => EmptyString
  | String c s' => hexFixed 2 (Z.of_nat (nat_of_ascii c)) ++ hexOfText s'
  end.
(** [common.BytesToHash(append(hash.Bytes(), suffix...)).Hex()]: the last 32
    bytes of the two together. *)
Definition hashWithSuffix (hash suffix : string) : string :=
  let digits := substring 2 64 hash ++ hexOfText suffix in
  "0x" ++ substring (String.length digits - 64) 64 digits.

(** [new(big.Int).SetBytes(data)] and [models.NewUint256FromBigInt]. *)
Definition SetBytes (data : list Z) : Z := foldl (λ acc b, acc * 256 + b) 0 data.
Definition max_u256 : Z := 2 ^ 256 - 1.
Definition NewUint256FromBigInt (z : Z) : Z := if max_u256 <? Z.abs z then max_u256 else z mod 2 ^ 256.

(** ** labels.go and the token map of processor_transfer.go *)

Definition FaucetLabels : list (string * string) :=
  [("0x6Cc9397c3B38739daCbfaA18E600263a1174457D", "Alchemy Faucet");
   ("0x8ad9277301013d084931fc5ca31787b122fca66", "Infura Faucet");
   ("0x4b78662286D9D99772a93c091910609614444444", "RockX Faucet");
   ("0x2e6B6A8625686868686868686868686868686868", "Google Faucet")].
Definition GetAddressLabel (addr : string) : string :=
  match list_find (λ kv, EqualFold (fst kv) addr = true) FaucetLabels with
  | Some (_, kv) => snd kv
  | None => ""
  end.

Definition tokenMap : list (string * string) :=
  [("0x1c7d4b196cb0c7b01d743fbc6116a902379c7238", "USDC");
   ("0xff34b3d4aee8ddcd6f9afffb6fe49bd371b8a357", "DAI");
   ("0x7b79995e5f793a07bc00c21412e50ecae098e7f9", "WETH");
   ("0xa3382dffca847b84592c05ab05937a1a38623bc", "UNI");
   ("0x4200000000000000000000000000000000000006", "WETH");
   ("0x7af963cf6d228e964f296a96f3ad97a1ee1bb303", "LINK");
   ("0x0000000000000000000000000000000000000000", "ETH")].
Definition getTokenSymbol (tokenAddr : Z) : string :=
  match list_find (λ kv, fst kv = addrHexLower tokenAddr) tokenMap with
  | Some (_, kv) => snd kv
  | None => ""
  end.

Definition zeroAddress : string := "0x0000000000000000000000000000000000000000".

(** ** State *)

(** processor_core.go, [Processor]: what block processing reads and writes.
    [pr_out] are the commands dispatched to the Orchestrator, [pr_pushed] the
    activities handed to the event hook, [pr_syncHeight] the height gauge. *)
Record Processor (W : Type) := mkProcessor {
  pr_chainID : Z;
  pr_enableSimulator : bool;
  pr_networkMode : string;
  pr_lastBlockNum : Z;
  pr_lastBlockHash : string;
  pr_out : list (MsgType * Payload);
  pr_pushed : list Transfer;
  pr_syncHeight : Z;
  pr_world : W
}.
Arguments mkProcessor {W}.
Arguments pr_chainID {W}.
Arguments pr_enableSimulator {W}.
Arguments pr_networkMode {W}.
Arguments pr_lastBlockNum {W}.
Arguments pr_lastBlockHash {W}.
Arguments pr_out {W}.
Arguments pr_pushed {W}.
Arguments pr_syncHeight {W}.
Arguments pr_world {W}.

Section pr_setters.
Context {W : Type}.
Definition pset_cache (n : Z) (h : string) (p : Processor W) : Processor W :=
  mkProcessor (pr_chainID p) (pr_enableSimulator p) (pr_networkMode p) n h (pr_out p) (pr_pushed p) (pr_syncHeight p) (pr_world p).
Definition pset_out (v : list (MsgType * Payload)) (p : Processor W) : Processor W :=
  mkProcessor (pr_chainID p) (pr_enableSimulator p) (pr_networkMode p) (pr_lastBlockNum p) (pr_lastBlockHash p) v (pr_pushed p) (pr_syncHeight p) (pr_world p).
Definition pset_pushed (v : list Transfer) (p : Processor W) : Processor W :=
  mkProcessor (pr_chainID p) (pr_enableSimulator p) (pr_networkMode p) (pr_lastBlockNum p) (pr_lastBlockHash p) (pr_out p) v (pr_syncHeight p) (pr_world p).
Definition pset_syncHeight (v : Z) (p : Processor W) : Processor W :=
  mkProcessor (pr_chainID p) (pr_enableSimulator p) (pr_networkMode p) (pr_lastBlockNum p) (pr_lastBlockHash p) (pr_out p) (pr_pushed p) v (pr_world p).
Definition pset_world (v : W) (p : Processor W) : Processor W :=
  mkProcessor (pr_chainID p) (pr_enableSimulator p) (pr_networkMode p) (pr_lastBlockNum p) (pr_lastBlockHash p) (pr_out p) (pr_pushed p) (pr_syncHeight p) v.
End pr_setters.

(** The environment: the recovery of a sender's address in hex, the answer of
    the metadata enricher if there is one, the clock in nanoseconds, the numbers
    [secureIntn] draws, and [ctx.Err()] after the attempt of a retry loop. *)
Record ProcEnv := mkProcEnv {
  pe_Sender : Z → Tx → option string;
  pe_GetSymbol : option (string → string);
  pe_now : Z;
  pe_rand : nat → Z;
  pe_ctxErr : nat → option GoErr
}.

(** processor_core.go, [NewProcessor]. *)
Definition NewProcessor {W} (chainID : Z) (enableSimulator : bool) (networkMode : string) (w : W) : Processor W :=
  mkProcessor chainID enableSimulator networkMode 0 "" [] [] 0 w.

(** ** processor_transfer.go *)

(** The type, the sender, the receiver and the amount by the first topic. *)
Definition classifyLog (l : Log) (topic0 : Z) : string * string * string * Z :=
  let topic i := addrHexLower (default 0 (log_Topics l !! i)) in
  let amount := NewUint256FromBigInt (SetBytes (log_Data l)) in
  let parties := if (3 <=? length (log_Topics l))%nat then (topic 1%nat, topic 2%nat) else ("", "") in
  if topic0 =? TransferEventHash then ("TRANSFER", fst parties, snd parties, amount)
  else if topic0 =? SwapEventHash then ("SWAP", fst parties, snd parties, amount)
  else if topic0 =? ApprovalEventHash then ("APPROVE", fst parties, snd parties, amount)
  else if topic0 =? MintEventHash then
    ("MINT", zeroAddress, if (2 <=? length (log_Topics l))%nat then topic 1%nat else "", amount)
  else ("CONTRACT_EVENT", addrHexLower (log_Address l), "multiple", 0).

Definition ProcessLog (env : ProcEnv) (l : Log) : option Transfer :=
  match log_Topics l with
  | [] => None
  | topic0 :: _ =>
    let '(activityType, from, to, amount) := classifyLog l topic0 in
    let tokenAddress := addrHexLower (log_Address l) in
    let fromLabel := GetAddressLabel from in
    let type := if String.eqb fromLabel "" then activityType else "FAUCET_CLAIM" in
    let staticSymbol := getTokenSymbol (log_Address l) in
    let symbol :=
      if String.eqb fromLabel "" then
        if String.eqb staticSymbol "" then
          match pe_GetSymbol env with Some f => f tokenAddress | None => "" end
        else staticSymbol
      else fromLabel in
    let symbol := if String.eqb symbol "" then substring 0 10 tokenAddress ++ "..." else symbol in
    Some (mkTransfer (log_BlockNumber l) (log_TxHash l) (log_Index l) from to amount tokenAddress symbol type)
  end.

(** ** Activities of transactions *)

Section activities.
Context (env : ProcEnv) (chainID blockNum : Z).

(** The sender in hex, "0xunknown" when the recovery fails. *)
Definition fromAddr (tx : Tx) : string := default "0xunknown" (pe_Sender env chainID tx).
Definition txTransfer (tx : Tx) (idx : Z) (to symbol type : string) : Transfer :=
  mkTransfer blockNum (tx_Hash tx) idx (ToLower (fromAddr tx)) to (NewUint256FromBigInt (tx_Value tx)) zeroAddress symbol type.

(** processor_block_part1.go, the three detectors. *)
Definition detectFaucetNoDB (tx : Tx) (idx : Z) : option Transfer :=
  let faucetLabel := GetAddressLabel (fromAddr tx) in
  if String.eqb faucetLabel "" then None
  else Some (txTransfer tx idx (ToLower (default "0xcontract_creation" (tx_To tx))) faucetLabel "FAUCET_CLAIM").
Definition detectDeployNoDB (tx : Tx) (idx : Z) : option Transfer :=
  match tx_To tx with
  | Some _ => None
  | None => Some (txTransfer tx idx "0xcontract_creation" "EVM" "DEPLOY")
  end.
Definition detectEthTransferNoDB (tx : Tx) (idx : Z) (txWithRealLogs : list string) : option Transfer :=
  match tx_To tx with
  | Some to =>
    if (tx_Value tx <=? 0) || bool_decide (tx_Hash tx ∈ txWithRealLogs) then None
    else Some (txTransfer tx idx (ToLower to) "ETH" "ETH_TRANSFER")
  | None => None
  end.

(** One transaction of the loop: the first detector that fires. *)
Definition detectTx (txWithRealLogs : list string) (tx : Tx) (idx : Z) : option Transfer :=
  match detectFaucetNoDB tx idx with
  | Some t => Some t
  | None =>
    match detectDeployNoDB tx idx with
    | Some t => Some t
    | None => detectEthTransferNoDB tx idx txWithRealLogs
    end
  end.
(** processor_batch.go, [processBatchTransactions]: no faucet detection. *)
Definition detectTxBatch (txWithRealLogs : list string) (tx : Tx) (idx : Z) : option Transfer :=
  match detectDeployNoDB tx idx with
  | Some t => Some t
  | None => detectEthTransferNoDB tx idx txWithRealLogs
  end.

(** The loop over the transactions: [syntheticIdx] grows with each activity. *)
Fixpoint scanTxs (detect : Tx → Z → option Transfer) (syntheticIdx : Z) (txs : list Tx) : list Transfer :=
  match txs with
  | [] => []
  | tx :: rest =>
    match detect tx syntheticIdx with
    | Some t => t :: scanTxs detect (syntheticIdx + 1) rest
    | None => scanTxs detect syntheticIdx rest
    end
  end.

(** processor_block_part1.go, [extractActivities]. *)
Definition extractActivities (logs : list Log) (transactions : list Tx) : list Transfer :=
  let fromLogs := omap (ProcessLog env) logs in
  (fromLogs ++ scanTxs (detectTx (tr_TxHash <$> fromLogs)) 20000 transactions)%list.

Definition anvilAccounts : list string :=
  ["0xf39Fd6e51aad88F6F4ce6aB8827279cffFb92266"; "0x70997970C51812dc3A010C7d01b50e0d17dc79ee";
   "0x3C44CdDdB6a900fa2b585dd299e03d12FA4293BC"; "0x90F79bf6EB2c4f870365E785982E1f101E93b906";
   "0x15d34AAf54267DB7D7c367839AAf71A00a2C6A65"].
Definition getAnvilAccount (index : Z) : string :=
  nth (Z.to_nat (index mod 5)) anvilAccounts EmptyString.

(** processor_block_part1.go, [processAnvilSyntheticNoDB]; [secureIntn(n)] is
    a draw modulo [n]. *)
Definition mockTransfer (block : EthBlock) (i : nat) : Transfer :=
  mkTransfer blockNum (hashWithSuffix (blk_Hash block) ("ANVIL_MOCK_" ++ pretty (Z.of_nat i))) (99990 + Z.of_nat i)
    (ToLower (getAnvilAccount (Z.of_nat i))) (ToLower (getAnvilAccount (Z.of_nat i + 1)))
    (NewUint256FromBigInt (100 + pe_rand env (S i) mod 1000)) zeroAddress "ETH" "TRANSFER".
Definition processAnvilSyntheticNoDB (enableSimulator : bool) (networkMode : string) (block : EthBlock)
    (activities : list Transfer) : list Transfer :=
  if negb (bool_decide (activities = [])) || negb enableSimulator || negb (String.eqb networkMode "anvil")
  then activities
  else mockTransfer block <$> seq 0 (Z.to_nat (2 + pe_rand env 0 mod 4)).

(** processor_batch.go, [processBatchSynthetic]. *)
Definition mockTokens : list (string * string) :=
  [("0xa0b86991c6218b36c1d19d4a2e9eb0ce3606eb48", "USDC"); ("0xdac17f958d2ee523a2206206994597c13d831ec7", "USDT");
   ("0x2260fac5e5542a773aa44fbcfedf7c193bc2c599", "WBTC"); ("0xc02aaa39b223fe8d0a0e5c4f27ead9083c756cc2", "WETH");
   ("0x6b175474e89094c44da98b954eedeac495271d0f", "DAI")].
Definition activityTypes : list string :=
  ["TRANSFER"; "SWAP"; "MINT"; "FAUCET_CLAIM"; "APPROVE"; "LIQUIDITY"; "BURN"].
Definition processBatchSynthetic (enableSimulator : bool) (block : EthBlock) (activities : list Transfer) : list Transfer :=
  if bool_decide (activities = []) && (chainID =? 31337) && enableSimulator then
    let n := big_Uint64 blockNum in
    let token := nth (Z.to_nat (n mod 5)) mockTokens ("", "") in
    let multiplier := if n mod 4 =? 0 then 1000000 else if n mod 4 =? 1 then 1000000000 else 1 in
    [mkTransfer blockNum (hashWithSuffix (blk_Hash block) "ANVIL_MOCK") 99999
       (ToLower (getAnvilAccount (n mod 5))) (ToLower (getAnvilAccount (add_u64 n 1 mod 5)))
       (NewUint256FromBigInt (go_rem (big_Int64 blockNum) 1000 * multiplier)) (fst token) (snd token)
       (nth (Z.to_nat (n mod 7)) activityTypes EmptyString)]
  else activities.

(** The activities [ProcessBatch] extracts. *)
Definition batchActivities (logs : list Log) (transactions : list Tx) : list Transfer :=
  let fromLogs := omap (ProcessLog env) logs in
  (fromLogs ++ scanTxs (detectTxBatch (tr_TxHash <$> fromLogs)) 20000 transactions)%list.

(** The row of a block, and the task it is wrapped in. *)
Definition modelBlock (b : EthBlock) : ModelBlock :=
  mkModelBlock (blk_Number b) (blk_Hash b) (blk_ParentHash b) (blk_Time b) (blk_GasLimit b) (blk_GasUsed b)
    (blk_BaseFee b) (Z.of_nat (length (blk_Transactions b))).
Definition persistTask (b : EthBlock) (activities : list Transfer) : PersistTask :=
  mkPersistTask (big_Uint64 (blk_Number b)) (modelBlock b) activities (mask_i63 (u64 (pe_now env))).
End activities.

(** ** processor_block_part1.go *)

Section processor.
Context {W : Type} {PG : Postgres W} (env : ProcEnv).
Abbreviation prM := (GoM (Processor W)).

Definition onDB {A} (m : GoM W A) : prM A := zoom pr_world pset_world m.
Definition prDispatch (t : MsgType) (data : Payload) : prM unit :=
  modify (λ p, pset_out (pr_out p ++ [(t, data)])%list p).

(** [handleReorgReadOnly]: the cache first, the database otherwise; a failed
    query counts as no reorg. *)
Definition handleReorgReadOnly (blockNum : Z) (parentHash : string) : prM (option GoErr) :=
  p ← gets id;
  if pr_chainID p =? 31337 then mret None
  else
    let prevNum := blockNum - 1 in
    if (pr_lastBlockNum p =? big_Int64 prevNum) && negb (String.eqb (pr_lastBlockHash p) "") then
      mret (if String.eqb (pr_lastBlockHash p) parentHash then None else Some (ReorgError blockNum))
    else
      r ← onDB (pg_Query _ (λ t, mb_Hash <$> t_blocks t !! prevNum));
      mret match r with
           | Ok (Some hash) => if String.eqb hash parentHash then None else Some (ReorgError blockNum)
           | Ok None | Err _ => None
           end.

Definition updateReorgCache (blockNum : Z) (blockHash : string) : prM unit :=
  modify (λ p, if pr_chainID p =? 31337 then p else pset_cache (big_Int64 blockNum) blockHash p).

(** [pushEvents] and [updateMetrics]: the activities pushed, the height set. *)
Definition pushEvents (activities : list Transfer) : prM unit :=
  modify (λ p, pset_pushed (pr_pushed p ++ activities)%list p).
Definition metricHeight (num : Z) : Z := if big_IsInt64 num then big_Int64 num else i64 (mask_i63 (big_Uint64 num)).
Definition updateMetrics (b : EthBlock) : prM unit := modify (pset_syncHeight (metricHeight (blk_Number b))).

Definition ProcessBlock (data : BlockData) : prM (option GoErr) :=
  match bd_Err data with
  | Some e => mret (Some (WrapErr "fetch error: " e))
  | None =>
    match bd_Block data with
    | None => go_panic "nil pointer dereference: block.Number()"
    | Some block =>
      let blockNum := blk_Number block in
      try handleReorgReadOnly blockNum (blk_ParentHash block) ;;;
      (p ← gets id;
       let activities := extractActivities env (pr_chainID p) blockNum (bd_Logs data) (blk_Transactions block) in
       let activities := processAnvilSyntheticNoDB env blockNum (pr_enableSimulator p) (pr_networkMode p) block activities in
       prDispatch CmdCommitBatch (DTask (persistTask env block activities));;
       updateReorgCache blockNum (blk_Hash block);;
       pushEvents activities;;
       updateMetrics block;;
       mret None)
    end
  end.

(** ** processor_core.go: retries *)

Definition isFatalError (e : GoErr) : bool :=
  match e with
  | ErrReorgDetected | ReorgError _ | Canceled | DeadlineExceeded => true
  | _ => false
  end.

Definition blockName (data : BlockData) : string :=
  match bd_Block data, bd_Number data with
  | Some b, _ => pretty (blk_Number b)
  | None, Some n => pretty n
  | None, None => "unknown"
  end.

(** The attempts of [ProcessBlockWithRetry]; [e] is the last error. *)
Fixpoint retryBlock (data : BlockData) (i : nat) (remaining : nat) (e : GoErr) : prM (option GoErr) :=
  match remaining with
  | O => mret (Some (WrapErr ("max retries exceeded for block " ++ blockName data ++ ": ") e))
  | S remaining' =>
    r ← ProcessBlock data;
    match r with
    | None => mret None
    | Some e =>
      if isFatalError e then mret (Some e)
      else
        match pe_ctxErr env i with
        | Some c => mret (Some c)
        | None => retryBlock data (S i) remaining' e
        end
    end
  end.
Definition ProcessBlockRetry (data : BlockData) (maxRetries : nat) : prM (option GoErr) :=
  retryBlock data 0 maxRetries (Errorf "<nil>").

(** ** processor_batch.go *)

(** The loop of [ProcessBatch] over the blocks. *)
Definition batchBlock (chainID : Z) (data : BlockData) : prM unit :=
  match bd_Err data, bd_Block data with
  | None, Some block =>
    p ← gets id;
    let blockNum := blk_Number block in
    let activities := batchActivities env chainID blockNum (bd_Logs data) (blk_Transactions block) in
    let activities := processBatchSynthetic chainID blockNum (pr_enableSimulator p) block activities in
    prDispatch CmdCommitBatch (DTask (persistTask env block activities));;
    pushEvents activities
  | _, _ => mret tt
  end.
Fixpoint batchBlocks (chainID : Z) (blocks : list BlockData) : prM unit :=
  match blocks with
  | [] => mret tt
  | data :: rest => batchBlock chainID data;; batchBlocks chainID rest
  end.
Definition updateBatchMetrics (blocks : list BlockData) : prM unit :=
  match last blocks with
  | None => mret tt
  | Some d =>
    match effectiveNum d with
    | Some n =>
      modify (pset_syncHeight (if big_IsInt64 n then big_Int64 n else SafeUint64ToInt64 (mask_i63 (big_Uint64 n))))
    | None => mret tt
    end
  end.
Definition ProcessBatchBlocks (blocks : list BlockData) (chainID : Z) : prM (option GoErr) :=
  match blocks with
  | [] => mret None
  | _ => batchBlocks chainID blocks;; updateBatchMetrics blocks;; mret None
  end.

(** ** processor_checkpoint.go *)

(** [updateCheckpointInTx]; [lastChainHeight] is the metrics' cached height.
    The status upsert's error is only logged. *)
Definition updateCheckpointInTx (done : bool) (lastChainHeight chainID blockNumber : Z) : GoM W (option GoErr) :=
  e ← pg_TxExec done (upsertCheckpointStmt chainID (pretty blockNumber));
  match e with
  | Some e => mret (Some (WrapErr "failed to update checkpoint: " e))
  | None =>
    let syncedBlock := big_Int64 blockNumber in
    let chainHeight := if 0 <? lastChainHeight then lastChainHeight else syncedBlock in
    let lag := i64 (chainHeight - syncedBlock) in
    let lag := if lag <? 0 then 0 else lag in
    pg_TxExec done (upsertStatusInTxStmt chainID syncedBlock chainHeight lag);;
    mret None
  end.
Definition UpdateCheckpoint (done : bool) (lastChainHeight chainID blockNumber : Z) : GoM W (option GoErr) :=
  inTx done (updateCheckpointInTx done lastChainHeight chainID blockNumber).

(** The processor is what the Sequencer drives. *)
Definition processorOps (client : option (RPCClient (Processor W))) : BlockProcessor (Processor W) := {|
  ProcessBlockWithRetry := ProcessBlockRetry;
  ProcessBatch := ProcessBatchBlocks;
  GetRPCClient := client
|}.
End processor.

(** ** Lemmas: activities *)

Section activity_lemmas.
Context (env : ProcEnv).

Lemma ProcessLog_key l t :
  ProcessLog env l = Some t → transferKey t = (log_BlockNumber l, log_Index l).
Proof.
  unfold ProcessLog. destruct (log_Topics l); [done |]. destruct (classifyLog l z) as [[[? ?] ?] ?].
  intros [= <-]. done.
Qed.

Lemma omap_logs_keys logs n :
  Forall (λ l, log_BlockNumber l = n) logs →
  ∃ js, transferKey <$> omap (ProcessLog env) logs = pair n <$> js ∧ js `sublist_of` (log_Index <$> logs).
Proof.
  induction 1 as [| l logs Hl _ (js & E & Hsub)]; [by exists [] |]. csimpl.
  destruct (ProcessLog env l) as [t |] eqn:Ht.
  - exists (log_Index l :: js). rewrite fmap_cons, E, (ProcessLog_key _ _ Ht), Hl. split; [done |]. by constructor.
  - exists js. split; [done |]. by constructor.
Qed.

Definition indexed (n : Z) (detect : Tx → Z → option Transfer) : Prop :=
  ∀ tx idx t, detect tx idx = Some t → transferKey t = (n, idx).

Lemma scanTxs_keys n detect k txs :
  indexed n detect →
  ∃ m, (m ≤ length txs)%nat ∧ transferKey <$> scanTxs detect k txs = pair n <$> seqZ k (Z.of_nat m).
Proof.
  intros Hd. revert k. induction txs as [| tx txs IH]; intros k; simpl; [by exists O |].
  destruct (detect tx k) as [t |] eqn:Ht.
  - destruct (IH (k + 1)) as (m & Hm & E). exists (S m). split; [lia |].
    rewrite fmap_cons, E, (Hd _ _ _ Ht), Nat2Z.inj_succ, (seqZ_cons k) by lia.
    rewrite fmap_cons, Z.pred_succ, <- Z.add_1_r. done.
  - destruct (IH k) as (m & Hm & E). exists m. split; [lia | done].
Qed.

Lemma detectTx_indexed chainID n seen : indexed n (detectTx env chainID n seen).
Proof.
  intros tx idx t. unfold detectTx, detectFaucetNoDB, detectDeployNoDB, detectEthTransferNoDB.
  repeat case_match; intros; simplify_eq; done.
Qed.

Lemma detectTxBatch_indexed chainID n seen : indexed n (detectTxBatch env chainID n seen).
Proof.
  intros tx idx t. unfold detectTxBatch, detectDeployNoDB, detectEthTransferNoDB.
  repeat case_match; intros; simplify_eq; done.
Qed.

Lemma activities_NoDup n detect logs txs :
  indexed n detect → Forall (λ l, log_BlockNumber l = n) logs → NoDup (log_Index <$> logs) →
  Forall (λ l, log_Index l < 20000) logs →
  NoDup (transferKey <$> (omap (ProcessLog env) logs ++ scanTxs detect 20000 txs)%list).
Proof.
  intros Hd Hn Hnd Hlt. destruct (omap_logs_keys logs n Hn) as (js & E & Hsub).
  destruct (scanTxs_keys n detect 20000 txs Hd) as (m & _ & E2). rewrite fmap_app, E, E2, <- fmap_app.
  apply NoDup_fmap; [intros ? ? [=]; done |]. apply NoDup_app. split_and!.
  - by eapply sublist_NoDup.
  - intros j Hj Hj2. apply elem_of_seqZ in Hj2.
    eapply elem_of_sublist in Hj; [| exact Hsub]. apply list_elem_of_fmap in Hj as (l & -> & Hl).
    rewrite Forall_forall in Hlt. specialize (Hlt _ Hl). simpl in Hlt. lia.
  - apply NoDup_seqZ.
Qed.

(** Without a faucet among the senders both paths detect the same. *)
Lemma scanTxs_batch chainID n seen k txs :
  Forall (λ tx, GetAddressLabel (fromAddr env chainID tx) = "") txs →
  scanTxs (detectTx env chainID n seen) k txs = scanTxs (detectTxBatch env chainID n seen) k txs.
Proof.
  intros H. revert k. induction H as [| tx txs Hf _ IH]; intros k; simpl; [done |].
  unfold detectTx, detectTxBatch, detectFaucetNoDB in *. rewrite Hf. simpl. by repeat case_match; rewrite IH.
Qed.
End activity_lemmas.

(** ** Lemmas: storing activities *)

Lemma foldl_insertNew_other {B} (key : B → Z * Z) {A} (row : B → A) (l : list B) (m : gmap (Z * Z) A) (k : Z * Z) :
  k ∉ key <$> l → foldl (λ m x, insertNew m (key x) (row x)) m l !! k = m !! k.
Proof.
  revert m. induction l as [| x l IH]; intros m Hk; simpl; [done |].
  rewrite fmap_cons, not_elem_of_cons in Hk. destruct Hk as [Hx Hl]. rewrite IH by done.
  unfold insertNew. case_match; [done |]. by rewrite lookup_insert_ne.
Qed.

Lemma foldl_insertNew_stored {B} (key : B → Z * Z) {A} (row : B → A) (l : list B) (m : gmap (Z * Z) A) (x : B) :
  NoDup (key <$> l) → (∀ y, y ∈ l → m !! key y = None) → x ∈ l →
  foldl (λ m x, insertNew m (key x) (row x)) m l !! key x = Some (row x).
Proof.
  revert m. induction l as [| y l IH]; intros m Hnd Hfresh Hx; simpl; [by apply elem_of_nil in Hx |].
  rewrite fmap_cons, NoDup_cons in Hnd. destruct Hnd as [Hy Hnd]. apply elem_of_cons in Hx as [-> | Hx].
  - rewrite foldl_insertNew_other by done. unfold insertNew. rewrite Hfresh by left. by rewrite lookup_insert_eq.
  - apply IH; [done | | done]. intros z Hz. unfold insertNew. rewrite (Hfresh y) by left.
    rewrite lookup_insert_ne; [apply Hfresh; by right |].
    intros E. apply Hy. rewrite E. by apply list_elem_of_fmap_2.
Qed.

(** ** Lemmas: one block *)

Section block_lemmas.
Context {W : Type} {PG : Postgres W} (env : ProcEnv).

(** What a processed block leaves behind. *)
Definition blockActivities (p : Processor W) (d : BlockData) (b : EthBlock) : list Transfer :=
  processAnvilSyntheticNoDB env (blk_Number b) (pr_enableSimulator p) (pr_networkMode p) b
    (extractActivities env (pr_chainID p) (blk_Number b) (bd_Logs d) (blk_Transactions b)).
Definition same_settings (p p' : Processor W) : Prop :=
  pr_chainID p' = pr_chainID p ∧ pr_enableSimulator p' = pr_enableSimulator p ∧ pr_networkMode p' = pr_networkMode p.

(** With the previous block in the cache the answer is the parent check. *)
Lemma ProcessBlock_wp d b p :
  bd_Err d = None → bd_Block d = Some b → pr_chainID p ≠ 31337 →
  pr_lastBlockNum p = blk_Number b - 1 → pr_lastBlockHash p ≠ "" → is_i64 (blk_Number b) → is_i64 (blk_Number b - 1) →
  wp (ProcessBlock env d)
     (λ o p',
        if String.eqb (pr_lastBlockHash p) (blk_ParentHash b)
        then o = Val None ∧ same_settings p p' ∧ pr_lastBlockNum p' = blk_Number b ∧ pr_lastBlockHash p' = blk_Hash b ∧
             pr_out p' = (pr_out p ++ [(CmdCommitBatch, DTask (persistTask env b (blockActivities p d b)))])%list
        else o = Val (Some (ReorgError (blk_Number b))) ∧ p' = p) p.
Proof.
  intros He Hb Hc Hn Hh Hi1 Hi2. unfold ProcessBlock. rewrite He, Hb. apply wp_try, wp_bind, wp_gets. unfold id.
  rewrite (proj2 (Z.eqb_neq _ _)) by done. rewrite Hn, big_Int64_id by done. rewrite Z.eqb_refl.
  rewrite (proj2 (String.eqb_neq _ _)) by done. simpl. apply wp_ret.
  destruct (String.eqb (pr_lastBlockHash p) (blk_ParentHash b)); [| done].
  apply wp_bind, wp_gets. unfold id. apply wp_bind, wp_modify, wp_bind, wp_modify, wp_bind, wp_modify, wp_bind, wp_modify, wp_ret.
  simpl. rewrite (proj2 (Z.eqb_neq _ _)) by done. simpl. rewrite big_Int64_id by done. by split_and!.
Qed.
End block_lemmas.

(** ** Properties *)

(** Blocks processed one after the other, until one fails. *)
Fixpoint processAll {W} {PG : Postgres W} (env : ProcEnv) (ds : list BlockData) : GoM (Processor W) (option GoErr) :=
  match ds with
  | [] => mret None
  | d :: rest => try ProcessBlock env d ;;; processAll env rest
  end.
(** The first block whose parent is not the block before it, and the blocks
    that come before that. *)
Fixpoint firstBreak (h : string) (bs : list EthBlock) : option GoErr :=
  match bs with
  | [] => None
  | b :: rest => if String.eqb h (blk_ParentHash b) then firstBreak (blk_Hash b) rest else Some (ReorgError (blk_Number b))
  end.
Fixpoint linkedPrefix (h : string) (bs : list EthBlock) : list EthBlock :=
  match bs with
  | [] => []
  | b :: rest => if String.eqb h (blk_ParentHash b) then b :: linkedPrefix (blk_Hash b) rest else []
  end.
Fixpoint consecutive (n : Z) (bs : list EthBlock) : Prop :=
  match bs with
  | [] => True
  | b :: rest => blk_Number b = n + 1 ∧ blk_Hash b ≠ "" ∧ n + 1 ≤ max_i64 ∧ consecutive (n + 1) rest
  end.

(** What processing a consecutive list of blocks ends with and dispatches. *)
Lemma processAll_wp {W} {PG : Postgres W} (env : ProcEnv) (bs : list EthBlock) (logs : EthBlock → list Log)
    (p : Processor W) (n : Z)
    (Hchain : pr_chainID p ≠ 31337) (Hn : 0 ≤ n) (Hcached : pr_lastBlockNum p = n) (Hhash : pr_lastBlockHash p ≠ "")
    (Hcons : consecutive n bs) :
  let ds := (λ b, mkBlockData (Some (blk_Number b)) None (Some b) None (logs b)) <$> bs in
  wp (processAll env ds)
     (λ o p', o = Val (firstBreak (pr_lastBlockHash p) bs) ∧
        ∃ tasks, pr_out p' = (pr_out p ++ ((λ t, (CmdCommitBatch, DTask t)) <$> tasks))%list ∧
                 pt_Block <$> tasks = modelBlock <$> linkedPrefix (pr_lastBlockHash p) bs) p.
Proof.
  cbn zeta. revert n p Hchain Hn Hcached Hhash Hcons. induction bs as [| b bs IH]; intros n p Hchain Hn Hcached Hhash Hcons.
  { apply wp_ret. split; [done |]. exists []. by rewrite app_nil_r. }
  destruct Hcons as (Hb & Hbh & Hmax & Hcons). simpl. apply wp_try.
  eapply wp_mono; [apply (ProcessBlock_wp env _ b p); try done; [lia | lia64 | lia64] |].
  intros o p1. destruct (String.eqb (pr_lastBlockHash p) (blk_ParentHash b)).
  - intros (-> & (Hc1 & _ & _) & Hl1 & Hh1 & Ho1).
    eapply wp_mono; [apply (IH (n + 1) p1); [congruence | lia | congruence | congruence | done] |].
    intros o p2 (-> & tasks & Ho2 & Ht2). rewrite Hh1 in Ht2 |- *. split; [done |].
    eexists (_ :: tasks). split; [rewrite Ho2, Ho1, <- app_assoc; reflexivity |]. rewrite !fmap_cons, Ht2. done.
  - intros (-> & ->). split; [done |]. exists []. by rewrite app_nil_r.
Qed.

(** C15: Reorg detection.  On a real network, starting after block [n] with hash
    [h], processing consecutive blocks stops exactly at the first block whose
    parent hash is not the hash of the block before it, with the [ReorgError] of
    that block; if there is none, everything succeeds.  The tasks dispatched for
    storage are those of the blocks before the break, in order, one per block:
    the blocks handed to the database always form a chain.  (The batch path makes
    no such check, and on chain 31337 there is none.) *)
Theorem processAll_detects_reorg {W} {PG : Postgres W} (env : ProcEnv) (bs : list EthBlock) (logs : EthBlock → list Log)
    (p : Processor W) (n : Z)
    (Hchain : pr_chainID p ≠ 31337) (Hn : 0 ≤ n) (Hcached : pr_lastBlockNum p = n) (Hhash : pr_lastBlockHash p ≠ "")
    (Hcons : consecutive n bs) :
  let ds := (λ b, mkBlockData (Some (blk_Number b)) None (Some b) None (logs b)) <$> bs in
  wp (processAll env ds)
     (λ o p', o = Val (firstBreak (pr_lastBlockHash p) bs) ∧
        ∃ tasks, pr_out p' = (pr_out p ++ ((λ t, (CmdCommitBatch, DTask t)) <$> tasks))%list ∧
                 pt_Block <$> tasks = modelBlock <$> linkedPrefix (pr_lastBlockHash p) bs) p.
Proof. by apply (processAll_wp env bs logs p n). Qed.

Definition noEnv : ProcEnv := mkProcEnv (λ _ _, Some "0x00") None 0 (λ _, 0) (λ _, None).
Definition chainBlock (n : Z) (h parent : string) : EthBlock := mkEthBlock n h parent 0 0 0 None [].
Definition sampleProcessor : Processor PgSim :=
  pset_cache 5 "h5" (NewProcessor 1 false "sepolia" (mkPgSim deployedSchema emptyTables None [])).

Lemma processAll_detects_reorg_witness :
  snd (processAll noEnv ((λ b, mkBlockData (Some (blk_Number b)) None (Some b) None [])
        <$> [chainBlock 6 "h6" "h5"; chainBlock 7 "h7" "h6"; chainBlock 8 "h8" "fork"]) sampleProcessor)
  = Val (Some (ReorgError 8)).
Proof.
  destruct (processAll_detects_reorg noEnv [chainBlock 6 "h6" "h5"; chainBlock 7 "h7" "h6"; chainBlock 8 "h8" "fork"]
    (λ _, []) sampleProcessor 5) as [H _]; [done | done | done | done | simpl; repeat split; done || lia64 |].
  rewrite H. reflexivity.
Defined.

(** C17: No activity of a block is lost to a key collision: when the block's logs
    have distinct indices below 20000, the activities [extractActivities] makes
    of the logs and transactions have distinct database keys, so inserting them
    into tables that hold nothing of the block yet stores every one of them. *)
Theorem activities_all_stored (env : ProcEnv) (chainID n : Z) (logs : list Log) (txs : list Tx) (t : Tables) :
  Forall (λ l, log_BlockNumber l = n) logs → NoDup (log_Index <$> logs) →
  Forall (λ l, log_Index l < 20000) logs → (∀ i, t_transfers t !! (n, i) = None) →
  let activities := extractActivities env chainID n logs txs in
  NoDup (transferKey <$> activities) ∧
  ∀ x, x ∈ activities → t_transfers (stmt_run (insertTransfersStmt activities) t) !! transferKey x = Some (transferRow x).
Proof.
  intros Hn Hnd Hlt Hfresh activities.
  assert (Hkeys : NoDup (transferKey <$> activities)) by (apply (activities_NoDup env n); auto using detectTx_indexed).
  split; [done |]. intros x Hx. apply foldl_insertNew_stored; [done | | done].
  intros y Hy. subst activities. unfold extractActivities in Hy.
  assert (Hk : transferKey y ∈ transferKey <$> (omap (ProcessLog env) logs ++
                 scanTxs (detectTx env chainID n (tr_TxHash <$> omap (ProcessLog env) logs)) 20000 txs)%list)
    by (by apply list_elem_of_fmap_2).
  destruct (omap_logs_keys env logs n Hn) as (js & E & _).
  destruct (scanTxs_keys n _ 20000 txs (detectTx_indexed env chainID n (tr_TxHash <$> omap (ProcessLog env) logs))) as (m & _ & E2).
  rewrite fmap_app, E, E2, <- fmap_app in Hk. apply list_elem_of_fmap in Hk as (j & -> & _). apply Hfresh.
Qed.

Definition sampleTx (to : option string) (v : Z) : Tx := mkTx "0xt" to v 21000 1.
Lemma activities_all_stored_witness :
  length (extractActivities noEnv 1 7 [mkLog 3 [TransferEventHash; 1; 2] [5] 7 "0xa" 0] [sampleTx (Some "0xB") 9; sampleTx None 0]) = 3%nat ∧
  NoDup (transferKey <$> extractActivities noEnv 1 7 [mkLog 3 [TransferEventHash; 1; 2] [5] 7 "0xa" 0] [sampleTx (Some "0xB") 9; sampleTx None 0]).
Proof.
  split; [reflexivity |].
  apply (activities_all_stored noEnv 1 7 [mkLog 3 [TransferEventHash; 1; 2] [5] 7 "0xa" 0] [sampleTx (Some "0xB") 9; sampleTx None 0] emptyTables);
    [by repeat constructor | apply NoDup_singleton | by repeat constructor | done].
Defined.

Lemma handleReorgReadOnly_pure {W} {PG : Postgres W} n h (p : Processor W) :
  wp (handleReorgReadOnly n h) (λ o p', (∃ e, o = Val e) ∧ p' = p) p.
Proof.
  apply wp_bind, wp_gets. unfold id. case_match; [apply wp_ret; eauto |].
  case_match; [apply wp_ret; eauto |]. apply wp_bind, wp_zoom.
  eapply wp_mono; [apply pg_Query_spec |]. intros o w (-> & r & -> & _). apply wp_ret.
  split; [eauto | by destruct p].
Qed.

Lemma processBatchSynthetic_off c n b l : processBatchSynthetic c n false b l = l.
Proof. unfold processBatchSynthetic. by rewrite andb_false_r. Qed.
Lemma processAnvilSyntheticNoDB_off env n m b l : processAnvilSyntheticNoDB env n false m b l = l.
Proof. unfold processAnvilSyntheticNoDB. simpl. by rewrite orb_true_r. Qed.

Lemma ProcessBlock_out {W} {PG : Postgres W} env d b (p : Processor W) :
  bd_Block d = Some b → snd (ProcessBlock env d p) = Val None →
  bd_Err d = None ∧
  pr_out (fst (ProcessBlock env d p)) =
    (pr_out p ++ [(CmdCommitBatch, DTask (persistTask env b (blockActivities env p d b)))])%list.
Proof.
  intros Hb Hok. destruct (bd_Err d) as [e |] eqn:He; [unfold ProcessBlock in Hok; by rewrite He in Hok |]. split; [done |].
  assert (H : wp (ProcessBlock env d) (λ o p', o = Val None → pr_out p' =
    (pr_out p ++ [(CmdCommitBatch, DTask (persistTask env b (blockActivities env p d b)))])%list) p); [| by apply H].
  unfold ProcessBlock. rewrite He, Hb. apply wp_try. eapply wp_mono; [apply handleReorgReadOnly_pure |].
  intros o p1 ([[e |] ->] & ->); [done |]. apply wp_bind, wp_gets. unfold id.
  apply wp_bind, wp_modify, wp_bind, wp_modify, wp_bind, wp_modify, wp_bind, wp_modify, wp_ret. intros _. simpl.
  by case_match.
Qed.

Lemma ProcessBatch_out {W} {PG : Postgres W} env c d b (p : Processor W) :
  bd_Err d = None → bd_Block d = Some b →
  wp (ProcessBatchBlocks env [d] c) (λ o p', o = Val None ∧ pr_out p' =
    (pr_out p ++ [(CmdCommitBatch, DTask (persistTask env b
       (processBatchSynthetic c (blk_Number b) (pr_enableSimulator p) b
          (batchActivities env c (blk_Number b) (bd_Logs d) (blk_Transactions b)))))])%list) p.
Proof.
  intros He Hb. unfold ProcessBatchBlocks, batchBlocks, batchBlock. rewrite He, Hb.
  apply wp_bind, wp_bind, wp_bind, wp_gets. unfold id. apply wp_bind, wp_modify, wp_modify, wp_ret, wp_bind.
  unfold updateBatchMetrics, effectiveNum. simpl. rewrite Hb. apply wp_modify, wp_ret. done.
Qed.

(** C18: The batch path and the single path agree: for a block none of whose
    senders is a labelled faucet, and with the simulator off, [ProcessBatch]
    dispatches exactly the storage task [ProcessBlock] dispatches when it
    accepts the block: same row, same activities, same keys. *)
Theorem batch_matches_single {W} {PG : Postgres W} (env : ProcEnv) (d : BlockData) (b : EthBlock) (p : Processor W) :
  bd_Block d = Some b →
  Forall (λ tx, GetAddressLabel (fromAddr env (pr_chainID p) tx) = "") (blk_Transactions b) →
  pr_enableSimulator p = false →
  snd (ProcessBlock env d p) = Val None →
  pr_out (fst (ProcessBatchBlocks env [d] (pr_chainID p) p)) = pr_out (fst (ProcessBlock env d p)) ∧
  snd (ProcessBatchBlocks env [d] (pr_chainID p) p) = Val None.
Proof.
  intros Hb Hfaucet Hsim Hok. pose proof (ProcessBlock_out env d b p Hb Hok) as [He Ho].
  destruct (ProcessBatch_out env (pr_chainID p) d b p He Hb) as [Hv Ho2]. split; [| exact Hv].
  rewrite Ho, Ho2. unfold blockActivities, extractActivities, batchActivities.
  rewrite Hsim, processBatchSynthetic_off, processAnvilSyntheticNoDB_off. by rewrite scanTxs_batch.
Qed.

Lemma batch_matches_single_witness :
  pr_out (fst (ProcessBatchBlocks noEnv [mkBlockData None None (Some (chainBlock 6 "h6" "h5")) None []] 1 sampleProcessor)) =
  [(CmdCommitBatch, DTask (persistTask noEnv (chainBlock 6 "h6" "h5") []))].
Proof.
  destruct (batch_matches_single noEnv (mkBlockData None None (Some (chainBlock 6 "h6" "h5")) None []) (chainBlock 6 "h6" "h5") sampleProcessor)
    as [H _]; [done | constructor | done | reflexivity |].
  etransitivity; [exact H | reflexivity].
Defined.

(** ** What modelling showed *)

(** With a faucet as sender the two paths classify the transaction differently. *)
Definition faucetEnv : ProcEnv :=
  mkProcEnv (λ _ _, Some "0x2e6B6A8625686868686868686868686868686868") None 0 (λ _, 0) (λ _, None).
Lemma batch_misses_faucet :
  tr_Type <$> extractActivities faucetEnv 1 7 [] [sampleTx (Some "0xB") 9] = ["FAUCET_CLAIM"] ∧
  tr_Type <$> batchActivities faucetEnv 1 7 [] [sampleTx (Some "0xB") 9] = ["ETH_TRANSFER"].
Proof. split; reflexivity. Qed.

(** An address in hex has 42 characters; the keys "Infura Faucet" and "UNI"
    have 41, so they match no address. *)
Lemma hexFixed_length n z : String.length (hexFixed n z) = n.
Proof. revert z. induction n as [| n IH]; intros z; simpl; [done | by rewrite IH]. Qed.
Lemma addrHexLower_length a : String.length (addrHexLower a) = 42%nat.
Proof. change (S (S (String.length (hexFixed 40 a))) = 42%nat). by rewrite hexFixed_length. Qed.
Lemma Infura_label_unreachable a : EqualFold "0x8ad9277301013d084931fc5ca31787b122fca66" (addrHexLower a) = false.
Proof.
  assert (Hlen : ∀ s, String.length (ToLower s) = String.length s) by (induction s; simpl; congruence).
  apply String.eqb_neq. intros E. apply (f_equal String.length) in E. rewrite !Hlen, addrHexLower_length in E. discriminate E.
Qed.
Lemma UNI_symbol_unreachable a : "0xa3382dffca847b84592c05ab05937a1a38623bc" ≠ addrHexLower a.
Proof.
  intros E. apply (f_equal String.length) in E. rewrite addrHexLower_length in E. discriminate E.
Qed.

(** The data of a Uniswap V3 swap is five words; read as one number it exceeds
    256 bits whenever one of its first four words is not zero, and the amount
    becomes the maximum. *)
Lemma swap_amount_saturates hi lo :
  1 ≤ hi → 0 ≤ lo → NewUint256FromBigInt (hi * 2 ^ 256 + lo) = max_u256.
Proof.
  intros Hh Hl. unfold NewUint256FromBigInt. rewrite Z.abs_eq by lia. rewrite (proj2 (Z.ltb_lt _ _)); [done |].
  unfold max_u256. lia.
Qed.

(** A block whose body could not be fetched but without an error panics. *)
Lemma ProcessBlock_nil_block {W} {PG : Postgres W} env n r logs (p : Processor W) :
  snd (ProcessBlock env (mkBlockData n r None None logs) p) = Panic "nil pointer dereference: block.Number()".
Proof. reflexivity. Qed.

(** On the schema the program creates itself [UpdateCheckpoint] changes nothing:
    the status upsert fails, its error is dropped, the commit fails. *)
Lemma UpdateCheckpoint_never_commits {W} {PG : Postgres W} done h c n (w : W) :
  pg_schema w = InitSchema →
  wp (UpdateCheckpoint done h c n) (λ o w', (∃ e, o = Val (Some e)) ∧ pg_tables w' = pg_tables w) w.
Proof.
  intros Hsch. apply wp_try. eapply wp_mono; [apply pg_BeginTxx_spec |].
  intros o w1 (e & -> & Hs1 & Ht1 & _). destruct e as [e |]; [split; [eauto | done] |].
  apply wp_bind, wp_try.
  eapply (wp_mono _ (λ o w', ∃ e, o = Val e ∧ pg_tables w' = pg_tables w ∧ (e = None → pg_tx w' = None))).
  - apply wp_bind. eapply wp_mono; [apply pg_TxExec_spec |]. intros o w2 (e & -> & Hs2 & Ht2 & _ & _).
    destruct e as [e |]; [apply wp_ret; eexists; split_and!; [reflexivity | congruence | discriminate] |].
    apply wp_bind. eapply wp_mono; [apply pg_TxExec_spec |]. intros o w3 (e & -> & Hs3 & Ht3 & Hn & He).
    apply wp_ret. exists None. split_and!; [reflexivity | congruence |]. intros _. apply He. intros ->.
    destruct (Hn eq_refl) as (_ & Hok & _). rewrite Hs2, Hs1, Hsch in Hok. discriminate Hok.
  - intros o w2 (e & -> & Ht2 & Htx). destruct e as [e |].
    + apply wp_bind. eapply wp_mono; [apply pg_Rollback_spec |]. intros o w3 (-> & _ & Ht3 & _). apply wp_ret.
      split; [eauto | congruence].
    + eapply wp_mono; [apply pg_Commit_spec |]. intros o w3 (e & -> & _ & _ & Hn & He). rewrite (Htx eq_refl) in *.
      apply wp_bind. eapply wp_mono; [apply pg_Rollback_spec |]. intros o w4 (-> & _ & Ht4 & _). apply wp_ret.
      destruct e as [e |]; [| by specialize (Hn eq_refl)].
      split; [eauto |]. destruct He as [He | He]; [easy | congruence | easy].
Qed.
