(* ===== verification/Reorg.v ===== *)
(** * Deep reorgs (internal/engine/processor_reorg.go)

    The search for the common ancestor of the stored chain and the node's
    chain, and the transaction that rolls the database back to it. *)

From S2P Require Import Prelude GoInt Types GlobalState Database Orchestrator Processor.
From Stdlib Require Import ZArith Lia String.
From stdpp Require Import base gmap strings list pretty.
Open Scope string_scope.
Open Scope Z_scope.

(** ** Operations *)

Section reorg.
Context {W : Type} {PG : Postgres W} (client : RPCClient W).

Definition maxLookback : Z := 1000.
Definition ancestorNotFound : GoErr := Errorf "common ancestor not found within 1000 blocks".

(** The hash stored for a height; [None] is [sql.ErrNoRows]. *)
Definition storedHash (n : Z) (t : Tables) : option string := mb_Hash <$> t_blocks t !! n.

(** The loop of [FindCommonAncestor] at [currentNum]; [fuel] bounds its
    iterations. *)
Fixpoint findAncestor (fuel : nat) (blockNum currentNum : Z) (toDelete : list Z)
    : GoM W (result GoErr (Z * string * list Z)) :=
  match fuel with
  | O => mret (Err ancestorNotFound)
  | S fuel' =>
    if (0 <? currentNum) && (blockNum - currentNum <=? maxLookback) then
      rpcBlock ← rpc_BlockByNumber client currentNum;
      match rpcBlock with
      | Err e => mret (Err (WrapErr ("failed to get block " ++ pretty currentNum ++ " from RPC: ") e))
      | Ok b =>
        localBlock ← pg_Query _ (storedHash currentNum);
        match localBlock with
        | Err e => mret (Err (WrapErr ("database error at block " ++ pretty currentNum ++ ": ") e))
        | Ok None => findAncestor fuel' blockNum (currentNum - 1) (toDelete ++ [currentNum])%list
        | Ok (Some hash) =>
          if EqualFold hash (blk_Hash b) then mret (Ok (currentNum, hash, toDelete))
          else findAncestor fuel' blockNum (currentNum - 1) (toDelete ++ [currentNum])%list
        end
      end
    else mret (Err ancestorNotFound)
  end.
(** At most [maxLookback + 1] heights are examined. *)
Definition FindCommonAncestor (blockNum : Z) : GoM W (result GoErr (Z * string * list Z)) :=
  findAncestor (Z.to_nat (maxLookback + 2)) blockNum blockNum [].



End reorg.

(** ** Specification *)

(** The stored block of height [k] is the chain's. *)
Definition matches (chainHash : Z → string) (t : Tables) (k : Z) : Prop :=
  ∃ h, storedHash k t = Some h ∧ EqualFold h (chainHash k) = true.
(** The heights from [n] down to [a + 1]. *)
Definition above (n a : Z) : list Z := (λ i, n - i) <$> seqZ 0 (n - a).

Lemma above_snoc n a : a < n → above n (a - 1) = (above n a ++ [a])%list.
Proof.
  intros H. unfold above. replace (n - (a - 1)) with (n - a + 1) by lia. rewrite seqZ_snoc by lia.
  rewrite fmap_app. simpl. do 2 f_equal. lia.
Qed.





(** ** Lemmas: the search *)

Section search.
Context {W : Type} {PG : Postgres W} (client : RPCClient W) (chainHash : Z → string).

(** The node answers, without touching the database; queries succeed. *)
Context (Hrpc : ∀ k w, wp (rpc_BlockByNumber client k)
  (λ o w', (∃ b, o = Val (Ok b) ∧ blk_Hash b = chainHash k) ∧ pg_tables w' = pg_tables w) w).
Context (Hquery : ∀ A (f : Tables → A) w, ∃ a, snd (pg_Query A f w) = Val (Ok a)).

Lemma query_wp {A} (f : Tables → A) w (Q : outcome (result GoErr A) → W → Prop) :
  Q (Val (Ok (f (pg_tables w)))) w → wp (pg_Query A f) Q w.
Proof using Hquery.
  intros HQ. destruct (Hquery A f w) as [a Ha]. pose proof (pg_Query_spec A f w) as (Hw & r & Hr & Hok).
  unfold wp. destruct (pg_Query A f w) as [w' o]. simpl in *. rewrite Hr in *. injection Ha as ->.
  by rewrite Hw, (Hok a eq_refl).
Qed.

Definition found (blockNum : Z) (t : Tables) (o : outcome (result GoErr (Z * string * list Z))) : Prop :=
  (∃ a h, o = Val (Ok (a, h, above blockNum a)) ∧ 0 < a ≤ blockNum ∧ blockNum - a ≤ maxLookback ∧
     matches chainHash t a ∧ storedHash a t = Some h ∧ ∀ k, a < k ≤ blockNum → ¬ matches chainHash t k) ∨
  (o = Val (Err ancestorNotFound) ∧
     ∀ k, 0 < k ≤ blockNum → blockNum - k ≤ maxLookback → ¬ matches chainHash t k).

Lemma findAncestor_wp fuel blockNum cur w :
  cur ≤ blockNum → blockNum - cur ≤ maxLookback + 1 → maxLookback + 2 - (blockNum - cur) ≤ Z.of_nat fuel →
  (∀ k, cur < k ≤ blockNum → ¬ matches chainHash (pg_tables w) k) →
  wp (findAncestor client fuel blockNum cur (above blockNum cur))
     (λ o w', found blockNum (pg_tables w) o ∧ pg_tables w' = pg_tables w) w.
Proof using Hrpc Hquery.
  revert cur w. induction fuel as [| fuel IH]; intros cur w Hle Hlb Hf Hno; [lia |]. simpl.
  destruct ((0 <? cur) && (blockNum - cur <=? maxLookback)) eqn:Hg.
  2:{ apply wp_ret. split; [| done]. right. split; [done |]. intros k Hk Hk2. apply Hno.
      apply andb_false_iff in Hg as [Hg | Hg]; bool_prop; lia. }
  bool_prop. apply wp_bind. eapply wp_mono; [apply Hrpc |]. intros o w1 [(b & -> & Hb) Ht1].
  apply wp_bind, query_wp. rewrite Ht1.
  assert (Hnext : ¬ matches chainHash (pg_tables w) cur →
    wp (findAncestor client fuel blockNum (cur - 1) (above blockNum cur ++ [cur])%list)
       (λ o w', found blockNum (pg_tables w) o ∧ pg_tables w' = pg_tables w) w1).
  { intros Hm. assert (Hab : (above blockNum cur ++ [cur])%list = above blockNum (cur - 1)).
    { destruct (decide (cur = blockNum)) as [-> | Hne]; [| by rewrite above_snoc by lia].
      unfold above. rewrite Z.sub_diag. replace (blockNum - (blockNum - 1)) with 1 by lia.
      rewrite seqZ_single. simpl. f_equal. lia. }
    rewrite Hab, <- Ht1. apply IH; [lia | lia | lia |]. rewrite Ht1. intros k Hk.
    destruct (decide (k = cur)) as [-> | Hne]; [done | apply Hno; lia]. }
  destruct (storedHash cur (pg_tables w)) as [h |] eqn:Hh.
  - rewrite Hb. destruct (EqualFold h (chainHash cur)) eqn:Heq.
    + apply wp_ret. split; [| done]. left. exists cur, h. split_and!; try done. by exists h.
    + apply Hnext. intros (h' & Hh' & He'). rewrite Hh in Hh'. injection Hh' as <-. congruence.
  - apply Hnext. intros (h' & Hh' & _). congruence.
Qed.

Lemma FindCommonAncestor_wp blockNum w :
  wp (FindCommonAncestor client blockNum)
     (λ o w', found blockNum (pg_tables w) o ∧ pg_tables w' = pg_tables w) w.
Proof using Hrpc Hquery.
  unfold FindCommonAncestor. replace [] with (above blockNum blockNum) by (unfold above; by rewrite Z.sub_diag).
  apply findAncestor_wp; unfold maxLookback; [lia | lia | lia | lia].
Qed.
End search.



(** C16: The search for the common ancestor is correct and always ends: if the
    node answers and the queries succeed, it returns the highest height, not
    more than 1000 below the start, at which the stored block has the node's
    hash, with that hash and all the heights above it, highest first; and it
    reports "not found" exactly when there is no such height. *)
Theorem FindCommonAncestor_spec {W} {PG : Postgres W} (client : RPCClient W) (chainHash : Z → string) (blockNum : Z) (w : W)
    (Hrpc : ∀ k w, wp (rpc_BlockByNumber client k)
       (λ o w', (∃ b, o = Val (Ok b) ∧ blk_Hash b = chainHash k) ∧ pg_tables w' = pg_tables w) w)
    (Hquery : ∀ A (f : Tables → A) w, ∃ a, snd (pg_Query A f w) = Val (Ok a)) :
  wp (FindCommonAncestor client blockNum) (λ o w',
     ((∃ a h, o = Val (Ok (a, h, above blockNum a)) ∧ 0 < a ≤ blockNum ∧ blockNum - a ≤ maxLookback ∧
         matches chainHash (pg_tables w) a ∧ storedHash a (pg_tables w) = Some h ∧
         ∀ k, a < k ≤ blockNum → ¬ matches chainHash (pg_tables w) k) ∨
      (o = Val (Err ancestorNotFound) ∧
         ∀ k, 0 < k ≤ blockNum → blockNum - k ≤ maxLookback → ¬ matches chainHash (pg_tables w) k)) ∧
     pg_tables w' = pg_tables w) w.
Proof. by apply FindCommonAncestor_wp. Qed.

(** A database holding heights 1 to 4, and a node whose chain differs above 2. *)
Definition storedBlock (n : Z) (h : string) : ModelBlock := mkModelBlock n h "" 0 0 0 None 0.
Definition forkedTables : Tables :=
  mkTables (list_to_map [(1, storedBlock 1 "0xA1"); (2, storedBlock 2 "0xa2"); (3, storedBlock 3 "0xb3"); (4, storedBlock 4 "0xb4")])
    (list_to_map [((2, 0), mkTransfer 2 "" 0 "" "" 1 "" "" ""); ((4, 0), mkTransfer 4 "" 0 "" "" 1 "" "" "")])
    (<[1 := "4"]> ∅) ∅ ∅.
Definition forkedDB : PgSim := mkPgSim deployedSchema forkedTables None [].
Definition nodeHash (n : Z) : string := "0xA" ++ pretty n.
Definition forkNode : RPCClient PgSim :=
  mkRPCClient PgSim (λ n, mret (Ok (chainBlock n (nodeHash n) ""))) (λ _, mret (Ok [])) (mret (Ok 4)).

Lemma FindCommonAncestor_spec_witness :
  snd (FindCommonAncestor forkNode 4 forkedDB) = Val (Ok (2, "0xa2", [4; 3])).
Proof.
  destruct (FindCommonAncestor_spec forkNode nodeHash 4 forkedDB) as [[(a & h & Ho & Ha & _ & Hm & Hh & Hno) | [Ho Hno]] _].
  - intros k w. split; [by eexists | done].
  - intros A f w. by eexists.
  - assert (a = 2) as ->.
    { assert (H2 : matches nodeHash (pg_tables forkedDB) 2) by (exists "0xa2"; split; reflexivity).
      destruct (decide (a < 2)); [exfalso; apply (Hno 2); [lia | done] |].
      destruct (decide (a = 2)) as [| Hne]; [done | exfalso].
      assert (Hc : a = 3 ∨ a = 4) by lia. destruct Hm as (h' & Hh' & He').
      destruct Hc as [-> | ->]; injection Hh' as <-; discriminate He'. }
    rewrite Ho. injection Hh as <-. reflexivity.
  - exfalso. apply (Hno 2); [done | unfold maxLookback; lia |]. exists "0xa2". split; reflexivity.
Defined.


