(* ===== verification/Ingest.v ===== *)
(** * From the Fetcher's results to storage tasks

    The Sequencer drives the Processor through the interface [BlockProcessor].
    [TaskLog] is what it may rely on about the storage tasks a processor hands
    out; the real Processor implements it.  With it the tasks dispatched during
    a run of the main loop are tied to the Sequencer's trace, and a job of the
    Fetcher can be followed to its tasks. *)

From S2P Require Import Prelude GoInt Types GlobalState Database Sequencer SequencerSpec Orchestrator Processor Fetcher.
From Stdlib Require Import ZArith Lia String.
From stdpp Require Import base gmap sorting strings list pretty.
Open Scope Z_scope.

(** ** The interface *)

(** The number of a healthy block with its body. *)
Definition bodyNumber (d : BlockData) : option Z :=
  match bd_Err d, bd_Block d with
  | None, Some b => Some (blk_Number b)
  | _, _ => None
  end.

(** What a processor promises about the heights of its storage tasks: a block
    it accepts has a body and yields one task with the block's number, a batch it
    accepts one for each healthy block with a body, in order, and nothing else
    yields any. *)
Class TaskLog (W : Type) {BP : BlockProcessor W} := {
  tl_heights : W → list Z;
  tl_single d n w : wp (ProcessBlockWithRetry d n) (λ o w',
    (o = Val None → is_Some (bodyNumber d)) ∧
    tl_heights w' = (tl_heights w ++ match o with Val None => option_list (bodyNumber d) | _ => [] end)%list) w;
  tl_batch ds c w : wp (ProcessBatch ds c) (λ o w',
    o = Val None ∧ tl_heights w' = (tl_heights w ++ omap bodyNumber ds)%list) w;
  tl_block rpc n w : GetRPCClient = Some rpc → wp (rpc_BlockByNumber rpc n) (λ _ w', tl_heights w' = tl_heights w) w;
  tl_logs rpc q w : GetRPCClient = Some rpc → wp (rpc_FilterLogs rpc q) (λ _ w', tl_heights w' = tl_heights w) w
}.

(** The heights of the tasks an event of the trace stands for. *)
Definition evTasks (ev : SeqEvent) : list Z :=
  match ev with
  | EvProcessed d => option_list (bodyNumber d)
  | EvBatch ds => omap bodyNumber ds
  | _ => []
  end.
(** The numbers of the blocks a batch contains without their bodies. *)
Definition bodiless (d : BlockData) : option Z :=
  match bodyNumber d with Some _ => None | None => getBlockNum d end.
Definition evBodiless (ev : SeqEvent) : list Z :=
  match ev with EvBatch ds => omap bodiless ds | _ => [] end.

(** A body comes under its own number. *)
Definition ownNumber (d : BlockData) : Prop := ∀ k, bodyNumber d = Some k → getBlockNum d = Some k.
Definition ownNumbers (i : SeqInput) : Prop :=
  match i with InData first received => Forall ownNumber (first :: received) | _ => True end.
(** A block processed alone has a body, those of a batch are under their own
    numbers. *)
Definition ev_own (ev : SeqEvent) : Prop :=
  match ev with EvProcessed d => is_Some (bodyNumber d) | EvBatch ds => Forall ownNumber ds | _ => True end.

(** ** The Sequencer against the interface *)

Section sequencer.
Context {W : Type} {BP : BlockProcessor W} {TL : TaskLog W}.
Implicit Types (s : Sequencer W) (env : SeqEnv W) (d : BlockData).

(** The tasks dispatched are those of the events recorded. *)
Definition coupled s s' : Prop :=
  ∃ evs, sq_trace s' = (sq_trace s ++ evs)%list ∧ Forall ev_own evs ∧
         tl_heights (sq_world s') = (tl_heights (sq_world s) ++ (evs ≫= evTasks))%list.

#[local] Instance coupled_pre : PreOrder coupled.
Proof.
  split.
  - intros s. exists []. by rewrite !app_nil_r.
  - intros s1 s2 s3 (evs & Ht & Ho & Hh) (evs' & Ht' & Ho' & Hh'). exists (evs ++ evs')%list.
    rewrite Ht', Ht, Hh', Hh, bind_app, !app_assoc. split; [done |]. split; [by apply Forall_app | done].
Qed.

(** A step of another goroutine during a batch. *)
Definition still env : Prop :=
  ∀ s, wp (env_others env) (λ _ s', sq_trace s' = sq_trace s ∧ tl_heights (sq_world s') = tl_heights (sq_world s)) s.

Lemma coupled_silent s s' : sq_trace s' = sq_trace s → sq_world s' = sq_world s → coupled s s'.
Proof. intros Ht Hw. exists []. by rewrite Ht, Hw, !app_nil_r. Qed.

Lemma coupled_event s s' ev :
  sq_trace s' = (sq_trace s ++ [ev])%list → sq_world s' = sq_world s → ev_own ev → evTasks ev = [] → coupled s s'.
Proof.
  intros Ht Hw Ho He. exists [ev]. rewrite Ht, Hw. simpl. rewrite He, !app_nil_r. by split; [| split; [constructor |]].
Qed.

Lemma always_silent (f : Sequencer W → Sequencer W) s :
  sq_trace (f s) = sq_trace s → sq_world (f s) = sq_world s → always coupled (modify f) s.
Proof. intros. by apply always_modify, coupled_silent. Qed.

Lemma always_event (f : Sequencer W → Sequencer W) ev s :
  sq_trace (f s) = (sq_trace s ++ [ev])%list → sq_world (f s) = sq_world s → ev_own ev → evTasks ev = [] → always coupled (modify f) s.
Proof. intros. by eapply always_modify, coupled_event. Qed.

Lemma always_world {A} (m : GoM W A) s :
  (∀ w, wp m (λ _ w', tl_heights w' = tl_heights w) w) → always coupled (onWorld m) s.
Proof.
  intros H. apply wp_zoom. eapply wp_mono; [apply H |]. intros o w Hw. exists [].
  simpl. by rewrite Hw, !app_nil_r.
Qed.

Lemma handleReorgLocked_coupled env d s : always coupled (handleReorgLocked env d) s.
Proof.
  unfold handleReorgLocked. case_match; [| apply always_panic; apply _].
  do 2 (apply always_seq; [apply _ | by apply always_silent |]; intros [] ?).
  apply always_seq; [apply _ | by eapply always_event |]. intros [] s1.
  case_match; [case_match |]; try (apply always_ret; apply _).
  apply always_seq; [apply _ | by eapply always_event |]. intros. apply always_ret. apply _.
Qed.

Lemma processSequentialLocked_coupled env d s : always coupled (processSequentialLocked env d) s.
Proof.
  unfold processSequentialLocked. apply wp_bind, wp_zoom. eapply wp_mono; [apply tl_single |].
  intros o w [Hbody Hw]. destruct o as [[e |] | why]; simpl in Hw.
  - assert (Hc : coupled s (set_world w s)) by (exists []; simpl; by rewrite Hw, !app_nil_r).
    assert (H : always coupled (if is_ReorgError e then handleReorgLocked env d else mret (Some e)) (set_world w s)).
    { case_match; [apply handleReorgLocked_coupled | apply always_ret; apply _]. }
    unfold always in H. eapply wp_mono; [exact H |]. intros o s' Hs. by etransitivity.
  - wp_go. eexists [EvProcessed d]. simpl. rewrite Hw. split; [done |]. rewrite app_nil_r. split; [| done].
    constructor; [by apply Hbody | done].
  - exists []. simpl. by rewrite Hw, !app_nil_r.
Qed.

Lemma continuationLoop_coupled env fuel s : always coupled (continuationLoop env fuel) s.
Proof.
  revert s. induction fuel as [| fuel IH]; intros s; simpl; [apply always_ret; apply _ |].
  apply always_seq; [apply _ | apply always_gets; apply _ |]. intros s0 s1. case_match; [| apply always_ret; apply _].
  apply always_seq; [apply _ | by apply always_silent |]. intros [] s2.
  apply always_seq; [apply _ | apply processSequentialLocked_coupled |]. intros [e |] s3; [by apply always_silent | apply IH].
Qed.

Lemma continuations_coupled env s : always coupled (processBufferContinuationsLocked env) s.
Proof.
  apply always_seq; [apply _ | apply always_gets; apply _ |]. intros s0 s1.
  apply always_seq; [apply _ | apply continuationLoop_coupled |]. intros [] s2.
  apply always_silent; by case_match.
Qed.

Lemma teleportProgress_coupled env re s : always coupled (teleportProgress env re) s.
Proof.
  apply always_seq; [apply _ | apply always_gets; apply _ |]. intros s0 s1. case_match; [| apply always_ret; apply _].
  apply always_seq; [apply _ | by eapply always_event |]. intros [] s2.
  apply always_seq; [apply _ | by apply always_silent |]. intros [] s3. apply continuations_coupled.
Qed.

Lemma enforceBufferLimit_coupled env s : always coupled (enforceBufferLimit env) s.
Proof.
  apply always_seq; [apply _ | apply always_gets; apply _ |]. intros s0 s1.
  case_match; [case_match |]; try (apply always_ret; apply _).
  apply always_seq; [apply _ | by eapply always_event |]. intros [] s2. apply continuations_coupled.
Qed.

Lemma placeBlock_coupled env d s : always coupled (placeBlock env d) s.
Proof.
  apply always_seq; [apply _ | apply always_gets; apply _ |]. intros s0 s1.
  case_match; [| apply always_ret; apply _]. case_match; [| case_match].
  - apply always_try; [apply _ | apply processSequentialLocked_coupled |]. intros s2.
    apply always_seq; [apply _ | apply continuations_coupled |]. intros; apply always_ret; apply _.
  - apply always_ret; apply _.
  - apply always_seq; [apply _ | by apply always_silent |]. intros [] s2.
    apply always_seq; [apply _ | apply enforceBufferLimit_coupled |]. intros; apply always_ret; apply _.
Qed.

Lemma hydrate_coupled d n s : always coupled (hydrate d n) s.
Proof.
  unfold hydrate. destruct (bd_Block d), n, GetRPCClient as [rpc |] eqn:E; try (apply always_ret; apply _).
  apply always_seq; [apply _ | apply always_world; intros; by apply tl_block |].
  intros [b | e] s'; apply always_ret; apply _.
Qed.

Lemma handleBlock_coupled env fuel d s : always coupled (handleBlockLocked_fuel env fuel d) s.
Proof.
  revert d s. induction fuel as [| fuel IH]; intros d s; simpl; [apply always_ret; apply _ |].
  case_match; [case_match |].
  - apply always_seq; [apply _ | apply teleportProgress_coupled |]. intros; apply always_ret; apply _.
  - apply always_ret; apply _.
  - destruct (bd_Err d).
    + destruct (getBlockNum d); [| apply always_ret; apply _].
      destruct GetRPCClient as [rpc |] eqn:E; [| apply always_ret; apply _].
      apply always_seq; [apply _ | apply always_world; intros; by apply tl_block |].
      intros [b | e] s1; [| apply always_ret; apply _].
      apply always_seq; [apply _ | apply always_world; intros; by apply tl_logs |].
      intros [l | e] s2; [apply IH | apply always_ret; apply _].
    + apply always_seq; [apply _ | apply hydrate_coupled |]. intros d' s'. apply placeBlock_coupled.
Qed.

Lemma handleBlocks_coupled env ds s : always coupled (handleBlocks env ds) s.
Proof.
  revert s. induction ds as [| d ds IH]; intros s; simpl; [apply always_ret; apply _ |].
  apply always_try; [apply _ | apply handleBlock_coupled | apply IH].
Qed.

Lemma commitBatch_coupled env ds n s : still env → Forall ownNumber ds → always coupled (commitBatch env ds n) s.
Proof.
  intros Hst Hown. apply always_bind; [apply _ |]. eapply wp_mono; [apply Hst |]. intros o s1 [Ht Hh].
  split; [exists []; by rewrite Ht, Hh, !app_nil_r |]. destruct o as [[] |]; [| done].
  apply wp_bind, wp_zoom. eapply wp_mono; [apply tl_batch |]. intros o w [-> Hw].
  assert (H : always coupled (processBufferContinuationsLocked env;; mret (None : option GoErr))
    (set_gapFill 0 (set_lastProgress (env_now env) (emit (EvBatch ds) (set_expected n (set_world w s1)))))).
  { apply always_seq; [apply _ | apply continuations_coupled |]. intros; apply always_ret; apply _. }
  do 3 apply wp_bind, wp_modify. unfold always in H. eapply wp_mono; [exact H |]. intros o s' Hs.
  etransitivity; [| exact Hs]. exists [EvBatch ds]. simpl. rewrite Hw, app_nil_r. split; [done |]. by split; [constructor |].
Qed.

Lemma handleBatch_coupled env ds s : still env → Forall ownNumber ds → always coupled (handleBatch env ds) s.
Proof.
  intros Hst Hown. apply always_seq; [apply _ | apply always_silent; by case_match |]. intros [] s1.
  apply always_seq; [apply _ | apply always_gets; apply _ |]. intros s0 s2.
  pose proof (classify_spec (sq_expectedBlock s0) ds) as Hc.
  destruct (classify (sq_expectedBlock s0) ds) as [[singles sq] remaining]. destruct Hc as [-> _].
  apply Forall_app in Hown as [_ [Hown _]%Forall_app].
  destruct sq as [| d [| d2 sq]].
  - apply handleBlocks_coupled.
  - apply always_try; [apply _ | apply handleBlock_coupled |]. intros s3.
    apply always_try; [apply _ | apply handleBlocks_coupled |]. intros s4. apply handleBlocks_coupled.
  - apply always_try; [apply _ | by apply commitBatch_coupled |]. intros s3.
    apply always_try; [apply _ | apply handleBlocks_coupled |]. intros s4. apply handleBlocks_coupled.
Qed.

Lemma handleStall_coupled env s : always coupled (handleStall env) s.
Proof.
  apply always_seq; [apply _ | apply always_gets; apply _ |]. intros s0 s1. cbn zeta.
  repeat case_match; (by eapply always_event) || (apply always_ret; apply _).
Qed.

Lemma collect_own {SS : SortSlice} first received :
  Forall ownNumber (first :: received) → Forall ownNumber (collectBatch first received).
Proof.
  intros H. unfold collectBatch. rewrite (sort_Slice_perm numLess). apply Forall_cons in H as [? ?].
  constructor; [done |]. by apply Forall_take.
Qed.

Lemma Run_coupled {SS : SortSlice} (inputs : list (SeqEnv W * SeqInput)) s :
  Forall (λ ei, still ei.1 ∧ ownNumbers ei.2) inputs → always coupled (Run inputs) s.
Proof.
  intros H. revert s. induction H as [| [env i] inputs [Hst Hown] _ IH]; intros s; simpl; [apply always_ret; apply _ |].
  apply always_seq; [apply _ | | intros [] s'; [apply IH | apply always_ret; apply _]].
  destruct i; simpl.
  - apply always_seq; [apply _ | apply continuations_coupled |]. intros; apply always_ret; apply _.
  - apply always_seq; [apply _ | apply handleStall_coupled |]. intros; apply always_ret; apply _.
  - apply always_ret; apply _.
  - apply always_seq; [apply _ | apply continuations_coupled |]. intros; apply always_ret; apply _.
  - apply always_seq; [apply _ | by apply handleBatch_coupled, collect_own |]. intros [e |] s'; [| apply always_ret; apply _].
    apply always_seq; [apply _ | by eapply always_event |]. intros; apply always_ret; apply _.
Qed.
End sequencer.

(** ** The Processor implements the interface *)

(** The RPC client of the database's world, seen from the Processor. *)
Definition liftClient {W} (c : RPCClient W) : RPCClient (Processor W) :=
  mkRPCClient _ (λ n, onDB (rpc_BlockByNumber c n)) (λ q, onDB (rpc_FilterLogs c q)) (onDB (rpc_GetLatestBlockNumber c)).

Definition taskHeight (cmd : MsgType * Payload) : option Z :=
  match cmd with
  | (CmdCommitBatch, DTask t) => Some (mb_Number (pt_Block t))
  | _ => None
  end.
Definition taskHeights {W} (p : Processor W) : list Z := omap taskHeight (pr_out p).

Section implementation.
Context {W : Type} {PG : Postgres W} (env : ProcEnv) (client : RPCClient W).

Lemma ProcessBlock_heights d (p : Processor W) :
  wp (ProcessBlock env d) (λ o p', (o = Val None → is_Some (bodyNumber d)) ∧
    taskHeights p' = (taskHeights p ++ match o with Val None => option_list (bodyNumber d) | _ => [] end)%list) p.
Proof.
  unfold ProcessBlock. destruct (bd_Err d) as [e |] eqn:He; [apply wp_ret; by rewrite app_nil_r |].
  destruct (bd_Block d) as [b |] eqn:Hb; [| apply wp_panic; by rewrite app_nil_r].
  assert (Hbody : is_Some (bodyNumber d)) by (unfold bodyNumber; rewrite He, Hb; by eexists).
  apply wp_try. eapply wp_mono; [apply handleReorgReadOnly_pure |].
  intros o p1 ([[e |] ->] & ->); [by rewrite app_nil_r |]. apply wp_bind, wp_gets. unfold id.
  do 4 apply wp_bind, wp_modify. apply wp_ret. unfold taskHeights, bodyNumber. rewrite He, Hb. simpl.
  case_match; simpl; by rewrite omap_app.
Qed.

Lemma retryBlock_heights d i n e (p : Processor W) :
  wp (retryBlock env d i n e) (λ o p', (o = Val None → is_Some (bodyNumber d)) ∧
    taskHeights p' = (taskHeights p ++ match o with Val None => option_list (bodyNumber d) | _ => [] end)%list) p.
Proof.
  revert i e p. induction n as [| n IH]; intros i e p; simpl; [apply wp_ret; by rewrite app_nil_r |].
  apply wp_bind. eapply wp_mono; [apply ProcessBlock_heights |]. intros [[e' |] | why] p1 [Hb H1]; [| apply wp_ret; split; [by intros; apply Hb | exact H1] | done].
  rewrite app_nil_r in H1. case_match; [apply wp_ret; by rewrite H1, app_nil_r |].
  case_match; [apply wp_ret; by rewrite H1, app_nil_r |].
  eapply wp_mono; [apply IH |]. intros o p2 [? H2]. split; [done |]. by rewrite H2, H1.
Qed.

Lemma batchBlocks_heights c ds (p : Processor W) :
  wp (batchBlocks env c ds) (λ o p', o = Val tt ∧ taskHeights p' = (taskHeights p ++ omap bodyNumber ds)%list) p.
Proof.
  revert p. induction ds as [| d ds IH]; intros p; [apply wp_ret; by rewrite app_nil_r |].
  simpl batchBlocks. apply wp_bind.
  eapply (wp_mono _ (λ o p', o = Val tt ∧ taskHeights p' = (taskHeights p ++ option_list (bodyNumber d))%list)).
  - unfold batchBlock, bodyNumber. destruct (bd_Err d), (bd_Block d); try (apply wp_ret; by rewrite app_nil_r).
    apply wp_bind, wp_gets. unfold id. apply wp_bind, wp_modify, wp_modify. unfold taskHeights. simpl. by rewrite omap_app.
  - intros o p1 [-> H1]. eapply wp_mono; [apply IH |]. intros o p2 [-> H2]. split; [done |].
    rewrite H2, H1, <- app_assoc. f_equal. csimpl. by destruct (bodyNumber d).
Qed.

Definition realProcessor : BlockProcessor (Processor W) := processorOps env (Some (liftClient client)).
#[local] Existing Instance realProcessor.

#[export] Program Instance processorLog : TaskLog (Processor W) (BP := realProcessor) := {| tl_heights := taskHeights |}.
Next Obligation. intros d n p. apply retryBlock_heights. Qed.
Next Obligation.
  intros ds c p. simpl. unfold ProcessBatchBlocks. destruct ds as [| d ds]; [apply wp_ret; by rewrite app_nil_r |].
  apply wp_bind. eapply wp_mono; [apply batchBlocks_heights |]. intros o p1 [-> H1]. apply wp_bind.
  eapply (wp_mono _ (λ o p', o = Val tt ∧ taskHeights p' = taskHeights p1)).
  - unfold updateBatchMetrics. repeat case_match; (by apply wp_modify) || (by apply wp_ret).
  - intros o p2 [-> H2]. apply wp_ret. by rewrite H2, H1.
Qed.
Next Obligation. intros rpc n p [= <-]. simpl. by apply wp_zoom. Qed.
Next Obligation. intros rpc q p [= <-]. simpl. by apply wp_zoom. Qed.
End implementation.

(** ** A job's results *)

(** What the Fetcher reports for block [k] of a job that ends at [last], when
    the node answers: the body only if the block has logs or ends the job. *)
Definition withBody (logs : list Log) (last k : Z) : bool :=
  bool_decide (filter (λ l, log_BlockNumber l = big_Uint64 k) logs ≠ []) || (k =? last).
Definition reported (logs : list Log) (last : Z) (d : BlockData) : Prop :=
  bd_Err d = None ∧ ∃ k, bd_Number d = Some k ∧ bodyNumber d = if withBody logs last k then Some k else None.

#[local] Arguments retryFetch : simpl never.

Section job.
Context {W : Type} {RL : RateLimit W} (pool : RPCClient W).
Context (Hblock : ∀ k w, wp (rpc_BlockByNumber pool k) (λ o _, ∃ b, o = Val (Ok b) ∧ blk_Number b = k) w).

Lemma retryFetch_body n onOk e0 k (f : Fetcher W) :
  wp (retryFetch (S n) (rpc_BlockByNumber pool k) onOk e0)
     (λ o f', (∃ b, o = Val (Some (Ok b)) ∧ blk_Number b = k) ∧ fetch_frame f f' ∧ fe_Results f' = fe_Results f) f.
Proof using Hblock.
  apply wp_bind, wp_zoom. eapply wp_mono; [apply Hblock |]. intros o w (b & -> & Hb).
  apply wp_bind, wp_modify, wp_ret. split_and!; [by eexists | by split_and! | done].
Qed.

Lemma reportBlocks_bodies count n last logs (f : Fetcher W) :
  fe_picks f = [] → fe_throughput f = None → fe_bpsLimiter f = None →
  wp (reportBlocks pool count n last logs)
     (λ o f', o = Val tt ∧ ∃ new, fe_Results f' = (fe_Results f ++ new)%list ∧
        bd_Number <$> new = Some <$> seqZ n (Z.of_nat count) ∧ Forall (reported logs last) new) f.
Proof using Hblock.
  revert n f. induction count as [| count IH]; intros n f Hp Ht Hb.
  { apply wp_ret. split; [done |]. exists []. by rewrite app_nil_r. }
  simpl. apply wp_bind.
  eapply (wp_mono _ (λ o f', (∃ b, o = Val (Some (b, None)) ∧
      (if withBody logs last n then ∃ b', b = Some b' ∧ blk_Number b' = n else b = None)) ∧
      fetch_frame f f' ∧ fe_Results f' = fe_Results f)).
  { unfold withBody. case_match; [| apply wp_ret; split_and!; [by eexists | by split_and! | done]].
    apply wp_bind. eapply wp_mono; [apply retryFetch_body |]. intros o f' ((b & -> & Hn) & Hfr & Hres).
    apply wp_ret. split_and!; [| done | done]. eexists. split; [done |]. by exists b. }
  intros o f1 ((b & -> & Hbody) & Hfr1 & Hres1). apply wp_bind.
  eapply wp_mono; [apply sendResult_wp; destruct Hfr1; intuition congruence |].
  intros o f2 (-> & Hfr2 & Hres2). apply wp_bind, wp_modify.
  eapply wp_mono; [apply IH; simpl; destruct Hfr1, Hfr2; intuition congruence |].
  intros o f3 (-> & new & Hres3 & Hnum & Hall). split; [done |].
  eexists (_ :: new). split_and!.
  - rewrite Hres3. simpl. rewrite Hres2, Hres1, <- app_assoc. reflexivity.
  - rewrite Nat2Z.inj_succ, (seqZ_cons n) by lia. rewrite !fmap_cons, Hnum. simpl. repeat f_equal; lia.
  - constructor; [| done]. split; [done |]. exists n. split; [done |]. unfold bodyNumber. simpl.
    destruct (withBody logs last n); [by destruct Hbody as (b' & -> & ->) | by subst].
Qed.

Lemma fetchRange_bodies start last logs (f : Fetcher W) :
  start ≤ last → fe_picks f = [] → fe_throughput f = None → fe_bpsLimiter f = None →
  (∀ q w, wp (rpc_FilterLogs pool q) (λ o _, o = Val (Ok logs)) w) →
  wp (fetchRangeWithLogs pool start last)
     (λ o f', ∃ new, fe_Results f' = (fe_Results f ++ new)%list ∧
        bd_Number <$> new = Some <$> seqZ start (last - start + 1) ∧ Forall (reported logs last) new) f.
Proof using Hblock.
  intros Hse Hp Ht Hb Hq. apply wp_bind, wp_gets. unfold id. apply wp_bind.
  eapply wp_mono; [apply retryFetch_ok, Hq |]. intros o f1 (-> & (Hp1 & Ht1 & Hb1 & _) & Hres1).
  eapply wp_mono; [apply reportBlocks_bodies; congruence |].
  intros o f' (_ & new & Hres & Hnum & Hall). exists new. split_and!; [congruence | | done].
  rewrite Hnum. do 2 f_equal. lia.
Qed.
End job.

(** The tasks of a consecutive batch of reported blocks. *)
Lemma reported_tasks logs last ds ks :
  Forall (reported logs last) ds → getBlockNum <$> ds = Some <$> ks →
  omap bodyNumber ds = filter (λ k, withBody logs last k = true) ks.
Proof.
  intros H. revert ks. induction H as [| d ds (_ & k & Hn & Hb) _ IH]; intros ks Hk.
  - by destruct ks.
  - destruct ks as [| k' ks]; [done |]. rewrite !fmap_cons in Hk. injection Hk as Hk Hks.
    unfold getBlockNum in Hk. rewrite Hn in Hk. injection Hk as ->. csimpl. rewrite Hb, filter_cons.
    destruct (withBody logs last k'); rewrite (IH _ Hks); by case_decide.
Qed.

Lemma reported_numbers logs last ds : Forall (reported logs last) ds → getBlockNum <$> ds = bd_Number <$> ds.
Proof.
  induction 1 as [| d ds (_ & k & Hn & _) _ IH]; [done |]. rewrite !fmap_cons, IH. f_equal.
  unfold getBlockNum. by rewrite Hn.
Qed.

(** ** What a run leaves out *)

Lemma filter_ext_in {A} (P Q : A → Prop) `{!∀ x, Decision (P x), !∀ x, Decision (Q x)} (l : list A) :
  (∀ x, x ∈ l → (P x ↔ Q x)) → filter P l = filter Q l.
Proof.
  induction l as [| x l IH]; [done |]. intros Hpq. rewrite !filter_cons, IH by (intros; apply Hpq; by right).
  destruct (Hpq x ltac:(left)). repeat case_decide; tauto.
Qed.
Lemma Forall_filter {A} (Q P : A → Prop) `{!∀ x, Decision (P x)} (l : list A) : Forall Q l → Forall Q (filter P l).
Proof. rewrite !Forall_forall. intros Hq x [_ Hx]%list_elem_of_filter. by apply Hq. Qed.
Lemma StronglySorted_filter {A} (R : A → A → Prop) (P : A → Prop) `{!∀ x, Decision (P x)} (l : list A) :
  StronglySorted R l → StronglySorted R (filter P l).
Proof.
  induction 1 as [| x l Hl IH Hx]; [constructor |]. rewrite filter_cons. case_decide; [| done].
  constructor; [done | by apply Forall_filter].
Qed.
Lemma sorted_lt_NoDup (l : list Z) : StronglySorted Z.lt l → NoDup l.
Proof.
  induction 1 as [| x l _ IH Hx]; constructor; [| done]. intros Hin.
  rewrite Forall_forall in Hx. specialize (Hx _ Hin). lia.
Qed.
Lemma omap_bind {A B} (f : A → option B) (l : list A) : omap f l = l ≫= (λ x, option_list (f x)).
Proof. induction l as [| x l IH]; [done |]. csimpl. rewrite <- IH. by destruct (f x). Qed.

(** Parts of a list without duplicates, each without its own exceptions. *)
Lemma bind_filter {A} (stored numbers out : A → list Z) (l : list A) :
  Forall (λ x, (NoDup (numbers x) → stored x = filter (λ n, n ∉ out x) (numbers x)) ∧ out x ⊆ numbers x) l →
  (NoDup (l ≫= numbers) → l ≫= stored = filter (λ n, n ∉ l ≫= out) (l ≫= numbers)) ∧ l ≫= out ⊆ l ≫= numbers.
Proof.
  induction 1 as [| x l [Hst Hsub] _ [IH Hsub']]; [done |]. csimpl. split; [| set_solver].
  intros (Hx & Hdis & Hl)%NoDup_app. rewrite filter_app, (Hst Hx), (IH Hl).
  f_equal; apply filter_ext_in; intros n Hn; specialize (Hdis n); set_solver.
Qed.

Lemma event_stored e ev e' :
  spec_step e ev e' → ev_own ev →
  (NoDup (evNumbers ev) → evTasks ev = filter (λ n, n ∉ evBodiless ev) (evNumbers ev)) ∧ evBodiless ev ⊆ evNumbers ev.
Proof.
  intros Hs Hown. destruct Hs as [e d Hn He | e ds Hf Hn | | | | | | |]; simpl in *; try done.
  - rewrite Hn. assert (Hk : bodyNumber d = Some e).
    { destruct Hown as [k Hk]. unfold bodyNumber in *. unfold effectiveNum in Hn. rewrite He in *. by destruct (bd_Block d). }
    rewrite Hk. split; [| apply list_subseteq_nil]. intros _. simpl. rewrite filter_cons_True; [done | set_solver].
  - rewrite !omap_bind. apply (bind_filter (λ d, option_list (bodyNumber d))).
    eapply Forall_impl; [exact Hown |]. intros d Hd'. unfold bodiless.
    destruct (bodyNumber d) as [k |] eqn:Hk; simpl.
    { rewrite (Hd' _ Hk). split; [| apply list_subseteq_nil]. intros _. simpl. rewrite filter_cons_True; [done | set_solver]. }
    split; [intros _ | done]. destruct (getBlockNum d); [| done]. simpl. rewrite filter_cons_False; [done | set_solver].
Qed.

Lemma run_stored e evs e' :
  spec_run e evs e' → Forall ev_own evs → StronglySorted Z.lt (processedNumbers evs) →
  evs ≫= evTasks = filter (λ n, n ∉ evs ≫= evBodiless) (processedNumbers evs).
Proof.
  intros Hr Hown Hs. apply bind_filter; [| by apply sorted_lt_NoDup]. clear Hs.
  induction Hr as [| e ev e1 evs e' Hstep _ IH]; [done |]. apply Forall_cons in Hown as [H1 H2].
  constructor; [by eapply event_stored | by apply IH].
Qed.

(** ** Against the interface *)

Section runs.
Context {W : Type} {BP : BlockProcessor W} {TL : TaskLog W} {SS : SortSlice}.

Lemma Run_tasks (inputs : list (SeqEnv W * SeqInput)) start now fetcher (w : W) :
  Forall (λ ei, quiet ei.1) inputs → Forall (λ ei, still ei.1 ∧ ownNumbers ei.2) inputs → tl_heights w = [] →
  wp (Run inputs)
     (λ _ s', Forall (λ ev, isForced ev = false) (sq_trace s') →
        let tasks := tl_heights (sq_world s') in
        StronglySorted Z.lt tasks ∧ Forall (λ n, start ≤ n < sq_expectedBlock s') tasks ∧
        (Forall (λ ev, isJump ev = false) (sq_trace s') →
         tasks = filter (λ n, n ∉ sq_trace s' ≫= evBodiless) (seqZ start (sq_expectedBlock s' - start))))
     (NewSequencer start now fetcher w).
Proof.
  intros Hq Hs Hp.
  pose proof (Run_safe inputs (NewSequencer start now fetcher w) Hq) as Hsafe.
  pose proof (Run_coupled inputs (NewSequencer start now fetcher w) Hs) as Hc.
  unfold safe, always, wp, refines_step, coupled in *. simpl in Hsafe, Hc.
  destruct Hsafe as [_ (evs & Ht & Hr)]; [done |]. destruct Hc as (evs' & Ht' & Hown & Hh).
  rewrite Ht in Ht'. subst evs'. rewrite Ht. intros Hf. cbv zeta.
  destruct (spec_run_sorted _ _ _ Hr Hf) as (_ & Hsort & Hin).
  rewrite Hh, Hp. simpl. rewrite (run_stored _ _ _ Hr Hown Hsort). split_and!.
  - by apply StronglySorted_filter.
  - by apply Forall_filter.
  - intros Hj. by destruct (spec_run_exact _ _ _ Hr Hj) as [_ ->].
Qed.

(** A pass that collects a job's results. *)
Lemma Run_reported env logs last start now fetcher first received (w : W) :
  quiet env → still env → tl_heights w = [] → start < last < start + 100 →
  Forall (reported logs last) (first :: received) →
  bd_Number <$> (first :: received) = Some <$> seqZ start (last - start + 1) →
  wp (Run [(env, InData first received)])
     (λ o s', o = Val true ∧ sq_expectedBlock s' = last + 1 ∧
        tl_heights (sq_world s') = filter (λ k, withBody logs last k = true) (seqZ start (last - start + 1)))
     (NewSequencer start now fetcher w).
Proof.
  intros Hq Hs Hh Hrange Hrep Hnum. rewrite <- (reported_numbers _ _ _ Hrep) in Hnum.
  assert (Hlen : S (length received) = Z.to_nat (last - start + 1)).
  { apply (f_equal length) in Hnum. rewrite !length_fmap, length_seqZ in Hnum. exact Hnum. }
  assert (Hwp : wp (handleBatch env (collectBatch first received))
     (λ o s', o = Val None ∧ sq_expectedBlock s' = start + Z.of_nat (Z.to_nat (last - start + 1)) ∧
        ∃ ds, ds ≡ₚ first :: received ∧ SequencerSpec.consecutive start ds ∧ sq_trace s' = [EvBatch ds])
     (NewSequencer start now fetcher w)).
  { apply (collect_and_handle env first received (NewSequencer start now fetcher w) (Z.to_nat (last - start + 1)));
      [done | done | unfold maxBatchSize; lia | | | ].
    - intros ds c w'. eapply wp_mono; [apply tl_batch |]. by intros o w'' [-> _].
    - eapply Forall_impl; [exact Hrep |]. by intros d [? _].
    - rewrite Z2Nat.id by lia. simpl. by rewrite <- Hnum. }
  assert (Hown : Forall ownNumber (first :: received)).
  { eapply Forall_impl; [exact Hrep |]. intros d (_ & k & Hn & Hb) k' Hk'. unfold getBlockNum. rewrite Hn, Hk' in *.
    by destruct (withBody logs last k). }
  pose proof (handleBatch_coupled env (collectBatch first received) (NewSequencer start now fetcher w) Hs (collect_own _ _ Hown)) as Hc.
  simpl. apply wp_bind, wp_bind. unfold always, wp in *.
  destruct (handleBatch env (collectBatch first received) (NewSequencer start now fetcher w)) as [s1 o]. simpl in *.
  destruct Hwp as (-> & He & ds & Hperm & [_ Hcons] & Htr). destruct Hc as (evs & Ht' & _ & Hh'). rewrite Htr in Ht'. simpl in Ht', Hh'. subst evs.
  simpl. split_and!; [done | rewrite He; lia |]. rewrite Hh', Hh. simpl. rewrite app_nil_r.
  apply reported_tasks; [by rewrite Hperm |]. rewrite Hcons. do 2 f_equal.
  apply Permutation_length in Hperm. simpl in Hperm. lia.
Qed.
End runs.

(** ** Properties *)

(** C3: A storage task is dispatched at most once per block and in order, and
    only a block that a batch contains without its body gets none.  Let the main
    loop of the Sequencer, from [start], drive the real Processor.  The bodies
    that arrive carry their own numbers ([ownNumbers]); the other goroutines leave
    trace, [expectedBlock] and tasks alone.  Unless a stall skip, an overflow or a
    reset moved [expectedBlock], the heights of the tasks dispatched to the
    Orchestrator increase strictly from [start] and are below [expectedBlock]; if
    no range signal moved it either, they are all of [start, ...,
    expectedBlock-1] except the bodies missing from batches ([evBodiless]), for
    which nothing is ever stored. *)
Theorem tasks_exactly_once {W} {PG : Postgres W} {SS : SortSlice} (penv : ProcEnv) (client : RPCClient W)
    (start now : Z) (fetcher : option bool) (p : Processor W) :
  let BP := realProcessor penv client in
  ∀ inputs : list (SeqEnv (Processor W) * SeqInput),
  Forall (λ ei, quiet ei.1) inputs →
  Forall (λ ei, still (TL := processorLog penv client) ei.1 ∧ ownNumbers ei.2) inputs → taskHeights p = [] →
  wp (Run inputs)
     (λ _ s', Forall (λ ev, isForced ev = false) (sq_trace s') →
        let tasks := taskHeights (sq_world s') in
        StronglySorted Z.lt tasks ∧ Forall (λ n, start ≤ n < sq_expectedBlock s') tasks ∧
        (Forall (λ ev, isJump ev = false) (sq_trace s') →
         tasks = filter (λ n, n ∉ sq_trace s' ≫= evBodiless) (seqZ start (sq_expectedBlock s' - start))))
     (NewSequencer start now fetcher p).
Proof.
  intros BP inputs Hq Hs Hp. exact (Run_tasks (TL := processorLog penv client) inputs start now fetcher p Hq Hs Hp).
Qed.

(** C12: A job followed end to end.  The Fetcher downloads blocks [start..last]
    (at most 100) without limiters, the node answering everything; its results reach a fresh
    Sequencer at [start] in one pass, which drives the real Processor.  The
    Sequencer then expects [last+1], but storage tasks were dispatched only for
    the blocks that have logs and for [last]: the Fetcher reports the others
    without a body and the batch path of the Processor skips them, so their
    rows and their native transfers are never stored. *)
Theorem job_stores_only_blocks_with_logs {W V} {PG : Postgres W} {RL : RateLimit V} {SS : SortSlice}
    (penv : ProcEnv) (client : RPCClient W) (pool : RPCClient V) (logs : list Log) (start last now : Z)
    (f : Fetcher V) (p : Processor W) (env : SeqEnv (Processor W)) :
  let BP := realProcessor penv client in
  (∀ k w, wp (rpc_BlockByNumber pool k) (λ o _, ∃ b, o = Val (Ok b) ∧ blk_Number b = k) w) →
  (∀ q w, wp (rpc_FilterLogs pool q) (λ o _, o = Val (Ok logs)) w) →
  start < last < start + 100 → fe_picks f = [] → fe_throughput f = None → fe_bpsLimiter f = None → fe_Results f = [] →
  quiet env → still (TL := processorLog penv client) env → taskHeights p = [] →
  let results := fe_Results (fst (fetchRangeWithLogs pool start last f)) in
  ∃ first received, results = first :: received ∧
    wp (Run [(env, InData first received)])
       (λ o s', o = Val true ∧ sq_expectedBlock s' = last + 1 ∧
          taskHeights (sq_world s') = filter (λ k, withBody logs last k = true) (seqZ start (last - start + 1)))
       (NewSequencer start now None p).
Proof.
  intros BP Hblock Hlogs Hrange Hp Ht Hb Hr Hq Hs Hh results.
  pose proof (fetchRange_bodies pool Hblock start last logs f ltac:(lia) Hp Ht Hb Hlogs) as (new & Hres & Hnum & Hrep).
  rewrite Hr in Hres. simpl in Hres. subst results. rewrite Hres.
  destruct new as [| first received]; [apply (f_equal length) in Hnum; rewrite !length_fmap, length_seqZ in Hnum; simpl in Hnum; lia |].
  exists first, received. split; [done |].
  by apply (Run_reported (TL := processorLog penv client)).
Qed.

(** ** Witnesses *)

Definition quietEnv (W : Type) (now : Z) : SeqEnv W := mkSeqEnv now 1 None Canceled (mret tt).
Lemma quietEnv_quiet W now : quiet (quietEnv W now).
Proof. intros s. by apply wp_ret. Qed.
Lemma quietEnv_still {W} {BP : BlockProcessor W} {TL : TaskLog W} now : still (quietEnv W now).
Proof. intros s. by apply wp_ret. Qed.

Definition noClient : RPCClient PgSim :=
  mkRPCClient PgSim (λ n, mret (Ok (chainBlock n "" ""))) (λ _, mret (Ok [])) (mret (Ok 0)).
Definition linkedInput (n : Z) : BlockData :=
  mkBlockData (Some n) None (Some (chainBlock n ("h" ++ pretty n) ("h" ++ pretty (n - 1)))) None [].
Definition emptyInput (n : Z) : BlockData := mkBlockData (Some n) None None None [].
(** Block 8 is reported without its body. *)
Definition linkedInputs : list (SeqEnv (Processor PgSim) * SeqInput) :=
  [(quietEnv _ 1, InData (linkedInput 7) [linkedInput 6; emptyInput 8]); (quietEnv _ 2, InData (linkedInput 10) []);
   (quietEnv _ 3, InData (linkedInput 9) [])].

Lemma tasks_exactly_once_witness :
  let BP := realProcessor noEnv noClient in let SS := goSortSlice in
  let s' := fst (Run linkedInputs (NewSequencer 6 0 None sampleProcessor)) in
  sq_trace s' ≫= evBodiless = [8] ∧ taskHeights (sq_world s') = [6; 7; 9; 10].
Proof.
  intros BP SS s'. assert (Hout : sq_trace s' ≫= evBodiless = [8]) by (vm_compute; reflexivity). split; [exact Hout |].
  pose proof (tasks_exactly_once noEnv noClient 6 0 None sampleProcessor linkedInputs) as H.
  unfold wp in H. destruct H as (_ & _ & H).
  - unfold linkedInputs. repeat constructor; apply quietEnv_quiet.
  - unfold linkedInputs. repeat (constructor; [split; [exact (quietEnv_still (TL := processorLog noEnv noClient) _) |] |]); [.. | constructor];
      simpl; repeat (apply Forall_cons_2; [intros k Hk; (discriminate Hk || (injection Hk as <-; reflexivity)) |]); constructor.
  - reflexivity.
  - apply Forall_forall. intros ev Hev. vm_compute in Hev. repeat (apply elem_of_cons in Hev as [-> | Hev]; [reflexivity |]).
    by apply elem_of_nil in Hev.
  - cbv zeta in H. etransitivity; [apply H | change (sq_trace (fst (Run linkedInputs (NewSequencer 6 0 None sampleProcessor)))) with (sq_trace s'); rewrite Hout; vm_compute; reflexivity].
    apply Forall_forall. intros ev Hev. vm_compute in Hev. repeat (apply elem_of_cons in Hev as [-> | Hev]; [reflexivity |]).
    by apply elem_of_nil in Hev.
Defined.

Lemma job_stores_only_blocks_with_logs_witness :
  let BP := realProcessor noEnv noClient in let SS := goSortSlice in let RL := fullLimiter in
  ∃ first received, fe_Results (fst (fetchRangeWithLogs (answeringNode [sampleLog 11 0]) 10 13 sampleFetcher)) = first :: received ∧
    wp (Run [(quietEnv _ 1, InData first received)])
       (λ o s', sq_expectedBlock s' = 14 ∧ taskHeights (sq_world s') = [11; 13]) (NewSequencer 10 0 None sampleProcessor).
Proof.
  intros BP SS RL.
  destruct (job_stores_only_blocks_with_logs noEnv noClient (answeringNode [sampleLog 11 0]) [sampleLog 11 0] 10 13 0
    sampleFetcher sampleProcessor (quietEnv _ 1)) as (first & received & Hres & Hrun);
    [intros k w; by eexists | done | lia | done | done | done | done | apply quietEnv_quiet | apply quietEnv_still | done |].
  exists first, received. split; [exact Hres |]. eapply wp_mono; [exact Hrun |].
  intros o s' (_ & He & Ht). split; [exact He |]. rewrite Ht. vm_compute. reflexivity.
Defined.
