(* ===== verification/QuotaGuard.v ===== *)
(** * The RPC quota guard (internal/engine/rpc_quota_guard.go)

    The daily budget of RPC requests, its modes, and the lock that its methods
    take; a method that waits for a lock its own goroutine holds blocks for
    ever ([Prelude.deadlock]). *)

From S2P Require Import Prelude GoInt.
From Stdlib Require Import ZArith Lia String SpecFloat.
From stdpp Require Import base strings.
Open Scope Z_scope.

Inductive QuotaMode : Type := QuotaModeNormal | QuotaModeThrottling | QuotaModeStrict | QuotaModeExhausted.

Definition QuotaMode_String (m : QuotaMode) : string :=
  match m with
  | QuotaModeNormal => "NORMAL"
  | QuotaModeThrottling => "THROTTLING"
  | QuotaModeStrict => "STRICT"
  | QuotaModeExhausted => "EXHAUSTED"
  end.

(** The struct; [qg_slept] is the time [AllowRequest] slept, in nanoseconds. *)
Record QuotaGuard := mkQuotaGuard {
  qg_mu : RWMutex;
  qg_DailyLimit : Z;
  qg_CurrentUsed : Z;
  qg_StrictThreshold : float64;
  qg_LastResetTime : Z;
  qg_mode : QuotaMode;
  qg_requestsDenied : Z;
  qg_slept : Z
}.

Definition qset_mu (v : RWMutex) (g : QuotaGuard) : QuotaGuard :=
  mkQuotaGuard v (qg_DailyLimit g) (qg_CurrentUsed g) (qg_StrictThreshold g) (qg_LastResetTime g) (qg_mode g) (qg_requestsDenied g) (qg_slept g).
Definition qset_used (v : Z) (g : QuotaGuard) : QuotaGuard :=
  mkQuotaGuard (qg_mu g) (qg_DailyLimit g) v (qg_StrictThreshold g) (qg_LastResetTime g) (qg_mode g) (qg_requestsDenied g) (qg_slept g).
Definition qset_reset (v : Z) (g : QuotaGuard) : QuotaGuard :=
  mkQuotaGuard (qg_mu g) (qg_DailyLimit g) (qg_CurrentUsed g) (qg_StrictThreshold g) v (qg_mode g) (qg_requestsDenied g) (qg_slept g).
Definition qset_mode (v : QuotaMode) (g : QuotaGuard) : QuotaGuard :=
  mkQuotaGuard (qg_mu g) (qg_DailyLimit g) (qg_CurrentUsed g) (qg_StrictThreshold g) (qg_LastResetTime g) v (qg_requestsDenied g) (qg_slept g).
Definition qset_denied (v : Z) (g : QuotaGuard) : QuotaGuard :=
  mkQuotaGuard (qg_mu g) (qg_DailyLimit g) (qg_CurrentUsed g) (qg_StrictThreshold g) (qg_LastResetTime g) (qg_mode g) v (qg_slept g).
Definition qset_slept (v : Z) (g : QuotaGuard) : QuotaGuard :=
  mkQuotaGuard (qg_mu g) (qg_DailyLimit g) (qg_CurrentUsed g) (qg_StrictThreshold g) (qg_LastResetTime g) (qg_mode g) (qg_requestsDenied g) v.

Definition qgM : Type → Type := GoM QuotaGuard.
Definition qg_Locked {A} (m : qgM A) : qgM A := with_Lock qg_mu qset_mu m.
Definition qg_RLocked {A} (m : qgM A) : qgM A :=
  mu_RLock qg_mu qset_mu;; a ← m; mu_RUnlock qg_mu qset_mu;; mret a.

Definition Day : Z := 24 * 3600 * 1000000000.
Definition percent (n : Z) : float64 := float_div (float_of_Z n) (float_of_Z 100).
Definition ratio (used limit : Z) : float64 := float_div (float_of_Z used) (float_of_Z limit).

Definition NewQuotaGuard (dailyLimit now : Z) : QuotaGuard :=
  mkQuotaGuard Unlocked dailyLimit 0 (percent 90) now QuotaModeNormal 0 0.

Definition GetUsageRatio : qgM float64 := qg_RLocked (gets (λ g, ratio (qg_CurrentUsed g) (qg_DailyLimit g))).
Definition GetMode : qgM QuotaMode := qg_RLocked (gets qg_mode).

(** [updateMode] writes [mode] without the lock; its log line reads the ratio. *)
Definition updateMode (mode : QuotaMode) : qgM unit :=
  g ← gets id;
  match qg_mode g, mode with
  | QuotaModeNormal, QuotaModeNormal | QuotaModeThrottling, QuotaModeThrottling
  | QuotaModeStrict, QuotaModeStrict | QuotaModeExhausted, QuotaModeExhausted => mret tt
  | _, _ => modify (qset_mode mode);; GetUsageRatio;; mret tt
  end.

Definition AllowRequest : qgM bool :=
  usageRatio ← GetUsageRatio;
  g ← gets id;
  if SFleb (float_of_Z 1) usageRatio then modify (λ g, qset_denied (i64 (qg_requestsDenied g + 1)) g);; mret false
  else if float_gtb usageRatio (qg_StrictThreshold g) then
    updateMode QuotaModeStrict;; modify (λ g, qset_slept (qg_slept g + 2000000000) g);; mret true
  else if float_gtb usageRatio (percent 85) then updateMode QuotaModeThrottling;; mret true
  else updateMode QuotaModeNormal;; mret true.

(** [Reset] at time [now]. *)
Definition Reset_ (now : Z) : qgM unit :=
  qg_Locked (modify (λ g, qset_mode QuotaModeNormal (qset_reset now (qset_used 0 g)))).

(** [RecordRequest] at time [now]: [Reset] is called with the lock held. *)
Definition RecordRequest (now : Z) : qgM unit :=
  qg_Locked
    (modify (λ g, qset_used (i64 (qg_CurrentUsed g + 1)) g);;
     g ← gets id;
     if Day <? now - qg_LastResetTime g then Reset_ now else mret tt).

(** The mode [SetCurrentUsed] derives. *)
Definition modeOf (usageRatio strict : float64) : QuotaMode :=
  if SFleb (float_of_Z 1) usageRatio then QuotaModeExhausted
  else if float_gtb usageRatio strict then QuotaModeStrict
  else if float_gtb usageRatio (percent 85) then QuotaModeThrottling
  else QuotaModeNormal.
Definition SetCurrentUsed (used : Z) : qgM unit :=
  qg_Locked
    (modify (qset_used used);;
     modify (λ g, qset_mode (modeOf (ratio used (qg_DailyLimit g)) (qg_StrictThreshold g)) g)).

(** [GetMetrics]: limit, used, remaining, ratio, mode and denials. The ratio is
    read by a nested read lock. *)
Definition GetMetrics : qgM (Z * Z * Z * float64 * string * Z) :=
  qg_RLocked
    (g ← gets id;
     r ← GetUsageRatio;
     mret (qg_DailyLimit g, qg_CurrentUsed g, i64 (qg_DailyLimit g - qg_CurrentUsed g), r,
           QuotaMode_String (qg_mode g), qg_requestsDenied g)).

(** ** Properties *)

(** The daily reset never happens.  From an unlocked guard, [RecordRequest]
    counts the request and releases the lock while no more than 24 hours have
    passed since the last reset; afterwards it calls [Reset] with the lock held
    and blocks for ever, with the lock taken, so every later call of any method
    of the guard blocks too. *)
Theorem RecordRequest_reset_deadlocks (now : Z) (g : QuotaGuard) (Hmu : qg_mu g = Unlocked) :
  (now - qg_LastResetTime g ≤ Day →
   RecordRequest now g = (qset_used (i64 (qg_CurrentUsed g + 1)) g, Val tt)) ∧
  (Day < now - qg_LastResetTime g →
   let '(g', o) := RecordRequest now g in
   o = Panic deadlock ∧ qg_mu g' = WLocked ∧
   (∀ now', snd (RecordRequest now' g') = Panic deadlock) ∧ snd (AllowRequest g') = Panic deadlock ∧
   snd (Reset_ now g') = Panic deadlock ∧ snd (GetMode g') = Panic deadlock).
Proof.
  destruct g as [mu lim used str rst mode den slept]; simpl in *. subst mu.
  unfold RecordRequest, qg_Locked, with_Lock, mu_Lock, mbind, GoM_bind, gets, modify, id. simpl. split.
  - intros H. rewrite (proj2 (Z.ltb_ge _ _)) by lia. done.
  - intros H. rewrite (proj2 (Z.ltb_lt _ _)) by lia. done.
Qed.

Lemma RecordRequest_reset_deadlocks_witness :
  snd (RecordRequest (Day + 1) (NewQuotaGuard 100 0)) = Panic deadlock ∧
  qg_CurrentUsed (fst (RecordRequest Day (NewQuotaGuard 100 0))) = 1.
Proof.
  destruct (RecordRequest_reset_deadlocks Day (NewQuotaGuard 100 0) eq_refl) as [H1 _].
  destruct (RecordRequest_reset_deadlocks (Day + 1) (NewQuotaGuard 100 0) eq_refl) as [_ H2].
  split; [| rewrite H1; [reflexivity | simpl; lia]].
  specialize (H2 ltac:(simpl; lia)). destruct (RecordRequest (Day + 1) (NewQuotaGuard 100 0)) as [g' o].
  simpl. destruct H2 as [-> _]. reflexivity.
Defined.

(** At the limit [AllowRequest] denies, but unlike [SetCurrentUsed] it leaves
    the mode as it was. *)
Lemma AllowRequest_denies_keeps_mode :
  let g := qset_used 100 (NewQuotaGuard 100 0) in
  snd (AllowRequest g) = Val false ∧ qg_mode (fst (AllowRequest g)) = QuotaModeNormal ∧
  qg_mode (fst (SetCurrentUsed 100 g)) = QuotaModeExhausted.
Proof. vm_compute. done. Qed.
