(* ===== verification/Backpressure.v ===== *)
(** * Dynamic backpressure (internal/engine/dynamic_backpressure.go)

    The watermark check with exponential backoff, the merging of repeated
    schedule requests, and [ScheduleDynamic], which puts both in front of the
    Fetcher's [Schedule]. *)

From S2P Require Import Prelude GoInt Types GlobalState Orchestrator Fetcher.
From Stdlib Require Import ZArith Lia String.
From stdpp Require Import base gmap strings list pretty.
Open Scope string_scope.
Open Scope Z_scope.

(** Times in nanoseconds. *)
Definition Millisecond : Z := 1000000.
Definition TenMinutes : Z := 600000 * Millisecond.

Record BackpressureManager := mkBackpressureManager {
  bm_maxJobsCapacity : Z;
  bm_maxResultsCapacity : Z;
  bm_maxSeqBuffer : Z;
  bm_jobsWatermark : Z;
  bm_resultsWatermark : Z;
  bm_seqBufferWatermark : Z;
  bm_lastBlockedTime : Z;
  bm_backoffLevel : Z;
  bm_totalBlockedCount : Z
}.
Definition bset_backoff (time level blocked : Z) (b : BackpressureManager) : BackpressureManager :=
  mkBackpressureManager (bm_maxJobsCapacity b) (bm_maxResultsCapacity b) (bm_maxSeqBuffer b) (bm_jobsWatermark b)
    (bm_resultsWatermark b) (bm_seqBufferWatermark b) time level blocked.

(** [NewBackpressureManager]; [sys] is the memory obtained from the system. *)
Definition NewBackpressureManager (sys : Z) : BackpressureManager :=
  let memGB := sys / (1024 * 1024 * 1024) in
  let r := i64 (memGB * 1000) in
  let r := if 100000 <? r then 100000 else r in
  let maxResultsCapacity := if r <? 5000 then 5000 else r in
  let maxJobsCapacity := go_quot maxResultsCapacity 5 in
  mkBackpressureManager maxJobsCapacity maxResultsCapacity 10000 (go_quot (maxJobsCapacity * 80) 100)
    (go_quot (maxResultsCapacity * 80) 100) 800 0 0 0.

Definition bmM : Type → Type := GoM BackpressureManager.

(** [blockWithError] at time [now]. *)
Definition blockWithError (now : Z) (component : string) (depth capacity : Z) : bmM (option GoErr) :=
  modify (λ b, bset_backoff now (if bm_backoffLevel b <? 5 then bm_backoffLevel b + 1 else bm_backoffLevel b)
                 (add_u64 (bm_totalBlockedCount b) 1) b);;
  b ← gets id;
  mret (Some (Errorf (component ++ " queue backpressure: depth=" ++ pretty depth ++ "/" ++ pretty capacity ++
                      " (backoff level " ++ pretty (bm_backoffLevel b) ++ ")"))).

Definition backoffDuration (level : Z) : Z := Z.shiftl 1 level * 100 * Millisecond.

(** [CheckSchedule] at time [now]; the text of the backoff error leaves out the
    remaining duration. *)
Definition CheckSchedule (now jobsDepth resultsDepth seqBufferSize : Z) : bmM (option GoErr) :=
  b ← gets id;
  if bm_jobsWatermark b <? jobsDepth then blockWithError now "jobs" jobsDepth (bm_maxJobsCapacity b)
  else if bm_resultsWatermark b <? resultsDepth then blockWithError now "results" resultsDepth (bm_maxResultsCapacity b)
  else if bm_seqBufferWatermark b <? seqBufferSize then blockWithError now "sequencer" seqBufferSize (bm_maxSeqBuffer b)
  else if 0 <? bm_backoffLevel b then
    if now - bm_lastBlockedTime b <? backoffDuration (bm_backoffLevel b)
    then mret (Some (Errorf ("backoff: waiting (level " ++ pretty (bm_backoffLevel b) ++ ")")))
    else modify (λ b, bset_backoff (bm_lastBlockedTime b) 0 (bm_totalBlockedCount b) b);; mret None
  else mret None.

Definition ResetBackoff : bmM unit :=
  modify (λ b, if 0 <? bm_backoffLevel b then bset_backoff (bm_lastBlockedTime b) 0 (bm_totalBlockedCount b) b else b).
Definition GetCapacity (b : BackpressureManager) : Z * Z * Z :=
  (bm_maxJobsCapacity b, bm_maxResultsCapacity b, bm_maxSeqBuffer b).
Definition GetWatermarks (b : BackpressureManager) : Z * Z * Z :=
  (bm_jobsWatermark b, bm_resultsWatermark b, bm_seqBufferWatermark b).

(** ** Task merging *)

(** [pending], keyed by the two numbers (their decimal texts are injective). *)
Record ScheduleMerge := mkScheduleMerge { sm_pending : gmap (Z * Z) Z; sm_mergeWindow : Z }.
Definition NewScheduleMerge (mergeWindow : Z) : ScheduleMerge := mkScheduleMerge ∅ mergeWindow.

Definition ShouldSchedule (now start last : Z) : GoM ScheduleMerge bool :=
  s ← gets id;
  if (match sm_pending s !! (start, last) with
      | Some lastTime => now - lastTime <? sm_mergeWindow s
      | None => false
      end)
  then mret false
  else modify (λ s, mkScheduleMerge (<[(start, last) := now]> (sm_pending s)) (sm_mergeWindow s));; mret true.

Definition Cleanup (now : Z) : GoM ScheduleMerge unit :=
  modify (λ s, mkScheduleMerge (filter (λ kt, now - kt.2 ≤ TenMinutes) (sm_pending s)) (sm_mergeWindow s)).

(** ** ScheduleDynamic *)

Record DynamicFetcher (W : Type) := mkDynamicFetcher {
  df_fetcher : Fetcher W;
  df_backpressureMgr : BackpressureManager;
  df_scheduleMerge : ScheduleMerge
}.
Arguments mkDynamicFetcher {W}.
Arguments df_fetcher {W}.
Arguments df_backpressureMgr {W}.
Arguments df_scheduleMerge {W}.

Section dynamic.
Context {W : Type}.
Definition NewDynamicFetcher (f : Fetcher W) (sys : Z) : DynamicFetcher W :=
  mkDynamicFetcher f (NewBackpressureManager sys) (NewScheduleMerge (5000 * Millisecond)).

Definition onFetcher {A} (m : GoM (Fetcher W) A) : GoM (DynamicFetcher W) A :=
  zoom df_fetcher (λ f d, mkDynamicFetcher f (df_backpressureMgr d) (df_scheduleMerge d)) m.
Definition onMgr {A} (m : bmM A) : GoM (DynamicFetcher W) A :=
  zoom df_backpressureMgr (λ b d, mkDynamicFetcher (df_fetcher d) b (df_scheduleMerge d)) m.
Definition onMerge {A} (m : GoM ScheduleMerge A) : GoM (DynamicFetcher W) A :=
  zoom df_scheduleMerge (λ s d, mkDynamicFetcher (df_fetcher d) (df_backpressureMgr d) s) m.

Definition ScheduleDynamic (now latestHeight : Z) (ctxErr : GoErr) (start last : Z) : GoM (DynamicFetcher W) (option GoErr) :=
  should ← onMerge (ShouldSchedule now start last);
  if negb should then mret None
  else
    d ← gets id;
    let jobsDepth := Z.of_nat (length (fe_jobs (df_fetcher d))) in
    let resultsDepth := Z.of_nat (length (fe_Results (df_fetcher d))) in
    let seqBufferSize := default 0 (fe_sequencer (df_fetcher d)) in
    try onMgr (CheckSchedule now jobsDepth resultsDepth seqBufferSize) ;;;
    try onFetcher (Schedule latestHeight ctxErr start last) ;;;
    (onMgr ResetBackoff;; mret None).

(** [GetBackpressureStats] reads the Sequencer without the nil check of
    [ScheduleDynamic]. *)
Definition GetBackpressureStats : GoM (DynamicFetcher W) (list (string * Z)) :=
  d ← gets id;
  let b := df_backpressureMgr d in
  match fe_sequencer (df_fetcher d) with
  | None => go_panic "nil pointer dereference: f.sequencer.GetBufferSize()"
  | Some size =>
    mret [("max_jobs_capacity", bm_maxJobsCapacity b); ("max_results_capacity", bm_maxResultsCapacity b);
          ("max_seq_buffer", bm_maxSeqBuffer b); ("jobs_watermark", bm_jobsWatermark b);
          ("results_watermark", bm_resultsWatermark b); ("seq_watermark", bm_seqBufferWatermark b);
          ("current_jobs_depth", Z.of_nat (length (fe_jobs (df_fetcher d))));
          ("current_results_depth", Z.of_nat (length (fe_Results (df_fetcher d))));
          ("current_seq_buffer", size); ("total_blocked_count", bm_totalBlockedCount b)]
  end.
End dynamic.

(** ** Lemmas *)

Definition bm_ok (b : BackpressureManager) : Prop := 0 ≤ bm_backoffLevel b ≤ 5.

Lemma blockWithError_wp now c depth cap b :
  bm_ok b → wp (blockWithError now c depth cap) (λ o b', (∃ e, o = Val (Some e)) ∧ bm_ok b' ∧ bm_lastBlockedTime b' = now ∧
                                                   bm_backoffLevel b < bm_backoffLevel b' + 1 ∧ 0 < bm_backoffLevel b') b.
Proof.
  intros [H1 H2]. apply wp_bind, wp_modify, wp_bind, wp_gets, wp_ret. unfold bm_ok. simpl.
  destruct (Z.ltb_spec (bm_backoffLevel b) 5); split_and!; (by eexists) || lia || done.
Qed.

(** Over a watermark, or within the backoff of the last block, the check fails. *)
Lemma CheckSchedule_wp now j r q b :
  bm_ok b →
  wp (CheckSchedule now j r q)
     (λ o b', bm_ok b' ∧ ∃ e, o = Val e ∧
        (e = None ↔ (j ≤ bm_jobsWatermark b ∧ r ≤ bm_resultsWatermark b ∧ q ≤ bm_seqBufferWatermark b ∧
                     (bm_backoffLevel b = 0 ∨ bm_lastBlockedTime b + backoffDuration (bm_backoffLevel b) ≤ now)))) b.
Proof.
  intros Hok. pose proof Hok as [Hlo Hhi]. apply wp_bind, wp_gets. unfold id.
  destruct (Z.ltb_spec (bm_jobsWatermark b) j).
  { eapply wp_mono; [by apply blockWithError_wp |]. intros o b' ([e ->] & H' & _). split; [done |]. eexists. split; [done |]. split; [done | lia]. }
  destruct (Z.ltb_spec (bm_resultsWatermark b) r).
  { eapply wp_mono; [by apply blockWithError_wp |]. intros o b' ([e ->] & H' & _). split; [done |]. eexists. split; [done |]. split; [done | lia]. }
  destruct (Z.ltb_spec (bm_seqBufferWatermark b) q).
  { eapply wp_mono; [by apply blockWithError_wp |]. intros o b' ([e ->] & H' & _). split; [done |]. eexists. split; [done |]. split; [done | lia]. }
  destruct (Z.ltb_spec 0 (bm_backoffLevel b)).
  - destruct (Z.ltb_spec (now - bm_lastBlockedTime b) (backoffDuration (bm_backoffLevel b))).
    + apply wp_ret. split; [done |]. eexists. split; [done |]. split; [done | lia].
    + apply wp_bind, wp_modify, wp_ret. split; [unfold bm_ok; simpl; lia |]. eexists. split; [done |]. split; [lia | done].
  - apply wp_ret. split; [done |]. eexists. split; [done |]. split; [lia | done].
Qed.

(** ** Properties *)

(** A refused request is remembered as scheduled.  [ScheduleDynamic] records
    the range before it checks the backpressure, so when the check refuses a
    range, repeating the request within the merge window reports success
    although nothing was scheduled, whatever the queues are by then. *)
Theorem refused_range_is_swallowed {W} (d : DynamicFetcher W) (now now' latest latest' start last : Z) (ctxErr ctxErr' : GoErr) (e : GoErr) :
  now ≤ now' → now' - now < sm_mergeWindow (df_scheduleMerge d) →
  snd (onMerge (W := W) (ShouldSchedule now start last) d) = Val true →
  snd (CheckSchedule now (Z.of_nat (length (fe_jobs (df_fetcher d)))) (Z.of_nat (length (fe_Results (df_fetcher d))))
         (default 0 (fe_sequencer (df_fetcher d))) (df_backpressureMgr d)) = Val (Some e) →
  let '(d1, o1) := ScheduleDynamic now latest ctxErr start last d in
  let '(d2, o2) := ScheduleDynamic now' latest' ctxErr' start last d1 in
  o1 = Val (Some e) ∧ o2 = Val None ∧ fe_jobs (df_fetcher d2) = fe_jobs (df_fetcher d).
Proof.
  intros Hle Hw Hs Hc. destruct d as [f b [pend win]]. simpl in *.
  assert (H1 : ScheduleDynamic now latest ctxErr start last (mkDynamicFetcher f b (mkScheduleMerge pend win)) =
    (mkDynamicFetcher f (fst (CheckSchedule now (Z.of_nat (length (fe_jobs f))) (Z.of_nat (length (fe_Results f)))
       (default 0 (fe_sequencer f)) b)) (mkScheduleMerge (<[(start, last) := now]> pend) win), Val (Some e))).
  { unfold ScheduleDynamic, onMerge, zoom, ShouldSchedule, mbind, GoM_bind, gets, modify, id in *. simpl in *.
    destruct (match pend !! (start, last) with Some lastTime => now - lastTime <? win | None => false end); [done |].
    simpl. unfold try_err, mbind, GoM_bind, onMgr, zoom. simpl.
    destruct (CheckSchedule _ _ _ _ b) as [b' o]. simpl in Hc. subst o. done. }
  rewrite H1. unfold ScheduleDynamic, onMerge, zoom, ShouldSchedule, mbind, GoM_bind, gets, modify, id. simpl.
  rewrite lookup_insert_eq. rewrite (proj2 (Z.ltb_lt _ _)) by lia. done.
Qed.

(** A fetcher whose job queue is over the watermark of 800. *)
Definition busyFetcher : DynamicFetcher unit :=
  mkDynamicFetcher (fset_jobs (replicate 900 (mkFetchJob 1 1)) sampleFetcher) (NewBackpressureManager 0)
    (NewScheduleMerge (5000 * Millisecond)).
Lemma refused_range_is_swallowed_witness :
  snd (ScheduleDynamic 4000000001 100 Canceled 10 20 (fst (ScheduleDynamic 1 100 Canceled 10 20 busyFetcher))) = Val None.
Proof.
  pose proof (refused_range_is_swallowed busyFetcher 1 4000000001 100 100 10 20 Canceled Canceled
    (Errorf "jobs queue backpressure: depth=900/1000 (backoff level 1)")) as H.
  specialize (H ltac:(lia) ltac:(reflexivity) ltac:(reflexivity) ltac:(vm_compute; reflexivity)).
  destruct (ScheduleDynamic 1 100 Canceled 10 20 busyFetcher) as [d1 o1]. simpl.
  destruct (ScheduleDynamic 4000000001 100 Canceled 10 20 d1) as [d2 o2]. simpl. apply H.
Defined.

(** Initial watermarks are 80% of capacities within fixed bounds. *)
Lemma NewBackpressureManager_bounds sys :
  0 ≤ sys < 2 ^ 63 →
  let b := NewBackpressureManager sys in
  5000 ≤ bm_maxResultsCapacity b ≤ 100000 ∧ bm_maxJobsCapacity b = bm_maxResultsCapacity b / 5 ∧
  bm_jobsWatermark b ≤ bm_maxJobsCapacity b ∧ bm_resultsWatermark b ≤ bm_maxResultsCapacity b.
Proof.
  intros Hs b. unfold b, NewBackpressureManager. simpl. set (r := i64 _). clearbody r.
  assert (H : 5000 ≤ (if (if 100000 <? r then 100000 else r) <? 5000 then 5000 else if 100000 <? r then 100000 else r) ≤ 100000).
  { destruct (Z.ltb_spec 100000 r); simpl; [lia |]. destruct (Z.ltb_spec r 5000); lia. }
  set (m := if _ <? 5000 then _ else _) in *. clearbody m. unfold go_quot. rewrite !Z.quot_div_nonneg; try lia.
  all: try (rewrite ?Z.quot_div_nonneg by lia; apply Z.mul_nonneg_nonneg; [apply Z.div_pos; lia | lia]).
  split_and!; try lia; apply Z.div_le_upper_bound; try lia.
  assert (0 ≤ m / 5) by (apply Z.div_pos; lia). lia.
Qed.
