(* ===== verification/HotBuffer.v ===== *)
(** * In-memory sinks (internal/engine/hot_buffer.go, io_types.go)

    The pool of the latest transfers that serves the API without the database,
    and the sink that distributes to several sinks. *)

From S2P Require Import Prelude GoInt Types.
From Stdlib Require Import ZArith Lia String.
From stdpp Require Import base strings list.
Open Scope Z_scope.

(** ** The data sinks *)

(** io_types.go, [type DataSink interface], over a world [W]. *)
Record DataSink (W : Type) := mkDataSink {
  WriteTransfers : list Transfer → GoM W (option GoErr);
  WriteBlocks : list ModelBlock → GoM W (option GoErr);
  Close : GoM W (option GoErr)
}.
Arguments mkDataSink {W}.
Arguments WriteTransfers {W}.
Arguments WriteBlocks {W}.
Arguments Close {W}.

(** [for _, sink := range m.sinks], the errors only logged. *)
Fixpoint forSinks {W} (sinks : list (DataSink W)) (op : DataSink W → GoM W (option GoErr)) : GoM W (option GoErr) :=
  match sinks with
  | [] => mret None
  | sink :: rest => op sink;; forSinks rest op
  end.
(** [MultiSink] is itself a sink. *)
Definition NewMultiSink {W} (sinks : list (DataSink W)) : DataSink W := {|
  WriteTransfers ts := forSinks sinks (λ s, WriteTransfers s ts);
  WriteBlocks bs := forSinks sinks (λ s, WriteBlocks s bs);
  Close := forSinks sinks Close
|}.

(** ** The hot buffer *)

Record HotBuffer := mkHotBuffer { hb_transfers : list Transfer; hb_maxSize : Z }.

Definition NewHotBuffer (maxSize : Z) : HotBuffer :=
  mkHotBuffer [] (if maxSize <=? 0 then 50000 else maxSize).

(** [addLocked]: over the maximum, the oldest tenth is drained. *)
Definition addLocked (t : Transfer) : GoM HotBuffer unit :=
  modify (λ b,
    let ts := (hb_transfers b ++ [t])%list in
    if hb_maxSize b <? Z.of_nat (length ts)
    then mkHotBuffer (drop (Z.to_nat (go_quot (hb_maxSize b) 10)) ts) (hb_maxSize b)
    else mkHotBuffer ts (hb_maxSize b)).
Definition Add (t : Transfer) : GoM HotBuffer unit := addLocked t.
Fixpoint addAll (ts : list Transfer) : GoM HotBuffer unit :=
  match ts with
  | [] => mret tt
  | t :: rest => addLocked t;; addAll rest
  end.
(** The buffer as a sink. *)
Definition hotBufferSink : DataSink HotBuffer := {|
  WriteTransfers ts := addAll ts;; mret None;
  WriteBlocks _ := mret None;
  Close := mret None
|}.

(** [GetLatest]; [make] panics on a negative length, [None] is [nil]. *)
Definition GetLatest (limit : Z) : GoM HotBuffer (option (list Transfer)) :=
  b ← gets id;
  let n := Z.of_nat (length (hb_transfers b)) in
  if n =? 0 then mret None
  else
    let limit := if n <? limit then n else limit in
    if limit <? 0 then go_panic "makeslice: len out of range"
    else mret (Some (reverse (drop (Z.to_nat (n - limit)) (hb_transfers b)))).
Definition GetCount : GoM HotBuffer Z := gets (λ b, Z.of_nat (length (hb_transfers b))).

(** ** Lemmas *)

Definition hb_keep (m : Z) : Z := m + 1 - m / 10.

(** The buffer holds a suffix of the history: all of it, or at least
    [hb_keep] transfers, and never more than the maximum. *)
Definition holds (m : Z) (history : list Transfer) (b : HotBuffer) : Prop :=
  hb_maxSize b = m ∧ Z.of_nat (length (hb_transfers b)) ≤ m ∧
  ∃ old, history = (old ++ hb_transfers b)%list ∧ (old = [] ∨ hb_keep m ≤ Z.of_nat (length (hb_transfers b))).

Lemma addLocked_wp m history t b :
  10 ≤ m → holds m history b → wp (addLocked t) (λ o b', o = Val tt ∧ holds m (history ++ [t])%list b') b.
Proof.
  intros Hm (Hmax & Hlen & old & Hh & Hold). apply wp_modify. split; [done |]. unfold holds. cbn zeta. rewrite Hmax.
  pose proof (Z.div_mod m 10 ltac:(lia)). pose proof (Z.mod_pos_bound m 10 ltac:(lia)).
  assert (Hq : go_quot m 10 = m / 10) by (unfold go_quot; apply Z.quot_div_nonneg; lia).
  rewrite length_app in *. simpl (length [t]).
  destruct (Z.ltb_spec m (Z.of_nat (length (hb_transfers b) + 1))) as [Hov | Hfit]; simpl.
  - assert (Hd : Z.of_nat (length (drop (Z.to_nat (go_quot m 10)) (hb_transfers b ++ [t])%list)) = hb_keep m).
    { rewrite length_drop, length_app. simpl. unfold hb_keep. lia. }
    split_and!; [done | rewrite Hd; unfold hb_keep; lia |].
    exists (old ++ take (Z.to_nat (go_quot m 10)) (hb_transfers b ++ [t]))%list. split; [| right; lia].
    rewrite Hh, <- !app_assoc, take_drop. done.
  - rewrite length_app; simpl. split_and!; [done | lia |]. exists old. split; [by rewrite Hh, app_assoc |].
    destruct Hold as [-> | Hold]; [by left | right; lia].
Qed.

Lemma addAll_wp m history ts b :
  10 ≤ m → holds m history b → wp (addAll ts) (λ o b', o = Val tt ∧ holds m (history ++ ts)%list b') b.
Proof.
  intros Hm. revert history b. induction ts as [| t ts IH]; intros history b Hb; simpl.
  { apply wp_ret. by rewrite app_nil_r. }
  apply wp_bind. eapply wp_mono; [by apply (addLocked_wp m history) |]. intros o b1 [-> Hb1].
  eapply wp_mono; [by apply (IH (history ++ [t])%list) |]. intros o b2 [-> Hb2]. by rewrite <- app_assoc in Hb2.
Qed.

(** ** Properties *)

(** The hot buffer serves the latest transfers.  After any sequence of
    writes to a fresh buffer of maximum size [m] (at least 10), [GetLatest]
    for up to [m + 1 - m/10] transfers returns the last ones written, newest
    first, and the buffer never holds more than [m]. *)
Theorem GetLatest_latest (m limit : Z) (ts : list Transfer)
    (Hm : 10 ≤ m) (Hlimit : 0 ≤ limit ≤ hb_keep m) (Hts : ts ≠ []) :
  let '(b, _) := WriteTransfers hotBufferSink ts (NewHotBuffer m) in
  snd (GetLatest limit b) = Val (Some (take (Z.to_nat limit) (reverse ts))) ∧ Z.of_nat (length (hb_transfers b)) ≤ m.
Proof.
  assert (H : wp (WriteTransfers hotBufferSink ts) (λ o b', holds m ts b') (NewHotBuffer m)).
  { apply wp_bind. eapply wp_mono; [apply (addAll_wp m []); [done |] |].
    - unfold NewHotBuffer, holds. rewrite (proj2 (Z.leb_gt _ _)) by lia. simpl. split_and!; [done | lia |]. exists []. auto.
    - intros o b' [-> Hb]. by apply wp_ret. }
  unfold wp in H. destruct (WriteTransfers hotBufferSink ts (NewHotBuffer m)) as [b o]. simpl in H.
  destruct H as (Hmax & Hlen & old & Hh & Hold). split; [| done].
  unfold GetLatest, mbind, GoM_bind, gets, id. simpl.
  assert (Hne : 0 < Z.of_nat (length (hb_transfers b))).
  { destruct Hold as [-> | Hold]; [destruct ts; [done |]; simpl in Hh; rewrite <- Hh; simpl; lia |].
    unfold hb_keep in Hold. pose proof (Z.div_mod m 10 ltac:(lia)). pose proof (Z.mod_pos_bound m 10 ltac:(lia)). lia. }
  rewrite (proj2 (Z.eqb_neq _ _)) by lia.
  set (l := if _ <? limit then _ else limit). set (k := length (hb_transfers b)) in *.
  assert (Hl : 0 ≤ l ≤ Z.of_nat k) by (unfold l; destruct (Z.ltb_spec (Z.of_nat k) limit); lia).
  rewrite (proj2 (Z.ltb_ge _ _)) by lia. simpl. do 2 f_equal. rewrite Hh, reverse_app.
  assert (Hrev : take (Z.to_nat limit) (reverse (hb_transfers b)) = reverse (drop (Z.to_nat (Z.of_nat k - l)) (hb_transfers b))).
  { rewrite <- (take_drop (Z.to_nat (Z.of_nat k - l)) (hb_transfers b)) at 1. rewrite reverse_app.
    assert (Hlr : length (reverse (drop (Z.to_nat (Z.of_nat k - l)) (hb_transfers b))) = Z.to_nat l).
    { rewrite length_reverse, length_drop. fold k. lia. }
    unfold l in *. destruct (Z.ltb_spec (Z.of_nat k) limit) as [Hgt | Hle].
    - rewrite take_ge; [| rewrite length_app, Hlr, length_reverse, length_take; lia].
      replace (Z.to_nat (Z.of_nat k - Z.of_nat k)) with O by lia. simpl. by rewrite app_nil_r.
    - rewrite take_app_le by lia. by rewrite take_ge by lia. }
  destruct Hold as [-> | Hold].
  - rewrite reverse_nil, app_nil_r. by rewrite Hrev.
  - rewrite take_app_le by (rewrite length_reverse; fold k; lia). by rewrite Hrev.
Qed.

Definition nthTransfer (n : nat) : Transfer := mkTransfer (Z.of_nat n) "" 0 "" "" 0 "" "" "".
Lemma GetLatest_latest_witness :
  snd (GetLatest 3 (fst (WriteTransfers hotBufferSink (nthTransfer <$> seq 0 25) (NewHotBuffer 10)))) =
  Val (Some (nthTransfer <$> [24; 23; 22]%nat)).
Proof.
  pose proof (GetLatest_latest 10 3 (nthTransfer <$> seq 0 25) ltac:(lia) ltac:(vm_compute; split; discriminate) ltac:(discriminate)) as H.
  destruct (WriteTransfers hotBufferSink (nthTransfer <$> seq 0 25) (NewHotBuffer 10)) as [b o]. simpl.
  destruct H as [-> _]. reflexivity.
Defined.

(** A maximum below 10 drains nothing: the buffer grows without bound. *)
Lemma small_buffer_grows m ts :
  0 < m < 10 → hb_transfers (fst (addAll ts (NewHotBuffer m))) = ts.
Proof.
  intros Hm. assert (H : ∀ l, hb_transfers (fst (addAll ts (mkHotBuffer l m))) = (l ++ ts)%list); [| by unfold NewHotBuffer; rewrite (proj2 (Z.leb_gt _ _)) by lia; rewrite H].
  induction ts as [| t ts IH]; intros l; simpl; [by rewrite app_nil_r |].
  unfold mbind, GoM_bind, addLocked, modify. simpl.
  assert (Hq : go_quot m 10 = 0) by (unfold go_quot; apply Z.quot_small; lia).
  rewrite Hq, drop_0. assert (E : (if m <? Z.of_nat (length (l ++ [t])) then mkHotBuffer (l ++ [t]) m else mkHotBuffer (l ++ [t]) m) = mkHotBuffer (l ++ [t]) m) by (by case_match).
  rewrite E, IH. by rewrite <- app_assoc.
Qed.

(** A negative limit panics. *)
Lemma GetLatest_negative t : snd (GetLatest (-1) (mkHotBuffer [t] 10)) = Panic "makeslice: len out of range".
Proof. reflexivity. Qed.

(** [MultiSink] reports success whatever its sinks answer, and asks them all. *)
Lemma MultiSink_isolates {W} (sinks : list (DataSink W)) ts (w : W) :
  Forall (λ s, ∀ w, ∃ e, snd (WriteTransfers s ts w) = Val e) sinks →
  snd (WriteTransfers (NewMultiSink sinks) ts w) = Val None.
Proof.
  intros H. simpl. revert w. induction H as [| s sinks Hs _ IH]; intros w; simpl; [done |].
  unfold mbind, GoM_bind. destruct (Hs w) as [e He]. destruct (WriteTransfers s ts w) as [w' o].
  simpl in He. subst o. apply IH.
Qed.
