(* ===== verification/Guards.v ===== *)
(** * Startup guards (internal/engine/consistency.go, integrity.go, reconciler.go,
    self_healing.go, height_oracle.go; the adapter of processor_core.go)

    The checks that align the database with the chain.  They reach the database
    through [DBUpdater], an interface whose laws say what each operation leaves
    in the tables; [repositoryAdapter] implements it over [Postgres]. *)

From S2P Require Import Prelude GoInt Types GlobalState Database Orchestrator.
From Stdlib Require Import ZArith Lia String.
From stdpp Require Import base gmap strings list pretty.
Open Scope string_scope.
Open Scope Z_scope.

(** ** The interface *)

(** [t']: the cursors of [t] moved to [h], blocks and transfers as they were. *)
Definition cursorMoved (h : Z) (t t' : Tables) : Prop :=
  t_blocks t' = t_blocks t ∧ t_transfers t' = t_transfers t ∧
  t_checkpoints t' = (λ _, pretty h) <$> t_checkpoints t.

(** [t']: nothing above [h] is left, the cursors are at [h]. *)
Definition pruned (h : Z) (t t' : Tables) : Prop :=
  (∀ n, t_blocks t' !! n = if decide (n ≤ h) then t_blocks t !! n else None) ∧
  (∀ n i, t_transfers t' !! (n, i) = if decide (n ≤ h) then t_transfers t !! (n, i) else None) ∧
  t_checkpoints t' = (λ _, pretty h) <$> t_checkpoints t.

(** metadata_enricher.go, the [DBUpdater] methods the guards and the watchdog
    use. *)
Class DBUpdater (W : Type) := {
  du_tables : W → Tables;
  du_GetMaxStoredBlock : GoM W (result GoErr Z);
  du_GetSyncCursor : GoM W (result GoErr Z);
  du_PruneFutureData : bool → Z → GoM W (option GoErr);
  du_UpdateSyncCursor : bool → Z → GoM W (option GoErr);
  du_Max_spec w :
    wp du_GetMaxStoredBlock (λ o w', w' = w ∧ ∃ r, o = Val r ∧ ∀ m, r = Ok m → m = maxBlockNumber (du_tables w)) w;
  du_Cursor_spec w :
    wp du_GetSyncCursor (λ o w', w' = w ∧ ∃ r, o = Val r) w;
  du_Prune_spec done h w :
    wp (du_PruneFutureData done h) (λ o w', ∃ e, o = Val e ∧
       (e = None → pruned h (du_tables w) (du_tables w')) ∧
       (du_tables w' = du_tables w ∨ pruned h (du_tables w) (du_tables w'))) w;
  du_Update_spec done h w :
    wp (du_UpdateSyncCursor done h) (λ o w', ∃ e, o = Val e ∧
       (e = None → cursorMoved h (du_tables w) (du_tables w')) ∧
       (du_tables w' = du_tables w ∨ cursorMoved h (du_tables w) (du_tables w'))) w
}.

(** ** [repositoryAdapter] implements it *)

(** [LIMIT 1] without an order: PostgreSQL picks some row. *)
Class PickRow := {
  pickRow : gmap Z string → option string;
  pickRow_row m s : pickRow m = Some s → ∃ c, m !! c = Some s;
  pickRow_empty m : pickRow m = None → m = ∅
}.

Definition ErrNoRows : GoErr := Errorf "sql: no rows in result set".

Section adapter.
Context {W : Type} {PG : Postgres W}.

(** processor_core.go, the methods of [repositoryAdapter]. *)
Definition ra_GetMaxStoredBlock : GoM W (result GoErr Z) := pg_Query Z maxBlockNumber.
Definition ra_GetSyncCursor {PR : PickRow} : GoM W (result GoErr Z) :=
r ← pg_Query (option string) (λ t, pickRow (t_checkpoints t));
mret match r with
     | Err e => Err e
     | Ok None => Err ErrNoRows
     | Ok (Some cursor) => match SetString10 cursor with Some num => Ok (big_Int64 num) | None => Ok 0 end
     end.
Definition ra_PruneFutureData (done : bool) (chainHead : Z) : GoM W (option GoErr) :=
inTx done (execAll done [deleteTransfersAboveStmt chainHead; deleteBlocksAboveStmt chainHead;
                         updateCheckpointsStmt chainHead]).
Definition ra_UpdateSyncCursor (done : bool) (height : Z) : GoM W (option GoErr) :=
pg_Exec done (updateCheckpointsStmt height).

Lemma pruned_stmts h t t' :
t' = foldl (λ t st, stmt_run st t) t
       [deleteTransfersAboveStmt h; deleteBlocksAboveStmt h; updateCheckpointsStmt h] →
pruned h t t'.
Proof.
intros ->. simpl. split_and!; simpl; [| | done].
- intros n. apply lookup_filter_le.
- intros n i. rewrite !lookup_filter_le_pair. by repeat case_decide.
Qed.
End adapter.

#[export] Program Instance repositoryAdapter {W} {PG : Postgres W} {PR : PickRow} : DBUpdater W := {|
  du_tables := pg_tables;
  du_GetMaxStoredBlock := ra_GetMaxStoredBlock;
  du_GetSyncCursor := ra_GetSyncCursor;
  du_PruneFutureData := ra_PruneFutureData;
  du_UpdateSyncCursor := ra_UpdateSyncCursor
|}.
Next Obligation. intros W PG PR w. apply pg_Query_spec. Qed.
Next Obligation.
  intros W PG PR w. apply wp_bind. eapply wp_mono; [apply pg_Query_spec |].
  intros o w' (-> & r & -> & _). apply wp_ret. split; [done | by eexists].
Qed.
Next Obligation.
  intros W PG PR done h w. eapply wp_mono; [by apply inTx_spec, execAll_applies |].
  intros o w' (_ & e & -> & Hok & Hany). exists e. split; [done |]. split.
  - intros He. by apply pruned_stmts, Hok.
  - destruct Hany as [? | ?]; [by left | right; by apply pruned_stmts].
Qed.
Next Obligation.
  intros W PG PR done h w. eapply wp_mono; [apply pg_Exec_spec |].
  intros o w' (e & -> & _ & Hok & Herr). exists e. split; [done |].
  assert (Hm : pg_tables w' = stmt_run (updateCheckpointsStmt h) (pg_tables w) →
               cursorMoved h (pg_tables w) (pg_tables w')) by (by intros ->).
  destruct e as [e |]; [destruct Herr as [? | ?]; [done | |]; split; auto; done |].
  destruct (Hok eq_refl) as (_ & _ & Ht). auto.
Qed.

(** ** consistency.go: the linearity check *)

(** The struct: [gd_onStatus] is what [OnStatus] was called with, if it is set;
    [gd_orch] the Orchestrator singleton; [gd_repo] the world behind [repo] and
    [rpcPool]. *)
Record Guard (W V : Type) := mkGuard {
  gd_demoMode : bool;
  gd_onStatus : option (list (string * string * Z));
  gd_orch : Orchestrator V;
  gd_repo : W
}.
Arguments mkGuard {W V}.
Arguments gd_demoMode {W V}.
Arguments gd_onStatus {W V}.
Arguments gd_orch {W V}.
Arguments gd_repo {W V}.

Section guard.
Context {W V : Type} {DU : DBUpdater W} {OW : OrchWorld V} (rpcPool : RPCClient W).
Local Abbreviation M := (GoM (Guard W V)).

Definition NewConsistencyGuard (o : Orchestrator V) (repo : W) : Guard W V := mkGuard false None o repo.
Definition SetDemoMode (enabled : bool) : M unit :=
modify (λ g, mkGuard enabled (gd_onStatus g) (gd_orch g) (gd_repo g)).

Definition gdRepo {A} (m : GoM W A) : M A :=
zoom gd_repo (λ w g, mkGuard (gd_demoMode g) (gd_onStatus g) (gd_orch g) w) m.
Definition gdOrch {A} (m : GoM (Orchestrator V) A) : M A :=
zoom gd_orch (λ o g, mkGuard (gd_demoMode g) (gd_onStatus g) o (gd_repo g)) m.
Definition onStatus (status detail : string) (progress : Z) : M unit :=
modify (λ g, mkGuard (gd_demoMode g) ((λ l, l ++ [(status, detail, progress)])%list <$> gd_onStatus g)
                     (gd_orch g) (gd_repo g)).

(** The errors wrapped with [%w]. *)
Definition wrapErr (msg : string) (m : M (option GoErr)) : M (option GoErr) :=
e ← m; mret (WrapErr msg <$> e).

(** The branch of [PerformLinearityCheck] for a database above the chain. *)
Definition pruneOverrun (done : bool) (head dbMax : Z) : M (option GoErr) :=
if head <? dbMax then
  onStatus "REPAIRING" ("Pruning " ++ pretty (i64 (dbMax - head)) ++ " future blocks to align with chain...") 50;;
  wrapErr "pruning failed: " (gdRepo (du_PruneFutureData done head))
else mret None.

(** The branch for a chain far above the database (Leap-Sync). *)
Definition leapSync (done : bool) (chainHead dbMax : Z) : M (option GoErr) :=
g ← gets id;
let gap := i64 (big_Int64 chainHead - dbMax) in
if gd_demoMode g && (1000 <? gap) then
  onStatus "LEAPING" "Collapsing state to chain head..." 75;;
  try wrapErr "leap-sync failed: " (gdRepo (du_UpdateSyncCursor done (i64 (big_Int64 chainHead - 1)))) ;;;
  (gdOrch (ForceSetCursors (sub_u64 (big_Uint64 chainHead) 1));;
   if 100000 <? gap then
     onStatus "RESET_REQUIRED" "Database cleared detected. System will restart..." 100;;
     go_panic "DATABASE_CLEARED: Abnormal gap > 100,000 detected. Triggering system reset."
   else mret None)
else mret None.

(** consistency.go, [PerformLinearityCheck]. *)
Definition PerformLinearityCheck (done : bool) : M (option GoErr) :=
onStatus "CHECKING" "Verifying data linearity..." 0;;
rpc ← gdRepo (rpc_GetLatestBlockNumber rpcPool);
match rpc with
| Err e => mret (Some (WrapErr "failed to get chain height for linearity check: " e))
| Ok chainHead =>
  db ← gdRepo du_GetMaxStoredBlock;
  match db with
  | Err e => mret (Some (WrapErr "failed to get db height for linearity check: " e))
  | Ok dbMax =>
    try pruneOverrun done (big_Int64 chainHead) dbMax ;;;
    try leapSync done chainHead dbMax ;;;
    (onStatus "ALIGNED" "Database synchronized." 100;; mret None)
  end
end.
End guard.

(** ** integrity.go *)

Section integrity.
Context {W : Type} {DU : DBUpdater W} (rpcPool : RPCClient W).

(** integrity.go, [AlignInfrastructure]. *)
Definition AlignInfrastructure (done : bool) : GoM W (option GoErr) :=
rpc ← rpc_GetLatestBlockNumber rpcPool;
match rpc with
| Err e => mret (Some (WrapErr "failed to get rpc height: " e))
| Ok rpcHeight =>
  db ← du_GetMaxStoredBlock;
  match db with
  | Err e => mret (Some (WrapErr "failed to get db height: " e))
  | Ok dbHeight =>
    try (if big_Int64 rpcHeight <? dbHeight then
           e ← du_PruneFutureData done (big_Int64 rpcHeight);
           mret (WrapErr "critical pruning failure: " <$> e)
         else mret None) ;;;
    (if i64 (dbHeight + 1000) <? big_Int64 rpcHeight then
       du_UpdateSyncCursor done (i64 (big_Int64 rpcHeight - 1))
     else mret None)
  end
end.
End integrity.

(** ** reconciler.go: the audit *)

(** The verdicts the auditor logs. *)
Inductive AuditVerdict : Type := AuditMissing | AuditMismatch | AuditPassed.

#[export] Instance AuditVerdict_eq_dec : EqDecision AuditVerdict.
Proof. solve_decision. Defined.

Section reconciler.
Context {W : Type} {PG : Postgres W} (rpcPool : RPCClient W).

(** reconciler.go, [auditBlock]; [None]: the node did not answer. *)
Definition auditBlock (number : Z) : GoM W (option AuditVerdict) :=
rpcBlock ← rpc_BlockByNumber rpcPool number;
match rpcBlock with
| Err _ => mret None
| Ok b =>
  dbHash ← pg_Query (option string) (λ t, mb_Hash <$> t_blocks t !! number);
  mret match dbHash with
       | Err _ | Ok None => Some AuditMissing
       | Ok (Some h) => if String.eqb (blk_Hash b) h then Some AuditPassed else Some AuditMismatch
       end
end.

(** reconciler.go, the sampled numbers of [performAudit]: every tenth block
  from the top, at most five, none below [start]. *)
Definition auditSamples (maxNum start : Z) : list Z :=
let checks := (λ i, maxNum - i * 10) <$> [0; 1; 2; 3; 4] in
filter (λ n, start ≤ n) checks.

Fixpoint auditAll (numbers : list Z) : GoM W (list (Z * option AuditVerdict)) :=
match numbers with
| [] => mret []
| n :: rest => v ← auditBlock n; vs ← auditAll rest; mret ((n, v) :: vs)
end.

(** reconciler.go, [performAudit]. *)
Definition performAudit (lookback : Z) : GoM W (list (Z * option AuditVerdict)) :=
r ← pg_Query Z maxBlockNumber;
match r with
| Err _ => mret []
| Ok maxNum =>
  if maxNum =? 0 then mret []
  else auditAll (auditSamples maxNum (Z.max 0 (maxNum - lookback)))
end.
End reconciler.

(** ** self_healing.go: the audit of the Orchestrator's state *)

Section selfhealer.
Context {W : Type} {OW : OrchWorld W}.

(** self_healing.go, [auditAndHeal], under the Orchestrator's lock. *)
Definition auditAndHeal : GoM (Orchestrator W) unit :=
onState (λ s, if cs_FetchedHeight s <? cs_SyncedCursor s then cset_FetchedHeight (cs_SyncedCursor s) s else s);;
onState (λ s, if (0 <? cs_LatestHeight s) && (cs_LatestHeight s <? cs_SyncedCursor s)
              then cset_SystemState SystemStateStalled s else s).
End selfhealer.

(** ** height_oracle.go *)

(** The three atomics and the configuration. *)
Record HeightOracle := mkHeightOracle {
  ho_chainHead : Z;
  ho_indexedHead : Z;
  ho_updatedAt : Z;
  ho_StrictHeightCheck : bool;
  ho_DriftTolerance : Z
}.

Record HeightSnapshot := mkHeightSnapshot {
  hs_ChainHead : Z;
  hs_IndexedHead : Z;
  hs_SyncLag : Z;
  hs_DriftBlocks : Z;
  hs_IsTimeTravel : bool;
  hs_UpdatedAt : Z
}.

Definition globalHeightOracle : HeightOracle := mkHeightOracle 0 0 0 true 5.

(** height_oracle.go, the writers and the readers, one atomic access each. *)
Definition SetChainHead (height now : Z) : GoM HeightOracle unit :=
  modify (λ o, mkHeightOracle height (ho_indexedHead o) (ho_updatedAt o) (ho_StrictHeightCheck o) (ho_DriftTolerance o));;
  modify (λ o, mkHeightOracle (ho_chainHead o) (ho_indexedHead o) now (ho_StrictHeightCheck o) (ho_DriftTolerance o)).
(** The result: was the time-travel error logged? *)
Definition SetIndexedHead (height : Z) : GoM HeightOracle bool :=
  modify (λ o, mkHeightOracle (ho_chainHead o) height (ho_updatedAt o) (ho_StrictHeightCheck o) (ho_DriftTolerance o));;
  gets (λ o, ho_StrictHeightCheck o && (0 <? ho_chainHead o) && (i64 (ho_chainHead o + ho_DriftTolerance o) <? height)).
Definition ChainHead : GoM HeightOracle Z := gets ho_chainHead.
Definition IndexedHead : GoM HeightOracle Z := gets ho_indexedHead.

(** The readers of two atomics: [others] is what other goroutines do between
    the loads. *)
Definition SyncLag (others : GoM HeightOracle unit) : GoM HeightOracle Z :=
  chain ← ChainHead; others;; indexed ← IndexedHead;
  let lag := i64 (chain - indexed) in mret (if lag <? 0 then 0 else lag).
Definition DriftBlocks (others : GoM HeightOracle unit) : GoM HeightOracle Z :=
  indexed ← IndexedHead; others;; chain ← ChainHead;
  let drift := i64 (indexed - chain) in mret (if drift <? 0 then 0 else drift).
Definition IsTimeTravel (others : GoM HeightOracle unit) : GoM HeightOracle bool :=
  drift ← DriftBlocks others; tol ← gets ho_DriftTolerance; mret (tol <? drift).

(** height_oracle.go, [Snapshot]. *)
Definition oracleSnapshot (others : GoM HeightOracle unit) : GoM HeightOracle HeightSnapshot :=
  chain ← ChainHead; others;; indexed ← IndexedHead; updatedAt ← gets ho_updatedAt; tol ← gets ho_DriftTolerance;
  let lag := i64 (chain - indexed) in
  let drift := if lag <? 0 then i64 (- lag) else 0 in
  let lag := if lag <? 0 then 0 else lag in
  mret (mkHeightSnapshot chain indexed lag drift (tol <? drift) updatedAt).

(** ** Lemmas *)

Lemma maxBlockNumber_nonneg t : 0 ≤ maxBlockNumber t.
Proof. unfold maxBlockNumber. induction (map_to_list (t_blocks t)) as [| kb l IH]; simpl; lia. Qed.

Lemma maxBlockNumber_ge t n b : t_blocks t !! n = Some b → n ≤ maxBlockNumber t.
Proof.
  unfold maxBlockNumber. intros H%elem_of_map_to_list.
  induction (map_to_list (t_blocks t)) as [| kb l IH]; [by apply not_elem_of_nil in H |].
  apply elem_of_cons in H as [<- | H]; simpl; [lia |]. specialize (IH H). lia.
Qed.

Lemma maxBlockNumber_le t h : 0 ≤ h → (∀ n b, t_blocks t !! n = Some b → n ≤ h) → maxBlockNumber t ≤ h.
Proof.
  intros Hh Hall. unfold maxBlockNumber.
  assert (Hl : Forall (λ kb, kb.1 ≤ h) (map_to_list (t_blocks t))).
  { apply Forall_forall. intros [n b] Hin%elem_of_map_to_list. by eapply Hall. }
  induction Hl as [| kb l Hkb _ IH]; simpl; lia.
Qed.

Lemma pruned_max h t t' : 0 ≤ h → pruned h t t' → maxBlockNumber t' ≤ h.
Proof.
  intros Hh (Hb & _). apply maxBlockNumber_le; [done |]. intros n b Hn. rewrite Hb in Hn.
  by case_decide.
Qed.

Lemma cursorMoved_max h t t' : cursorMoved h t t' → maxBlockNumber t' = maxBlockNumber t.
Proof. intros (Hb & _). unfold maxBlockNumber. by rewrite Hb. Qed.

Section guard_lemmas.
Context {W V : Type} {DU : DBUpdater W} {OW : OrchWorld V}.
Implicit Types g : Guard W V.

Definition gdTables g : Tables := du_tables (gd_repo g).

(** [g'] differs from [g] in the status calls only. *)
Definition quietly g g' : Prop :=
gd_demoMode g' = gd_demoMode g ∧ gd_orch g' = gd_orch g ∧ gd_repo g' = gd_repo g.

Lemma pruneOverrun_wp done head dbMax g :
wp (pruneOverrun done head dbMax)
   (λ o g', gd_demoMode g' = gd_demoMode g ∧ gd_orch g' = gd_orch g ∧ ∃ e, o = Val e ∧
      (e = None → if head <? dbMax then pruned head (gdTables g) (gdTables g')
                  else gd_repo g' = gd_repo g) ∧
      (gdTables g' = gdTables g ∨ pruned head (gdTables g) (gdTables g'))) g.
Proof.
unfold pruneOverrun. destruct (head <? dbMax); [| apply wp_ret; split_and!; eauto].
apply wp_bind, wp_modify, wp_bind, wp_zoom. eapply wp_mono; [apply du_Prune_spec |].
intros o w' (e & -> & Hok & Hany). apply wp_ret. split_and!; [done.. |].
eexists. split; [done |]. split; [| done]. by destruct e.
Qed.

(** The Orchestrator after [ForceSetCursors h]. *)
Definition cursorsAt (h : Z) (o : Orchestrator V) : Prop :=
let s := or_snapshot o in
or_state o = s ∧ cs_LatestHeight s = h ∧ cs_TargetHeight s = h ∧ cs_FetchedHeight s = h ∧ cs_SyncedCursor s = h.

Lemma ForceSetCursors_wp h (o : Orchestrator V) :
wp (ForceSetCursors h) (λ r o', r = Val tt ∧ cursorsAt h o') o.
Proof.
unfold ForceSetCursors, clearFetcherJobs. repeat (apply wp_bind, wp_modify). apply wp_modify.
split; [done |]. simpl. destruct (or_fetcher o); by split_and!.
Qed.

Lemma leapSync_wp done head g :
let dbMax := maxBlockNumber (gdTables g) in
1 ≤ head ≤ max_i64 → dbMax ≤ max_i64 →
wp (leapSync done head dbMax)
   (λ o g',
      let leaps := gd_demoMode g = true ∧ 1000 < head - dbMax in
      match o with
      | Val None =>
        (leaps → cursorMoved (head - 1) (gdTables g) (gdTables g') ∧
                 cursorsAt (head - 1) (gd_orch g') ∧ head - dbMax ≤ 100000) ∧
        (¬ leaps → quietly g g')
      | Val (Some _) => gdTables g' = gdTables g ∨ cursorMoved (head - 1) (gdTables g) (gdTables g')
      | Panic _ => leaps ∧ 100000 < head - dbMax ∧ cursorMoved (head - 1) (gdTables g) (gdTables g')
      end) g.
Proof.
intros dbMax Hh Hm. pose proof (maxBlockNumber_nonneg (gdTables g)) as Hm0. fold dbMax in Hm0.
unfold leapSync. apply wp_bind, wp_gets. unfold id.
rewrite big_Int64_id by lia64. rewrite !i64_id by lia64.
assert (Hu : sub_u64 (big_Uint64 head) 1 = head - 1) by (rewrite big_Uint64_id by lia64; apply sub_u64_ge; lia64).
rewrite Hu.
destruct (gd_demoMode g && (1000 <? head - dbMax)) eqn:Hc.
2: { apply wp_ret. split; [| done]. intros [Hd Hg]. rewrite Hd in Hc. simpl in Hc. bool_prop. lia. }
bool_prop. apply wp_bind, wp_modify, wp_try, wp_bind, wp_zoom. eapply wp_mono; [apply du_Update_spec |].
intros o w' (e & -> & Hok & Hany). apply wp_ret. destruct e as [e |]; [exact Hany |]. simpl.
specialize (Hok eq_refl). apply wp_bind, wp_zoom. eapply wp_mono; [apply ForceSetCursors_wp |].
intros r o' (-> & Hcur). destruct (Z.ltb_spec 100000 (head - dbMax)).
- apply wp_bind, wp_modify, wp_panic. by split_and!.
- apply wp_ret. split; [by intros _; split_and! | intros L; exfalso; by apply L].
Qed.
End guard_lemmas.

(** ** The checks as a whole *)

(** The linearity check, on every branch. *)
Lemma PerformLinearityCheck_wp {W V} {DU : DBUpdater W} {OW : OrchWorld V} (rpcPool : RPCClient W)
    (done : bool) (head : Z) (g : Guard W V) :
  let t := gdTables g in let dbMax := maxBlockNumber t in
  1 ≤ head ≤ max_i64 → dbMax ≤ max_i64 →
  wp (rpc_GetLatestBlockNumber rpcPool) (λ o w', o = Val (Ok head) ∧ du_tables w' = t) (gd_repo g) →
  wp (PerformLinearityCheck rpcPool done)
     (λ o g',
        let t' := gdTables g' in
        let leaps := gd_demoMode g = true ∧ 1000 < head - dbMax in
        match o with
        | Val None =>
          maxBlockNumber t' ≤ head ∧ (head < dbMax → pruned head t t') ∧
          (leaps → cursorMoved (head - 1) t t' ∧ cursorsAt (head - 1) (gd_orch g') ∧ head - dbMax ≤ 100000) ∧
          (dbMax ≤ head → ¬ leaps → t' = t ∧ gd_orch g' = gd_orch g)
        | Val (Some _) => t' = t ∨ pruned head t t' ∨ cursorMoved (head - 1) t t'
        | Panic _ => leaps ∧ 100000 < head - dbMax ∧ cursorMoved (head - 1) t t'
        end) g.
Proof.
  intros t dbMax Hh Hm Hrpc. pose proof (maxBlockNumber_nonneg t) as Hm0. fold dbMax in Hm0.
  apply wp_bind, wp_modify, wp_bind, wp_zoom. eapply wp_mono; [exact Hrpc |].
  intros o w1 (-> & Ht1). apply wp_bind, wp_zoom. eapply wp_mono; [apply du_Max_spec |].
  intros o w2 (-> & r & -> & Hr). destruct r as [m | e]; [| by apply wp_ret; left].
  assert (Hmax : m = dbMax) by (rewrite (Hr m eq_refl); simpl; by rewrite Ht1). subst m. clear Hr.
  apply wp_try. eapply wp_mono; [apply pruneOverrun_wp |].
  intros o g1 (Hd1 & Ho1 & e & -> & Hok & Hany). unfold gdTables in Hok, Hany. simpl in *.
  rewrite Ht1 in Hok, Hany. rewrite big_Int64_id in Hok, Hany by lia64.
  destruct e as [e |]; [destruct Hany; auto |]. specialize (Hok eq_refl).
  apply wp_try. destruct (Z.ltb_spec head dbMax) as [Hover | Hover].
  - (* pruned: no leap follows *)
    apply wp_bind, wp_gets. unfold id. rewrite big_Int64_id by lia64. rewrite i64_id by lia64.
    rewrite (proj2 (Z.ltb_ge 1000 _)), andb_false_r by lia. apply wp_ret, wp_bind, wp_modify, wp_ret.
    split_and!; [by eapply pruned_max; [lia |] | done | lia | lia].
  - assert (Htg : gdTables g1 = t) by (unfold gdTables; by rewrite Hok).
    replace dbMax with (maxBlockNumber (gdTables g1)) by (by rewrite Htg).
    eapply wp_mono; [apply leapSync_wp; rewrite ?Htg; lia |]. rewrite Htg, Hd1. fold dbMax.
    intros [[e |] | w] g2 Hp; [destruct Hp as [Hp | Hp]; [by left | by right; right] | | exact Hp].
    apply wp_bind, wp_modify, wp_ret. destruct Hp as [Hl Hn]. split_and!.
    + change (maxBlockNumber (gdTables g2) ≤ head). destruct (decide (gd_demoMode g = true ∧ 1000 < head - dbMax)) as [L | L].
      * destruct (Hl L) as (Hc & _). rewrite (cursorMoved_max _ _ _ Hc). fold dbMax. lia.
      * destruct (Hn L) as (_ & _ & Hrepo). unfold gdTables in *. rewrite Hrepo, Htg. fold dbMax. lia.
    + lia.
    + exact Hl.
    + intros _ L. destruct (Hn L) as (_ & Hor & Hrepo). unfold gdTables in *. simpl.
      rewrite Hrepo, Hor, Htg, Ho1. by split.
Qed.

(** The startup alignment has no demo flag.  When it succeeds, a database
    above the chain is pruned to the head, and a chain more than 1000 blocks
    ahead moves the cursors to the block before the head without any data for the
    blocks between, in every mode; between the two nothing changes.  A failure
    has done one repair completely or not at all; it never panics. *)
Lemma AlignInfrastructure_wp {W} {DU : DBUpdater W} (rpcPool : RPCClient W) (done : bool) (head : Z) (w : W) :
  let t := du_tables w in let dbMax := maxBlockNumber t in
  1 ≤ head ≤ max_i64 → dbMax ≤ max_i64 - 1000 →
  wp (rpc_GetLatestBlockNumber rpcPool) (λ o w', o = Val (Ok head) ∧ du_tables w' = t) w →
  wp (AlignInfrastructure rpcPool done)
     (λ o w', ∃ e, o = Val e ∧
        (e = None →
          (head < dbMax → pruned head t (du_tables w')) ∧
          (dbMax + 1000 < head → cursorMoved (head - 1) t (du_tables w')) ∧
          (dbMax ≤ head ≤ dbMax + 1000 → du_tables w' = t)) ∧
        (du_tables w' = t ∨ pruned head t (du_tables w') ∨ cursorMoved (head - 1) t (du_tables w'))) w.
Proof.
  intros t dbMax Hh Hm Hrpc. pose proof (maxBlockNumber_nonneg t) as Hm0. fold dbMax in Hm0.
  apply wp_bind. eapply wp_mono; [exact Hrpc |]. intros o w1 (-> & Ht1).
  apply wp_bind. eapply wp_mono; [apply du_Max_spec |]. intros o w2 (-> & r & -> & Hr).
  destruct r as [m | e]; [| by apply wp_ret; eexists; split; [done | split; [done | left]]].
  assert (Hmax : m = dbMax) by (rewrite (Hr m eq_refl), Ht1; done). subst m. clear Hr.
  apply wp_try. rewrite big_Int64_id, !i64_id by lia64.
  destruct (Z.ltb_spec head dbMax) as [Hover | Hover].
  - rewrite (proj2 (Z.ltb_ge (dbMax + 1000) _)) by lia. apply wp_bind.
    eapply wp_mono; [apply du_Prune_spec |]. intros o w3 (e & -> & Hok & Hany). rewrite Ht1 in *.
    apply wp_ret. destruct e as [e |]; simpl.
    + eexists. split; [done |]. split; [done |]. destruct Hany; auto.
    + apply wp_ret. specialize (Hok eq_refl). eexists. split; [done |]. split; [| destruct Hany; auto].
      intros _. split_and!; [done | lia | lia].
  - apply wp_ret. destruct (Z.ltb_spec (dbMax + 1000) head) as [Hgap | Hgap].
    + eapply wp_mono; [apply du_Update_spec |]. intros o w3 (e & -> & Hok & Hany). rewrite Ht1 in *.
      eexists. split; [done |]. split; [| destruct Hany; auto]. intros He. split_and!; [lia | auto | lia].
    + apply wp_ret. eexists. split; [done |]. split; [| by left]. intros _. split_and!; [lia | lia | done].
Qed.



(** The audit touches nothing and its verdict on a sampled block is the
    comparison of the two hashes. *)
Lemma auditBlock_verdict {W} {PG : Postgres W} (rpcPool : RPCClient W) (b : EthBlock) (mb : ModelBlock) (n : Z) (w : W) :
  wp (rpc_BlockByNumber rpcPool n) (λ o w', o = Val (Ok b) ∧ w' = w) w →
  t_blocks (pg_tables w) !! n = Some mb →
  wp (auditBlock rpcPool n)
     (λ o w', w' = w ∧ (o = Val (Some AuditPassed) → blk_Hash b = mb_Hash mb) ∧
              (o = Val (Some AuditMismatch) → blk_Hash b ≠ mb_Hash mb)) w.
Proof.
  intros Hrpc Hmb. apply wp_bind. eapply wp_mono; [exact Hrpc |]. intros o w1 (-> & ->).
  apply wp_bind. eapply wp_mono; [apply pg_Query_spec |]. intros o w' (-> & r & -> & Hr).
  apply wp_ret. split; [done |]. destruct r as [a | e]; [| by split].
  rewrite (Hr a eq_refl), Hmb. simpl. destruct (String.eqb_spec (blk_Hash b) (mb_Hash mb)); by split.
Qed.

(** The healer leaves the fetched height at or above the cursor, moves no height
    backwards and keeps the actor's invariant; it reports a chain below the
    cursor as a stall and changes no height for it. *)
Lemma auditAndHeal_aligns {W} {OW : OrchWorld W} (o : Orchestrator W) :
  orch_ok o →
  wp auditAndHeal (λ r o', r = Val tt ∧ orch_ok o' ∧ heights_le (or_state o) (or_state o') ∧
     cs_SyncedCursor (or_state o') ≤ cs_FetchedHeight (or_state o') ∧
     (0 < cs_LatestHeight (or_state o) < cs_SyncedCursor (or_state o) →
      cs_SystemState (or_state o') = SystemStateStalled)) o.
Proof.
  intros [Hb Hs Hp Hg]. apply wp_bind, wp_modify, wp_modify. split; [done |].
  set (s1 := if cs_FetchedHeight _ <? _ then _ else _). simpl.
  assert (H1 : cs_SafetyBuffer s1 = cs_SafetyBuffer (or_state o) ∧ cs_SuccessCount s1 = cs_SuccessCount (or_state o) ∧
     cs_LatestHeight s1 = cs_LatestHeight (or_state o) ∧ cs_SyncedCursor s1 = cs_SyncedCursor (or_state o) ∧
     cs_FetchedHeight (or_state o) ≤ cs_FetchedHeight s1 ∧ cs_SyncedCursor (or_state o) ≤ cs_FetchedHeight s1).
  { unfold s1. destruct (Z.ltb_spec (cs_FetchedHeight (or_state o)) (cs_SyncedCursor (or_state o))); simpl; split_and!; try done; lia. }
  clearbody s1. destruct H1 as (E1 & E2 & E3 & E4 & E5 & E6).
  destruct ((0 <? cs_LatestHeight s1) && (cs_LatestHeight s1 <? cs_SyncedCursor s1)) eqn:Hc;
    (split_and!; [split; simpl; rewrite ?E1, ?E2, ?E3; auto | repeat split; simpl; lia | simpl; lia |]); [done |].
  intros [H0 H2]. rewrite E3, E4 in Hc. rewrite (proj2 (Z.ltb_lt _ _) H0), (proj2 (Z.ltb_lt _ _) H2) in Hc. done.
Qed.

(** Without interference the three readers agree: lag and drift are the two
    sides of one difference, at most one of them is positive. *)
Lemma oracleSnapshot_consistent (o : HeightOracle) :
  0 ≤ ho_chainHead o ≤ max_i64 → 0 ≤ ho_indexedHead o ≤ max_i64 →
  wp (oracleSnapshot (mret tt))
     (λ r o', o' = o ∧ ∃ s, r = Val s ∧ hs_SyncLag s - hs_DriftBlocks s = ho_chainHead o - ho_indexedHead o ∧
        0 ≤ hs_SyncLag s ∧ 0 ≤ hs_DriftBlocks s ∧ (hs_SyncLag s = 0 ∨ hs_DriftBlocks s = 0) ∧
        SyncLag (mret tt) o = (o, Val (hs_SyncLag s)) ∧ DriftBlocks (mret tt) o = (o, Val (hs_DriftBlocks s)) ∧
        IsTimeTravel (mret tt) o = (o, Val (hs_IsTimeTravel s))) o.
Proof.
  intros Hc Hi. split; [done |]. eexists. split; [reflexivity |]. simpl.
  unfold IsTimeTravel, SyncLag, DriftBlocks, mbind, GoM_bind, mret, GoM_ret, gets. simpl.
  rewrite !i64_id by lia64.
  destruct (Z.ltb_spec (ho_chainHead o - ho_indexedHead o) 0);
    destruct (Z.ltb_spec (ho_indexedHead o - ho_chainHead o) 0); rewrite ?i64_id by lia64;
    split_and!; try lia; repeat f_equal; lia.
Qed.

(** With a writer between the two loads the snapshot shows a pair of heights that
    never existed at one instant: here a lag of 10 although indexing and head
    moved together. *)
Lemma oracleSnapshot_torn :
  let others := SetChainHead 120 7;; SetIndexedHead 119;; mret tt in
  snd (oracleSnapshot others (mkHeightOracle 100 99 1 true 5)) = Val (mkHeightSnapshot 100 119 0 19 true 7).
Proof. by vm_compute. Qed.

(** ** Properties *)

(** C22: After a successful linearity check the database is not above the chain.
    If it was, exactly the blocks and transfers above the head are gone and every
    cursor is the head; in demo mode a chain more than 1000 (and at most 100000)
    blocks ahead moves the database's cursors and the Orchestrator's to the block
    before the head and touches no data; otherwise nothing changes.  The only
    panic is the demo-mode gap above 100000, after the cursors were moved; a
    failed check has done one of its two repairs completely or not at all. *)
Theorem PerformLinearityCheck_aligns {W V} {DU : DBUpdater W} {OW : OrchWorld V} (rpcPool : RPCClient W)
    (done : bool) (head : Z) (g : Guard W V) :
  let t := gdTables g in let dbMax := maxBlockNumber t in
  1 ≤ head ≤ max_i64 → dbMax ≤ max_i64 →
  wp (rpc_GetLatestBlockNumber rpcPool) (λ o w', o = Val (Ok head) ∧ du_tables w' = t) (gd_repo g) →
  wp (PerformLinearityCheck rpcPool done)
     (λ o g',
        let t' := gdTables g' in
        let leaps := gd_demoMode g = true ∧ 1000 < head - dbMax in
        match o with
        | Val None =>
          maxBlockNumber t' ≤ head ∧ (head < dbMax → pruned head t t') ∧
          (leaps → cursorMoved (head - 1) t t' ∧ cursorsAt (head - 1) (gd_orch g') ∧ head - dbMax ≤ 100000) ∧
          (dbMax ≤ head → ¬ leaps → t' = t ∧ gd_orch g' = gd_orch g)
        | Val (Some _) => t' = t ∨ pruned head t t' ∨ cursorMoved (head - 1) t t'
        | Panic _ => leaps ∧ 100000 < head - dbMax ∧ cursorMoved (head - 1) t t'
        end) g.
Proof. apply PerformLinearityCheck_wp. Qed.

(** ** Witnesses *)

#[export] Program Instance firstRow : PickRow := {|
  pickRow m := match map_to_list m with [] => None | (_, s) :: _ => Some s end
|}.
Next Obligation.
  intros m s Hm. simpl in Hm. destruct (map_to_list m) as [| [c s'] l] eqn:E; [done |]. injection Hm as ->.
  exists c. apply elem_of_map_to_list. rewrite E. by left.
Qed.
Next Obligation.
  intros m Hm. apply map_to_list_empty_iff. simpl in Hm. by destruct (map_to_list m) as [| [c s'] l].
Qed.

(** A node whose head is [h]. *)
Definition headClient (h : Z) : RPCClient PgSim := {|
  rpc_BlockByNumber _ := mret (Err Canceled);
  rpc_FilterLogs _ := mret (Err Canceled);
  rpc_GetLatestBlockNumber := mret (Ok h)
|}.

(** A database with the blocks [ns] and the checkpoint [c]. *)
Definition sampleRow (n : Z) : ModelBlock := mkModelBlock n "h" "p" 0 0 0 None 0.
Definition blocksDb (ns : list Z) (c : string) : PgSim :=
  mkPgSim deployedSchema (mkTables (list_to_map ((λ n, (n, sampleRow n)) <$> ns)) ∅ {[1 := c]} ∅ ∅) None [].
Definition sampleGuard (demo : bool) (ns : list Z) (c : string) : Guard PgSim (Z * Z) :=
  mkGuard demo (Some []) sampleOrch (blocksDb ns c).

Lemma PerformLinearityCheck_aligns_witness :
  let OW := depthsWorld in
  let g := sampleGuard false [4; 5; 6; 7] "7" in
  let g' := fst (PerformLinearityCheck (headClient 5) false g) in
  maxBlockNumber (gdTables g') ≤ 5 ∧ pruned 5 (gdTables g) (gdTables g').
Proof.
  intros OW g g'.
  assert (H : wp (PerformLinearityCheck (headClient 5) false)
                (λ o g', o = Val None → maxBlockNumber (gdTables g') ≤ 5 ∧ pruned 5 (gdTables g) (gdTables g')) g).
  { eapply wp_mono; [apply (PerformLinearityCheck_aligns (headClient 5) false 5 g) |].
    - done.
    - by vm_compute.
    - by split.
    - intros o g1 Hp ->. destruct Hp as (Hm & Hp & _). split; [exact Hm |]. apply Hp. by vm_compute. }
  apply H. by vm_compute.
Defined.

Lemma AlignInfrastructure_jumps_example :
  let w := blocksDb [4; 5] "5" in
  let w' := fst (AlignInfrastructure (headClient 5000) false w) in
  cursorMoved 4999 (pg_tables w) (pg_tables w').
Proof.
  intros w w'.
  assert (H : wp (AlignInfrastructure (headClient 5000) false)
                (λ o w', o = Val None → cursorMoved 4999 (pg_tables w) (pg_tables w')) w).
  { eapply wp_mono; [apply (AlignInfrastructure_wp (headClient 5000) false 5000 w) |].
    - done.
    - by vm_compute.
    - by split.
    - intros o w1 (e & -> & Hp & _) [= ->]. destruct (Hp eq_refl) as (_ & Hp' & _). apply Hp'. by vm_compute. }
  apply H. by vm_compute.
Defined.
