(* ===== verification/Watchdog.v ===== *)
(** * The deadlock watchdog (internal/engine/watchdog_deadlock.go)

    A stalled Sequencer far below the chain is healed by moving the database's
    cursor, the Sequencer and the Orchestrator to the chain head and scheduling
    the skipped range.  The database is the interface [DBUpdater]. *)

From S2P Require Import Prelude GoInt Types GlobalState Database Orchestrator Sequencer SequencerSpec SequencerFloor Guards.
From Stdlib Require Import ZArith Lia String.
From stdpp Require Import base gmap strings list pretty.
Open Scope string_scope.
Open Scope Z_scope.

(** ** State *)

Record HealingEvent := mkHealingEvent {
  he_TriggerReason : string;
  he_DBWatermark : Z;
  he_RPCHeight : Z;
  he_GapSize : Z;
  he_Success : bool;
  he_Error : string
}.

(** The struct with what it points to.  [dw_fetcher]: is a Fetcher wired;
    [dw_scheduled]: the ranges handed to it, each by its own goroutine;
    [dw_events]: the events notified; [dw_repo]: the world behind [repo] and
    [rpcPool]. *)
Record DeadlockWatchdog (S V W : Type) := mkDeadlockWatchdog {
  dw_enabled : bool;
  dw_stallThreshold : Z;
  dw_gapThreshold : Z;
  dw_sequencer : Sequencer S;
  dw_orch : Orchestrator V;
  dw_fetcher : bool;
  dw_scheduled : list (Z * Z);
  dw_events : list HealingEvent;
  dw_repo : W
}.
Arguments mkDeadlockWatchdog {S V W}.
Arguments dw_enabled {S V W}.
Arguments dw_stallThreshold {S V W}.
Arguments dw_gapThreshold {S V W}.
Arguments dw_sequencer {S V W}.
Arguments dw_orch {S V W}.
Arguments dw_fetcher {S V W}.
Arguments dw_scheduled {S V W}.
Arguments dw_events {S V W}.
Arguments dw_repo {S V W}.

Section watchdog.
Context {S V W : Type} {DU : DBUpdater W} {OW : OrchWorld V} (rpcPool : RPCClient W).
Local Abbreviation T := (DeadlockWatchdog S V W).
Implicit Types d : T.

(** watchdog_deadlock.go, [NewDeadlockWatchdog], [SetFetcher],
  [SetGapThreshold] and [Enable]. *)
Definition NewDeadlockWatchdog (sequencer : Sequencer S) (o : Orchestrator V) (repo : W) : T :=
mkDeadlockWatchdog false (120 * second) 1000 sequencer o false [] [] repo.
Definition SetFetcher (present : bool) : GoM T unit :=
modify (λ d, mkDeadlockWatchdog (dw_enabled d) (dw_stallThreshold d) (dw_gapThreshold d) (dw_sequencer d) (dw_orch d)
               present (dw_scheduled d) (dw_events d) (dw_repo d)).
Definition SetGapThreshold (blocks : Z) : GoM T unit :=
modify (λ d, if 0 <? blocks
             then mkDeadlockWatchdog (dw_enabled d) (dw_stallThreshold d) blocks (dw_sequencer d) (dw_orch d)
                    (dw_fetcher d) (dw_scheduled d) (dw_events d) (dw_repo d)
             else d).
Definition Enable : GoM T unit :=
modify (λ d, mkDeadlockWatchdog true (dw_stallThreshold d) (dw_gapThreshold d) (dw_sequencer d) (dw_orch d)
               (dw_fetcher d) (dw_scheduled d) (dw_events d) (dw_repo d)).

Definition dwSeq {A} (m : GoM (Sequencer S) A) : GoM T A :=
zoom dw_sequencer (λ s d, mkDeadlockWatchdog (dw_enabled d) (dw_stallThreshold d) (dw_gapThreshold d) s (dw_orch d)
                            (dw_fetcher d) (dw_scheduled d) (dw_events d) (dw_repo d)) m.
Definition dwOrch {A} (m : GoM (Orchestrator V) A) : GoM T A :=
zoom dw_orch (λ o d, mkDeadlockWatchdog (dw_enabled d) (dw_stallThreshold d) (dw_gapThreshold d) (dw_sequencer d) o
                       (dw_fetcher d) (dw_scheduled d) (dw_events d) (dw_repo d)) m.
Definition dwRepo {A} (m : GoM W A) : GoM T A :=
zoom dw_repo (λ w d, mkDeadlockWatchdog (dw_enabled d) (dw_stallThreshold d) (dw_gapThreshold d) (dw_sequencer d) (dw_orch d)
                       (dw_fetcher d) (dw_scheduled d) (dw_events d) w) m.

(** watchdog_deadlock.go, [notifyHealingEvent]. *)
Definition notifyHealingEvent (e : HealingEvent) : GoM T unit :=
modify (λ d, mkDeadlockWatchdog (dw_enabled d) (dw_stallThreshold d) (dw_gapThreshold d) (dw_sequencer d) (dw_orch d)
               (dw_fetcher d) (dw_scheduled d) (dw_events d ++ [e])%list (dw_repo d)).

(** [go dw.fetcher.Schedule(ctx, from, to)]. *)
Definition goSchedule (from to : Z) : GoM T unit :=
modify (λ d, mkDeadlockWatchdog (dw_enabled d) (dw_stallThreshold d) (dw_gapThreshold d) (dw_sequencer d) (dw_orch d)
               (dw_fetcher d) (dw_scheduled d ++ [(from, to)])%list (dw_events d) (dw_repo d)).

(** The repair of [checkAndHeal], once the tear is established. *)
Definition heal (now : Z) (done : bool) (rpcHeight dbHeight : Z) : GoM T (option GoErr) :=
let event ok err := mkHealingEvent "space_time_tear" dbHeight (big_Int64 rpcHeight)
                      (i64 (big_Int64 rpcHeight - dbHeight)) ok err in
let newCursorHeight := i64 (big_Int64 rpcHeight - 1) in
err ← dwRepo (du_UpdateSyncCursor done newCursorHeight);
match err with
| Some e => notifyHealingEvent (event false ("Step 1 failed: " ++ Error e));; mret (Some e)
| None =>
  dwSeq (ResetExpectedBlock rpcHeight now);;
  dwSeq ClearBuffer;;
  dwOrch (SetSystemState SystemStateHealing);;
  dwOrch (ForceSetCursors (u64 newCursorHeight));;
  d ← gets id;
  (if dw_fetcher d && (dbHeight <? i64 (big_Int64 rpcHeight - 1))
   then goSchedule (i64 (dbHeight + 1)) rpcHeight else mret tt);;
  notifyHealingEvent (event true "");;
  mret None
end.

(** watchdog_deadlock.go, [checkAndHeal] at time [now]. *)
Definition checkAndHeal (now : Z) (done : bool) : GoM T (option GoErr) :=
d ← gets id;
if negb (dw_enabled d) then mret None
else
  idleTime ← dwSeq (GetIdleTime now);
  if idleTime <? dw_stallThreshold d then mret None
  else
    rpc ← dwRepo (rpc_GetLatestBlockNumber rpcPool);
    match rpc with
    | Err e => mret (Some e)
    | Ok rpcHeight =>
      db ← dwRepo du_GetSyncCursor;
      match db with
      | Err e => mret (Some e)
      | Ok dbHeight =>
        sequencerExpected ← dwSeq GetExpectedBlock;
        let gapSize := i64 (big_Int64 rpcHeight - dbHeight) in
        if (dw_gapThreshold d <? gapSize) &&
           (big_Int64 sequencerExpected <? i64 (big_Int64 rpcHeight - dw_gapThreshold d))
        then heal now done rpcHeight dbHeight
        else mret None
      end
    end.

(** ** Lemmas *)

Definition dwTables d : Tables := du_tables (dw_repo d).

(** The Sequencer after a heal: it expects the head and remembers nothing. *)
Definition healedSeq (now head : Z) (s : Sequencer S) : Sequencer S :=
set_buffer ∅ (set_lastProgress now (emit (EvReset head) (set_expected head s))).

Lemma heal_wp now done head db d :
1 ≤ head ≤ max_i64 → 0 ≤ db ≤ max_i64 - 1 →
wp (heal now done head db)
   (λ o d', ∃ e, o = Val e ∧
      match e with
      | None =>
        dw_sequencer d' = healedSeq now head (dw_sequencer d) ∧
        cursorMoved (head - 1) (dwTables d) (dwTables d') ∧ cursorsAt (head - 1) (dw_orch d') ∧
        dw_scheduled d' = (dw_scheduled d ++ if dw_fetcher d && (db <? head - 1)%Z then [(db + 1, head)] else [])%list ∧
        dw_events d' = (dw_events d ++ [mkHealingEvent "space_time_tear" db head (head - db) true ""])%list
      | Some err =>
        dw_sequencer d' = dw_sequencer d ∧ dw_orch d' = dw_orch d ∧ dw_scheduled d' = dw_scheduled d ∧
        (dwTables d' = dwTables d ∨ cursorMoved (head - 1) (dwTables d) (dwTables d')) ∧
        dw_events d' = (dw_events d ++ [mkHealingEvent "space_time_tear" db head (head - db) false
                                          ("Step 1 failed: " ++ Error err)])%list
      end) d.
Proof.
intros Hh Hd. unfold heal. rewrite big_Int64_id, !i64_id by lia64. rewrite u64_id by lia64.
apply wp_bind, wp_zoom. eapply wp_mono; [apply du_Update_spec |]. intros o w' (e & -> & Hok & Hany).
destruct e as [err |].
{ apply wp_bind, wp_modify, wp_ret. eexists. split; [done |]. by split_and!. }
specialize (Hok eq_refl).
apply wp_bind, wp_zoom, wp_modify, wp_bind, wp_zoom, wp_modify, wp_bind, wp_zoom.
apply wp_bind, wp_modify, wp_bind, wp_gets. unfold id. rewrite andb_false_r.
apply wp_bind, wp_modify, wp_ret.
apply wp_bind, wp_zoom. eapply wp_mono; [apply ForceSetCursors_wp |]. intros r o' (-> & Hcur).
apply wp_bind, wp_gets. unfold id. simpl. apply wp_bind. destruct (dw_fetcher d && (db <? head - 1)).
- apply wp_modify, wp_bind, wp_modify, wp_ret. eexists. split; [done |]. by split_and!.
- apply wp_ret, wp_bind, wp_modify, wp_ret. eexists. split; [done |]. rewrite app_nil_r. by split_and!.
Qed.
(** Idle for the threshold, with the stored cursor and the expected block more
  than the gap threshold below the head. *)
Definition spaceTimeTear (now head db : Z) d : Prop :=
dw_stallThreshold d ≤ now - sq_lastProgressAt (dw_sequencer d) ∧ dw_gapThreshold d < head - db ∧
sq_expectedBlock (dw_sequencer d) < head - dw_gapThreshold d.

(** The node's head is [head] and the stored cursor [db]; the numbers fit. *)
Record observes (head db : Z) d : Prop := {
ob_enabled : dw_enabled d = true;
ob_head : 1 ≤ head ≤ max_i64;
ob_db : 0 ≤ db ≤ max_i64 - 1;
ob_expected : 0 ≤ sq_expectedBlock (dw_sequencer d) ≤ max_i64;
ob_gap : 0 ≤ dw_gapThreshold d ≤ max_i64;
ob_rpc w : wp (rpc_GetLatestBlockNumber rpcPool) (λ o w', o = Val (Ok head) ∧ du_tables w' = du_tables w) w;
ob_cursor w : du_tables w = dwTables d → wp du_GetSyncCursor (λ o w', o = Val (Ok db)) w
}.

(** [d1] differs from [d] in the world behind the interfaces, not its tables. *)
Definition sameButWorld d d1 : Prop :=
∃ w1, d1 = mkDeadlockWatchdog (dw_enabled d) (dw_stallThreshold d) (dw_gapThreshold d) (dw_sequencer d) (dw_orch d)
             (dw_fetcher d) (dw_scheduled d) (dw_events d) w1 ∧ du_tables w1 = dwTables d.

(** [checkAndHeal] is [heal] on a tear and nothing otherwise. *)
Lemma checkAndHeal_wp now done head db d Q :
observes head db d →
(¬ spaceTimeTear now head db d → ∀ d1, sameButWorld d d1 → Q (Val None) d1) →
(spaceTimeTear now head db d → ∀ d1, sameButWorld d d1 → wp (heal now done head db) Q d1) →
wp (checkAndHeal now done) Q d.
Proof.
intros [He Hh Hd Hs Hg Hrpc Hcur] Hno Hyes. apply wp_bind, wp_gets. unfold id. rewrite He. simpl.
apply wp_bind, wp_zoom, wp_gets.
destruct (Z.ltb_spec (now - sq_lastProgressAt (dw_sequencer d)) (dw_stallThreshold d)).
{ apply wp_ret, Hno; [intros [? _]; lia |]. by exists (dw_repo d). }
apply wp_bind, wp_zoom. eapply wp_mono; [apply Hrpc |]. intros o w1 (-> & Ht1).
apply wp_bind, wp_zoom. eapply wp_mono; [exact (wp_and _ _ _ _ (Hcur w1 Ht1) (du_Cursor_spec w1)) |].
intros o w2 (-> & -> & _). apply wp_bind, wp_zoom, wp_gets. simpl. rewrite !big_Int64_id, !i64_id by lia64.
destruct ((dw_gapThreshold d <? head - db) && (sq_expectedBlock (dw_sequencer d) <? head - dw_gapThreshold d)) eqn:Hc.
- bool_prop. apply Hyes; [done | by eexists].
- apply wp_ret, Hno; [| by eexists]. intros (_ & H1 & H2).
  rewrite (proj2 (Z.ltb_lt _ _) H1), (proj2 (Z.ltb_lt _ _) H2) in Hc. done.
Qed.
End watchdog.

(** ** Properties *)

(** The watchdog heals exactly a space-time tear: a Sequencer idle for the
    threshold, with both the stored cursor and the expected block more than the
    gap threshold below the head.  A heal moves the stored cursor, the
    Orchestrator's cursors and [expectedBlock] to the head, empties the buffer,
    hands the range above the old cursor to the Fetcher and reports success; when
    the cursor cannot be written, Sequencer, Orchestrator and Fetcher are left
    alone and the failure is reported; without a tear nothing changes. *)
Theorem checkAndHeal_spec {S V W} {DU : DBUpdater W} {OW : OrchWorld V} (rpcPool : RPCClient W)
    (now : Z) (done : bool) (head db : Z) (d : DeadlockWatchdog S V W) :
  observes rpcPool head db d →
  wp (checkAndHeal rpcPool now done)
     (λ o d', ∃ e, o = Val e ∧
        (¬ spaceTimeTear now head db d → e = None ∧ sameButWorld d d') ∧
        (spaceTimeTear now head db d →
         match e with
         | None =>
           dw_sequencer d' = healedSeq now head (dw_sequencer d) ∧
           cursorMoved (head - 1) (dwTables d) (dwTables d') ∧ cursorsAt (head - 1) (dw_orch d') ∧
           dw_scheduled d' = (dw_scheduled d ++ if dw_fetcher d && (db <? head - 1)%Z then [(db + 1, head)] else [])%list ∧
           dw_events d' = (dw_events d ++ [mkHealingEvent "space_time_tear" db head (head - db) true ""])%list
         | Some err =>
           dw_sequencer d' = dw_sequencer d ∧ dw_orch d' = dw_orch d ∧ dw_scheduled d' = dw_scheduled d ∧
           (dwTables d' = dwTables d ∨ cursorMoved (head - 1) (dwTables d) (dwTables d')) ∧
           dw_events d' = (dw_events d ++ [mkHealingEvent "space_time_tear" db head (head - db) false
                                             ("Step 1 failed: " ++ Error err)])%list
         end)) d.
Proof.
  intros Ho. eapply checkAndHeal_wp; [exact Ho | |]; intros Ht d1 Hd1.
  - eexists. split; [done |]. by split.
  - destruct Hd1 as (w1 & -> & Ht1). destruct Ho. eapply wp_mono; [by apply heal_wp |].
    intros o d' (e & -> & Hp). exists e. split; [done |]. unfold dwTables in Hp at 1 3. simpl in Hp.
    split; [done | intros _]. unfold dwTables in *. simpl in Hp. rewrite Ht1 in Hp. exact Hp.
Qed.

(** A heal abandons the gap.  It moves the stored cursor to the block before
    the head without storing anything, and although it hands the skipped range to
    the Fetcher, no block below the head is ever processed again: the Sequencer
    drops every result of that range, through any number of restarts. *)
Theorem heal_abandons_gap {S V W} {BP : BlockProcessor S} {SS : SortSlice} {DU : DBUpdater W} {OW : OrchWorld V}
    (rpcPool : RPCClient W) (now : Z) (done : bool) (head db : Z) (d : DeadlockWatchdog S V W)
    (runs : list (list (SeqEnv S * SeqInput))) :
  observes rpcPool head db d → spaceTimeTear now head db d → all_quiet runs →
  dw_fetcher d = true → db < head - 1 →
  wp (checkAndHeal rpcPool now done)
     (λ o d', o = Val None →
        cursorMoved (head - 1) (dwTables d) (dwTables d') ∧
        (db + 1, head) ∈ dw_scheduled d' ∧
        wp (runSequencerWithSelfHealing runs)
           (λ _ s', ∃ evs, sq_trace s' = (sq_trace (dw_sequencer d') ++ evs)%list ∧
                           Forall (λ n, head ≤ n) (processedNumbers evs)) (dw_sequencer d')) d.
Proof.
  intros Ho Ht Hq Hf Hdb. eapply checkAndHeal_wp; [exact Ho | done |]. intros _ d1 (w1 & -> & Ht1).
  destruct Ho. eapply wp_mono; [by apply heal_wp |]. intros o d' (e & -> & Hp) [= ->].
  unfold dwTables in Hp. simpl in Hp. rewrite Ht1, Hf, (proj2 (Z.ltb_lt _ _) Hdb) in Hp. simpl in Hp.
  destruct Hp as (Hseq & Hc & _ & Hsch & _). split_and!; [done | rewrite Hsch; apply elem_of_app; right; by left |].
  eapply wp_mono; [by apply (supervise_floored head) |]. intros o s' Hfl. apply Hfl.
  rewrite Hseq. split; [done | apply map_Forall_empty].
Qed.

(** ** Witnesses *)

(** A Sequencer that has waited for block 11 since time 0; the stored cursor is
    10, the chain is at 5000. *)
Definition stalledWatchdog : DeadlockWatchdog unit (Z * Z) PgSim :=
  mkDeadlockWatchdog true (120 * second) 1000 (NewSequencer 11 0 None tt) sampleOrch true [] []
    (blocksDb [9; 10] "10").

Lemma stalledWatchdog_observes : observes (headClient 5000) 5000 10 stalledWatchdog.
Proof.
  split; try done.
  intros w Hw. unfold wp, du_GetSyncCursor. simpl. unfold ra_GetSyncCursor, mbind, GoM_bind. simpl.
  simpl in Hw. rewrite Hw. by vm_compute.
Qed.

Lemma stalledWatchdog_tear : spaceTimeTear (121 * second) 5000 10 stalledWatchdog.
Proof. by vm_compute. Qed.

Lemma checkAndHeal_spec_witness :
  let OW := depthsWorld in
  let d' := fst (checkAndHeal (headClient 5000) (121 * second) false stalledWatchdog) in
  dw_sequencer d' = healedSeq (121 * second) 5000 (dw_sequencer stalledWatchdog) ∧
  cursorMoved 4999 (dwTables stalledWatchdog) (dwTables d').
Proof.
  intros OW d'.
  destruct (checkAndHeal_spec (headClient 5000) (121 * second) false 5000 10 stalledWatchdog stalledWatchdog_observes)
    as (e & He & _ & H).
  specialize (H stalledWatchdog_tear).
  assert (Hn : snd (checkAndHeal (headClient 5000) (121 * second) false stalledWatchdog) = Val None) by by vm_compute.
  rewrite Hn in He. injection He as <-. destruct H as (H1 & H2 & _). split; [exact H1 | exact H2].
Defined.

Lemma heal_abandons_gap_witness :
  let OW := depthsWorld in let BP := okProcessor in let SS := goSortSlice in
  let d' := fst (checkAndHeal (headClient 5000) (121 * second) false stalledWatchdog) in
  (10 + 1, 5000) ∈ dw_scheduled d' ∧ cursorMoved 4999 (dwTables stalledWatchdog) (dwTables d').
Proof.
  intros OW BP SS d'.
  destruct (heal_abandons_gap (headClient 5000) (121 * second) false 5000 10 stalledWatchdog sampleRuns
              stalledWatchdog_observes stalledWatchdog_tear sampleRuns_quiet eq_refl) as (H1 & H2 & _);
    [done | by vm_compute | split; [exact H2 | exact H1]].
Defined.
