(* ===== verification/Service.v ===== *)
(** * Startup and tail following (cmd/indexer/main_init.go, main_services.go,
    service_manager.go)

    How the engine chooses the block it starts from, the checks it runs before,
    and the loop that follows the chain's head and schedules blocks for the
    Fetcher. *)

From S2P Require Import Prelude GoInt Types GlobalState Database Orchestrator Sequencer SequencerSpec SequencerFloor Fetcher Guards.
From Stdlib Require Import ZArith Lia String Ascii.
From stdpp Require Import base gmap strings list pretty.
Open Scope string_scope.
Open Scope Z_scope.

(** ** The start block *)

(** config.go: the values startup reads. *)
Record Config := mkConfig {
  cfg_ChainID : Z;
  cfg_StartBlock : Z;
  cfg_StartBlockStr : string;
  cfg_DemoMode : bool
}.

(** [%q] of a printable string without quotes or backslashes. *)
Definition quoted (s : string) : string :=
  String (ascii_of_nat 34) (s ++ String (ascii_of_nat 34) EmptyString).

(** main_services.go, [getDefaultStartBlockForChain]. *)
Definition getDefaultStartBlockForChain (chainID : Z) : Z :=
  if chainID =? 11155111 then 10262444 else 0.

(** The statements of the [-reset] flag. *)
Definition resetStmt : Stmt :=
  mkStmt Tblocks [] None (λ t, tset_checkpoints ∅ (tset_transfers ∅ (tset_blocks ∅ t))).

(** The anchor: the columns it does not name take their defaults. *)
Definition insertAnchorStmt (number : Z) (hash parentHash : string) (time : Z) : Stmt :=
  mkStmt Tblocks ["number"; "hash"; "parent_hash"; "timestamp"] None
    (λ t, tset_blocks (insertNew (t_blocks t) number (mkModelBlock number hash parentHash time 0 0 None 0)) t).

(** main_services.go, the statements of [AlignAnvilData]. *)
Definition updateCheckpointOfStmt (chainID head : Z) : Stmt :=
  mkStmt Tsync_checkpoints ["last_synced_block"; "chain_id"] None
    (λ t, tset_checkpoints (alter (λ _, pretty head) chainID (t_checkpoints t)) t).

Section start.
Context {W V : Type} {PG : Postgres W} {PR : PickRow} {OW : OrchWorld V} (rpcPool : RPCClient W).

(** main_services.go, [getStartBlockFromCheckpoint]. *)
Definition getStartBlockFromCheckpoint (cfg : Config) (done : bool) (chainID : Z) (forceFrom : string) (resetDB : bool)
: GoM W (result GoErr Z) :=
latestChainBlock ← rpc_GetLatestBlockNumber rpcPool;
if resetDB then
  err ← pg_Exec done resetStmt;
  mret match err with
       | Some e => Err (WrapErr "reset database failed: " e)
       | None => Ok (getDefaultStartBlockForChain chainID)
       end
else if negb (String.eqb forceFrom "") then
  if String.eqb forceFrom "latest" then
    mret match latestChainBlock with
         | Err e => Err (WrapErr "get latest block for forceFrom=latest: " e)
         | Ok n => Ok (n + 1)
         end
  else mret match SetString10 forceFrom with
            | Some n => Ok n
            | None => Err (Errorf ("invalid forceFrom block number: " ++ quoted forceFrom))
            end
else if String.eqb (cfg_StartBlockStr cfg) "latest" then
  mret match latestChainBlock with
       | Err e => Err (WrapErr "get latest block for StartBlockStr=latest: " e)
       | Ok n => Ok (if n - 6 <? 0 then 0 else n - 6)
       end
else if 0 <? cfg_StartBlock cfg then mret (Ok (cfg_StartBlock cfg))
else
  r ← pg_Query (option string) (λ t, t_checkpoints t !! chainID);
  let lastSyncedBlock := match r with Ok (Some s) => s | _ => "" end in
  if String.eqb lastSyncedBlock "" then mret (Ok (getDefaultStartBlockForChain chainID))
  else mret match SetString10 lastSyncedBlock with
            | Some n => Ok (n + 1)
            | None => Err (Errorf ("invalid checkpoint block number: " ++ quoted lastSyncedBlock))
            end.

(** main_services.go, [setupParentAnchor]; a failed insert is only logged. *)
Definition setupParentAnchor (startBlock : Z) : GoM W unit :=
if startBlock <=? 0 then mret tt
else
  let parentNum := startBlock - 1 in
  parent ← rpc_BlockByNumber rpcPool parentNum;
  match parent with
  | Err _ => mret tt
  | Ok b =>
    pg_Exec false (insertAnchorStmt parentNum (blk_Hash b) (blk_ParentHash b) (blk_Time b));;
    mret tt
  end.

(** What startup logs as errors, and the block it starts from. *)
Record Started := mkStarted {
  su_align : option GoErr;
  su_linearity : option GoErr;
  su_start : result GoErr Z;
  su_block : Z
}.

(** main_init.go, the part of [run] that aligns the database and picks the start
  block; errors are logged and startup goes on. *)
Definition startup (cfg : Config) (done : bool) (forceFrom : string) (resetDB : bool) : GoM (Guard W V) Started :=
align ← gdRepo (AlignInfrastructure rpcPool done);
SetDemoMode (cfg_DemoMode cfg);;
linearity ← PerformLinearityCheck rpcPool done;
start ← gdRepo (getStartBlockFromCheckpoint cfg done (cfg_ChainID cfg) forceFrom resetDB);
let startBlock := match start with Ok n => n | Err _ => cfg_StartBlock cfg end in
gdRepo (setupParentAnchor startBlock);;
mret (mkStarted align linearity start startBlock).

(** main_services.go, [AlignAnvilData]; errors are logged. *)
Definition AlignAnvilData (done : bool) : GoM W unit :=
tip ← rpc_GetLatestBlockNumber rpcPool;
match tip with
| Err _ => mret tt
| Ok tip =>
  let rpcHeight := big_Uint64 tip in
  db ← pg_Query Z maxBlockNumber;
  match db with
  | Err _ => mret tt
  | Ok dbHeight =>
    if rpcHeight <? dbHeight then
      err ← pg_Exec done (deleteBlocksAboveStmt rpcHeight);
      match err with
      | Some _ => mret tt
      | None => pg_Exec done (updateCheckpointOfStmt 31337 rpcHeight);; mret tt
      end
    else mret tt
  end
end.

(** service_manager.go, the gap check that opens [StartTailFollow]: the range it
  schedules in the background. *)
Definition startupGap (startBlock : Z) : GoM W (option (Z * Z)) :=
r ← pg_Query Z maxBlockNumber;
mret match r with
     | Ok maxInDB =>
       if (0 <? maxInDB) && (maxInDB + 1 <? big_Int64 startBlock)
       then Some (maxInDB + 1, big_Int64 startBlock - 1) else None
     | Err _ => None
     end.
End start.

(** ** Following the tail *)

(** The loop's local [lastScheduled] with what it works on.  Two records of
    what [Schedule] did: [tf_handed], the jobs its calls added, and
    [tf_accepted], the ranges it accepted with the chain height it saw. *)
Record TailFollow (V U : Type) := mkTailFollow {
  tf_orch : Orchestrator V;
  tf_fetcher : Fetcher U;
  tf_lastScheduled : Z;
  tf_handed : list FetchJob;
  tf_accepted : list (Z * Z * Z)
}.
Arguments mkTailFollow {V U}.
Arguments tf_orch {V U}.
Arguments tf_fetcher {V U}.
Arguments tf_lastScheduled {V U}.
Arguments tf_handed {V U}.
Arguments tf_accepted {V U}.

(** One tick: the node's answer, the error of the context, and what other
    goroutines do between the loop's reads: the Orchestrator's loop after the new
    head was dispatched and again before [Schedule], and the Fetcher's workers. *)
Record TailEnv (V U : Type) := mkTailEnv {
  te_tip : result GoErr Z;
  te_ctxErr : GoErr;
  te_afterHead : GoM (Orchestrator V) unit;
  te_beforeSchedule : GoM (Orchestrator V) unit;
  te_workers : GoM (Fetcher U) unit
}.
Arguments mkTailEnv {V U}.
Arguments te_tip {V U}.
Arguments te_ctxErr {V U}.
Arguments te_afterHead {V U}.
Arguments te_beforeSchedule {V U}.
Arguments te_workers {V U}.

Section tail.
Context {V U : Type} {OW : OrchWorld V}.
Local Abbreviation M := (GoM (TailFollow V U)).
Implicit Types (t : TailFollow V U) (env : TailEnv V U).

Definition tfOrch {A} (m : GoM (Orchestrator V) A) : M A :=
zoom tf_orch (λ o t, mkTailFollow o (tf_fetcher t) (tf_lastScheduled t) (tf_handed t) (tf_accepted t)) m.
Definition tfFetcher {A} (m : GoM (Fetcher U) A) : M A :=
zoom tf_fetcher (λ f t, mkTailFollow (tf_orch t) f (tf_lastScheduled t) (tf_handed t) (tf_accepted t)) m.

(** [tickerInterval] and [schedulingWindow] of [continuousTailFollow]. *)
Definition tickerInterval (chainID : Z) : Z := if chainID =? 31337 then 100000000 else 500000000.
Definition schedulingWindow (chainID : Z) : Z := if chainID =? 31337 then 100 else 10.

(** [fetcher.Schedule], which reads the snapshot's [LatestHeight] itself, and
  the advance of [lastScheduled] when it returns no error. *)
Definition tailSchedule env (nextBlock aggressiveTarget : Z) : M unit :=
tfOrch (te_beforeSchedule env);;
tfFetcher (te_workers env);;
snap ← tfOrch GetSnapshot;
before ← gets (λ t, length (fe_jobs (tf_fetcher t)));
err ← tfFetcher (Schedule (cs_LatestHeight snap) (te_ctxErr env) nextBlock aggressiveTarget);
modify (λ t, mkTailFollow (tf_orch t) (tf_fetcher t) (tf_lastScheduled t)
               (tf_handed t ++ drop before (fe_jobs (tf_fetcher t)))%list (tf_accepted t));;
match err with
| None =>
  modify (λ t, mkTailFollow (tf_orch t) (tf_fetcher t) aggressiveTarget (tf_handed t)
                 (tf_accepted t ++ [(nextBlock, aggressiveTarget, SafeUint64ToInt64 (cs_LatestHeight snap))])%list)
| Some _ => mret tt
end.

(** main_services.go, one tick of [continuousTailFollow]. *)
Definition tailTick (chainID : Z) env : M unit :=
match te_tip env with
| Err _ => mret tt
| Ok tip =>
  tfOrch (UpdateChainHead (big_Uint64 tip));;
  tfOrch (te_afterHead env);;
  snap ← tfOrch GetSnapshot;
  t ← gets id;
  let targetHeight := i64 (cs_TargetHeight snap) in
  if tf_lastScheduled t <? targetHeight then
    let nextBlock := tf_lastScheduled t + 1 in
    let aggressiveTarget := if tip <? targetHeight + schedulingWindow chainID then tip
                            else targetHeight + schedulingWindow chainID in
    if nextBlock <=? aggressiveTarget then tailSchedule env nextBlock aggressiveTarget else mret tt
  else mret tt
end.

(** main_services.go, [continuousTailFollow]: its state before the first tick,
  and the ticks. *)
Definition newTailFollow (o : Orchestrator V) (f : Fetcher U) (startBlock : Z) : TailFollow V U :=
mkTailFollow o f (startBlock - 1) [] [].
Fixpoint continuousTailFollow (chainID : Z) (envs : list (TailEnv V U)) : M unit :=
match envs with [] => mret tt | env :: rest => tailTick chainID env;; continuousTailFollow chainID rest end.

(** ** Lemmas: tail following *)

(** The workers take jobs and add results; no select of [Schedule] is
  interrupted. *)
Definition workers_ok env : Prop :=
∀ f, wp (te_workers env) (λ _ f', fe_picks f' = fe_picks f) f.

(** The blocks of the accepted ranges, as asked for and as cut to the height the
  Fetcher saw. *)
Definition asked (r : Z * Z * Z) : list Z := seqZ r.1.1 (r.1.2 - r.1.1 + 1).
Definition granted (r : Z * Z * Z) : list Z := seqZ r.1.1 (Z.min r.1.2 r.2 - r.1.1 + 1).

(** What the ticks from [start] maintain: the accepted ranges tile
  [start .. lastScheduled], the jobs handed over are exactly those ranges as
  granted. *)
Definition tail_ok (start : Z) t : Prop :=
start - 1 ≤ tf_lastScheduled t ∧ fe_picks (tf_fetcher t) = [] ∧
tf_accepted t ≫= asked = seqZ start (tf_lastScheduled t - start + 1) ∧
concat (jobBlocks <$> tf_handed t) = tf_accepted t ≫= granted.

Definition tail_keeps t t' : Prop := ∀ start, tail_ok start t → tail_ok start t'.

#[local] Instance tail_keeps_pre : PreOrder tail_keeps.
Proof. split; [by intros t start ? | intros t1 t2 t3 H1 H2 start Ht; by apply H2, H1]. Qed.

Lemma tail_always_orch {A} (m : GoM (Orchestrator V) A) t : always tail_keeps (tfOrch m) t.
Proof. apply wp_zoom. unfold wp. by intros start Ht. Qed.

Lemma tailSchedule_keeps env next last t :
workers_ok env → next = tf_lastScheduled t + 1 → next ≤ last → always tail_keeps (tailSchedule env next last) t.
Proof.
intros Hw Hn Hle. unfold tailSchedule.
apply wp_bind, wp_zoom. unfold wp at 1. destruct (snd _) as [[] |]; [| by intros start ?].
apply wp_bind, wp_zoom. eapply wp_mono; [apply Hw |]. intros o f1 Hp. simpl in Hp.
set (t1 := mkTailFollow _ f1 _ _ _).
assert (Hk1 : tail_keeps t t1) by (intros start (? & ? & ? & ?); split_and!; simpl; congruence).
destruct o as [[] |]; [| exact Hk1].
apply wp_bind, wp_zoom, wp_gets, wp_bind, wp_gets, wp_bind, wp_zoom. simpl.
unfold wp at 1. destruct (decide (fe_picks f1 = [])) as [Hp1 | Hp1].
2: { (* not a state the invariant speaks about *)
  destruct (Schedule _ _ next last f1) as [f2 [e |]]; simpl; [| intros start (? & ? & _); congruence].
  apply wp_bind, wp_modify. destruct e; [apply wp_ret | apply wp_modify]; intros start (? & ? & _); congruence. }
destruct (Schedule_jobs (cs_LatestHeight (or_snapshot (tf_orch t1))) (te_ctxErr env) next last f1 Hp1)
  as (e & jobs & Hs & He & Hok). simpl in Hs, Hok. rewrite Hs. simpl.
apply wp_bind, wp_modify. destruct e as [e |]; simpl; rewrite drop_app_length.
- rewrite He by done. apply wp_ret. intros start Ht. apply Hk1 in Ht. destruct Ht as (? & ? & ? & ?).
  split_and!; simpl; [done.. |]. by rewrite app_nil_r.
- destruct (Hok eq_refl) as [Hch Hcov]. apply wp_modify. intros start Ht. apply Hk1 in Ht.
  destruct Ht as (H1 & H2 & H3 & H4). subst t1; simpl in *. split_and!; simpl.
  + lia.
  + done.
  + rewrite bind_app, H3. simpl. rewrite app_nil_r. unfold asked. simpl. subst next.
    replace (last - start + 1) with ((tf_lastScheduled t - start + 1) + (last - tf_lastScheduled t)) by lia.
    rewrite (seqZ_app start (tf_lastScheduled t - start + 1)) by lia. f_equal. f_equal; lia.
  + rewrite bind_app, fmap_app, concat_app, H4, Hcov. simpl. by rewrite app_nil_r.
Qed.

Lemma tailTick_keeps chainID env t : workers_ok env → always tail_keeps (tailTick chainID env) t.
Proof.
intros Hw. unfold tailTick. destruct (te_tip env) as [tip | e]; [| apply always_ret, _].
apply always_seq; [apply _ | apply tail_always_orch |]. intros _ t1.
apply always_seq; [apply _ | apply tail_always_orch |]. intros _ t2.
apply always_seq; [apply _ | apply tail_always_orch |]. intros snap t3.
apply always_bind; [apply _ |]. apply wp_gets. split; [done |]. unfold id.
case_match; [| apply always_ret, _].
destruct (Z.leb_spec (tf_lastScheduled t3 + 1)
            (if tip <? i64 (cs_TargetHeight snap) + schedulingWindow chainID then tip
             else i64 (cs_TargetHeight snap) + schedulingWindow chainID)); [| apply always_ret, _].
by apply tailSchedule_keeps.
Qed.

Lemma continuousTailFollow_keeps chainID envs t :
Forall workers_ok envs → always tail_keeps (continuousTailFollow chainID envs) t.
Proof.
intros H. revert t. induction H as [| env envs Hw _ IH]; intros t; simpl; [apply always_ret, _ |].
apply always_seq; [apply _ | by apply tailTick_keeps | auto].
Qed.

Lemma granted_all (rs : list (Z * Z * Z)) : Forall (λ r, r.1.2 ≤ r.2) rs → rs ≫= granted = rs ≫= asked.
Proof.
induction 1 as [| r rs Hr _ IH]; [done |]. rewrite !bind_cons, IH. f_equal. unfold granted, asked. do 2 f_equal. lia.
Qed.
End tail.

(** ** Lemmas: startup *)

Section startup_lemmas.
Context {W V : Type} {PG : Postgres W} {PR : PickRow} {OW : OrchWorld V} (rpcPool : RPCClient W).

(** The node's head is [head], on every call. *)
Definition node_at (head : Z) : Prop :=
∀ w, wp (rpc_GetLatestBlockNumber rpcPool) (λ o w', o = Val (Ok head) ∧ pg_tables w' = pg_tables w) w.

(** Nothing overrides the checkpoint. *)
Definition from_checkpoint (cfg : Config) : Prop := cfg_StartBlock cfg ≤ 0 ∧ cfg_StartBlockStr cfg ≠ "latest".

Lemma getStartBlock_checkpoint cfg done head chainID c w :
node_at head → from_checkpoint cfg → t_checkpoints (pg_tables w) !! chainID = Some (pretty c) →
wp (getStartBlockFromCheckpoint rpcPool cfg done chainID "" false)
   (λ o w', o = Val (Ok (c + 1)) ∨ o = Val (Ok (getDefaultStartBlockForChain chainID))) w.
Proof.
intros Hn [Hs Hstr] Hc. apply wp_bind. eapply wp_mono; [apply Hn |]. intros o w1 (-> & Ht1). simpl.
rewrite (proj2 (String.eqb_neq _ _) Hstr), (proj2 (Z.ltb_ge _ _) Hs).
apply wp_bind. eapply wp_mono; [apply pg_Query_spec |]. intros o w' (-> & r & -> & Hr).
destruct r as [a | e]; [| apply wp_ret; by right]. rewrite (Hr a eq_refl), Ht1, Hc.
assert (Hne : String.eqb (pretty c) "" = false).
{ apply String.eqb_neq. intros He. pose proof (SetString10_pretty c) as Hp. rewrite He in Hp. discriminate Hp. }
rewrite Hne, SetString10_pretty. apply wp_ret. by left.
Qed.

(** The cursor the two checks leave for a chain whose cursor was [c]. *)
Definition alignedCursor (demo : bool) (head dbMax c cur : Z) : Prop :=
(head < dbMax → cur = head ∨ (demo = true ∧ cur = head - 1)) ∧
(dbMax + 1000 < head → cur = head - 1) ∧
(dbMax ≤ head ≤ dbMax + 1000 → cur = c).

Lemma moved_cursor (h : Z) t t' chainID s :
t_checkpoints t !! chainID = Some s → t_checkpoints t' = (λ _, pretty h) <$> t_checkpoints t →
t_checkpoints t' !! chainID = Some (pretty h).
Proof. intros Hs ->. by rewrite lookup_fmap, Hs. Qed.

(** What the alignment leaves: nothing above the head, and the cursor. *)
Lemma align_outcome head chainID c (t t1 : Tables) :
let dbMax := maxBlockNumber t in
1 ≤ head → t_checkpoints t !! chainID = Some (pretty c) →
(head < dbMax → pruned head t t1) → (dbMax + 1000 < head → cursorMoved (head - 1) t t1) →
(dbMax ≤ head ≤ dbMax + 1000 → t1 = t) →
maxBlockNumber t1 ≤ head ∧
∃ cur, t_checkpoints t1 !! chainID = Some (pretty cur) ∧
  (head < dbMax → cur = head) ∧ (dbMax + 1000 < head → cur = head - 1) ∧ (dbMax ≤ head ≤ dbMax + 1000 → cur = c).
Proof.
intros dbMax Hh Hc H1 H2 H3.
destruct (Z.lt_ge_cases head dbMax) as [L | L]; [| destruct (Z.le_gt_cases head (dbMax + 1000)) as [Lg | Lg]].
- split; [eapply pruned_max; [lia | by apply H1] |].
  exists head. split; [eapply moved_cursor; [exact Hc | apply H1, L] | lia].
- rewrite H3 by lia. split; [done |]. exists c. split; [done | lia].
- split; [rewrite (cursorMoved_max _ _ _ (H2 Lg)); fold dbMax; lia |].
  exists (head - 1). split; [eapply moved_cursor; [exact Hc | by apply H2] | lia].
Qed.

Lemma checks_wp (demo done : bool) head c chainID (g : Guard W V) :
let dbMax := maxBlockNumber (gdTables g) in
1 ≤ head ≤ max_i64 → dbMax ≤ max_i64 - 1000 → node_at head →
t_checkpoints (gdTables g) !! chainID = Some (pretty c) →
wp (align ← gdRepo (AlignInfrastructure rpcPool done); SetDemoMode demo;;
    linearity ← PerformLinearityCheck rpcPool done; mret (align, linearity))
   (λ o g', o = Val (None, None) →
      ∃ cur, t_checkpoints (gdTables g') !! chainID = Some (pretty cur) ∧ alignedCursor demo head dbMax c cur) g.
Proof.
intros dbMax Hh Hm Hn Hc.
apply wp_bind, wp_zoom. eapply wp_mono; [apply (AlignInfrastructure_wp rpcPool done head) |]; [done.. | apply Hn |].
intros o w1 (e & -> & Hok & _). fold (gdTables g) in Hok. fold dbMax in Hok. change (du_tables w1) with (pg_tables w1) in Hok.
apply wp_bind, wp_modify. set (g1 := mkGuard demo (gd_onStatus g) (gd_orch g) w1).
match goal with |- wp ?m ?Q _ => change (wp m Q g1) end.
destruct e as [e |].
{ apply wp_bind. unfold wp. destruct (snd _) as [l |]; [apply wp_ret |]; intros [=]. }
destruct (Hok eq_refl) as (H1 & H2 & H3).
destruct (align_outcome head chainID c (gdTables g) (pg_tables w1) ltac:(lia) Hc H1 H2 H3)
  as (Hmax1 & cur1 & Hcur & Ha & Hb & Hd).
apply wp_bind.
assert (Hmax : maxBlockNumber (gdTables g1) ≤ max_i64) by (change (gdTables g1) with (pg_tables w1); lia).
pose proof (PerformLinearityCheck_wp rpcPool done head g1 Hh Hmax (Hn _)) as Hlin.
eapply wp_mono; [exact Hlin |]. clear Hlin.
intros [[e |] | why] g2 Hp; [apply wp_ret; intros [=] | | intros [=]]. apply wp_ret. intros _.
destruct Hp as (_ & _ & Hleap & Hsame). change (gdTables g1) with (pg_tables w1) in *. simpl in Hleap, Hsame.
set (max1 := maxBlockNumber (pg_tables w1)) in *. unfold alignedCursor.
destruct (decide (demo = true ∧ 1000 < head - max1)) as [L | L].
- destruct (Hleap L) as (Hmv & _). exists (head - 1). split; [eapply moved_cursor; [exact Hcur | apply Hmv] |].
  destruct L as [Hdemo L]. split; [intros _; right; by split | split; [done | intros Hr; exfalso]].
  unfold max1 in L. rewrite H3 in L by lia. fold dbMax in L. lia.
- exists cur1. destruct (Hsame Hmax1 L) as [Ht _]. change (gdTables g2) with (pg_tables (gd_repo g2)). rewrite Ht.
  split; [done |]. split; [intros Hl; left; auto | by split].
Qed.
End startup_lemmas.

(** ** Properties *)

(** C10: Tail following asks for every block once.  Through any sequence of ticks,
    whatever the node answers and the Orchestrator and the workers do in between,
    the ranges the Fetcher accepted tile [start .. lastScheduled] without overlap
    or hole, and the jobs in its queue are exactly those ranges, each cut off at
    the chain height the Fetcher saw; so as long as no accepted range reached
    beyond that height, every block from [start] to [lastScheduled] is handed to
    the Fetcher exactly once, in order. *)
Theorem tail_follow_tiles {V U} {OW : OrchWorld V} (chainID start : Z) (envs : list (TailEnv V U))
    (o : Orchestrator V) (f : Fetcher U) :
  Forall workers_ok envs → fe_picks f = [] →
  wp (continuousTailFollow chainID envs)
     (λ _ t', tf_accepted t' ≫= asked = seqZ start (tf_lastScheduled t' - start + 1) ∧
              concat (jobBlocks <$> tf_handed t') = tf_accepted t' ≫= granted ∧
              (Forall (λ r, r.1.2 ≤ r.2) (tf_accepted t') →
               concat (jobBlocks <$> tf_handed t') = seqZ start (tf_lastScheduled t' - start + 1)))
     (newTailFollow o f start).
Proof.
  intros Hw Hp. eapply wp_mono; [by apply continuousTailFollow_keeps |].
  intros r t' Hk. destruct (Hk start) as (_ & _ & Ha & Hh).
  { split_and!; simpl; [lia | done | by rewrite seqZ_nil by lia | done]. }
  split_and!; [done | done |]. intros Hall. by rewrite Hh, granted_all.
Qed.

(** A range beyond the known head is silently cut.  When the node's answer is
    above the [LatestHeight] the Orchestrator still shows (its loop has not
    merged the new head yet), the tick asks up to the node's tip, the Fetcher
    schedules only up to [LatestHeight] and reports success, and [lastScheduled]
    jumps to the tip: the blocks in between are in no job, and by the tiling no
    later tick asks for them. *)
Theorem tail_tick_cuts {V U} {OW : OrchWorld V} (chainID tip : Z) (ctxErr : GoErr) (t : TailFollow V U) :
  let snap := or_snapshot (tf_orch t) in
  let last' := Z.min tip (cs_TargetHeight snap + schedulingWindow chainID) in
  0 ≤ cs_TargetHeight snap ≤ cs_LatestHeight snap → cs_LatestHeight snap < tip ≤ max_i64 →
  0 ≤ tf_lastScheduled t < cs_TargetHeight snap → has_room (tf_fetcher t) →
  wp (tailTick chainID (mkTailEnv (Ok tip) ctxErr (mret tt) (mret tt) (mret tt)))
     (λ o t', o = Val tt ∧ tf_lastScheduled t' = last' ∧
        ∃ jobs, tf_handed t' = (tf_handed t ++ jobs)%list ∧
          concat (jobBlocks <$> jobs) =
            seqZ (tf_lastScheduled t + 1) (Z.min last' (cs_LatestHeight snap) - tf_lastScheduled t) ∧
          ∀ n, cs_LatestHeight snap < n ≤ last' → n ∉ concat (jobBlocks <$> jobs)) t.
Proof.
  intros snap last' Hg Htip Hlast Hroom. unfold tailTick. simpl. rewrite big_Uint64_id by lia64.
  apply wp_bind, wp_zoom. unfold UpdateChainHead, Dispatch.
  apply wp_bind, wp_modify, wp_bind, wp_gets. unfold id. rewrite andb_false_r.
  apply wp_bind, wp_modify, wp_ret, wp_bind, wp_zoom, wp_ret, wp_bind, wp_zoom, wp_gets, wp_bind, wp_gets.
  unfold id. simpl. fold snap. rewrite i64_id by lia64.
  rewrite (proj2 (Z.ltb_lt (tf_lastScheduled t) _)) by lia.
  set (agg := if tip <? _ then _ else _).
  assert (Hagg : agg = last').
  { unfold agg, last'. destruct (Z.ltb_spec tip (cs_TargetHeight snap + schedulingWindow chainID)); lia. }
  assert (Hw : 10 ≤ schedulingWindow chainID) by (unfold schedulingWindow; case_match; lia).
  clearbody agg. subst agg. rewrite (proj2 (Z.leb_le _ _)) by (unfold last'; lia).
  apply wp_bind, wp_zoom, wp_ret, wp_bind, wp_zoom, wp_ret, wp_bind, wp_zoom, wp_gets, wp_bind, wp_gets, wp_bind, wp_zoom.
  simpl. fold snap.
  destruct (Schedule_room (cs_LatestHeight snap) ctxErr (tf_lastScheduled t + 1) last' (tf_fetcher t))
    as (jobs & Hs & Hcov & _); [lia64 | lia | unfold last'; lia | done |].
  unfold wp at 1. rewrite Hs. simpl. apply wp_bind, wp_modify, wp_modify. simpl. rewrite drop_app_length.
  split_and!; [done.. |]. exists jobs. split; [done |]. split.
  - rewrite Hcov. f_equal. lia.
  - intros n Hn. rewrite Hcov, elem_of_seqZ. lia.
Qed.

(** C7: Where a restart resumes.  With nothing overriding it, startup resumes at
    the block after the stored cursor when the database is at most 1000 blocks
    behind the chain, and after the head when the chain was reset below the
    database; but when the chain is more than 1000 blocks ahead it resumes at the
    head, in demo mode or not, and no run of a Sequencer started there ever
    processes one of the blocks that were missed.  (An unreadable checkpoint
    resumes at the chain's default block.) *)
Theorem startup_start_block {W V S} {PG : Postgres W} {PR : PickRow} {OW : OrchWorld V} {BP : BlockProcessor S}
    {SS : SortSlice} (rpcPool : RPCClient W) (cfg : Config) (done : bool) (head c : Z) (g : Guard W V)
    (runs : list (list (SeqEnv S * SeqInput))) (now : Z) (fetcher : option bool) (w : S) :
  let dbMax := maxBlockNumber (gdTables g) in
  1 ≤ head ≤ max_i64 → dbMax ≤ max_i64 - 1000 → node_at rpcPool head → from_checkpoint cfg →
  t_checkpoints (gdTables g) !! cfg_ChainID cfg = Some (pretty c) → all_quiet runs →
  wp (startup rpcPool cfg done "" false)
     (λ o _, ∀ r, o = Val r → su_align r = None → su_linearity r = None →
        (su_block r = getDefaultStartBlockForChain (cfg_ChainID cfg) ∨
         alignedCursor (cfg_DemoMode cfg) head dbMax c (su_block r - 1)) ∧
        wp (runSequencerWithSelfHealing runs)
           (λ _ s', Forall (λ n, su_block r ≤ n) (processedNumbers (sq_trace s')))
           (NewSequencer (su_block r) now fetcher w)) g.
Proof.
  intros dbMax Hh Hm Hn Hcfg Hc Hq.
  assert (Hrun : ∀ b, wp (runSequencerWithSelfHealing runs)
            (λ _ s', Forall (λ n, b ≤ n) (processedNumbers (sq_trace s'))) (NewSequencer b now fetcher w)).
  { intros b. eapply wp_mono; [by apply (supervise_floored b) |]. intros o s' Hf.
    destruct Hf as (_ & evs & -> & Hall); [split; [done | apply map_Forall_empty] | done]. }
  pose proof (checks_wp rpcPool (cfg_DemoMode cfg) done head c (cfg_ChainID cfg) g Hh Hm Hn Hc) as Hchk.
  unfold startup. unfold wp in Hchk |- *. unfold mbind, GoM_bind in *.
  destruct (gdRepo (AlignInfrastructure rpcPool done) g) as [g1 [align | why]]; [| by intros r [=]].
  destruct (SetDemoMode (cfg_DemoMode cfg) g1) as [g2 [[] | why]]; [| by intros r [=]].
  destruct (PerformLinearityCheck rpcPool done g2) as [g3 [lin | why]]; [| by intros r [=]].
  simpl in Hchk. unfold gdRepo at 1, zoom at 1.
  pose proof (getStartBlock_checkpoint rpcPool cfg done head (cfg_ChainID cfg)) as Hst.
  destruct (getStartBlockFromCheckpoint rpcPool cfg done (cfg_ChainID cfg) "" false (gd_repo g3)) as [w4 o4] eqn:E4.
  destruct o4 as [start | why]; [| by intros r [=]].
  destruct (gdRepo _ _) as [g5 [[] | why]]; [| by intros r [=]].
  intros r [= <-]; simpl. intros -> ->. split; [| apply Hrun].
  destruct (Hchk eq_refl) as (cur & Hcur & Hal).
  specialize (Hst cur (gd_repo g3) Hn Hcfg Hcur). unfold wp in Hst. rewrite E4 in Hst. simpl in Hst.
  destruct Hst as [[= ->] | [= ->]]; [right | by left]. by replace (cur + 1 - 1) with cur by lia.
Qed.

(** Once the anchor block before the start block is stored, the gap check of
    [StartTailFollow] finds no gap, however many blocks are missing below it. *)
Lemma anchor_hides_gap {W} {PG : Postgres W} (startBlock : Z) (b : ModelBlock) (w : W) :
  1 ≤ startBlock ≤ max_i64 → t_blocks (pg_tables w) !! (startBlock - 1) = Some b →
  wp (startupGap startBlock) (λ o _, o = Val None) w.
Proof.
  intros Hs Hb. apply wp_bind. eapply wp_mono; [apply pg_Query_spec |].
  intros o w' (-> & r & -> & Hr). apply wp_ret. destruct r as [m | e]; [| done].
  rewrite (Hr m eq_refl), big_Int64_id by lia64.
  pose proof (maxBlockNumber_ge _ _ _ Hb).
  by rewrite (proj2 (Z.ltb_ge (maxBlockNumber (pg_tables w) + 1) _)), andb_false_r by lia.
Qed.

(** The two statements of the Anvil alignment are not one transaction: when the
    second fails the blocks are gone and the checkpoint still points above them. *)
Lemma AlignAnvilData_not_atomic :
  let w := mkPgSim deployedSchema (pg_tables (blocksDb [4; 5; 6; 7] "7")) None [false; true] in
  let w' := fst (AlignAnvilData (headClient 5) false w) in
  maxBlockNumber (pg_tables w') = 5 ∧ t_checkpoints (pg_tables w') !! 1 = Some "7".
Proof. by vm_compute. Qed.

(** ** Witnesses *)

(** A tail that has scheduled up to 96 while the Orchestrator shows head 98 (and
    target 97). *)
Definition sampleTail : TailFollow (Z * Z) unit :=
  let snap := cset_TargetHeight 97 (cset_LatestHeight 98 (or_snapshot sampleOrch)) in
  newTailFollow (oset_snapshot snap sampleOrch) sampleFetcher 97.
Definition quietTick (tip : Z) : TailEnv (Z * Z) unit :=
  mkTailEnv (Ok tip) Canceled (mret tt) (mret tt) (mret tt).

Lemma tail_follow_tiles_witness :
  let OW := depthsWorld in
  let t' := fst (continuousTailFollow 1 [quietTick 98; quietTick 98] sampleTail) in
  concat (jobBlocks <$> tf_handed t') = seqZ 97 2 ∧ tf_lastScheduled t' = 98.
Proof.
  intros OW t'. split; [| by vm_compute].
  assert (Hq : Forall workers_ok [quietTick 98; quietTick 98]) by (repeat constructor).
  destruct (tail_follow_tiles 1 97 [quietTick 98; quietTick 98] (tf_orch sampleTail) sampleFetcher Hq eq_refl)
    as (_ & _ & H).
  etransitivity; [apply H; by vm_compute; repeat constructor | by vm_compute].
Defined.

(** The node answers 100: blocks 99 and 100 are skipped. *)
Lemma tail_tick_cuts_witness :
  let OW := depthsWorld in
  let t' := fst (tailTick 1 (quietTick 100) sampleTail) in
  tf_lastScheduled t' = 100 ∧ jobBlocks <$> tf_handed t' = [[97; 98]].
Proof.
  intros OW t'. split; [| by vm_compute].
  destruct (tail_tick_cuts 1 100 Canceled sampleTail) as (_ & H & _); [done.. | by split | exact H].
Defined.

Definition sampleConfig : Config := mkConfig 1 0 "" false.

Lemma startup_start_block_witness :
  let OW := depthsWorld in let BP := okProcessor in let SS := goSortSlice in
  let g := sampleGuard false [4; 5] "5" in
  let r := snd (startup (headClient 5000) sampleConfig false "" false g) in
  r = Val (mkStarted None None (Ok 5000) 5000) ∧ alignedCursor false 5000 5 5 4999.
Proof.
  intros OW BP SS g r.
  assert (Hr : r = Val (mkStarted None None (Ok 5000) 5000)) by by vm_compute.
  split; [exact Hr |].
  destruct (startup_start_block (headClient 5000) sampleConfig false 5000 5 g sampleRuns 0 None tt)
    with (r := mkStarted None None (Ok 5000) 5000) as [[H | H] _];
    [done | by vm_compute | by split | by split | by vm_compute | exact sampleRuns_quiet | exact Hr | done | done
    | discriminate H | exact H].
Defined.
