(* ===== verification/Power.v ===== *)
(** * Sleeping and waking (internal/engine/lazy_manager.go, state_manager_core.go,
    state_manager_transition.go, state_manager_watchdog.go, state_manager_api.go)

    The lazy manager pauses the Fetcher when nobody watches; the state manager
    drives an indexer service through its three states.  Goroutines and calls
    made outside a lock are pending actions that run later, in any order. *)

From S2P Require Import Prelude GoInt Types Guards.
From Stdlib Require Import ZArith Lia String.
From stdpp Require Import base relations strings list.
Open Scope string_scope.
Open Scope Z_scope.

(** ** The lazy manager *)

(** What a method leaves to run outside its lock: [fetcher.Pause()], the
    goroutine of [Trigger] (the linearity check, whose error is only logged, then
    [fetcher.Resume()]), the periodic regression check. *)
Inductive LazyAction : Type := LaPause | LaWake | LaRegress.

#[export] Instance LazyAction_eq_dec : EqDecision LazyAction.
Proof. solve_decision. Defined.

(** lazy_manager.go, [type LazyManager struct], standalone (no state manager is
    ever registered): [lm_lastBlockTime] is [None] for the zero time,
    [lm_paused] is the Fetcher's flag, [lm_activity] counts the
    [RecordUserActivity] messages to the Orchestrator. *)
Record LazyManager := mkLazyManager {
  lm_isActive : bool;
  lm_isAlwaysActive : bool;
  lm_lastHeartbeat : Z;
  lm_lastBlockTime : option Z;
  lm_timeout : Z;
  lm_guard : bool;
  lm_paused : bool;
  lm_activity : nat;
  lm_pending : list LazyAction
}.

Definition lset_active (b : bool) (l : LazyManager) : LazyManager :=
  mkLazyManager b (lm_isAlwaysActive l) (lm_lastHeartbeat l) (lm_lastBlockTime l) (lm_timeout l) (lm_guard l) (lm_paused l) (lm_activity l) (lm_pending l).
Definition lset_always (b : bool) (l : LazyManager) : LazyManager :=
  mkLazyManager (lm_isActive l) b (lm_lastHeartbeat l) (lm_lastBlockTime l) (lm_timeout l) (lm_guard l) (lm_paused l) (lm_activity l) (lm_pending l).
Definition lset_heartbeat (t : Z) (l : LazyManager) : LazyManager :=
  mkLazyManager (lm_isActive l) (lm_isAlwaysActive l) t (lm_lastBlockTime l) (lm_timeout l) (lm_guard l) (lm_paused l) (lm_activity l) (lm_pending l).
Definition lset_blockTime (t : Z) (l : LazyManager) : LazyManager :=
  mkLazyManager (lm_isActive l) (lm_isAlwaysActive l) (lm_lastHeartbeat l) (Some t) (lm_timeout l) (lm_guard l) (lm_paused l) (lm_activity l) (lm_pending l).
Definition lset_paused (b : bool) (l : LazyManager) : LazyManager :=
  mkLazyManager (lm_isActive l) (lm_isAlwaysActive l) (lm_lastHeartbeat l) (lm_lastBlockTime l) (lm_timeout l) (lm_guard l) b (lm_activity l) (lm_pending l).
Definition lset_activity (n : nat) (l : LazyManager) : LazyManager :=
  mkLazyManager (lm_isActive l) (lm_isAlwaysActive l) (lm_lastHeartbeat l) (lm_lastBlockTime l) (lm_timeout l) (lm_guard l) (lm_paused l) n (lm_pending l).
Definition lset_pending (p : list LazyAction) (l : LazyManager) : LazyManager :=
  mkLazyManager (lm_isActive l) (lm_isAlwaysActive l) (lm_lastHeartbeat l) (lm_lastBlockTime l) (lm_timeout l) (lm_guard l) (lm_paused l) (lm_activity l) p.
Definition later (a : LazyAction) (l : LazyManager) : LazyManager := lset_pending (lm_pending l ++ [a])%list l.

(** lazy_manager.go, [NewLazyManager]: it pauses the Fetcher. *)
Definition NewLazyManager (timeout now : Z) (guard : bool) : LazyManager :=
  mkLazyManager false false (now - timeout) None timeout guard true 0 [].

(** lazy_manager.go, [SetAlwaysActive]. *)
Definition SetAlwaysActive (enabled : bool) (l : LazyManager) : LazyManager :=
  let l := lset_always enabled l in
  if enabled then lset_paused false (lset_active true l) else l.

(** lazy_manager.go, [NotifyBlockProcessed]. *)
Definition NotifyBlockProcessed (now : Z) (l : LazyManager) : LazyManager :=
  let l := lset_blockTime now l in
  if negb (lm_isActive l) && negb (lm_isAlwaysActive l) then lset_paused false (lset_active true l) else l.

(** lazy_manager.go, [Trigger]. *)
Definition Trigger (now : Z) (l : LazyManager) : LazyManager :=
  if lm_isAlwaysActive l then l
  else
    let l := lset_heartbeat now l in
    if lm_isActive l then l
    else lset_activity (S (lm_activity l)) (later LaWake (lset_active true l)).

(** lazy_manager.go, a tick of the inactivity ticker in [StartMonitor]: [snap] is
    the height oracle's snapshot. The pause happens after the unlock. *)
Definition monitorTick (now : Z) (snap : HeightSnapshot) (l : LazyManager) : LazyManager :=
  if negb (lm_isAlwaysActive l) && lm_isActive l && (lm_timeout l <? now - lm_lastHeartbeat l) then
    let currentLag := i64 (hs_ChainHead snap - hs_IndexedHead snap) in
    let currentLag := if currentLag <? 0 then 0 else currentLag in
    if 10 <? currentLag then l else later LaPause (lset_active false l)
  else l.

(** A tick of the regression ticker. *)
Definition regressTick (l : LazyManager) : LazyManager :=
  if lm_isActive l && lm_guard l then later LaRegress l else l.

(** One pending action happens. *)
Definition runAction (a : LazyAction) (l : LazyManager) : LazyManager :=
  match a with
  | LaPause => lset_paused true l
  | LaWake => lset_paused false l
  | LaRegress => l
  end.

(** The inputs of the manager, and its steps: an input, or any pending action. *)
Inductive LazyInput : Type :=
| LiTrigger (now : Z) | LiBlock (now : Z) | LiMonitor (now : Z) (snap : HeightSnapshot) | LiRegress
| LiAlways (enabled : bool).

Definition lazyInput (i : LazyInput) (l : LazyManager) : LazyManager :=
  match i with
  | LiTrigger now => Trigger now l
  | LiBlock now => NotifyBlockProcessed now l
  | LiMonitor now snap => monitorTick now snap l
  | LiRegress => regressTick l
  | LiAlways b => SetAlwaysActive b l
  end.

Inductive lazy_step : LazyManager → LazyManager → Prop :=
| LazyIn i l : lazy_step l (lazyInput i l)
| LazyRun k a l : lm_pending l !! k = Some a → lazy_step l (runAction a (lset_pending (delete k (lm_pending l)) l)).

(** An input with everything it left pending run to completion, in order. *)
Definition settle (l : LazyManager) : LazyManager :=
  foldl (λ l a, runAction a l) (lset_pending [] l) (lm_pending l).
Definition lazySettled (inputs : list LazyInput) (l : LazyManager) : LazyManager :=
  foldl (λ l i, settle (lazyInput i l)) l inputs.

(** lazy_manager.go, [getStatusLocked]: the map as a record. *)
Record LazyStatus := mkLazyStatus { ls_mode : string; ls_source : option string; ls_sleep_in : option Z; ls_lab : bool }.
Definition getStatusLocked (now : Z) (l : LazyManager) : LazyStatus :=
  if lm_isAlwaysActive l then mkLazyStatus "active" None None true
  else
    let byBlocks := match lm_lastBlockTime l with Some b => lm_lastHeartbeat l <? b | None => false end in
    let lastActivity := match lm_lastBlockTime l with
                        | Some b => if lm_lastHeartbeat l <? b then b else lm_lastHeartbeat l
                        | None => lm_lastHeartbeat l
                        end in
    if lm_isActive l || byBlocks then
      mkLazyStatus "active" (Some (if byBlocks then "blockchain" else "user"))
        (Some (go_quot (lm_timeout l - (now - lastActivity)) 1000000000)) false
    else mkLazyStatus "sleep" None None false.

(** ** The state manager *)

Inductive IndexerState : Type := StateIdle | StateActive | StateWatching.

#[export] Instance IndexerState_eq_dec : EqDecision IndexerState.
Proof. solve_decision. Defined.

Definition IndexerState_String (s : IndexerState) : string :=
  match s with StateIdle => "idle" | StateActive => "active" | StateWatching => "watching" end.

(** state_manager_core.go, the interface [IndexerService], with what it promises:
    a successful [Start] runs it, a successful [Stop] ends it, a failed call
    changes nothing. *)
Class IndexerService (W : Type) := {
  is_IsRunning : W → bool;
  is_LowPower : W → bool;
  is_Start : GoM W (option GoErr);
  is_Stop : GoM W (option GoErr);
  is_SetLowPowerMode : bool → GoM W unit;
  is_Start_spec w : wp is_Start (λ o w', ∃ e, o = Val e ∧ is_LowPower w' = is_LowPower w ∧
    is_IsRunning w' = match e with None => true | Some _ => is_IsRunning w end) w;
  is_Stop_spec w : wp is_Stop (λ o w', ∃ e, o = Val e ∧ is_LowPower w' = is_LowPower w ∧
    is_IsRunning w' = match e with None => false | Some _ => is_IsRunning w end) w;
  is_SetLowPower_spec b w : wp (is_SetLowPowerMode b) (λ o w', o = Val tt ∧ is_LowPower w' = b ∧
    is_IsRunning w' = is_IsRunning w) w
}.

(** state_manager_core.go, [type StateManager struct]. *)
Record StateManager (W : Type) := mkStateManager {
  sm_stateCh : list IndexerState;
  sm_stopped : bool;
  sm_demoDuration : Z;
  sm_idleTimeout : Z;
  sm_continuousMode : bool;
  sm_currentState : IndexerState;
  sm_lastAccess : Z;
  sm_indexer : W
}.
Arguments mkStateManager {W}.
Arguments sm_stateCh {W}.
Arguments sm_stopped {W}.
Arguments sm_demoDuration {W}.
Arguments sm_idleTimeout {W}.
Arguments sm_continuousMode {W}.
Arguments sm_currentState {W}.
Arguments sm_lastAccess {W}.
Arguments sm_indexer {W}.

Definition stateChCap : nat := 10.
Definition smMinute : Z := 60000000000.

Section statemanager.
Context {W : Type} {IS : IndexerService W}.
Local Abbreviation M := (GoM (StateManager W)).
Implicit Types m : StateManager W.

Definition sset_stateCh (c : list IndexerState) m : StateManager W :=
mkStateManager c (sm_stopped m) (sm_demoDuration m) (sm_idleTimeout m) (sm_continuousMode m) (sm_currentState m) (sm_lastAccess m) (sm_indexer m).
Definition sset_currentState (s : IndexerState) m : StateManager W :=
mkStateManager (sm_stateCh m) (sm_stopped m) (sm_demoDuration m) (sm_idleTimeout m) (sm_continuousMode m) s (sm_lastAccess m) (sm_indexer m).
Definition sset_lastAccess (t : Z) m : StateManager W :=
mkStateManager (sm_stateCh m) (sm_stopped m) (sm_demoDuration m) (sm_idleTimeout m) (sm_continuousMode m) (sm_currentState m) t (sm_indexer m).
Definition sset_stopped (b : bool) m : StateManager W :=
mkStateManager (sm_stateCh m) b (sm_demoDuration m) (sm_idleTimeout m) (sm_continuousMode m) (sm_currentState m) (sm_lastAccess m) (sm_indexer m).
Definition sset_indexer (w : W) m : StateManager W :=
mkStateManager (sm_stateCh m) (sm_stopped m) (sm_demoDuration m) (sm_idleTimeout m) (sm_continuousMode m) (sm_currentState m) (sm_lastAccess m) w.

Definition onIndexer {A} (c : GoM W A) : M A := zoom sm_indexer sset_indexer c.

(** state_manager_core.go, [NewStateManager]. *)
Definition NewStateManager (continuousMode disableSmartSleep : bool) (now : Z) (indexer : W) : StateManager W :=
mkStateManager [] false (5 * smMinute) (10 * smMinute) continuousMode
  (if continuousMode || disableSmartSleep then StateActive else StateIdle) now indexer.

(** state_manager_transition.go, [transitionTo]: a full channel drops it. *)
Definition transitionTo (s : IndexerState) : M unit :=
modify (λ m, if (length (sm_stateCh m) <? stateChCap)%nat then sset_stateCh (sm_stateCh m ++ [s])%list m else m).

(** state_manager_transition.go, the modes; errors are only logged. *)
Definition startActiveMode : M unit := onIndexer is_Start;; mret tt.
Definition stopActiveMode : M unit := onIndexer is_Stop;; mret tt.
Definition startWatchingMode : M unit :=
m ← gets id;
err ← (if is_IsRunning (sm_indexer m) then mret None else onIndexer is_Start);
match err with
| Some _ => mret tt
| None => onIndexer (is_SetLowPowerMode true)
end.
Definition stopWatchingMode : M unit := onIndexer (is_SetLowPowerMode false).

(** state_manager_transition.go, [executeTransition]. *)
Definition executeTransition (newState : IndexerState) : M unit :=
m ← gets id;
let oldState := sm_currentState m in
if bool_decide (oldState = newState) then mret tt
else
  match oldState with
  | StateActive => stopActiveMode
  | StateWatching => stopWatchingMode
  | StateIdle => mret tt
  end;;
  match newState with
  | StateActive => startActiveMode
  | StateIdle => onIndexer is_Stop;; mret tt
  | StateWatching => startWatchingMode
  end;;
  modify (sset_currentState newState).

(** state_manager_transition.go, a round of [stateProcessor] that takes from
  [stateCh]. The closed [stopCh] does not prevent one: when both cases of the
  select are ready, either may be taken. *)
Definition stateProcessorStep : M unit :=
m ← gets id;
match sm_stateCh m with
| [] => mret tt
| s :: rest => modify (sset_stateCh rest);; executeTransition s
end.

(** state_manager_api.go, [RecordAccess] (and [StartDemo], which calls it). *)
Definition RecordAccess (now : Z) : M unit :=
modify (sset_lastAccess now);;
m ← gets id;
if bool_decide (sm_currentState m = StateIdle) || bool_decide (sm_currentState m = StateWatching)
then transitionTo StateActive else mret tt.

(** state_manager_watchdog.go, [checkAndTransition], a tick of [watchdog], which
  does not run in continuous mode. *)
Definition checkAndTransition (now : Z) : M unit :=
m ← gets id;
let timeSinceAccess := now - sm_lastAccess m in
match sm_currentState m with
| StateActive => if sm_demoDuration m <? timeSinceAccess then transitionTo StateIdle else mret tt
| StateIdle => if sm_idleTimeout m <? timeSinceAccess then transitionTo StateWatching else mret tt
| StateWatching => mret tt
end.
Definition watchdogTick (now : Z) : M unit :=
m ← gets id;
if sm_continuousMode m then mret tt else checkAndTransition now.

(** state_manager_api.go, [Stop]: closing a closed channel panics. *)
Definition smStop : M unit :=
m ← gets id;
if sm_stopped m then go_panic "close of closed channel"
else
  modify (sset_stopped true);;
  m ← gets id;
  if is_IsRunning (sm_indexer m) then onIndexer is_Stop;; mret tt else mret tt.

(** The steps of the manager's goroutines and callers. *)
Inductive SmCase : Type := SmAccess (now : Z) | SmTick (now : Z) | SmProcess.
Definition smStep (c : SmCase) : M unit :=
match c with
| SmAccess now => RecordAccess now
| SmTick now => watchdogTick now
| SmProcess => stateProcessorStep
end.
Fixpoint smRun (cs : list SmCase) : M unit :=
match cs with [] => mret tt | c :: rest => smStep c;; smRun rest end.

(** With [Stop] among them. *)
Inductive SmEvent : Type := SmDo (c : SmCase) | SmStop.
#[export] Instance SmEvent_eq_dec : EqDecision SmEvent.
Proof. assert (EqDecision SmCase) by solve_decision. solve_decision. Defined.
Definition smEvent (e : SmEvent) : M unit := match e with SmDo c => smStep c | SmStop => smStop end.
Fixpoint smEvents (es : list SmEvent) : M unit :=
match es with [] => mret tt | e :: rest => smEvent e;; smEvents rest end.
End statemanager.

(** ** Lemmas: the lazy manager *)

(** Nothing is pending and the Fetcher runs exactly when the manager is active. *)
Definition settled (l : LazyManager) : Prop := lm_pending l = [] ∧ lm_paused l = negb (lm_isActive l).

Lemma settle_input i l : settled l → settled (settle (lazyInput i l)).
Proof.
  intros [Hp Hf]. destruct i as [now | now | now snap | | []]; simpl.
  - unfold Trigger. destruct (lm_isAlwaysActive l); [split; unfold settle; rewrite ?Hp; done |].
    simpl. destruct (lm_isActive l) eqn:Ha; unfold settle, settled; simpl; rewrite Hp; simpl; by rewrite ?Ha.
  - unfold NotifyBlockProcessed. simpl.
    destruct (lm_isActive l) eqn:Ha, (lm_isAlwaysActive l); unfold settle, settled; simpl; rewrite Hp; simpl; by rewrite ?Ha.
  - unfold monitorTick. repeat case_match; unfold settle, settled; simpl; rewrite Hp; simpl; by rewrite ?Hf.
  - unfold regressTick. case_match; unfold settle, settled; simpl; rewrite Hp; simpl; by rewrite ?Hf.
  - unfold settle, settled. simpl. by rewrite Hp.
  - unfold settle, settled. simpl. rewrite Hp. by split.
Qed.

(** When every pending action finishes before the next input, the Fetcher is
    paused exactly while the manager is asleep. *)
Lemma lazySettled_consistent timeout now guard inputs :
  settled (lazySettled inputs (NewLazyManager timeout now guard)).
Proof.
  assert (H : ∀ l, settled l → settled (lazySettled inputs l)).
  { induction inputs as [| i inputs IH]; intros l Hl; simpl; [done |]. by apply IH, settle_input. }
  by apply H.
Qed.

(** The decision to sleep. *)
Definition sleeps (now : Z) (snap : HeightSnapshot) (l : LazyManager) : Prop :=
  lm_isAlwaysActive l = false ∧ lm_isActive l = true ∧ lm_timeout l < now - lm_lastHeartbeat l ∧
  hs_ChainHead snap - hs_IndexedHead snap ≤ 10.

Lemma monitorTick_sleeps now snap l :
  0 ≤ hs_ChainHead snap ≤ max_i64 → 0 ≤ hs_IndexedHead snap ≤ max_i64 → sleeps now snap l →
  monitorTick now snap l = later LaPause (lset_active false l).
Proof.
  intros Hc Hi (H1 & H2 & H3 & H4). unfold monitorTick. rewrite H1, H2, (proj2 (Z.ltb_lt _ _) H3). simpl.
  rewrite i64_id by lia64. destruct (Z.ltb_spec (hs_ChainHead snap - hs_IndexedHead snap) 0); [done |].
  by rewrite (proj2 (Z.ltb_ge _ _) H4).
Qed.

(** The time of the last block plays no part in it: [NotifyBlockProcessed] does
    not keep an active manager awake. *)
Lemma blocks_do_not_keep_awake now t snap l :
  0 ≤ hs_ChainHead snap ≤ max_i64 → 0 ≤ hs_IndexedHead snap ≤ max_i64 → sleeps now snap l →
  lm_isActive (monitorTick now snap (NotifyBlockProcessed t l)) = false.
Proof.
  intros Hc Hi (H1 & H2 & H3 & H4). unfold NotifyBlockProcessed. simpl. rewrite H2. simpl.
  by rewrite monitorTick_sleeps by (done || by split_and!).
Qed.

(** Heartbeats and blocks leave an active manager and its Fetcher alone. *)
Definition is_activity (i : LazyInput) : bool := match i with LiTrigger _ | LiBlock _ => true | _ => false end.

Lemma activity_keeps l inputs :
  forallb is_activity inputs = true → lm_isActive l = true →
  let l' := foldl (λ l i, lazyInput i l) l inputs in
  lm_isActive l' = true ∧ lm_paused l' = lm_paused l ∧ lm_pending l' = lm_pending l.
Proof.
  revert l. induction inputs as [| i inputs IH]; intros l Hi Ha; simpl in *; [done |]. bool_prop.
  assert (Hl : lm_isActive (lazyInput i l) = true ∧ lm_paused (lazyInput i l) = lm_paused l ∧
               lm_pending (lazyInput i l) = lm_pending l).
  { destruct i; try done; simpl.
    - unfold Trigger. destruct (lm_isAlwaysActive l); [done |]. simpl. by rewrite Ha.
    - unfold NotifyBlockProcessed. simpl. by rewrite Ha. }
  destruct Hl as (H1 & H2 & H3). rewrite <- H2, <- H3. by apply IH.
Qed.

(** ** Lemmas: the state manager *)

Section sm_lemmas.
Context {W : Type} {IS : IndexerService W}.

(** The indexer is in the mode its state names. *)
Definition in_mode (s : IndexerState) (w : W) : Prop :=
match s with
| StateIdle => is_IsRunning w = false ∧ is_LowPower w = false
| StateActive => is_IsRunning w = true ∧ is_LowPower w = false
| StateWatching => is_IsRunning w = true ∧ is_LowPower w = true
end.

Definition sm_ok (m : StateManager W) : Prop :=
in_mode (sm_currentState m) (sm_indexer m) ∧ (length (sm_stateCh m) ≤ stateChCap)%nat.

(** Whatever the service answers: low power only when watching. *)
Definition bounded (m : StateManager W) : Prop :=
(is_LowPower (sm_indexer m) = true → sm_currentState m = StateWatching) ∧ (length (sm_stateCh m) ≤ stateChCap)%nat.

Lemma bounded_of_ok (m : StateManager W) : sm_ok m → bounded m.
Proof. intros [Hm Hc]. split; [| done]. destruct (sm_currentState m); destruct Hm as [? E]; [congruence.. | done]. Qed.

(** *** Any answers *)

Lemma any_start m (Q : outcome (option GoErr) → StateManager W → Prop) :
(∀ e w, is_LowPower w = is_LowPower (sm_indexer m) → Q (Val e) (sset_indexer w m)) → wp (onIndexer is_Start) Q m.
Proof. intros H. apply wp_zoom. eapply wp_mono; [apply is_Start_spec |]. intros o w (e & -> & Hl & _). auto. Qed.
Lemma any_stop m (Q : outcome (option GoErr) → StateManager W → Prop) :
(∀ e w, is_LowPower w = is_LowPower (sm_indexer m) → Q (Val e) (sset_indexer w m)) → wp (onIndexer is_Stop) Q m.
Proof. intros H. apply wp_zoom. eapply wp_mono; [apply is_Stop_spec |]. intros o w (e & -> & Hl & _). auto. Qed.
Lemma any_low b m (Q : outcome unit → StateManager W → Prop) :
(∀ w, is_LowPower w = b → Q (Val tt) (sset_indexer w m)) → wp (onIndexer (is_SetLowPowerMode b)) Q m.
Proof. intros H. apply wp_zoom. eapply wp_mono; [apply is_SetLowPower_spec |]. intros o w (-> & Hl & _). auto. Qed.

(** A transition leaves low power off unless it goes to the watching state. *)
Lemma executeTransition_any s (m : StateManager W) :
bounded m →
wp (executeTransition s)
   (λ o m', o = Val tt ∧ bounded m' ∧ sm_stateCh m' = sm_stateCh m ∧ sm_stopped m' = sm_stopped m) m.
Proof.
intros [Hlow Hc]. unfold executeTransition. apply wp_bind, wp_gets. unfold id.
case_bool_decide as He; [by apply wp_ret |]. apply wp_bind.
eapply (wp_mono _ (λ (o : outcome unit) (m' : StateManager W), o = Val tt ∧ is_LowPower (sm_indexer m') = false ∧ sm_stateCh m' = sm_stateCh m ∧ sm_stopped m' = sm_stopped m)).
- assert (Hoff : sm_currentState m ≠ StateWatching → is_LowPower (sm_indexer m) = false).
  { intros Hne. destruct (is_LowPower (sm_indexer m)); [by destruct Hne; auto | done]. }
  destruct (sm_currentState m); unfold stopActiveMode, stopWatchingMode.
  + apply wp_ret. by split_and!; [| apply Hoff | |].
  + apply wp_bind, any_stop. intros e w Hl. apply wp_ret. split_and!; [done | simpl; by rewrite Hl, Hoff | done..].
  + apply any_low. intros w Hl. by split_and!.
- intros o m1 (-> & Hl1 & Hc1 & Hs1). apply wp_bind.
  eapply (wp_mono _ (λ (o : outcome unit) (m' : StateManager W), o = Val tt ∧ (is_LowPower (sm_indexer m') = true → s = StateWatching) ∧
    sm_stateCh m' = sm_stateCh m ∧ sm_stopped m' = sm_stopped m)).
  + destruct s; unfold startActiveMode, startWatchingMode.
    * apply wp_bind, any_stop. intros e w Hl. apply wp_ret. split_and!; [done | simpl; congruence | done..].
    * apply wp_bind, any_start. intros e w Hl. apply wp_ret. split_and!; [done | simpl; congruence | done..].
    * apply wp_bind, wp_gets. unfold id. apply wp_bind.
      destruct (is_IsRunning (sm_indexer m1)); [apply wp_ret, any_low; intros w Hl; by split_and! |].
      apply any_start. intros [e |] w Hl; [apply wp_ret; by split_and! | apply any_low; intros w2 Hl2; by split_and!].
  + intros o m2 (-> & Hl2 & Hc2 & Hs2). apply wp_modify. split_and!; [done | | done..].
    split; [exact Hl2 | simpl; by rewrite Hc2].
Qed.

Lemma transitionTo_any s (m : StateManager W) :
wp (transitionTo s) (λ o m', o = Val tt ∧ sm_currentState m' = sm_currentState m ∧ sm_indexer m' = sm_indexer m ∧
   sm_stopped m' = sm_stopped m ∧ ((length (sm_stateCh m) ≤ stateChCap)%nat → (length (sm_stateCh m') ≤ stateChCap)%nat)) m.
Proof.
apply wp_modify. split; [done |]. destruct (Nat.ltb_spec (length (sm_stateCh m)) stateChCap); [| done].
split_and!; [done.. |]. intros _. simpl. rewrite length_app. simpl. lia.
Qed.

Lemma event_any e (m : StateManager W) :
bounded m →
wp (smEvent e) (λ o m', bounded m' ∧
   match e with
   | SmDo _ => o = Val tt ∧ sm_stopped m' = sm_stopped m
   | SmStop => sm_stopped m' = true ∧ o = if sm_stopped m then Panic "close of closed channel" else Val tt
   end) m.
Proof.
intros Hb. assert (Htr : ∀ s m0, bounded m0 → sm_stopped m0 = sm_stopped m →
  wp (transitionTo s) (λ o m', bounded m' ∧ o = Val tt ∧ sm_stopped m' = sm_stopped m) m0).
{ intros s m0 [Hl Hc] Hs. eapply wp_mono; [apply transitionTo_any |]. intros o m' (-> & E1 & E2 & E3 & E4).
  split; [split; [by rewrite E1, E2 | auto] | split; [done | congruence]]. }
destruct e as [[now | now |] |]; simpl.
- apply wp_bind, wp_modify, wp_bind, wp_gets. case_match; [by apply Htr | by apply wp_ret].
- apply wp_bind, wp_gets. case_match; [by apply wp_ret |]. apply wp_bind, wp_gets. unfold id.
  destruct (sm_currentState m); [case_match | case_match |]; (by apply wp_ret) || by apply Htr.
- apply wp_bind, wp_gets. unfold id. destruct (sm_stateCh m) as [| s rest] eqn:E; [by apply wp_ret |].
  destruct Hb as [Hl Hc]. rewrite E in Hc. apply wp_bind, wp_modify.
  eapply wp_mono; [apply executeTransition_any; split; [done | simpl in *; lia] |]. by intros o m' (-> & Hb' & _ & Hs).
- apply wp_bind, wp_gets. unfold id. destruct (sm_stopped m) eqn:E; [by apply wp_panic |].
  apply wp_bind, wp_modify, wp_bind, wp_gets. unfold id. simpl. case_match; [| by apply wp_ret].
  apply wp_bind, any_stop. intros e w Hl. apply wp_ret. split; [| done]. destruct Hb as [H1 H2]. split; [simpl in *; by rewrite Hl | done].
Qed.

(** Every history is carried out, but for a second [Stop], which panics. *)
Definition stops (es : list SmEvent) : nat := length (filter (λ e, e = SmStop) es).
Lemma events_any es (m : StateManager W) :
bounded m →
wp (smEvents es) (λ o m', bounded m' ∧
   o = if decide (stops es + (if sm_stopped m then 1 else 0) ≤ 1)%nat then Val tt else Panic "close of closed channel") m.
Proof.
revert m. induction es as [| e es IH]; intros m Hb; simpl.
{ apply wp_ret. split; [done |]. rewrite decide_True; [done |]. unfold stops. simpl. case_match; lia. }
apply wp_bind. eapply wp_mono; [by apply event_any |]. intros o m1 [Hb1 He].
unfold stops in *. rewrite filter_cons. destruct e as [c |].
- destruct He as [-> Hs]. rewrite (decide_False (P := SmDo c = SmStop)) by done. rewrite <- Hs. by apply IH.
- destruct He as [Hs ->]. rewrite (decide_True (P := SmStop = SmStop)) by done. destruct (sm_stopped m).
  + split; [done |]. rewrite decide_False; [done | simpl; lia].
  + eapply wp_mono; [by apply IH |]. rewrite Hs. intros o m2 [Hb2 ->]. split; [done |]. cbn [length]. repeat case_decide; done || lia.
Qed.
End sm_lemmas.

(** *** A service whose starts and stops succeed from now on *)

Section heal.
Context {W : Type} {IS : IndexerService W} (Good : W → Prop).
Hypothesis Start_good : ∀ w, Good w → wp is_Start (λ o w', o = Val None ∧ Good w') w.
Hypothesis Stop_good : ∀ w, Good w → wp is_Stop (λ o w', o = Val None ∧ Good w') w.
Hypothesis Low_good : ∀ b w, Good w → wp (is_SetLowPowerMode b) (λ _ w', Good w') w.

Lemma good_start m (Q : outcome (option GoErr) → StateManager W → Prop) :
Good (sm_indexer m) →
(∀ w, Good w → is_IsRunning w = true → is_LowPower w = is_LowPower (sm_indexer m) → Q (Val None) (sset_indexer w m)) →
wp (onIndexer is_Start) Q m.
Proof using Start_good.
intros Hg H. apply wp_zoom. eapply wp_mono; [apply wp_and; [by apply Start_good | apply is_Start_spec] |].
intros o w ([-> Hw] & e & [= <-] & Hl & Hr). auto.
Qed.
Lemma good_stop m (Q : outcome (option GoErr) → StateManager W → Prop) :
Good (sm_indexer m) →
(∀ w, Good w → is_IsRunning w = false → is_LowPower w = is_LowPower (sm_indexer m) → Q (Val None) (sset_indexer w m)) →
wp (onIndexer is_Stop) Q m.
Proof using Stop_good.
intros Hg H. apply wp_zoom. eapply wp_mono; [apply wp_and; [by apply Stop_good | apply is_Stop_spec] |].
intros o w ([-> Hw] & e & [= <-] & Hl & Hr). auto.
Qed.
Lemma good_low b m (Q : outcome unit → StateManager W → Prop) :
Good (sm_indexer m) →
(∀ w, Good w → is_IsRunning w = is_IsRunning (sm_indexer m) → is_LowPower w = b → Q (Val tt) (sset_indexer w m)) →
wp (onIndexer (is_SetLowPowerMode b)) Q m.
Proof using Low_good.
intros Hg H. apply wp_zoom. eapply wp_mono; [apply wp_and; [by apply Low_good | apply is_SetLowPower_spec] |].
intros o w (Hw & -> & Hl & Hr). auto.
Qed.

(** The equations about the indexer decide the mode. *)
Ltac mode_done := simpl in *; repeat split; congruence.

(** Whatever the indexer did before, a transition carried out puts it in the new
  mode. *)
Lemma transition_heals s (m : StateManager W) :
bounded m → Good (sm_indexer m) → s ≠ sm_currentState m →
wp (executeTransition s)
   (λ o m', o = Val tt ∧ sm_currentState m' = s ∧ in_mode s (sm_indexer m') ∧ Good (sm_indexer m') ∧ sm_stateCh m' = sm_stateCh m) m.
Proof using Start_good Stop_good Low_good.
intros [Hlow _] Hg Hne. unfold executeTransition. apply wp_bind, wp_gets. unfold id.
rewrite bool_decide_eq_false_2 by congruence. apply wp_bind.
eapply (wp_mono _ (λ (o : outcome unit) (m' : StateManager W), o = Val tt ∧ is_LowPower (sm_indexer m') = false ∧
  Good (sm_indexer m') ∧ sm_stateCh m' = sm_stateCh m)).
- assert (Hoff : sm_currentState m ≠ StateWatching → is_LowPower (sm_indexer m) = false).
  { intros Hw. destruct (is_LowPower (sm_indexer m)); [by destruct Hw; auto | done]. }
  destruct (sm_currentState m); unfold stopActiveMode, stopWatchingMode.
  + apply wp_ret. by split_and!; [| apply Hoff | |].
  + apply wp_bind, good_stop; [done |]. intros w Hw _ Hl. apply wp_ret. split_and!; [done | simpl; by rewrite Hl, Hoff | done..].
  + apply good_low; [done |]. intros w Hw _ Hl. by split_and!.
- intros o m1 (-> & Hl1 & Hg1 & Hc1). apply wp_bind.
  destruct s; unfold startActiveMode, startWatchingMode.
  + apply wp_bind, good_stop; [done |]. intros w Hw Hr Hl. apply wp_ret, wp_modify. split_and!; [done.. | mode_done | done | done].
  + apply wp_bind, good_start; [done |]. intros w Hw Hr Hl. apply wp_ret, wp_modify. split_and!; [done.. | mode_done | done | done].
  + apply wp_bind, wp_gets. unfold id. apply wp_bind. destruct (is_IsRunning (sm_indexer m1)) eqn:Er.
    * apply wp_ret, good_low; [done |]. intros w Hw Hr Hl. apply wp_modify. split_and!; [done.. | mode_done | done | done].
    * apply good_start; [done |]. intros w Hw Hr Hl. apply good_low; [done |]. intros w2 Hw2 Hr2 Hl2. apply wp_modify.
      split_and!; [done.. | mode_done | done | done].
Qed.

Lemma transitionTo_ok s (m : StateManager W) : sm_ok m → wp (transitionTo s) (λ o m', o = Val tt ∧ sm_ok m' ∧ sm_indexer m' = sm_indexer m) m.
Proof using.
intros [Hm Hc]. eapply wp_mono; [apply transitionTo_any |]. intros o m' (-> & E1 & E2 & _ & E4).
split; [done |]. split; [split; [by rewrite E1, E2 | auto] | done].
Qed.

Lemma step_good c (m : StateManager W) :
sm_ok m → Good (sm_indexer m) → wp (smStep c) (λ o m', o = Val tt ∧ sm_ok m' ∧ Good (sm_indexer m')) m.
Proof using Start_good Stop_good Low_good.
intros Hm Hg.
assert (Htr : ∀ s m0, sm_ok m0 → Good (sm_indexer m0) →
  wp (transitionTo s) (λ o m', o = Val tt ∧ sm_ok m' ∧ Good (sm_indexer m')) m0).
{ intros s m0 H0 Hg0. eapply wp_mono; [by apply transitionTo_ok |]. intros o m' (-> & H' & ->). done. }
destruct c as [now | now |]; simpl.
- apply wp_bind, wp_modify, wp_bind, wp_gets. case_match; [by apply Htr | by apply wp_ret].
- apply wp_bind, wp_gets. case_match; [by apply wp_ret |]. apply wp_bind, wp_gets. unfold id.
  destruct (sm_currentState m); [case_match | case_match |]; (by apply wp_ret) || by apply Htr.
- apply wp_bind, wp_gets. unfold id.
  destruct (sm_stateCh m) as [| s rest] eqn:E; [by apply wp_ret |]. destruct Hm as [Hm Hc]. rewrite E in Hc.
  apply wp_bind, wp_modify. set (m1 := sset_stateCh rest m).
  assert (H1 : sm_ok m1) by (split; [exact Hm | simpl in *; lia]).
  destruct (decide (s = sm_currentState m1)) as [Es | Hne].
  + unfold executeTransition. apply wp_bind, wp_gets. unfold id. rewrite bool_decide_eq_true_2 by done. by apply wp_ret.
  + eapply wp_mono; [apply transition_heals; [by apply bounded_of_ok | exact Hg | done] |].
    intros o m' (-> & Hs & Hi & Hg' & Hch). split; [done |]. split; [| done]. split; [by rewrite Hs | by rewrite Hch; destruct H1].
Qed.

Lemma run_good cs (m : StateManager W) :
sm_ok m → Good (sm_indexer m) → wp (smRun cs) (λ o m', o = Val tt ∧ sm_ok m' ∧ Good (sm_indexer m')) m.
Proof using Start_good Stop_good Low_good.
revert m. induction cs as [| c cs IH]; intros m Hm Hg; simpl; [by apply wp_ret |].
apply wp_bind. eapply wp_mono; [by apply step_good |]. intros o m' (-> & Hm' & Hg'). auto.
Qed.
End heal.

(** *** A service whose starts and stops always succeed *)

Section always_ok.
Context {W : Type} {IS : IndexerService W}.
Hypothesis Start_ok : ∀ w, wp is_Start (λ o _, o = Val None) w.
Hypothesis Stop_ok : ∀ w, wp is_Stop (λ o _, o = Val None) w.

Lemma stop_wp m (Q : outcome (option GoErr) → StateManager W → Prop) :
(∀ w, is_IsRunning w = false → is_LowPower w = is_LowPower (sm_indexer m) → Q (Val None) (sset_indexer w m)) →
wp (onIndexer is_Stop) Q m.
Proof using Stop_ok.
intros H. apply (good_stop (λ _, True)); [| done | by intros; apply H]. intros w _. eapply wp_mono; [apply Stop_ok |]. by intros o w' ->.
Qed.
Lemma start_wp m (Q : outcome (option GoErr) → StateManager W → Prop) :
(∀ w, is_IsRunning w = true → is_LowPower w = is_LowPower (sm_indexer m) → Q (Val None) (sset_indexer w m)) →
wp (onIndexer is_Start) Q m.
Proof using Start_ok.
intros H. apply (good_start (λ _, True)); [| done | by intros; apply H]. intros w _. eapply wp_mono; [apply Start_ok |]. by intros o w' ->.
Qed.

Lemma executeTransition_wp s (m : StateManager W) :
in_mode (sm_currentState m) (sm_indexer m) → (length (sm_stateCh m) ≤ stateChCap)%nat →
wp (executeTransition s)
   (λ o m', o = Val tt ∧ sm_currentState m' = s ∧ in_mode s (sm_indexer m') ∧ sm_stateCh m' = sm_stateCh m) m.
Proof using Start_ok Stop_ok.
intros Hm Hc. destruct (decide (s = sm_currentState m)) as [-> | Hne].
{ unfold executeTransition. apply wp_bind, wp_gets. unfold id. rewrite bool_decide_eq_true_2 by done. by apply wp_ret. }
eapply wp_mono; [apply (transition_heals (λ _, True)); [| | done | by apply bounded_of_ok | done | done] |].
- intros w _. eapply wp_mono; [apply Start_ok |]. by intros o w' ->.
- intros w _. eapply wp_mono; [apply Stop_ok |]. by intros o w' ->.
- by intros o m' (-> & H1 & H2 & _ & H3).
Qed.

Lemma smRun_ok cs (m : StateManager W) : sm_ok m → wp (smRun cs) (λ o m', o = Val tt ∧ sm_ok m') m.
Proof using Start_ok Stop_ok.
intros Hm. eapply wp_mono; [apply (run_good (λ _, True)); [| | done | done | done] |].
- intros w _. eapply wp_mono; [apply Start_ok |]. by intros o w' ->.
- intros w _. eapply wp_mono; [apply Stop_ok |]. by intros o w' ->.
- by intros o m' (-> & H & _).
Qed.
Lemma smStep_ok c (m : StateManager W) : sm_ok m → wp (smStep c) (λ o m', o = Val tt ∧ sm_ok m') m.
Proof using Start_ok Stop_ok.
intros Hm. pose proof (smRun_ok [c] m Hm) as H. unfold wp, smRun, mbind, GoM_bind in *.
destruct (smStep c m) as [m1 [[] | why]]; [| by destruct H]. exact H.
Qed.
End always_ok.

(** ** Properties *)

(** The lazy manager can leave an active engine paused.  The pause that ends
    its decision to sleep happens after the lock is released; when a user's
    heartbeat and its resume come in between, the manager is active, nothing is
    pending, and the Fetcher is paused; no further heartbeat and no processed
    block resumes it, since they only act on a sleeping manager. *)
Theorem lazy_race_stays_paused (now : Z) (snap : HeightSnapshot) (l : LazyManager) :
  0 ≤ hs_ChainHead snap ≤ max_i64 → 0 ≤ hs_IndexedHead snap ≤ max_i64 →
  settled l → sleeps now snap l →
  ∃ l', rtc lazy_step l l' ∧
    (lm_isActive l' = true ∧ lm_paused l' = true ∧ lm_pending l' = []) ∧
    ∀ inputs, forallb is_activity inputs = true →
      let l'' := foldl (λ l i, lazyInput i l) l' inputs in
      lm_isActive l'' = true ∧ lm_paused l'' = true ∧ lm_pending l'' = [].
Proof.
  intros Hc Hi [Hp Hf] Hs. destruct (Hs) as (H1 & H2 & _).
  set (l1 := lazyInput (LiMonitor now snap) l). set (l2 := lazyInput (LiTrigger now) l1).
  assert (E1 : l1 = later LaPause (lset_active false l)) by by apply monitorTick_sleeps.
  assert (E2 : lm_pending l2 = [LaPause; LaWake] ∧ lm_isActive l2 = true).
  { unfold l2. rewrite E1. simpl. unfold Trigger. simpl. rewrite H1. simpl. by rewrite Hp. }
  destruct E2 as [E2 A2].
  set (l3 := runAction LaWake (lset_pending [LaPause] l2)). set (l4 := runAction LaPause (lset_pending [] l3)).
  assert (H4 : lm_isActive l4 = true ∧ lm_paused l4 = true ∧ lm_pending l4 = []) by done.
  exists l4. split; [| split; [exact H4 |]].
  - eapply rtc_l; [apply (LazyIn (LiMonitor now snap)) |]. fold l1.
    eapply rtc_l; [apply (LazyIn (LiTrigger now)) |]. fold l2.
    eapply rtc_l; [apply (LazyRun 1 LaWake); by rewrite E2 |]. rewrite E2. change (delete 1%nat _) with [LaPause]. fold l3.
    eapply rtc_l; [by apply (LazyRun 0 LaPause) |]. apply rtc_refl.
  - intros inputs Hin. destruct H4 as (A4 & P4 & Q4).
    destruct (activity_keeps l4 inputs Hin A4) as (K1 & K2 & K3). intros l''. unfold l''.
    split_and!; [exact K1 | by rewrite K2 | by rewrite K3].
Qed.

(** C23: The state manager and its indexer.  From any start, in every interleaving
    of accesses, watchdog ticks, the state processor and [Stop], and whatever
    [Start] and [Stop] of the indexer answer: nothing panics but a second [Stop]
    of the manager, the indexer is at low power only in the watching state, and
    the channel of pending transitions stays within its capacity.  Once the
    indexer's calls succeed ([Good]) and the manager is not stopped again, the
    indexer is in the mode the state names (stopped when idle, running at full
    power when active, at low power when watching) and stays in it, from then on
    if it was in it, and otherwise from the first transition carried out. *)
Theorem smRun_in_mode {W} {IS : IndexerService W} (Good : W → Prop) (continuousMode disableSmartSleep : bool)
    (es : list SmEvent) (cs : list SmCase) (now : Z) (w : W) :
  (∀ w, Good w → wp is_Start (λ o w', o = Val None ∧ Good w') w) →
  (∀ w, Good w → wp is_Stop (λ o w', o = Val None ∧ Good w') w) →
  (∀ b w, Good w → wp (is_SetLowPowerMode b) (λ _ w', Good w') w) →
  is_LowPower w = false →
  wp (smEvents es)
     (λ o m, o = (if decide (stops es ≤ 1)%nat then Val tt else Panic "close of closed channel") ∧
        (is_LowPower (sm_indexer m) = true → sm_currentState m = StateWatching) ∧ (length (sm_stateCh m) ≤ stateChCap)%nat ∧
        (Good (sm_indexer m) →
         let keeps_mode steps := wp (smRun steps) (λ o m', o = Val tt ∧ in_mode (sm_currentState m') (sm_indexer m')) m in
         (in_mode (sm_currentState m) (sm_indexer m) → keeps_mode cs) ∧
         (∀ s rest, sm_stateCh m = s :: rest → s ≠ sm_currentState m → keeps_mode (SmProcess :: cs))))
     (NewStateManager continuousMode disableSmartSleep now w).
Proof.
  intros Hstart Hstop Hlow Hw. eapply wp_mono; [apply events_any; split; [simpl; by rewrite Hw | simpl; lia] |].
  intros o m [[Hl Hc] ->]. split; [simpl; by rewrite Nat.add_0_r |]. split; [done |]. split; [done |]. intros Hg.
  assert (Hrun : ∀ m1, sm_ok m1 → Good (sm_indexer m1) →
    wp (smRun cs) (λ o m', o = Val tt ∧ in_mode (sm_currentState m') (sm_indexer m')) m1).
  { intros m1 H1 Hg1. eapply wp_mono; [by apply (run_good Good Hstart Hstop Hlow) |]. by intros o' m' (-> & [? _] & _). }
  split; [intros Hm; by apply Hrun |]. intros s rest Hch Hne. simpl. apply wp_bind, wp_bind, wp_gets. unfold id. rewrite Hch.
  apply wp_bind, wp_modify.
  eapply wp_mono; [apply (transition_heals Good Hstart Hstop Hlow); [| exact Hg | exact Hne] |].
  { split; [exact Hl | rewrite Hch in Hc; simpl in *; lia]. }
  intros o' m' (-> & Hs & Hi & Hg' & Hch'). apply Hrun; [| done]. split; [by rewrite Hs |].
  rewrite Hch'. rewrite Hch in Hc. simpl in *. lia.
Qed.

(** ** What modelling showed *)

(** A start that fails still makes the state active: the indexer is not running,
    and an access in the active state does not try again. *)
Lemma failed_start_is_active {W} {IS : IndexerService W} (e : GoErr) (m : StateManager W) :
  (∀ w, wp is_Start (λ o _, o = Val (Some e)) w) →
  sm_currentState m = StateIdle → is_IsRunning (sm_indexer m) = false →
  wp (executeTransition StateActive)
     (λ o m', o = Val tt ∧ sm_currentState m' = StateActive ∧ is_IsRunning (sm_indexer m') = false ∧
        ∀ now, sm_stateCh (fst (RecordAccess now m')) = sm_stateCh m') m.
Proof.
  intros Hfail Hs Hr. apply wp_bind, wp_gets. unfold id. rewrite Hs. simpl.
  apply wp_bind, wp_ret, wp_bind, wp_bind, wp_zoom.
  eapply wp_mono; [apply wp_and; [apply Hfail | apply is_Start_spec] |].
  intros o w' (-> & e' & [= <-] & _ & Hrun). apply wp_ret, wp_modify. split_and!; [done | done | simpl in *; congruence | done].
Qed.

(** An access while the transition to idle is still queued is lost: the engine
    falls asleep right after it. *)
Lemma access_before_sleep_is_lost {W} {IS : IndexerService W} (now : Z) (m : StateManager W) :
  (∀ w, wp is_Stop (λ o _, o = Val None) w) →
  sm_currentState m = StateActive → sm_stateCh m = [StateIdle] →
  wp (smRun [SmAccess now; SmProcess])
     (λ o m', o = Val tt ∧ sm_currentState m' = StateIdle ∧ sm_lastAccess m' = now ∧ sm_stateCh m' = [] ∧
              is_IsRunning (sm_indexer m') = false) m.
Proof.
  intros Hstop Hs Hq. apply wp_bind, wp_bind, wp_modify, wp_bind, wp_gets. unfold id. simpl. rewrite Hs. simpl.
  apply wp_ret, wp_bind. unfold smStep, stateProcessorStep. apply wp_bind, wp_gets. unfold id. simpl. rewrite Hq.
  apply wp_bind, wp_modify. unfold executeTransition. apply wp_bind, wp_gets. unfold id. simpl. rewrite Hs. simpl.
  apply wp_bind, wp_bind, stop_wp; [done |]. intros w Hr Hl.
  apply wp_ret, wp_bind, wp_bind, stop_wp; [done |]. intros w2 Hr2 Hl2. apply wp_ret, wp_modify, wp_ret.
  by split_and!.
Qed.

(** A transition still queued when [Stop] closes the channel may run after it
    and start the indexer again. *)
Lemma stop_then_queued_start {W} {IS : IndexerService W} (m : StateManager W) :
  (∀ w, wp is_Start (λ o _, o = Val None) w) →
  sm_currentState m = StateIdle → sm_stateCh m = [StateActive] → sm_stopped m = false →
  is_IsRunning (sm_indexer m) = false →
  wp (smStop;; stateProcessorStep)
     (λ o m', o = Val tt ∧ sm_stopped m' = true ∧ is_IsRunning (sm_indexer m') = true) m.
Proof.
  intros Hstart Hs Hq Hst Hr. apply wp_bind, wp_bind, wp_gets. unfold id. rewrite Hst.
  apply wp_bind, wp_modify, wp_bind, wp_gets. unfold id. simpl. rewrite Hr.
  apply wp_ret, wp_bind, wp_gets. unfold id. simpl. rewrite Hq.
  apply wp_bind, wp_modify. unfold executeTransition. apply wp_bind, wp_gets. unfold id. simpl. rewrite Hs. simpl.
  apply wp_bind, wp_ret, wp_bind, wp_bind, start_wp; [done |]. intros w Hw Hl. apply wp_ret, wp_modify. by split_and!.
Qed.

(** Disabling the smart sleep only chooses the first state: five minutes later
    the watchdog puts the engine to sleep like any other. *)
Lemma smart_sleep_not_disabled {W} {IS : IndexerService W} (now now' : Z) (w : W) :
  (∀ v, wp is_Stop (λ o _, o = Val None) v) → 5 * smMinute < now' - now →
  wp (smRun [SmTick now'; SmProcess]) (λ o m', o = Val tt ∧ sm_currentState m' = StateIdle ∧ is_IsRunning (sm_indexer m') = false)
     (NewStateManager false true now w).
Proof.
  intros Hstop Hlt. apply wp_bind, wp_bind, wp_gets. unfold id. simpl.
  apply wp_bind, wp_gets. unfold id. cbn -[Z.mul smMinute Z.ltb]. rewrite (proj2 (Z.ltb_lt _ _) Hlt).
  apply wp_modify. simpl. apply wp_bind, wp_bind, wp_gets. unfold id. simpl.
  apply wp_bind, wp_modify. unfold executeTransition. apply wp_bind, wp_gets. unfold id. simpl.
  apply wp_bind, wp_bind, stop_wp; [done |]. intros w2 Hr Hl. apply wp_ret, wp_bind, wp_bind, stop_wp; [done |].
  intros w3 Hr3 Hl3. apply wp_ret, wp_modify, wp_ret. by split_and!.
Qed.

(** ** Witnesses *)

Definition sampleLazy : LazyManager := Trigger 100 (NewLazyManager (300 * 1000000000) 0 true).
Definition sampleSnap : HeightSnapshot := mkHeightSnapshot 20 15 5 0 false 0.

Lemma lazy_race_stays_paused_witness :
  sleeps (400 * 1000000000) sampleSnap (settle sampleLazy) ∧
  ∃ l', rtc lazy_step (settle sampleLazy) l' ∧ lm_isActive l' = true ∧ lm_paused l' = true.
Proof.
  assert (Hs : sleeps (400 * 1000000000) sampleSnap (settle sampleLazy)) by by vm_compute.
  split; [exact Hs |].
  destruct (lazy_race_stays_paused (400 * 1000000000) sampleSnap (settle sampleLazy)) as (l' & H & (H1 & H2 & _) & _);
    [by vm_compute | by vm_compute | by split | exact Hs |].
  exists l'. by split.
Defined.

(** A service as two flags: running and low power. *)
#[export] Program Instance flagService : IndexerService (bool * bool) := {|
  is_IsRunning := fst;
  is_LowPower := snd;
  is_Start := λ w, ((true, w.2), Val None);
  is_Stop := λ w, ((false, w.2), Val None);
  is_SetLowPowerMode := λ b w, ((w.1, b), Val tt)
|}.
Next Obligation. intros w. by exists None. Qed.
Next Obligation. intros w. by exists None. Qed.
Next Obligation. by intros b w. Qed.

(** A service that refuses its next [fst] starts. *)
#[export] Program Instance refusingService : IndexerService (nat * (bool * bool)) := {|
  is_IsRunning := λ w, w.2.1;
  is_LowPower := λ w, w.2.2;
  is_Start := λ w, match w.1 with O => ((0%nat, (true, w.2.2)), Val None) | S k => ((k, w.2), Val (Some (Errorf "refused"))) end;
  is_Stop := λ w, ((w.1, (false, w.2.2)), Val None);
  is_SetLowPowerMode := λ b w, ((w.1, (w.2.1, b)), Val tt)
|}.
Next Obligation. intros [[| k] w]; by eexists. Qed.
Next Obligation. intros w. by exists None. Qed.
Next Obligation. by intros b w. Qed.

(** The first start fails; the next transition puts the indexer in its mode. *)
Lemma smRun_in_mode_witness :
  let IS := refusingService in
  let es := [SmDo (SmAccess 1); SmDo SmProcess; SmDo (SmTick (400 * 1000000000))] in
  let m := fst (smEvents es (NewStateManager false false 0 (1%nat, (false, false)))) in
  (sm_currentState m = StateActive ∧ is_IsRunning (sm_indexer m) = false) ∧
  wp (smRun [SmProcess; SmAccess 2; SmProcess])
     (λ o m', o = Val tt ∧ in_mode (sm_currentState m') (sm_indexer m')) m.
Proof.
  intros IS es m. split; [by vm_compute |].
  destruct (smRun_in_mode (λ w, w.1 = O) false false es [SmAccess 2; SmProcess] 0 (1%nat, (false, false)))
    as (_ & _ & _ & H).
  - intros [k w] [= ->]. split; reflexivity.
  - intros [k w] [= ->]. split; reflexivity.
  - intros b [k w] [= ->]. reflexivity.
  - reflexivity.
  - destruct H as [_ H]; [by vm_compute |]. apply (H StateIdle []); [by vm_compute | by vm_compute].
Defined.
