(* ===== verification/Codecs.v ===== *)
(** * Number codecs (internal/models/types.go)

    [models.BigInt] and [models.Uint256] between Go and PostgreSQL's NUMERIC:
    printing ([Value], [String]), parsing ([Scan]) of decimal, hexadecimal and
    scientific notation.  math/big is modelled as far as it is used, [big.Float]
    included, since its 64-bit precision decides what scientific notation reads
    as; holiman/uint256 is the class [Uint256Lib]. *)

From S2P Require Import Prelude GoInt Types.
From Stdlib Require Import ZArith Lia Ascii String.
From stdpp Require Import base numbers strings pretty list.
Open Scope string_scope.
Open Scope Z_scope.

(** ** math/big: integers *)

(** A digit of a base up to 16, [big.Int]'s [SetString]. *)
Definition hex_val (c : ascii) : option Z :=
  let n := nat_of_ascii c in
  if ((48 <=? n) && (n <=? 57))%nat then Some (Z.of_nat n - 48)
  else if ((97 <=? n) && (n <=? 102))%nat then Some (Z.of_nat n - 87)
  else if ((65 <=? n) && (n <=? 70))%nat then Some (Z.of_nat n - 55)
  else None.
Fixpoint hexes_val (acc : Z) (s : string) : option Z :=
  match s with
  | EmptyString => Some acc
  | String c s' => match hex_val c with Some d => hexes_val (16 * acc + d) s' | None => None end
  end.
(** [new(big.Int).SetString(s, 16)]: an optional sign and at least one digit. *)
Definition SetString16 (s : string) : option Z :=
  match s with
  | EmptyString => None
  | String "-" (String _ _ as s') => Z.opp <$> hexes_val 0 s'
  | String "+" (String _ _ as s') => hexes_val 0 s'
  | String _ _ => hexes_val 0 s
  end.

(** ** math/big: floats

    The magnitude of a [*big.Float] as [m * 2^e]; the sign is kept beside it. *)

Inductive BigFloat : Type := FltZero | FltInf | Flt (m e : Z).

Definition MinExp : Z := - 2 ^ 31.
Definition MaxExp : Z := 2 ^ 31 - 1.

(** The number of bits of the mantissa before the binary point: [z.exp]. *)
Definition flt_exp (m e : Z) : Z := Z.log2 m + 1 + e.

(** [z.round(sbit)] to nearest even at precision [prec]: the bits below the
    precision are rounded off, [sbit] says that more non-zero bits follow. *)
Definition round_even (prec m e : Z) (sbit : bool) : Z * Z :=
  let x := Z.log2 m + 1 - prec in
  if x <=? 0 then (m, e)
  else
    let q := m / 2 ^ x in
    let r := m mod 2 ^ x in
    let half := 2 ^ (x - 1) in
    let up := (half <? r) || ((r =? half) && (sbit || Z.odd q)) in
    (q + (if up then 1 else 0), e + x).

(** [z.setExpAndRound]: rounding, then the range of the exponent. *)
Definition setExpAndRound (prec m e : Z) (sbit : bool) : BigFloat :=
  if m =? 0 then FltZero
  else
    let '(m', e') := round_even prec m e sbit in
    if flt_exp m' e' <? MinExp then FltZero
    else if MaxExp <? flt_exp m' e' then FltInf
    else Flt m' e'.

Definition flt_Mul (prec : Z) (x y : BigFloat) : BigFloat :=
  match x, y with
  | Flt mx ex, Flt my ey => setExpAndRound prec (mx * my) (ex + ey) false
  | FltInf, _ | _, FltInf => FltInf
  | FltZero, _ | _, FltZero => FltZero
  end.

(** [z.Quo]: at least two more bits than the precision and a sticky bit. *)
Definition flt_Quo (prec : Z) (x y : BigFloat) : BigFloat :=
  match x, y with
  | Flt mx ex, Flt my ey =>
    let s := Z.max 0 (prec + 2 - (Z.log2 mx - Z.log2 my)) in
    let n := mx * 2 ^ s in
    setExpAndRound prec (n / my) (ex - ey - s) (negb (n mod my =? 0))
  | FltZero, _ | _, FltInf => FltZero
  | _, _ => FltInf
  end.

(** [z.pow5(n)]: a table up to 27, then square and multiply; [f] has 64 bits
    more than [z]. *)
Fixpoint pow5_loop (prec : Z) (n : positive) (z f : BigFloat) : BigFloat :=
  match n with
  | xH => flt_Mul prec z f
  | xO n' => pow5_loop prec n' z (flt_Mul (prec + 64) f f)
  | xI n' => pow5_loop prec n' (flt_Mul prec z f) (flt_Mul (prec + 64) f f)
  end.
Definition pow5 (prec n : Z) : BigFloat :=
  if n <=? 27 then Flt (5 ^ n) 0
  else match n - 27 with
       | Zpos p => pow5_loop prec p (Flt (5 ^ 27) 0) (Flt 5 0)
       | _ => Flt (5 ^ 27) 0
       end.

(** [nat.scan] with [fracOk] in base 10: the digits' value, how many there were,
    how many after the point, and what is left. *)
Fixpoint scanMantissa (acc : Z) (count : nat) (frac : option nat) (s : string) : Z * nat * option nat * string :=
  match s with
  | EmptyString => (acc, count, frac, s)
  | String c s' =>
    match digit_val c with
    | Some d => scanMantissa (10 * acc + d) (S count) (S <$> frac) s'
    | None =>
      if Ascii.eqb c "." then
        match frac with None => scanMantissa acc count (Some 0%nat) s' | Some _ => (acc, count, frac, s) end
      else (acc, count, frac, s)
    end
  end.

Fixpoint scanDigits (acc : Z) (count : nat) (s : string) : Z * nat * string :=
  match s with
  | EmptyString => (acc, count, s)
  | String c s' =>
    match digit_val c with
    | Some d => scanDigits (10 * acc + d) (S count) s'
    | None => (acc, count, s)
    end
  end.

Definition scanSign (s : string) : bool * string :=
  match s with
  | String "-" s' => (true, s')
  | String "+" s' => (false, s')
  | _ => (false, s)
  end.

Definition errNoDigits : GoErr := Errorf "number has no digits".

(** [scanExponent]: an [e] or [E], a sign, digits that [strconv.ParseInt]
    accepts.  (A [p] exponent leaves the [e] that brought the caller here
    unread, which [Parse] refuses; it is refused here.) *)
Definition scanExponent (s : string) : result GoErr (Z * string) :=
  match s with
  | String "e" s' | String "E" s' =>
    let '(neg, s'') := scanSign s' in
    let '(v, n, rest) := scanDigits 0 0 s'' in
    if (n =? 0)%nat then Err errNoDigits
    else
      let exp := if neg : bool then - v else v in
      if (min_i64 <=? exp) && (exp <=? max_i64) then Ok (exp, rest)
      else Err (Errorf "strconv.ParseInt: value out of range")
  | _ => Ok (0, s)
  end.

(** [z.scan] after the text is read: mantissa, power of ten. *)
Definition scaleFloat (mant exp10 : Z) : result GoErr BigFloat :=
  if mant =? 0 then Ok FltZero
  else
    let exp2 := Z.log2 mant + 1 + exp10 in
    if (MinExp <=? exp2) && (exp2 <=? MaxExp) then
      if exp10 =? 0 then Ok (setExpAndRound 64 mant 0 false)
      else if exp10 <? 0 then Ok (flt_Quo 64 (Flt mant exp10) (pow5 128 (- exp10)))
      else Ok (flt_Mul 64 (Flt mant exp10) (pow5 128 exp10))
    else Err (Errorf "exponent overflow").

(** [big.ParseFloat(s, 10, 0, big.ToNearestEven)]: precision 0 means 64. *)
Definition ParseFloat (s : string) : result GoErr (bool * BigFloat) :=
  let '(neg, s1) := scanSign s in
  let '(mant, count, frac, s2) := scanMantissa 0 0 None s1 in
  if (count =? 0)%nat then Err errNoDigits
  else
    match scanExponent s2 with
    | Err e => Err e
    | Ok (exp, s3) =>
      match scaleFloat mant (exp - Z.of_nat (default 0%nat frac)) with
      | Err e => Err e
      | Ok f => match s3 with
                | EmptyString => Ok (neg, f)
                | String c _ => Err (Errorf ("expected end of string, found " ++ String c EmptyString))
                end
      end
    end.

(** [f.Int(nil)]: the value truncated and whether that was exact; [None] for an
    infinity. *)
Definition flt_Int (neg : bool) (f : BigFloat) : option Z * bool :=
  let sign z := if neg then - z else z in
  match f with
  | FltZero => (Some 0, true)
  | FltInf => (None, false)
  | Flt m e =>
    if 0 <=? e then (Some (sign (m * 2 ^ e)), true)
    else (Some (sign (m / 2 ^ (- e))), m mod 2 ^ (- e) =? 0)
  end.

(** ** holiman/uint256

    What the codecs rely on: [Dec] prints decimal, [FromDecimal] reads it and
    refuses what does not fit, [FromBig] converts what fits and reports what does
    not. *)

Definition max_u256 : Z := 2 ^ 256 - 1.
Definition is_u256 (z : Z) : Prop := 0 ≤ z ≤ max_u256.

Class Uint256Lib := {
  u256_Dec : Z → string;
  u256_FromDecimal : string → result GoErr Z;
  u256_FromBig : Z → Z * bool;
  u256_Dec_spec n : is_u256 n → u256_Dec n = pretty n;
  u256_FromDecimal_digits s n : s ≠ "" → digits_val 0 s = Some n → n ≤ max_u256 → u256_FromDecimal s = Ok n;
  u256_FromDecimal_overflow s n : s ≠ "" → digits_val 0 s = Some n → max_u256 < n → ∃ e, u256_FromDecimal s = Err e;
  u256_FromBig_fits b : is_u256 b → u256_FromBig b = (b, false);
  u256_FromBig_overflow b : max_u256 < b → snd (u256_FromBig b) = true
}.

(** ** types.go

    A [driver.Value] as the codecs tell them apart. *)
Inductive DriverValue : Type :=
| DvNil | DvBytes (s : string) | DvString (s : string) | DvInt64 (n : Z) | DvInt (n : Z) | DvOther (typ : string).

(** [strings.ContainsAny(s, "eE")]. *)
Fixpoint containsE (s : string) : bool :=
  match s with
  | EmptyString => false
  | String c s' => Ascii.eqb c "e" || Ascii.eqb c "E" || containsE s'
  end.

(** [%q] of the strings that occur in error messages. *)
Definition quoted (s : string) : string := String "034" (s ++ String "034" "").

(** The scientific branch of both [Scan]s: [ParseFloat], then the integer. *)
Definition scanScientific (s : string) : result GoErr Z :=
  match ParseFloat s with
  | Err e => Err (WrapErr ("failed to parse numeric " ++ quoted s ++ ": ") e)
  | Ok (neg, f) =>
    match flt_Int neg f with
    | (Some bi, true) => Ok bi
    | _ => Err (Errorf ("numeric " ++ quoted s ++ " is not an integer"))
    end
  end.

(** types.go, [BigInt]: the pointer may be nil. *)
Definition BigInt : Type := option Z.
Definition NewBigInt (n : Z) : BigInt := Some n.
Definition NewBigIntFromString (s : string) : BigInt * bool :=
  match SetString10 s with Some i => (Some i, true) | None => (None, false) end.
Definition BigInt_Value (b : BigInt) : DriverValue :=
  match b with None => DvString "0" | Some i => DvString (pretty i) end.

Definition hexPrefixed (s : string) : option string :=
  match s with
  | String "0" (String "x" s') | String "0" (String "X" s') => Some s'
  | _ => None
  end.

(** The text cases of [BigInt.Scan], the same for [[]byte] and [string]. *)
Definition BigInt_ScanText (s : string) : result GoErr Z :=
  match hexPrefixed s with
  | Some h => match SetString16 h with
              | Some i => Ok i
              | None => Err (Errorf ("failed to convert hex " ++ s ++ " to BigInt"))
              end
  | None =>
    if containsE s then scanScientific s
    else match SetString10 s with
         | Some i => Ok i
         | None => Err (Errorf ("failed to convert " ++ s ++ " to BigInt"))
         end
  end.

(** types.go, [BigInt.Scan]: the value stored, or the error. *)
Definition BigInt_Scan (value : DriverValue) : result GoErr Z :=
  match value with
  | DvNil => Ok 0
  | DvBytes s | DvString s => BigInt_ScanText s
  | DvInt64 n | DvInt n => Ok n
  | DvOther t => Err (Errorf ("unsupported type for BigInt: " ++ t))
  end.

Section uint256.
Context {U : Uint256Lib}.

(** types.go, [Uint256]: the pointer may be nil. *)
Definition Uint256 : Type := option Z.
Definition NewUint256 (n : Z) : Uint256 := Some n.
Definition NewUint256FromBigInt (b : option Z) : Uint256 :=
match b with
| None => Some 0
| Some b =>
  let '(u, overflow) := u256_FromBig b in
  if overflow : bool then Some max_u256 else Some u
end.
Definition NewUint256FromString (s : string) : Uint256 * bool :=
match u256_FromDecimal s with Ok u => (Some u, true) | Err _ => (None, false) end.
Definition Uint256_Value (u : Uint256) : DriverValue :=
match u with None => DvString "0" | Some u => DvString (u256_Dec u) end.
Definition Uint256_String (u : Uint256) : string :=
match u with None => "0" | Some u => u256_Dec u end.

Definition Uint256_ScanText (s : string) : result GoErr Z :=
if containsE s then
  match scanScientific s with
  | Err e => Err e
  | Ok bi =>
    let '(u, overflow) := u256_FromBig bi in
    if overflow : bool then Err (Errorf ("value " ++ s ++ " overflows uint256")) else Ok u
  end
else
  match u256_FromDecimal s with
  | Ok u => Ok u
  | Err e => Err (WrapErr ("failed to convert " ++ s ++ " to Uint256: ") e)
  end.

(** types.go, [Uint256.Scan]. *)
Definition Uint256_Scan (value : DriverValue) : result GoErr Z :=
match value with
| DvNil => Ok 0
| DvBytes s | DvString s => Uint256_ScanText s
| DvInt64 _ => Err (Errorf "unsupported type for Uint256: int64")
| DvInt _ => Err (Errorf "unsupported type for Uint256: int")
| DvOther t => Err (Errorf ("unsupported type for Uint256: " ++ t))
end.
End uint256.

(** ** Lemmas: decimal text *)

Lemma containsE_app s t : containsE (s ++ t) = containsE s || containsE t.
Proof. induction s as [| c s IH]; simpl; [done |]. by rewrite IH, !orb_assoc. Qed.

Lemma digit_val_range c d : digit_val c = Some d → 0 ≤ d ≤ 9.
Proof.
  unfold digit_val. case_match eqn:E; [| done]. intros [= <-].
  apply andb_true_iff in E as [H1%Nat.leb_le H2%Nat.leb_le]. lia.
Qed.

(** A digit is none of the letters and signs the parsers look for. *)
Lemma digit_val_ne c d x : digit_val c = Some d → digit_val x = None → Ascii.eqb c x = false.
Proof. intros Hc Hx. destruct (Ascii.eqb_spec c x) as [-> |]; congruence. Qed.

Lemma digits_no_E acc s v : digits_val acc s = Some v → containsE s = false.
Proof.
  revert acc. induction s as [| c s IH]; intros acc; simpl; [done |].
  destruct (digit_val c) as [d |] eqn:Hc; [| done]. intros Hs.
  by rewrite !(digit_val_ne c d), (IH _ Hs).
Qed.

Lemma pretty_no_E (z : Z) : containsE (pretty z) = false.
Proof.
  destruct z as [| p | p]; [done | |].
  - destruct (pretty_N_digits (N.pos p)) as [_ H]. exact (digits_no_E _ _ _ H).
  - destruct (pretty_N_digits (N.pos p)) as [_ H]. exact (digits_no_E _ _ _ H).
Qed.

Lemma pretty_digits (z : Z) : 0 ≤ z → pretty z ≠ "" ∧ digits_val 0 (pretty z) = Some z.
Proof. intros Hz. destruct z as [| p | p]; [by split | | lia]. apply (pretty_N_digits (N.pos p)). Qed.

(** Decimal digits never spell a hexadecimal prefix. *)
Lemma digits_not_hex s v : digits_val 0 s = Some v → hexPrefixed s = None.
Proof.
  destruct s as [| c [| c' s]]; intros H; [done | by destruct c as [[] [] [] [] [] [] [] []] |].
  simpl in H. destruct (digit_val c); [| done]. destruct (digit_val c') as [d |] eqn:Hc; [| done].
  destruct c as [[] [] [] [] [] [] [] []]; try done.
  by destruct c' as [[] [] [] [] [] [] [] []].
Qed.

Lemma pretty_not_hex (z : Z) : hexPrefixed (pretty z) = None.
Proof.
  destruct z as [| p | p]; [done | |].
  - destruct (pretty_N_digits (N.pos p)) as [_ H]. exact (digits_not_hex _ _ H).
  - done.
Qed.

(** ** Lemmas: the scanners on what the printers write *)

Lemma scanMantissa_digits acc count s v rest :
  digits_val acc s = Some v → (∀ c s', rest = String c s' → digit_val c = None ∧ Ascii.eqb c "." = false) →
  scanMantissa acc count None (s ++ rest) = (v, (count + String.length s)%nat, None, rest).
Proof.
  revert acc count. induction s as [| c s IH]; intros acc count; simpl.
  - intros [= ->] Hr. rewrite Nat.add_0_r. destruct rest as [| c s]; [done |].
    destruct (Hr c s eq_refl) as [H1 H2]. simpl. by rewrite H1, H2.
  - destruct (digit_val c); [| done]. intros Hs Hr. rewrite (IH _ (S count)) by done. by rewrite Nat.add_succ_comm.
Qed.

Lemma scanDigits_all acc count s v :
  digits_val acc s = Some v → scanDigits acc count s = (v, (count + String.length s)%nat, "").
Proof.
  revert acc count. induction s as [| c s IH]; intros acc count; simpl.
  - intros [= ->]. by rewrite Nat.add_0_r.
  - destruct (digit_val c); [| done]. intros Hs. rewrite (IH _ (S count)) by done. by rewrite Nat.add_succ_comm.
Qed.

Lemma length_ne0 s : s ≠ "" → String.length s ≠ 0%nat.
Proof. by destruct s. Qed.

(** A sign is no digit, so text of digits has none. *)
Lemma scanSign_digits s rest v : s ≠ "" → digits_val 0 s = Some v → scanSign (s ++ rest) = (false, s ++ rest).
Proof.
  intros Hs. destruct s as [| c s]; [done |]. simpl. destruct (digit_val c) as [d |] eqn:Hc; [| done]. intros _.
  by destruct c as [[] [] [] [] [] [] [] []].
Qed.

Lemma scanSign_digits' s v : s ≠ "" → digits_val 0 s = Some v → scanSign s = (false, s).
Proof.
  intros Hs. destruct s as [| c s]; [done |]. simpl. destruct (digit_val c) as [d |] eqn:Hc; [| done]. intros _.
  by destruct c as [[] [] [] [] [] [] [] []].
Qed.

Lemma scanExponent_digits s v :
  s ≠ "" → digits_val 0 s = Some v → 0 ≤ v ≤ max_i64 → scanExponent (String "e" s) = Ok (v, "").
Proof.
  intros Hs Hv Hr. simpl. rewrite (scanSign_digits' _ _ Hs Hv), (scanDigits_all _ _ _ v Hv).
  pose proof (length_ne0 _ Hs). simpl. destruct (Nat.eqb_spec (String.length s) 0) as [? | _]; [done |].
  rewrite (proj2 (Z.leb_le _ _)) by lia64. by rewrite (proj2 (Z.leb_le v max_i64)) by lia.
Qed.

(** Scientific notation: a decimal mantissa, [e], a decimal exponent. *)
Definition scientific (m k : Z) : string := pretty m ++ "e" ++ pretty k.

Lemma scientific_E m k : containsE (scientific m k) = true.
Proof. unfold scientific. by rewrite !containsE_app, orb_true_r. Qed.

Lemma ParseFloat_scientific m k :
  0 ≤ m → 0 ≤ k ≤ max_i64 →
  ParseFloat (scientific m k) = match scaleFloat m k with Ok f => Ok (false, f) | Err e => Err e end.
Proof.
  intros Hm Hk. destruct (pretty_digits m Hm) as [Hm0 Hmv]. destruct (pretty_digits k) as [Hk0 Hkv]; [lia |].
  unfold ParseFloat, scientific. rewrite (scanSign_digits _ _ _ Hm0 Hmv).
  rewrite (scanMantissa_digits _ _ _ m); [| done | by intros ? ? [= <- <-]].
  pose proof (length_ne0 _ Hm0). change ("e" ++ pretty k) with (String "e" (pretty k)).
  rewrite (scanExponent_digits _ k) by done. simpl.
  destruct (Nat.eqb_spec (String.length (pretty m)) 0) as [? | _]; [done |].
  rewrite Z.sub_0_r. by destruct (scaleFloat m k).
Qed.

(** ** Lemmas: rounding *)

Lemma round_even_fits prec m e sbit : 0 < m < 2 ^ prec → round_even prec m e sbit = (m, e).
Proof.
  intros Hm. unfold round_even. destruct (Z.leb_spec (Z.log2 m + 1 - prec) 0) as [| Hx]; [done |].
  assert (Z.log2 m < prec) by (apply Z.log2_lt_pow2; lia). lia.
Qed.


(** Rounding a mantissa too wide by [x] bits: the error is at most half a unit
    in the last place, which is at most [2 ^ - prec] of the value. *)
Lemma round_even_error prec m e :
  0 < prec → 2 ^ prec ≤ m →
  ∃ q x, round_even prec m e false = (q, e + x) ∧ 0 < x ∧ 2 ^ (prec - 1) ≤ q ≤ 2 ^ prec ∧
         Z.abs (q * 2 ^ x - m) * 2 ^ prec ≤ m.
Proof.
  intros Hp Hm. assert (H0 : 0 < m) by (pose proof (Z.pow_pos_nonneg 2 prec); lia).
  pose proof (Z.log2_spec m H0) as [Hl Hu].
  assert (Hlp : prec ≤ Z.log2 m) by by apply Z.log2_le_pow2.
  unfold round_even. destruct (Z.leb_spec (Z.log2 m + 1 - prec) 0); [lia |].
  set (x := Z.log2 m + 1 - prec) in *. set (q := m / 2 ^ x). set (r := m mod 2 ^ x).
  assert (Hx : 2 ^ x = 2 * 2 ^ (x - 1)) by (rewrite <- Z.pow_succ_r by lia; f_equal; lia).
  assert (Hxp : 0 < 2 ^ (x - 1)) by (apply Z.pow_pos_nonneg; lia).
  assert (Hqr : m = 2 ^ x * q + r ∧ 0 ≤ r < 2 ^ x).
  { split; [apply Z.div_mod; lia | apply Z.mod_pos_bound; lia]. }
  assert (Hpq : 2 ^ Z.log2 m = 2 ^ (prec - 1) * 2 ^ x) by (rewrite <- Z.pow_add_r by lia; f_equal; lia).
  assert (Hpp : 2 ^ Z.succ (Z.log2 m) = 2 ^ prec * 2 ^ x) by (rewrite <- Z.pow_add_r by lia; f_equal; lia).
  assert (Hph : 2 ^ prec * 2 ^ (x - 1) = 2 ^ Z.log2 m) by (rewrite <- Z.pow_add_r by lia; f_equal; lia).
  eexists _, x. split; [reflexivity |]. split; [lia |].
  assert (Hq : 2 ^ (prec - 1) ≤ q < 2 ^ prec).
  { split; [apply Z.div_le_lower_bound | apply Z.div_lt_upper_bound]; lia. }
  set (up := (2 ^ (x - 1) <? r) || _).
  assert (Hup : if up then 2 ^ (x - 1) ≤ r else r ≤ 2 ^ (x - 1)).
  { unfold up. destruct (Z.ltb_spec (2 ^ (x - 1)) r), (Z.eqb_spec r (2 ^ (x - 1))), (Z.odd q); simpl; lia. }
  split; [destruct up; lia |].
  assert (Herr : Z.abs ((q + (if up then 1 else 0)) * 2 ^ x - m) ≤ 2 ^ (x - 1)) by (destruct up; nia).
  nia.
Qed.

#[export] Instance BigFloat_eq_dec : EqDecision BigFloat.
Proof. solve_decision. Defined.

(** Up to [5 ^ 55], which still has 128 bits, the powers are exact. *)
Lemma pow5_exact k : 0 ≤ k ≤ 55 → pow5 128 k = Flt (5 ^ k) 0.
Proof.
  intros Hk. assert (H : bool_decide (Forall (λ k, pow5 128 k = Flt (5 ^ k) 0) (seqZ 0 56)) = true) by by vm_compute.
  apply bool_decide_eq_true in H. rewrite Forall_forall in H. apply H, elem_of_seqZ. lia.
Qed.

Lemma scaleFloat_exact m k :
  0 < m ≤ 2 ^ 512 → 0 ≤ k ≤ 55 → scaleFloat m k = Ok (setExpAndRound 64 (m * 5 ^ k) k false).
Proof.
  intros Hm Hk. unfold scaleFloat. destruct (Z.eqb_spec m 0); [lia |].
  assert (Hl : 0 ≤ Z.log2 m ≤ 512) by (split; [apply Z.log2_nonneg | apply (Z.log2_le_mono m (2 ^ 512)); lia]).
  unfold MinExp, MaxExp. rewrite (proj2 (Z.leb_le _ _)) by lia. rewrite (proj2 (Z.leb_le _ (2 ^ 31 - 1))) by lia.
  simpl. destruct (Z.eqb_spec k 0) as [-> |]; [by rewrite Z.mul_1_r |].
  destruct (Z.ltb_spec k 0); [lia |]. rewrite pow5_exact by done. simpl. by rewrite Z.add_0_r.
Qed.

(** When what was rounded no longer fits 256 bits: from half a unit in the last
    place below [2 ^ 256] on. *)
Definition roundsOver : Z := 2 ^ 256 - 2 ^ 191.

Lemma round_even_overflow M k :
  2 ^ 64 ≤ M → 0 ≤ k ≤ 55 →
  let '(q, e) := round_even 64 M k false in max_u256 < q * 2 ^ e ↔ roundsOver ≤ M * 2 ^ k.
Proof.
  intros HM Hk. assert (H0 : 0 < M) by lia. pose proof (Z.log2_spec M H0) as [Hl Hu].
  assert (Hlp : 64 ≤ Z.log2 M) by by apply (Z.log2_le_pow2 M 64).
  unfold round_even. destruct (Z.leb_spec (Z.log2 M + 1 - 64) 0); [lia |].
  set (x := Z.log2 M + 1 - 64) in *. set (q := M / 2 ^ x). set (r := M mod 2 ^ x).
  assert (Hqr : M = 2 ^ x * q + r ∧ 0 ≤ r < 2 ^ x) by (split; [apply Z.div_mod; lia | apply Z.mod_pos_bound; lia]).
  assert (Hx : 2 ^ x = 2 * 2 ^ (x - 1)) by (rewrite <- Z.pow_succ_r by lia; f_equal; lia).
  assert (Hpq : 2 ^ Z.log2 M = 2 ^ 63 * 2 ^ x) by (rewrite <- Z.pow_add_r by lia; f_equal; lia).
  assert (Hpp : 2 ^ Z.succ (Z.log2 M) = 2 ^ 64 * 2 ^ x) by (rewrite <- Z.pow_add_r by lia; f_equal; lia).
  assert (Hq : 2 ^ 63 ≤ q < 2 ^ 64) by (split; [apply Z.div_le_lower_bound | apply Z.div_lt_upper_bound]; lia).
  rewrite Z.pow_add_r by lia. set (K := 2 ^ k). assert (HK : 0 < K) by (apply Z.pow_pos_nonneg; lia).
  destruct (Z.lt_trichotomy (k + x) 192) as [Hlt | [Heq | Hgt]].
  - (* below 2^255, whatever the rounding *)
    assert (Hs : K * 2 ^ x ≤ 2 ^ 191) by (unfold K; rewrite <- Z.pow_add_r by lia; apply Z.pow_le_mono_r; lia).
    unfold roundsOver, max_u256. destruct (_ || _); split; nia.
  - assert (Hs : K * 2 ^ x = 2 ^ 192) by (unfold K; rewrite <- Z.pow_add_r by lia; by rewrite Heq).
    assert (Hs' : K * 2 ^ (x - 1) = 2 ^ 191) by nia.
    destruct (Z.ltb_spec (2 ^ (x - 1)) r) as [Hr | Hr]; simpl.
    + assert (2 ^ 191 < r * K) by nia. unfold roundsOver, max_u256. split; nia.
    + destruct (Z.eqb_spec r (2 ^ (x - 1))) as [Er | Er]; simpl.
      * destruct (Z.odd q) eqn:Hodd; unfold roundsOver, max_u256; [split; nia |].
        assert (q ≠ 2 ^ 64 - 1) by (intros ->; discriminate). split; nia.
      * assert (r * K < 2 ^ 191) by nia. unfold roundsOver, max_u256. split; nia.
  - assert (Hs : 2 ^ 193 ≤ K * 2 ^ x) by (unfold K; rewrite <- Z.pow_add_r by lia; apply Z.pow_le_mono_r; lia).
    unfold roundsOver, max_u256. destruct (_ || _); split; nia.
Qed.

(** An integer mantissa that the exponents fit, rounded to 64 bits. *)
Lemma setExpAndRound_int M k :
  0 < M < 2 ^ 640 → 0 ≤ k ≤ 55 →
  ∃ q x, setExpAndRound 64 M k false = Flt q (k + x) ∧ 0 ≤ x ∧ Z.abs (q * 2 ^ x - M) * 2 ^ 64 ≤ M ∧
         (M < 2 ^ 64 → x = 0 ∧ q = M) ∧ (2 ^ 64 ≤ M → 0 < x) ∧ (max_u256 < q * 2 ^ (k + x) ↔ roundsOver ≤ M * 2 ^ k).
Proof.
  intros HM Hk. unfold setExpAndRound. destruct (Z.eqb_spec M 0); [lia |].
  assert (Hexp : ∀ q x, 0 < q ≤ 2 ^ 64 → 0 ≤ x ≤ 640 → MinExp ≤ flt_exp q (k + x) ≤ MaxExp).
  { intros q x Hq Hx. unfold flt_exp, MinExp, MaxExp. pose proof (Z.log2_nonneg q).
    assert (Z.log2 q ≤ 64) by (apply (Z.log2_le_mono q (2 ^ 64)); lia). lia. }
  destruct (decide (M < 2 ^ 64)) as [Hs | Hs].
  - exists M, 0. rewrite round_even_fits by lia. destruct (Hexp M 0) as [H1 H2]; [lia.. |]. rewrite Z.add_0_r in *.
    rewrite (proj2 (Z.ltb_ge _ _)) by done. rewrite (proj2 (Z.ltb_ge _ _)) by done.
    rewrite Z.mul_1_r, Z.sub_diag. split_and!; [done.. | lia | done | lia |].
    assert (2 ^ k ≤ 2 ^ 55) by (apply Z.pow_le_mono_r; lia). unfold roundsOver, max_u256. split; nia.
  - destruct (round_even_error 64 M k) as (q & x & E & Hx & Hq & He); [lia.. |]. exists q, x.
    pose proof (round_even_overflow M k ltac:(lia) Hk) as Ho. rewrite E in *.
    assert (Hx4 : x ≤ 640).
    { apply Z.nlt_ge. intros Hl. assert (2 ^ 640 ≤ 2 ^ x) by (apply Z.pow_le_mono_r; lia). nia. }
    destruct (Hexp q x) as [H1 H2]; [lia.. |].
    rewrite (proj2 (Z.ltb_ge _ _)) by done. rewrite (proj2 (Z.ltb_ge _ _)) by done.
    split_and!; [done | lia | done | lia | lia | exact Ho].
Qed.

Lemma scanScientific_spec m k :
  0 ≤ m < 2 ^ 512 → 0 ≤ k ≤ 55 →
  ∃ v, scanScientific (scientific m k) = Ok v ∧ Z.abs (v - m * 10 ^ k) * 2 ^ 64 ≤ m * 10 ^ k ∧
       (m * 5 ^ k < 2 ^ 64 → v = m * 10 ^ k) ∧
       (Z.odd m = true → 2 ^ 64 ≤ m * 5 ^ k → v ≠ m * 10 ^ k) ∧
       (max_u256 < v ↔ roundsOver ≤ m * 10 ^ k).
Proof.
  intros Hm Hk. unfold scanScientific. rewrite ParseFloat_scientific by lia64.
  destruct (decide (m = 0)) as [-> | Hm0].
  { exists 0. change (scaleFloat 0 k) with (Ok (E := GoErr) FltZero). simpl. unfold max_u256, roundsOver. split_and!; lia || done. }
  assert (H5 : 1 ≤ 5 ^ k ≤ 5 ^ 55) by (split; [apply (Z.pow_le_mono_r 5 0) | apply Z.pow_le_mono_r]; lia).
  assert (H10 : 10 ^ k = 5 ^ k * 2 ^ k) by (rewrite <- Z.pow_mul_l; done).
  assert (H2 : 1 ≤ 2 ^ k) by (apply (Z.pow_le_mono_r 2 0); lia).
  assert (HM : 0 < m * 5 ^ k < 2 ^ 640) by nia.
  rewrite scaleFloat_exact by lia.
  destruct (setExpAndRound_int (m * 5 ^ k) k) as (q & x & -> & Hx & He & Hsmall & Hbig & Hover); [done.. |].
  unfold flt_Int. rewrite (proj2 (Z.leb_le _ _)) by lia.
  rewrite Z.pow_add_r, (Z.mul_comm (2 ^ k)), Z.mul_assoc in * by lia. rewrite H10, Z.mul_assoc.
  eexists. split; [reflexivity |]. split_and!.
  - rewrite <- Z.mul_sub_distr_r, Z.abs_mul, (Z.abs_eq (2 ^ k)) by lia. nia.
  - intros [-> ->]%Hsmall. lia.
  - intros Hodd Hl%Hbig Heq. apply Z.mul_cancel_r in Heq; [| lia].
    assert (Ho : Z.odd (m * 5 ^ k) = true).
    { rewrite Z.odd_mul, Hodd. destruct (decide (k = 0)) as [-> |]; [done |]. by rewrite Z.odd_pow by lia. }
    rewrite <- Heq, Z.odd_mul in Ho. replace x with (Z.succ (x - 1)) in Ho by lia.
    rewrite Z.pow_succ_r, (Z.odd_mul 2) in Ho by lia. by rewrite andb_false_r in Ho.
  - exact Hover.
Qed.

(** ** Properties *)

Section codec_lemmas.
Context {U : Uint256Lib}.

(** Every number survives the trip through the database, as [[]byte] or [string]. *)
Lemma BigInt_text_roundtrip z : BigInt_ScanText (pretty z) = Ok z.
Proof. unfold BigInt_ScanText. by rewrite pretty_not_hex, pretty_no_E, SetString10_pretty. Qed.

Lemma Uint256_text_roundtrip n : is_u256 n → Uint256_ScanText (u256_Dec n) = Ok n.
Proof.
intros Hn. rewrite u256_Dec_spec by done. unfold Uint256_ScanText. rewrite pretty_no_E.
destruct (pretty_digits n) as [H1 H2]; [apply Hn |]. by rewrite (u256_FromDecimal_digits _ n) by (done || apply Hn).
Qed.

Lemma BigInt_ScanText_scientific m k : 0 ≤ m → BigInt_ScanText (scientific m k) = scanScientific (scientific m k).
Proof.
intros Hm. unfold BigInt_ScanText. rewrite scientific_E. unfold scientific. destruct (pretty_digits m Hm) as [H0 H].
destruct (pretty m) as [| c [| c' s]]; [done | by destruct c as [[] [] [] [] [] [] [] []] |].
simpl in H. destruct (digit_val c); [| done]. destruct (digit_val c') as [d |] eqn:Hc; [| done].
destruct c as [[] [] [] [] [] [] [] []]; try done. by destruct c' as [[] [] [] [] [] [] [] []].
Qed.
End codec_lemmas.

(** A [BigInt] survives the trip through the database: whatever it holds,
    nil included, scanning the text that [Value] wrote gives the same number,
    as [string] and as bytes, and [NewBigIntFromString] reads it back too. *)
Theorem BigInt_roundtrip (b : BigInt) :
  BigInt_Scan (BigInt_Value b) = Ok (default 0 b) ∧
  (∀ s, BigInt_Value b = DvString s → BigInt_Scan (DvBytes s) = Ok (default 0 b)) ∧
  NewBigIntFromString (pretty (default 0 b)) = (Some (default 0 b), true).
Proof.
  destruct b as [z |]; simpl.
  - unfold NewBigIntFromString. rewrite BigInt_text_roundtrip, SetString10_pretty. split_and!; [done | | done].
    intros s [= <-]. apply BigInt_text_roundtrip.
  - split_and!; [done | | done]. by intros s [= <-].
Qed.

(** C19: A [Uint256] survives the trip through the database exactly, over the
    whole range of 256 bits, and a [big.Int] stored through
    [NewUint256FromBigInt] comes back as itself up to [2^256 - 1], where it
    saturates. *)
Theorem Uint256_roundtrip {U : Uint256Lib} (n : Z) :
  0 ≤ n →
  let stored := NewUint256FromBigInt (Some n) in
  stored = Some (Z.min n max_u256) ∧
  Uint256_Scan (Uint256_Value stored) = Ok (Z.min n max_u256) ∧
  Uint256_Scan (DvBytes (Uint256_String stored)) = Ok (Z.min n max_u256).
Proof.
  intros Hn stored. assert (Hs : stored = Some (Z.min n max_u256)).
  { unfold stored, NewUint256FromBigInt. destruct (decide (n ≤ max_u256)) as [H | H].
    - rewrite u256_FromBig_fits by done. f_equal. lia.
    - pose proof (u256_FromBig_overflow n) as Ho. destruct (u256_FromBig n) as [u []]; simpl in *; [f_equal; lia |].
      specialize (Ho ltac:(lia)). done. }
  rewrite Hs. split; [done |]. simpl. rewrite Uint256_text_roundtrip; [done |]. unfold is_u256, max_u256 in *. lia.
Qed.

(** C20: What scientific notation reads as.  For a mantissa [m] and an exponent
    [k] up to 55, both types scan it without an error; the result is off by at
    most one part in [2^64]; it is exact when [m * 5^k] has 64 bits, and wrong
    for every odd [m] where it has more. *)
Theorem scan_scientific_bounds {U : Uint256Lib} (m k : Z) :
  0 ≤ m → 0 ≤ k ≤ 55 → m * 10 ^ k ≤ 2 ^ 255 →
  ∃ v, BigInt_Scan (DvString (scientific m k)) = Ok v ∧ Uint256_Scan (DvString (scientific m k)) = Ok v ∧
       Z.abs (v - m * 10 ^ k) * 2 ^ 64 ≤ m * 10 ^ k ∧
       (m * 5 ^ k < 2 ^ 64 → v = m * 10 ^ k) ∧
       (Z.odd m = true → 2 ^ 64 ≤ m * 5 ^ k → v ≠ m * 10 ^ k).
Proof.
  intros Hm Hk Hb. assert (H10 : 1 ≤ 10 ^ k) by (apply (Z.pow_le_mono_r 10 0); lia).
  destruct (scanScientific_spec m k) as (v & Hv & He & Hsm & Hbig & _); [nia | done |].
  assert (Hr : is_u256 v).
  { assert (0 ≤ m * 10 ^ k) by (apply Z.mul_nonneg_nonneg; lia). unfold is_u256, max_u256. lia. }
  exists v. simpl. rewrite BigInt_ScanText_scientific by done. unfold Uint256_ScanText.
  by rewrite scientific_E, Hv, u256_FromBig_fits by done.
Qed.

(** C34: Where a number is too large for [Uint256].  Decimal text, as [string]
    or as bytes: [Uint256.Scan] takes exactly the numbers up to [2^256 - 1] and
    reports an error for every larger one, which [BigInt.Scan] takes unchanged.
    Scientific notation (mantissa below [2^512], exponent up to 55): the limit
    lies at [2^256 - 2^191], half a unit of the 64-bit precision below [2^256]:
    below it both types store the same number; from there on [Uint256.Scan]
    reports an error, although the numbers up to [2^256 - 1] fit, and
    [BigInt.Scan] stores one that needs more than 256 bits. *)
Theorem Uint256_Scan_overflow {U : Uint256Lib} (text : string → DriverValue) (m k : Z) :
  text ∈ [DvBytes; DvString] → 0 ≤ m < 2 ^ 512 → 0 ≤ k ≤ 55 →
  (BigInt_Scan (text (pretty m)) = Ok m ∧
   if m <=? max_u256 then Uint256_Scan (text (pretty m)) = Ok m else ∃ e, Uint256_Scan (text (pretty m)) = Err e) ∧
  ∃ v, BigInt_Scan (text (scientific m k)) = Ok v ∧
    if m * 10 ^ k <? 2 ^ 256 - 2 ^ 191 then Uint256_Scan (text (scientific m k)) = Ok v
    else max_u256 < v ∧ ∃ e, Uint256_Scan (text (scientific m k)) = Err e.
Proof.
  intros Htext Hm Hk.
  assert (HB : ∀ s, BigInt_Scan (text s) = BigInt_ScanText s) by (intros s; by apply list_elem_of_In in Htext as [<- | [<- | []]]).
  assert (HU : ∀ s, Uint256_Scan (text s) = Uint256_ScanText s) by (intros s; by apply list_elem_of_In in Htext as [<- | [<- | []]]).
  rewrite !HB, !HU, BigInt_text_roundtrip, BigInt_ScanText_scientific by lia. unfold Uint256_ScanText. rewrite scientific_E, pretty_no_E.
  destruct (pretty_digits m) as [Hne Hd]; [lia |]. split.
  - split; [done |]. destruct (Z.leb_spec m max_u256).
    + by rewrite (u256_FromDecimal_digits _ m).
    + destruct (u256_FromDecimal_overflow _ m Hne Hd) as [e ->]; [done |]. eauto.
  - destruct (scanScientific_spec m k) as (v & -> & He & _ & _ & Hover); [done.. |]. exists v. split; [done |].
    change (2 ^ 256 - 2 ^ 191) with roundsOver. destruct (Z.ltb_spec (m * 10 ^ k) roundsOver) as [Hlt | Hge].
    + assert (0 ≤ m * 10 ^ k) by (apply Z.mul_nonneg_nonneg; lia).
      rewrite u256_FromBig_fits; [done |]. unfold is_u256. split; [lia |]. apply Z.nlt_ge. intros Hv%Hover. lia.
    + apply Hover in Hge. split; [done |]. pose proof (u256_FromBig_overflow v Hge).
      destruct (u256_FromBig v) as [u b]. simpl in *. subst b. eauto.
Qed.

(** ** Witnesses *)

(** A library that behaves as documented. *)
#[export] Program Instance decimalUint256 : Uint256Lib := {|
  u256_Dec := pretty;
  u256_FromDecimal := λ s, match digits_val 0 s with
                           | Some n => if (0 <=? n) && (n <=? max_u256) then Ok n else Err (Errorf "decimal number > 256 bits")
                           | None => Err (Errorf "invalid decimal string")
                           end;
  u256_FromBig := λ b, (b mod 2 ^ 256, max_u256 <? Z.abs b)
|}.
Next Obligation. done. Qed.
Next Obligation.
  intros s n Hs Hn Hm. simpl. rewrite Hn. assert (H0 : 0 ≤ n).
  { assert (Hd : ∀ s acc v, 0 ≤ acc → digits_val acc s = Some v → 0 ≤ v).
    { clear. induction s as [| c s IH]; simpl; intros acc v Ha; [by intros [= <-] |].
      destruct (digit_val c) as [d |] eqn:Hc; [| done]. apply IH. apply digit_val_range in Hc. lia. }
    by eapply (Hd s 0). }
  rewrite (proj2 (Z.leb_le 0 n)) by lia. by rewrite (proj2 (Z.leb_le n _)) by done.
Qed.
Next Obligation.
  intros s n Hs Hn Hm. simpl. rewrite Hn, (proj2 (Z.leb_gt n max_u256)), andb_false_r by done. eauto.
Qed.
Next Obligation.
  intros b Hb. simpl. unfold is_u256 in Hb. rewrite Z.mod_small by (unfold max_u256 in *; lia).
  by rewrite Z.abs_eq, (proj2 (Z.ltb_ge _ _)) by lia.
Qed.
Next Obligation. intros b Hb. simpl. rewrite Z.abs_eq by (unfold max_u256 in *; lia). by apply Z.ltb_lt. Qed.

Lemma Uint256_roundtrip_witness :
  Uint256_Scan (Uint256_Value (NewUint256FromBigInt (Some (10 ^ 30 + 1)))) = Ok (10 ^ 30 + 1).
Proof. destruct (Uint256_roundtrip (10 ^ 30 + 1)) as (_ & H & _); [by vm_compute |]. rewrite H. by vm_compute. Defined.

(** [1e28] wei, ten billion ether, reads as another amount. *)
Lemma scan_scientific_bounds_witness :
  ∃ v, Uint256_Scan (DvString "1e28") = Ok v ∧ v ≠ 10 ^ 28.
Proof.
  assert (E : scientific 1 28 = "1e28") by by vm_compute.
  destruct (scan_scientific_bounds 1 28) as (v & _ & H & _ & _ & Hne); [done | done | by vm_compute |].
  rewrite E in H. rewrite !Z.mul_1_l in Hne. exists v. split; [exact H | apply Hne; by vm_compute].
Defined.

(** The largest number of 256 bits, with an exponent of zero: too large for
    [Uint256], [2^256] as [BigInt]. *)
Lemma Uint256_Scan_overflow_witness :
  ∃ v, BigInt_Scan (DvString (scientific max_u256 0)) = Ok v ∧ max_u256 < v ∧
       ∃ e, Uint256_Scan (DvString (scientific max_u256 0)) = Err e.
Proof.
  destruct (Uint256_Scan_overflow DvString max_u256 0) as (_ & v & H1 & H2); [right; left | by vm_compute | by vm_compute |].
  exists v. split; [exact H1 | exact H2].
Defined.
