(* ===== verification/Enricher.v ===== *)
(** * The metadata enricher (internal/engine/metadata_enricher.go) and the token
    registry (token_registry.go)

    Token symbols are looked up in a cache; a miss queues the address, once, for
    the worker, which asks Multicall3 for up to fifty addresses at a time.  The
    cache is restored from and saved to the table token_metadata. *)

From S2P Require Import Prelude GoInt Types Codecs Processor.
From Stdlib Require Import ZArith Lia Ascii String.
From stdpp Require Import base relations gmap strings list.
Open Scope string_scope.
Open Scope Z_scope.

(** ** go-ethereum

    [common.Address] is its 160-bit number.  [Hex()] is its EIP-55 text, of
    which the enricher needs the length and that it identifies the address;
    [HexToAddress] keeps the last 20 bytes of a longer text. *)
Class AddressText := {
  addr_Hex : Z → string;
  HexToAddress : string → Z;
  HexToAddress_crop s v : hexes_val 0 s = Some v → HexToAddress ("0x" ++ s) = v mod 2 ^ 160;
  addr_Hex_inj a b : 0 ≤ a < 2 ^ 160 → 0 ≤ b < 2 ^ 160 → addr_Hex a = addr_Hex b → a = b;
  addr_Hex_length a : String.length (addr_Hex a) = 42%nat
}.

(** [erc20ABI.Unpack] of the two methods, [None] for an error or an empty or
    ill-typed result. *)
Class Erc20Abi := {
  unpackSymbol : list Z → option string;
  unpackDecimals : list Z → option Z
}.

(** One entry of Multicall3's answer. *)
Record MultiResult := mkMultiResult { mr_Success : bool; mr_ReturnData : list Z }.

(** models/types.go, [TokenMetadata]. *)
Record TokenMetadata := mkTokenMetadata { md_Symbol : string; md_Decimals : Z; md_Name : string }.

#[export] Instance TokenMetadata_eq_dec : EqDecision TokenMetadata.
Proof. solve_decision. Defined.

(** ** The token registry

    token_registry.go, the literal of [NewTokenRegistry], without the [0x]. *)
Definition registryTokens : list (string * string) :=
  [("A0b86991c6218b36c1d19D4a2e9Eb0cE3606eB48", "USDC");
   ("dAC17F958D2ee523a2206206994597C13D831ec7", "USDT");
   ("4ECaBa5870353805a9F068101A40E0f32ed605C6", "USDC.e");
   ("94a9D9AC8a22534E3FaCa9F4e7F2E2cf85d5E4C8", "USDC (Bridged)");
   ("C02aaA39b223FE8D0A0e5C4F27eAD9083C756Cc2", "WETH");
   ("2260FAC5E5542a773Aa44fBCfeDf7C193bc2C599", "WBTC");
   ("40D16FC0246aD3160Ccc09B8D0e3D285429740Bf", "WSTETH");
   ("Ca14007Eff0dB1f8135f4C25B34De49AB0d42766", "WMATIC");
   ("6B175474E89094C44Da98b954EedeAC495271d0F", "DAI");
   ("1f9840a85d5aF5bf1D1762F925BDADdC4201F984", "UNI");
   ("7Fc66500c84A76Ad7e9c93437bFc5Ac33E2DDaE9c", "LINK");
   ("D533a949740bb3306d119CC777fa900bA034c52D", "CRV");
   ("AE78736Cd615f374D08aDFc44B9E79b9bDCeEaeE", "rETH");
   ("4d9F916011233A8a94F9575c019c0C24e6D2F2b2", "stETH");
   ("8c1EEdC876be49809e03EB08396afbc93EB376365", "wBETH");
   ("F1f3eaA94e9a809B86c91baddaC0249a919C238C", "wsepETH");
   ("7b79995e5f793A07Bc00c21412e50Ecae098E7f9", "sepolINK");
   ("0000000000000000000000000000000000000000", "ETH");
   ("4200000000000000000000000000000000000006", "WETH.op")].

Section registry.
Context {AT : AddressText}.

(** token_registry.go, [TokenRegistry]: its map. *)
Definition TokenRegistry : Type := gmap Z string.
Definition NewTokenRegistry : TokenRegistry :=
list_to_map (prod_map (λ s, HexToAddress ("0x" ++ s)) id <$> registryTokens).
Definition registry_GetSymbol (address : Z) (r : TokenRegistry) : string :=
match r !! address with Some symbol => symbol | None => substring 0 10 (addr_Hex address) ++ "..." end.
Definition Register (address : Z) (symbol : string) (r : TokenRegistry) : TokenRegistry := <[address := symbol]> r.

(** The address of a literal, as the constructor computes it. *)
Definition literalAddress (s : string) : Z := default 0 (hexes_val 0 s) mod 2 ^ 160.

Lemma NewTokenRegistry_eq : NewTokenRegistry = list_to_map (prod_map literalAddress id <$> registryTokens).
Proof.
unfold NewTokenRegistry. f_equal. apply list_fmap_ext. intros i [s sym] Hi. unfold prod_map. simpl. f_equal.
apply HexToAddress_crop. assert (H : Forall (λ kv, is_Some (hexes_val 0 (fst kv))) registryTokens) by by repeat constructor.
rewrite Forall_lookup in H. destruct (H _ _ Hi) as [v Hv]. simpl in Hv. unfold literalAddress. by rewrite Hv.
Qed.

(** Every entry is found under the address its constructor computed, registering
  adds or replaces one. *)
Lemma registry_entries s sym :
(s, sym) ∈ registryTokens → registry_GetSymbol (literalAddress s) NewTokenRegistry = sym.
Proof.
rewrite NewTokenRegistry_eq. unfold registry_GetSymbol, TokenRegistry. intros H.
rewrite (elem_of_list_to_map_1 _ (literalAddress s) sym); [done | |].
- refine (proj1 (bool_decide_eq_true _) _). by vm_compute.
- apply list_elem_of_fmap. by exists (s, sym).
Qed.

Lemma Register_found address symbol r : registry_GetSymbol address (Register address symbol r) = symbol.
Proof. unfold registry_GetSymbol, Register, TokenRegistry. by rewrite lookup_insert_eq. Qed.

(** The literal of LINK has 41 digits: its first digit is cropped, and the token
  at the address of its first 40 digits is unknown. *)
Lemma LINK_unreachable :
NewTokenRegistry !! 0x7Fc66500c84A76Ad7e9c93437bFc5Ac33E2DDaE9 = None ∧
NewTokenRegistry !! 0xfc66500c84A76Ad7e9c93437bFc5Ac33E2DDaE9c = Some "LINK".
Proof. rewrite NewTokenRegistry_eq. split; by vm_compute. Qed.
End registry.

(** ** The table token_metadata

    processor_core.go, [SaveTokenMetadata] and [LoadAllMetadata] of the adapter
    (the same in repository.go): both put the address in lower case. *)
Definition MetaTable : Type := gmap string TokenMetadata.

Definition SaveTokenMetadata (meta : TokenMetadata) (address : string) (t : MetaTable) : MetaTable :=
  <[ToLower address := meta]> t.
Definition LoadAllMetadata (t : MetaTable) : gmap string TokenMetadata :=
  list_to_map (prod_map ToLower id <$> map_to_list t).

(** ** State *)

(** metadata_enricher.go, [type MetadataEnricher struct]; [me_table] is the
    database. *)
Record MetadataEnricher := mkEnricher {
  me_cache : gmap string TokenMetadata;
  me_queue : list Z;
  me_inflight : gset string;
  me_table : MetaTable;
  me_queueCap : Z
}.

Definition eset_cache (c : gmap string TokenMetadata) (e : MetadataEnricher) : MetadataEnricher :=
  mkEnricher c (me_queue e) (me_inflight e) (me_table e) (me_queueCap e).
Definition eset_queue (q : list Z) (e : MetadataEnricher) : MetadataEnricher :=
  mkEnricher (me_cache e) q (me_inflight e) (me_table e) (me_queueCap e).
Definition eset_inflight (i : gset string) (e : MetadataEnricher) : MetadataEnricher :=
  mkEnricher (me_cache e) (me_queue e) i (me_table e) (me_queueCap e).
Definition eset_table (t : MetaTable) (e : MetadataEnricher) : MetadataEnricher :=
  mkEnricher (me_cache e) (me_queue e) (me_inflight e) t (me_queueCap e).

Definition batchSize : nat := 50.

(** metadata_enricher.go, [NewMetadataEnricher]: [loads] says that the database
    answered. *)
Definition NewMetadataEnricher (queueCap : Z) (loads : bool) (t : MetaTable) : MetadataEnricher :=
  mkEnricher (if loads then LoadAllMetadata t else ∅) [] ∅ t (if queueCap <=? 0 then 1000 else queueCap).

(** Where a call of [GetSymbol] stands: before the look into the cache, before
    the [LoadOrStore] of its mark, before the select that sends, before the select
    that evicts, before the send that blocks. *)
Inductive Caller : Type := CLoad (addr : Z) | CMark (addr : Z) | CSend (addr : Z) | CEvict (addr : Z) | CResend (addr : Z).
Inductive Progress : Type := Returned (symbol : string) | Next (c : Caller) | Blocked.

(** Where the worker stands: before a tick, in its collect loop, in the multicall,
    in the loop over the answers with the addresses and answers left, before the
    write to the database and before the deletion of the mark of one address. *)
Inductive Worker : Type :=
| WkIdle
| WkCollect (batch : list Z)
| WkCalled (batch : list Z)
| WkStore (batch : list Z) (res : list MultiResult)
| WkSave (addr : Z) (meta : TokenMetadata) (batch : list Z) (res : list MultiResult)
| WkUnmark (addr : Z) (batch : list Z) (res : list MultiResult).

Section enricher.
Context {AT : AddressText} {ABI : Erc20Abi}.
Implicit Types e : MetadataEnricher.

Definition shortHex (addr : Z) : string := substring 0 10 (addr_Hex addr) ++ "...".

(** metadata_enricher.go, [GetSymbol], one access to the shared maps and the
  channel at a time: they are a [sync.Map] each and a channel, without a common
  lock.  A full queue loses its oldest entry, whose mark stays in [inflight]. *)
Definition callerStep (c : Caller) : GoM MetadataEnricher Progress :=
e ← gets id;
match c with
| CLoad addr =>
  if addr =? 0 then mret (Returned "ETH")
  else match me_cache e !! addr_Hex addr with
       | Some meta => mret (Returned (md_Symbol meta))
       | None => mret (Next (CMark addr))
       end
| CMark addr =>
  if decide (addr_Hex addr ∈ me_inflight e) then mret (Returned (shortHex addr))
  else modify (eset_inflight ({[addr_Hex addr]} ∪ me_inflight e));; mret (Next (CSend addr))
| CSend addr =>
  if Z.of_nat (length (me_queue e)) <? me_queueCap e then
    modify (eset_queue (me_queue e ++ [addr])%list);; mret (Returned (shortHex addr))
  else mret (Next (CEvict addr))
| CEvict addr =>
  match me_queue e with
  | [] => mret (Returned (shortHex addr))
  | _ :: q => modify (eset_queue q);; mret (Next (CResend addr))
  end
| CResend addr =>
  if Z.of_nat (length (me_queue e)) <? me_queueCap e then
    modify (eset_queue (me_queue e ++ [addr])%list);; mret (Returned (shortHex addr))
  else mret Blocked
end.

(** A call that nothing interleaves with: it has at most five steps. *)
Fixpoint runCaller (fuel : nat) (c : Caller) : GoM MetadataEnricher string :=
match fuel with
| O => go_panic "deadlock"
| S fuel' =>
  p ← callerStep c;
  match p with
  | Returned symbol => mret symbol
  | Next c' => runCaller fuel' c'
  | Blocked => go_panic "deadlock"
  end
end.
Definition GetSymbol (addr : Z) : GoM MetadataEnricher string := runCaller 5 (CLoad addr).

(** metadata_enricher.go, [GetDecimals]. *)
Definition GetDecimals (addr : Z) e : Z :=
if addr =? 0 then 18 else match me_cache e !! addr_Hex addr with Some meta => md_Decimals meta | None => 18 end.

(** What one address's two results say, [None] when neither was usable. *)
Definition readMeta (sym dec : MultiResult) : option TokenMetadata :=
let s := if mr_Success sym && (64 <=? length (mr_ReturnData sym))%nat then unpackSymbol (mr_ReturnData sym) else None in
let d := if mr_Success dec && (32 <=? length (mr_ReturnData dec))%nat then unpackDecimals (mr_ReturnData dec) else None in
match s, d with
| None, None => None
| _, _ => Some (mkTokenMetadata (default "UNKNOWN" s) (default 18 d) "")
end.

(** metadata_enricher.go, [batchWorker] and [processBatch], one access at a time:
  [reply] is what packing, calling and unpacking the multicall gives, [saved]
  whether the write to the database succeeds. *)
Definition workerStep (reply : result GoErr (list MultiResult)) (saved : bool) (w : Worker) : GoM MetadataEnricher Worker :=
e ← gets id;
match w with
| WkIdle => mret (WkCollect [])
| WkCollect batch =>
  match me_queue e with
  | a :: q =>
    if (length batch <? batchSize)%nat then modify (eset_queue q);; mret (WkCollect (batch ++ [a])%list)
    else mret (WkCalled batch)
  | [] => mret (if (0 <? length batch)%nat then WkCalled batch else WkIdle)
  end
| WkCalled batch => mret match reply with Err _ => WkIdle | Ok multiRes => WkStore batch multiRes end
| WkStore [] _ => mret WkIdle
| WkStore (addr :: rest) multiRes =>
  match multiRes with
  | sym :: dec :: more =>
    match readMeta sym dec with
    | Some meta => modify (eset_cache (<[addr_Hex addr := meta]> (me_cache e)));; mret (WkSave addr meta rest more)
    | None => mret (WkUnmark addr rest more)
    end
  | _ => go_panic "index out of range"
  end
| WkSave addr meta rest more =>
  (if saved then modify (eset_table (SaveTokenMetadata meta (addr_Hex addr) (me_table e))) else mret tt);;
  mret (WkUnmark addr rest more)
| WkUnmark addr rest more => modify (eset_inflight (me_inflight e ∖ {[addr_Hex addr]}));; mret (WkStore rest more)
end.

(** The enricher, its worker and the calls in progress, in no order. *)
Record EnrichSys := mkSys { es_e : MetadataEnricher; es_worker : Worker; es_callers : list Caller }.
Definition onEnricher {A} (m : GoM MetadataEnricher A) : GoM EnrichSys A :=
zoom es_e (λ e s, mkSys e (es_worker s) (es_callers s)) m.
Definition setWorker (w : Worker) : GoM EnrichSys unit := modify (λ s, mkSys (es_e s) w (es_callers s)).
Definition setCallers (cs : list Caller) : GoM EnrichSys unit := modify (λ s, mkSys (es_e s) (es_worker s) cs).

(** A new call, a step of the call at [i], a step of the worker. *)
Inductive EnrichCase : Type :=
| EcCall (addr : Z)
| EcCaller (i : nat)
| EcWorker (reply : result GoErr (list MultiResult)) (saved : bool).

Definition enrichStep (c : EnrichCase) : GoM EnrichSys unit :=
s ← gets id;
match c with
| EcCall addr => setCallers (CLoad addr :: es_callers s)
| EcCaller i =>
  match es_callers s !! i with
  | None => mret tt
  | Some c =>
    p ← onEnricher (callerStep c);
    match p with
    | Returned _ => setCallers (delete i (es_callers s))
    | Next c' => setCallers (c' :: delete i (es_callers s))
    | Blocked => mret tt
    end
  end
| EcWorker reply saved => w ← onEnricher (workerStep reply saved (es_worker s)); setWorker w
end.

Definition case_ok (c : EnrichCase) : Prop :=
match c with EcCall addr => 0 ≤ addr < 2 ^ 160 | _ => True end.

Fixpoint enrichRun (cs : list EnrichCase) : GoM EnrichSys unit :=
match cs with [] => mret tt | c :: rest => enrichStep c;; enrichRun rest end.

(** ** Invariant *)

(** The address a call has marked and not yet queued, those in the worker's hands,
    and all that wait to be asked about. *)
Definition holds (c : Caller) : list Z :=
match c with CSend a | CEvict a | CResend a => [a] | CLoad _ | CMark _ => [] end.
Definition inHand (w : Worker) : list Z :=
match w with
| WkIdle => []
| WkCollect b | WkCalled b | WkStore b _ => b
| WkSave a _ b _ | WkUnmark a b _ => a :: b
end.
Definition waitingOf (cs : list Caller) (e : MetadataEnricher) (w : Worker) : list Z :=
((cs ≫= holds) ++ me_queue e ++ inHand w)%list.
Definition waiting (s : EnrichSys) : list Z := waitingOf (es_callers s) (es_e s) (es_worker s).

Definition caller_ok (c : Caller) : Prop :=
match c with CLoad a => 0 ≤ a < 2 ^ 160 | CMark a => 0 < a < 2 ^ 160 | _ => True end.

(** Every waiting address waits once and is marked in flight; queue and batch are
    within their bounds. *)
Record enrich_ok (s : EnrichSys) : Prop := {
  en_nodup : NoDup (waiting s);
  en_waiting : ∀ a, a ∈ waiting s → 0 < a < 2 ^ 160 ∧ addr_Hex a ∈ me_inflight (es_e s);
  en_callers : Forall caller_ok (es_callers s);
  en_cap : 0 < me_queueCap (es_e s) ∧ Z.of_nat (length (me_queue (es_e s))) ≤ me_queueCap (es_e s);
  en_batch : (length (inHand (es_worker s)) ≤ batchSize)%nat
}.

(** An address the enricher will never ask about again: marked in flight, but
    waiting nowhere, and not in the cache. *)
Definition stranded (a : Z) (s : EnrichSys) : Prop :=
addr_Hex a ∈ me_inflight (es_e s) ∧ (a ∉ waiting s) ∧ me_cache (es_e s) !! addr_Hex a = None.

(** ** Lemmas: one step *)

(** What a step may do to a waiting list, the marks and the cache: let addresses
    wait no longer, mark a fresh one that then waits, unmark one that no longer
    waits, cache one that waits. *)
Definition step_rel (s s' : EnrichSys) : Prop :=
me_queueCap (es_e s') = me_queueCap (es_e s) ∧
((waiting s' ⊆+ waiting s ∧ me_inflight (es_e s') = me_inflight (es_e s) ∧
  (me_cache (es_e s') = me_cache (es_e s) ∨
   ∃ a meta, a ∈ waiting s ∧ me_cache (es_e s') = <[addr_Hex a := meta]> (me_cache (es_e s)))) ∨
 (∃ a, 0 < a < 2 ^ 160 ∧ addr_Hex a ∉ me_inflight (es_e s) ∧ waiting s' ≡ₚ a :: waiting s ∧
       me_inflight (es_e s') = {[addr_Hex a]} ∪ me_inflight (es_e s) ∧ me_cache (es_e s') = me_cache (es_e s)) ∨
 (∃ a, waiting s ≡ₚ a :: waiting s' ∧ me_inflight (es_e s') = me_inflight (es_e s) ∖ {[addr_Hex a]} ∧
       me_cache (es_e s') = me_cache (es_e s))).

Lemma sub_waiting (s s' : EnrichSys) :
me_queueCap (es_e s') = me_queueCap (es_e s) → waiting s' ⊆+ waiting s → me_inflight (es_e s') = me_inflight (es_e s) →
me_cache (es_e s') = me_cache (es_e s) → step_rel s s'.
Proof. intros Hcap Hw Hi Hc. split; [done |]. left. by split_and!; [| | left]. Qed.

Lemma same_waiting (s s' : EnrichSys) :
me_queueCap (es_e s') = me_queueCap (es_e s) → waiting s ≡ₚ waiting s' → me_inflight (es_e s') = me_inflight (es_e s) →
me_cache (es_e s') = me_cache (es_e s) → step_rel s s'.
Proof. intros Hcap Hw. apply sub_waiting; [done |]. by rewrite Hw. Qed.

(** The waiting list around the call at [i]. *)
Lemma waiting_caller i c (s : EnrichSys) :
es_callers s !! i = Some c → waiting s ≡ₚ (holds c ++ waitingOf (delete i (es_callers s)) (es_e s) (es_worker s))%list.
Proof.
intros Hi. pose proof (delete_Permutation _ _ _ Hi) as Hp. unfold waiting, waitingOf. set (D := delete i (es_callers s)) in *.
rewrite Hp. simpl. by rewrite <- app_assoc.
Qed.

Lemma queue_end cs e w a : waitingOf cs (eset_queue (me_queue e ++ [a])%list e) w ≡ₚ a :: waitingOf cs e w.
Proof. unfold waitingOf. simpl. rewrite (Permutation_app_comm (me_queue e) [a]). simpl. by rewrite <- Permutation_middle. Qed.
Lemma queue_head cs e w a q : me_queue e = a :: q → waitingOf cs e w ≡ₚ a :: waitingOf cs (eset_queue q e) w.
Proof. intros Hq. unfold waitingOf. rewrite Hq. simpl. by rewrite <- Permutation_middle. Qed.

Definition bounds (s : EnrichSys) : Prop :=
Forall caller_ok (es_callers s) ∧ Z.of_nat (length (me_queue (es_e s))) ≤ me_queueCap (es_e s) ∧
(length (inHand (es_worker s)) ≤ batchSize)%nat.

Lemma room_after_send e a :
(Z.of_nat (length (me_queue e)) <? me_queueCap e) = true → Z.of_nat (length (me_queue e ++ [a])%list) ≤ me_queueCap e.
Proof. intros H. bool_prop. rewrite length_app. simpl. lia. Qed.

Lemma callerStep_rel i c (s : EnrichSys) :
es_callers s !! i = Some c → enrich_ok s →
wp (enrichStep (EcCaller i)) (λ o s', o = Val tt ∧ step_rel s s' ∧ bounds s') s.
Proof.
intros Hi [Hnd Hw Hcs [Hc0 Hcap] Hb]. pose proof (waiting_caller _ _ _ Hi) as Hp.
assert (Hc : caller_ok c) by (rewrite Forall_lookup in Hcs; by eapply Hcs).
assert (Hcs' : Forall caller_ok (delete i (es_callers s))) by (by apply Forall_delete).
assert (Hhold : ∀ a, holds c = [a] → 0 < a < 2 ^ 160) by (intros a E; apply Hw; rewrite Hp, E; left).
unfold enrichStep. apply wp_bind, wp_gets. unfold id. rewrite Hi. destruct s as [e w cs]. cbn [es_callers es_e es_worker] in *.
set (D := delete i cs) in *. apply wp_bind, wp_zoom. unfold callerStep. apply wp_bind, wp_gets. unfold id. cbn [es_e].
destruct c as [a | a | a | a | a]; cbn [holds app] in Hp.
- destruct (a =? 0) eqn:E0; [| destruct (me_cache e !! addr_Hex a)]; apply wp_ret, wp_modify; (split; [done |]);
    (split; [by apply same_waiting |]); split_and!; try done. constructor; [simpl in *; bool_prop; lia | done].
- case_decide as Hm; [apply wp_ret, wp_modify; (split; [done |]); (split; [by apply same_waiting |]); by split_and! |].
  apply wp_bind, wp_modify, wp_ret, wp_modify. split; [done |]. split; [| split_and!; [by constructor | done | done]].
  split; [done |]. right. left. exists a. split_and!; [apply Hc.. | done | | done | done]. unfold waiting at 1. simpl. by rewrite Hp.
- case_match eqn:E; [apply wp_bind, wp_modify, wp_ret, wp_modify | apply wp_ret, wp_modify]; (split; [done |]).
  + split; [| split_and!; [done | exact (room_after_send _ _ E) | done]].
    apply same_waiting; try done. rewrite Hp. unfold waiting. simpl. by rewrite queue_end.
  + split; [by apply same_waiting | split_and!; [by constructor | done | done]].
- destruct (me_queue e) as [| h q] eqn:Eq; [apply wp_ret, wp_modify | apply wp_bind, wp_modify, wp_ret, wp_modify]; (split; [done |]).
  + split; [| split_and!; [done | simpl; by rewrite Eq | done]].
    apply sub_waiting; try done. rewrite Hp. unfold waiting. simpl. by apply submseteq_cons.
  + split; [| split_and!; [by constructor | simpl in *; lia | done]].
    apply sub_waiting; try done. rewrite Hp. unfold waiting. cbn [es_callers es_e es_worker]. rewrite (queue_head D e w h q Eq).
    unfold waitingOf. simpl. apply submseteq_skip, submseteq_cons. done.
- case_match eqn:E; [apply wp_bind, wp_modify, wp_ret, wp_modify | apply wp_ret, wp_ret]; (split; [done |]).
  + split; [| split_and!; [done | exact (room_after_send _ _ E) | done]].
    apply same_waiting; try done. rewrite Hp. unfold waiting. simpl. by rewrite queue_end.
  + split; [by apply same_waiting | by split_and!].
Qed.

Lemma workerStep_rel reply saved (s : EnrichSys) :
enrich_ok s →
wp (enrichStep (EcWorker reply saved)) (λ o s', (o = Val tt ∨ o = Panic "index out of range") ∧ step_rel s s' ∧ bounds s') s.
Proof.
intros [Hnd Hw Hcs [Hc0 Hcap] Hb]. unfold enrichStep. apply wp_bind, wp_gets. unfold id. destruct s as [e w cs].
cbn [es_callers es_e es_worker] in *. apply wp_bind, wp_zoom. unfold workerStep. apply wp_bind, wp_gets. unfold id. cbn [es_e].
destruct w as [| b | b | b res | a meta b res | a b res]; cbn [inHand] in Hb.
- apply wp_ret, wp_modify. split; [by left |]. split; [by apply same_waiting | split_and!; [done | done | simpl; lia]].
- destruct (me_queue e) as [| a q] eqn:Eq.
  + apply wp_ret, wp_modify. split; [by left |]. destruct b as [| x b]; (split; [by apply same_waiting | split_and!; [done | simpl; by rewrite Eq | done]]).
  + destruct (length b <? batchSize)%nat eqn:El; [apply wp_bind, wp_modify, wp_ret, wp_modify | apply wp_ret, wp_modify]; (split; [by left |]).
    * split; [| split_and!; [done | simpl in *; lia | simpl; rewrite length_app; simpl; apply Nat.ltb_lt in El; lia]].
      apply same_waiting; try done. unfold waiting. cbn [es_callers es_e es_worker]. rewrite (queue_head cs e _ a q Eq).
      unfold waitingOf. simpl. by rewrite !app_assoc, <- Permutation_cons_append.
    * split; [by apply same_waiting | split_and!; [done | simpl; by rewrite Eq | done]].
- apply wp_ret, wp_modify. split; [by left |]. destruct reply as [res | err].
  + split; [by apply same_waiting | by split_and!].
  + split; [| split_and!; [done | done | simpl; lia]]. apply sub_waiting; try done. unfold waiting, waitingOf. simpl.
    apply submseteq_app; [done |]. apply submseteq_app; [done | apply submseteq_nil_l].
- destruct b as [| a b]; [apply wp_ret, wp_modify; (split; [by left |]); (split; [by apply same_waiting | by split_and!]) |].
  destruct res as [| sym [| dec more]]; [apply wp_panic; (split; [by right |]); (split; [by apply same_waiting | by split_and!]).. |].
  destruct (readMeta sym dec) as [meta |].
  + apply wp_bind, wp_modify, wp_ret, wp_modify. split; [by left |]. split; [| by split_and!].
    split; [done |]. left. split_and!; [done.. |]. right. exists a, meta. split; [| done].
    unfold waiting, waitingOf. simpl. set_solver.
  + apply wp_ret, wp_modify. split; [by left |]. split; [by apply same_waiting | by split_and!].
- apply wp_bind. destruct saved; [apply wp_modify | apply wp_ret]; apply wp_ret, wp_modify; (split; [by left |]);
    (split; [by apply same_waiting | by split_and!]).
- apply wp_bind, wp_modify, wp_ret, wp_modify. split; [by left |]. split; [| split_and!; [done | done | simpl in *; lia]].
  split; [done |]. right. right. exists a. split_and!; [| done | done]. unfold waiting, waitingOf. simpl. by rewrite !app_assoc, <- Permutation_middle.
Qed.

Lemma enrichStep_rel c s :
case_ok c → enrich_ok s →
wp (enrichStep c) (λ o s', (o = Val tt ∨ o = Panic "index out of range") ∧ step_rel s s' ∧ bounds s') s.
Proof.
intros Hc Hok. destruct c as [addr | i | reply saved]; [| | by apply workerStep_rel].
- apply wp_bind, wp_gets, wp_modify. split; [by left |]. destruct Hok as [_ _ Hcs [_ Hcap] Hb].
  split; [by apply same_waiting | split_and!; [by constructor | done | done]].
- destruct (es_callers s !! i) as [c |] eqn:Hi.
  + eapply wp_mono; [by eapply callerStep_rel |]. intros o s' (-> & H). split; [by left | done].
  + apply wp_bind, wp_gets. unfold id. rewrite Hi. apply wp_ret. split; [by left |]. destruct Hok as [_ _ Hcs [_ Hcap] Hb].
    split; [by apply same_waiting | by split_and!].
Qed.

(** ** Lemmas: the invariant *)

Lemma step_rel_ok s s' : enrich_ok s → step_rel s s' → bounds s' → enrich_ok s'.
Proof.
intros [Hnd Hw Hcs [Hc0 Hcap] Hb] [Ecap Hrel] (Hcs' & Hcap' & Hb').
assert (H : NoDup (waiting s') ∧ ∀ a, a ∈ waiting s' → 0 < a < 2 ^ 160 ∧ addr_Hex a ∈ me_inflight (es_e s')).
{ destruct Hrel as [(Hsub & Hi & _) | [(a & Ha & Hfresh & Hp & Hi & _) | (a & Hp & Hi & _)]].
  - split; [apply submseteq_Permutation in Hsub as [k Hk]; rewrite Hk in Hnd; by apply NoDup_app in Hnd as [? _] |]. intros b Hb1. rewrite Hi. apply Hw. by eapply elem_of_submseteq.
  - rewrite Hi. split.
    + rewrite Hp. constructor; [| done]. intros Hin. by destruct (Hw a Hin).
    + intros b Hin. rewrite Hp in Hin. apply elem_of_cons in Hin as [-> | Hin]; [split; [done | set_solver] | destruct (Hw b Hin); split; [done | set_solver]].
  - rewrite Hp in Hnd. apply NoDup_cons in Hnd as [Hna Hnd]. split; [done |]. intros b Hin. rewrite Hi.
    destruct (Hw b) as [Hr Hm]; [rewrite Hp; by right |]. destruct (Hw a) as [Hra _]; [rewrite Hp; left |].
    split; [done |]. apply elem_of_difference. split; [done |]. intros E%elem_of_singleton.
    apply addr_Hex_inj in E; [by subst | lia | lia]. }
destruct H. split; auto. by rewrite Ecap in *.
Qed.

Lemma enrichRun_ok cs s :
Forall case_ok cs → enrich_ok s → wp (enrichRun cs) (λ o s', (o = Val tt ∨ o = Panic "index out of range") ∧ enrich_ok s') s.
Proof.
revert s. induction cs as [| c cs IH]; intros s Hc Hok; simpl; [apply wp_ret; split; [by left | done] |].
apply Forall_cons in Hc as [Hc Hcs]. apply wp_bind. eapply wp_mono; [by apply enrichStep_rel |].
intros o s' (Ho & Hr & Hb). assert (Hok' : enrich_ok s') by by eapply step_rel_ok.
destruct Ho as [-> | ->]; [by apply IH | by split; [right |]].
Qed.

(** A stranded address stays stranded. *)
Lemma step_stranded a s s' : 0 < a < 2 ^ 160 → enrich_ok s → stranded a s → step_rel s s' → stranded a s'.
Proof.
intros Ha Hok (H1 & H2 & H3) [_ Hrel].
assert (Hne : ∀ b, b ∈ waiting s → addr_Hex b ≠ addr_Hex a).
{ intros b Hb E. destruct (en_waiting _ Hok b Hb). apply addr_Hex_inj in E; [by subst | lia | lia]. }
destruct Hrel as [(Hsub & Hi & Hc) | [(b & Hb & Hfresh & Hp & Hi & Hc) | (b & Hp & Hi & Hc)]]; split_and!.
- by rewrite Hi.
- intros Hin. apply H2. by eapply elem_of_submseteq.
- destruct Hc as [-> | (b & meta & Hb & ->)]; [done |]. rewrite lookup_insert_ne; [done | by apply Hne].
- rewrite Hi. set_solver.
- rewrite Hp. intros [-> | Hin]%elem_of_cons; done.
- by rewrite Hc.
- rewrite Hi. apply elem_of_difference. split; [done |]. intros E%elem_of_singleton. by apply (Hne b); [rewrite Hp; left |].
- intros Hin. apply H2. rewrite Hp. by right.
- by rewrite Hc.
Qed.

Lemma enrichRun_stranded a cs s :
Forall case_ok cs → 0 < a < 2 ^ 160 → enrich_ok s → stranded a s → wp (enrichRun cs) (λ _ s', stranded a s') s.
Proof.
revert s. induction cs as [| c cs IH]; intros s Hc Ha Hok Hs; simpl; [by apply wp_ret |].
apply Forall_cons in Hc as [Hc Hcs]. apply wp_bind. eapply wp_mono; [by apply enrichStep_rel |].
intros o s' (Ho & Hr & Hb). assert (Hok' : enrich_ok s') by by eapply step_rel_ok.
assert (Hs' : stranded a s') by by apply (step_stranded a s s'). destruct Ho as [-> | ->]; [by apply IH | done].
Qed.

(** All that is ever shown for a stranded address is its abbreviation. *)
Definition forgotten (a : Z) (s : EnrichSys) : Prop :=
me_cache (es_e s) !! addr_Hex a = None ∧ GetSymbol a (es_e s) = (es_e s, Val (shortHex a)).

Lemma stranded_forgotten a s : a ≠ 0 → stranded a s → forgotten a s.
Proof.
intros Ha (H1 & _ & H3). split; [done |]. unfold GetSymbol, runCaller, callerStep, mbind, GoM_bind, gets, id.
rewrite (proj2 (Z.eqb_neq _ _) Ha), H3. unfold mret, GoM_ret. by rewrite decide_True.
Qed.

Lemma run_forgotten a cs s :
Forall case_ok cs → 0 < a < 2 ^ 160 → enrich_ok s → stranded a s → wp (enrichRun cs) (λ _ s', forgotten a s') s.
Proof. intros. eapply wp_mono; [by apply enrichRun_stranded |]. intros o s' H'. apply stranded_forgotten; [lia | done]. Qed.

(** A call that nothing interleaves with, on an enricher that does not know the
    address. *)
Lemma GetSymbol_wp addr e (Q : outcome string → MetadataEnricher → Prop) :
addr ≠ 0 → me_cache e !! addr_Hex addr = None → addr_Hex addr ∉ me_inflight e → Z.of_nat (length (me_queue e)) < me_queueCap e →
Q (Val (shortHex addr)) (eset_queue (me_queue e ++ [addr])%list (eset_inflight ({[addr_Hex addr]} ∪ me_inflight e) e)) →
wp (GetSymbol addr) Q e.
Proof.
intros Ha Hc Hi Hq HQ. unfold GetSymbol, runCaller, callerStep, wp, mbind, GoM_bind, gets, id, modify, mret, GoM_ret.
rewrite (proj2 (Z.eqb_neq _ _) Ha), Hc. cbn. rewrite decide_False by done. cbn. rewrite (proj2 (Z.ltb_lt _ _)) by done. exact HQ.
Qed.
End enricher.

Definition newSys (queueCap : Z) (loads : bool) (t : MetaTable) : EnrichSys := mkSys (NewMetadataEnricher queueCap loads t) WkIdle [].
Lemma fresh_enricher_ok {AT : AddressText} queueCap loads t : enrich_ok (newSys queueCap loads t).
Proof.
  split; simpl.
  - by apply NoDup_nil.
  - intros a Ha. by apply elem_of_nil in Ha.
  - constructor.
  - case_match eqn:E; bool_prop; lia.
  - unfold batchSize. lia.
Qed.

(** ** Properties *)

(** C24: The enricher asks for an address at most once at a time.  In every
    interleaving of the single steps of any number of [GetSymbol] calls with those
    of the worker (each access to the cache, to the in-flight marks and to the
    queue is a step of its own), the addresses that wait — held by a call that has
    marked them, in the queue, or in the worker's batch and not yet unmarked —
    are pairwise different and marked in flight, the queue stays within its
    capacity and a batch within fifty.  Nothing panics but the worker on an answer
    with too few results. *)
Theorem enrich_asks_once {AT : AddressText} {ABI : Erc20Abi} (cs : list EnrichCase) (queueCap : Z) (loads : bool) (t : MetaTable) :
  Forall case_ok cs →
  wp (enrichRun cs) (λ o s', (o = Val tt ∨ o = Panic "index out of range") ∧ enrich_ok s') (newSys queueCap loads t).
Proof.
  intros Hc. apply enrichRun_ok; [done | apply fresh_enricher_ok].
Qed.

(** A token whose batch fails, or whose request is evicted from a full
    queue, is never resolved again.  Its mark in [inflight] outlives it, so in
    every continuation it is neither queued nor cached, and [GetSymbol] keeps
    answering with the abbreviated address without doing anything. *)
Theorem lost_request_is_forgotten {AT : AddressText} {ABI : Erc20Abi} (a : Z) (cs : list EnrichCase) (s : EnrichSys) :
  enrich_ok s → Forall case_ok cs → me_cache (es_e s) !! addr_Hex a = None →
  (∀ batch err saved, es_worker s = WkCalled batch → a ∈ batch →
     wp (enrichStep (EcWorker (Err err) saved);; enrichRun cs) (λ _ s', forgotten a s') s) ∧
  (∀ i b rest, es_callers s !! i = Some (CEvict b) → me_queue (es_e s) = a :: rest →
     wp (enrichStep (EcCaller i);; enrichRun cs) (λ _ s', forgotten a s') s).
Proof.
  intros Hok Hcs Hca. destruct (Hok) as [Hnd Hw Hcs0 Hcap Hb]. split.
  - intros batch err saved Hwk Ha. destruct s as [e w callers]. cbn [es_e es_worker es_callers] in *. subst w.
    assert (Hin : a ∈ waiting (mkSys e (WkCalled batch) callers)) by (unfold waiting, waitingOf; simpl; set_solver).
    destruct (Hw a Hin) as [Hr Hm]. unfold waiting, waitingOf in Hnd. simpl in Hnd.
    rewrite app_assoc in Hnd. apply NoDup_app in Hnd as (_ & Hout & _).
    assert (Hs1 : stranded a (mkSys e WkIdle callers)).
    { split_and!; [done | | done]. unfold waiting, waitingOf. simpl. rewrite app_nil_r. intros Hq. by eapply Hout. }
    apply wp_bind, wp_bind, wp_gets. unfold id. cbn [es_worker]. apply wp_bind, wp_zoom, wp_bind, wp_gets, wp_ret, wp_modify.
    apply run_forgotten; [done | lia | | exact Hs1]. eapply step_rel_ok; [exact Hok | | split_and!; [done | apply Hcap | simpl; lia]].
    apply sub_waiting; try done. unfold waiting, waitingOf. simpl. apply submseteq_app; [done |]. apply submseteq_app; [done | apply submseteq_nil_l].
  - intros i b rest Hi Hq. pose proof (callerStep_rel i (CEvict b) s Hi Hok) as Hstep.
    assert (Hin : a ∈ waiting s) by (unfold waiting, waitingOf; rewrite Hq; set_solver). destruct (Hw a Hin) as [Hr Hm].
    assert (Hgo : wp (enrichStep (EcCaller i)) (λ o s', o = Val tt ∧ stranded a s' ∧ enrich_ok s') s).
    { eapply (wp_mono _ (λ o s', (o = Val tt ∧ step_rel s s' ∧ bounds s') ∧ s' = fst (enrichStep (EcCaller i) s))); [by split |].
      intros o s' [(-> & Hrel & Hbd) ->]. split; [done |]. split; [| by eapply step_rel_ok].
      unfold enrichStep, mbind, GoM_bind, gets, id. rewrite Hi. unfold onEnricher, zoom, callerStep, mbind, GoM_bind, gets, id. rewrite Hq.
      split_and!; [exact Hm | | exact Hca]. simpl. pose proof (waiting_caller _ _ _ Hi) as Hp. rewrite Hp in Hnd.
      rewrite (queue_head _ _ _ a rest Hq) in Hnd. unfold waiting, waitingOf in *. simpl in *.
      rewrite NoDup_cons in Hnd. destruct Hnd as [Hb1 Hnd]. rewrite NoDup_cons in Hnd. destruct Hnd as [Ha1 _]. set_solver. }
    apply wp_bind. eapply wp_mono; [exact Hgo |]. intros o s' (-> & Hs & Hok'). by apply run_forgotten.
Qed.

(** *** The table token_metadata *)

Lemma ToLower_idem s : ToLower (ToLower s) = ToLower s.
Proof.
  induction s as [| c s IH]; simpl; [done |]. rewrite IH. f_equal.
  by destruct c as [[] [] [] [] [] [] [] []].
Qed.

Lemma LoadAllMetadata_lower t k meta : LoadAllMetadata t !! k = Some meta → ToLower k = k.
Proof.
  unfold LoadAllMetadata. intros H. apply elem_of_list_to_map_2 in H.
  apply list_elem_of_fmap in H as [[k' m'] [[= -> ->] _]]. apply ToLower_idem.
Qed.

(** The stored metadata does not survive a restart.  The table is keyed by
    addresses in lower case and restored under those keys, while the cache is
    read with the mixed-case text of the address: after saving a token and
    starting again, a token whose text has a capital letter is not found, its
    symbol is the abbreviated address and its decimals the default, and it is
    asked for again. *)
Theorem restored_metadata_not_found {AT : AddressText} {ABI : Erc20Abi} (a queueCap : Z) (meta : TokenMetadata) (t : MetaTable) :
  0 < a < 2 ^ 160 → ToLower (addr_Hex a) ≠ addr_Hex a →
  let e := NewMetadataEnricher queueCap true (SaveTokenMetadata meta (addr_Hex a) t) in
  wp (GetSymbol a) (λ o e', o = Val (shortHex a) ∧ a ∈ me_queue e') e ∧ GetDecimals a e = 18 ∧
  SaveTokenMetadata meta (addr_Hex a) t !! ToLower (addr_Hex a) = Some meta.
Proof.
  intros Ha Hlow e. assert (Hm : me_cache e !! addr_Hex a = None).
  { destruct (me_cache e !! addr_Hex a) as [m |] eqn:E; [| done]. by apply LoadAllMetadata_lower in E. }
  split_and!.
  - apply GetSymbol_wp; [lia | done | simpl; set_solver | simpl; case_match eqn:E; bool_prop; lia |].
    split; [done |]. simpl. set_solver.
  - unfold GetDecimals. rewrite Hm. by destruct (Z.eqb_spec a 0).
  - apply lookup_insert_eq.
Qed.

(** ** Witnesses *)

Definition hexDigitUpper (d : Z) : ascii := ascii_of_nat (Z.to_nat (if d <? 10 then 48 + d else 55 + d)).
Fixpoint hexUpper (n : nat) (z : Z) : string :=
  match n with
  | O => EmptyString
  | S n' => String (hexDigitUpper (z / 16 ^ Z.of_nat n' mod 16)) (hexUpper n' z)
  end.

Lemma hexDigitUpper_inj c d : 0 ≤ c < 16 → 0 ≤ d < 16 → hexDigitUpper c = hexDigitUpper d → c = d.
Proof.
  intros Hc Hd H. apply (f_equal nat_of_ascii) in H. unfold hexDigitUpper in H.
  destruct (Z.ltb_spec c 10), (Z.ltb_spec d 10); rewrite !nat_ascii_embedding in H by lia; lia.
Qed.

Lemma hexUpper_inj n a b : hexUpper n a = hexUpper n b → a mod 16 ^ Z.of_nat n = b mod 16 ^ Z.of_nat n.
Proof.
  induction n as [| n IH]; intros H; [by rewrite !Z.mod_1_r |]. simpl in H. injection H as Hd Hs.
  apply hexDigitUpper_inj in Hd; [| apply Z.mod_pos_bound; lia..]. specialize (IH Hs).
  assert (0 < 16 ^ Z.of_nat n) by (apply Z.pow_pos_nonneg; lia).
  rewrite Nat2Z.inj_succ, Z.pow_succ_r, Z.mul_comm by lia.
  rewrite !Z.rem_mul_r by lia. by rewrite IH, Hd.
Qed.

Lemma hexUpper_length n z : String.length (hexUpper n z) = n.
Proof. induction n; simpl; congruence. Qed.

Lemma substring_0x s : substring 2 (String.length ("0x" ++ s) - 2) ("0x" ++ s) = s.
Proof.
  change (String.length ("0x" ++ s)) with (S (S (String.length s))).
  replace (S (S (String.length s)) - 2)%nat with (String.length s) by lia.
  change (substring 0 (String.length s) s = s). induction s as [| c s IH]; simpl; [done | by rewrite IH].
Qed.

#[export] Program Instance upperCaseText : AddressText := {|
  addr_Hex a := "0x" ++ hexUpper 40 a;
  HexToAddress s := default 0 (hexes_val 0 (substring 2 (String.length s - 2) s)) mod 2 ^ 160
|}.
Next Obligation.
  intros s v H. cbv beta. by rewrite substring_0x, H.
Qed.
Next Obligation.
  intros a b Ha Hb H. cbv beta in H. apply (inj (String.append "0x")), hexUpper_inj in H. change (16 ^ Z.of_nat 40) with (2 ^ 160) in H.
  by rewrite !Z.mod_small in H.
Qed.
Next Obligation. intros a. unfold append. cbn [String.length]. by rewrite hexUpper_length. Qed.

(** The ABI encoding of a string: offset, length, bytes. *)
#[export] Instance abiDecoder : Erc20Abi := {|
  unpackSymbol data :=
    let n := Z.to_nat (SetBytes (take 32 (drop 32 data))) in
    if (64 + n <=? length data)%nat then
      Some (string_of_list_ascii (ascii_of_nat ∘ Z.to_nat <$> take n (drop 64 data)))
    else None;
  unpackDecimals data := Some (SetBytes (take 32 data))
|}.

Definition sampleToken : Z := 0x1c7d4b196cb0c7b01d743fbc6116a902379c7238.
(** Two calls for the same token, then the worker collects it and calls. *)
Definition quietWorker : EnrichCase := EcWorker (Err (Errorf "timeout")) true.
Definition sampleRun : list EnrichCase :=
  [EcCall sampleToken; EcCall sampleToken; EcCaller 0; EcCaller 1; EcCaller 0; EcCaller 1; EcCaller 0] ++ replicate 3 quietWorker.

Lemma enrich_asks_once_witness :
  let s := fst (enrichRun sampleRun (newSys 0 true ∅)) in
  es_worker s = WkCalled [sampleToken] ∧ es_callers s = [] ∧ enrich_ok s.
Proof.
  intros s. split; [by vm_compute |]. split; [by vm_compute |].
  destruct (enrich_asks_once sampleRun 0 true ∅) as [_ H]; [by repeat constructor | exact H].
Defined.

(** A call that looked into the cache before the answer came and marks after the
    worker has unmarked: a token that is cached waits in the queue again. *)
Definition lateCaller : list EnrichCase :=
  let answer := [mkMultiResult false []; mkMultiResult true (replicate 31 0 ++ [6])%list] in
  [EcCall sampleToken; EcCaller 0; EcCaller 0; EcCaller 0; EcCall sampleToken; EcCaller 0] ++
  replicate 7 (EcWorker (Ok answer) true) ++ [EcCaller 0; EcCaller 0].
Lemma cached_token_waits_again :
  let s := fst (enrichRun lateCaller (newSys 0 true ∅)) in
  me_cache (es_e s) !! addr_Hex sampleToken = Some (mkTokenMetadata "UNKNOWN" 6 "") ∧ waiting s = [sampleToken].
Proof. by vm_compute. Qed.

Lemma lost_request_is_forgotten_witness :
  let s := fst (enrichRun sampleRun (newSys 0 true ∅)) in
  wp (enrichStep quietWorker;; enrichRun sampleRun) (λ _ s', forgotten sampleToken s') s.
Proof.
  intros s. assert (Hok : enrich_ok s) by (apply (enrichRun_ok sampleRun (newSys 0 true ∅)); [by repeat constructor | apply fresh_enricher_ok]).
  refine (proj1 (lost_request_is_forgotten sampleToken sampleRun s Hok _ _) [sampleToken] _ _ _ _).
  - by repeat constructor.
  - by vm_compute.
  - by vm_compute.
  - by left.
Defined.

Lemma restored_metadata_not_found_witness :
  let e := NewMetadataEnricher 0 true (SaveTokenMetadata (mkTokenMetadata "USDC" 6 "") (addr_Hex sampleToken) ∅) in
  wp (GetSymbol sampleToken) (λ o e', o = Val "0x1C7D4B19..." ∧ sampleToken ∈ me_queue e') e ∧ GetDecimals sampleToken e = 18.
Proof.
  intros e. destruct (restored_metadata_not_found sampleToken 0 (mkTokenMetadata "USDC" 6 "") ∅) as (H & H18 & _);
    [by vm_compute | by vm_compute |].
  assert (E : shortHex sampleToken = "0x1C7D4B19...") by by vm_compute. rewrite E in H. by split.
Defined.
