(* ===== verification/Emulator.v ===== *)
(** * The transaction emulator (internal/emulator)

    The nonce manager (nonce_manager.go) and the loop that deploys a contract and
    sends transfers (emulator_core.go, emulator_main.go, emulator_transfer.go,
    emulator_config.go, config.go).  The node's answers, through ethclient, are
    arguments of each call; what the node accepted is logged in the state. *)

From S2P Require Import Prelude GoInt Types.
From Stdlib Require Import ZArith Lia Sorted String.
From stdpp Require Import base strings list sorting.
Open Scope string_scope.
Open Scope Z_scope.

(** ** Configuration *)

(** config.go, [Config] and [LoadConfig]: the environment as a function, the
    duration parser of the standard library as an argument. *)
Record EmuConfig := mkEmuConfig {
  ec_Enabled : bool;
  ec_PrivateKey : string;
  ec_TxAmount : string;
  ec_RPCURL : string;
  ec_BlockInterval : Z;
  ec_TxInterval : Z
}.

Definition second : Z := 1000000000.
Definition anvilKey : string := "0xac0974bec39a17e36ba4a6b4d238ff944bacb478cbed5efcae784d7bf4f2ff80".

Definition LoadConfig (getenv : string → string) (parseDuration : string → option Z) : EmuConfig :=
  let enabled := String.eqb (ToLower (getenv "EMULATOR_ENABLED")) "true" in
  let orElse s d := if String.eqb s "" then d else s in
  let blockIntervalStr := orElse (getenv "EMULATOR_BLOCK_INTERVAL") "3s" in
  let blockInterval := default (3 * second) (parseDuration blockIntervalStr) in
  let txIntervalStr := orElse (getenv "EMULATOR_TX_INTERVAL") "5s" in
  let txInterval := default (5 * second) (parseDuration txIntervalStr) in
  let privKey := getenv "EMULATOR_PRIVATE_KEY" in
  let privKey := if String.eqb privKey "" && enabled then anvilKey else privKey in
  mkEmuConfig enabled privKey (getenv "EMULATOR_TX_AMOUNT") (getenv "EMULATOR_RPC_URL") blockInterval txInterval.

Definition IsValid (c : EmuConfig) : bool :=
  negb (String.eqb (ec_RPCURL c) "") && negb (String.eqb (ec_PrivateKey c) "").

(** ** State *)

(** A transaction the node accepted; [etx_Call] is the target and the amount of
    the ERC-20 transfer in its data, [None] for a contract creation. *)
Record EmuTx := mkEmuTx {
  etx_Nonce : Z;
  etx_Gas : Z;
  etx_GasPrice : Z;
  etx_Call : option (Z * Z)
}.

(** emulator_core.go, [Emulator] with its [NonceManager] ([em_pendingNonce]) and
    [Metrics]; [em_accepted] is what the node took, newest last. *)
Record Emulator := mkEmulator {
  em_pendingNonce : Z;
  em_contract : Z;
  em_Sent : Z;
  em_Confirmed : Z;
  em_Failed : Z;
  em_SelfHealed : Z;
  em_maxGasPrice : Z;
  em_gasSafetyMargin : Z;
  em_accepted : list EmuTx
}.

Definition mset_nonce (n : Z) (e : Emulator) : Emulator :=
  mkEmulator n (em_contract e) (em_Sent e) (em_Confirmed e) (em_Failed e) (em_SelfHealed e) (em_maxGasPrice e) (em_gasSafetyMargin e) (em_accepted e).
Definition mset_contract (c : Z) (e : Emulator) : Emulator :=
  mkEmulator (em_pendingNonce e) c (em_Sent e) (em_Confirmed e) (em_Failed e) (em_SelfHealed e) (em_maxGasPrice e) (em_gasSafetyMargin e) (em_accepted e).
Definition maddSent (e : Emulator) : Emulator :=
  mkEmulator (em_pendingNonce e) (em_contract e) (add_u64 (em_Sent e) 1) (em_Confirmed e) (em_Failed e) (em_SelfHealed e) (em_maxGasPrice e) (em_gasSafetyMargin e) (em_accepted e).
Definition maddConfirmed (e : Emulator) : Emulator :=
  mkEmulator (em_pendingNonce e) (em_contract e) (em_Sent e) (add_u64 (em_Confirmed e) 1) (em_Failed e) (em_SelfHealed e) (em_maxGasPrice e) (em_gasSafetyMargin e) (em_accepted e).
Definition maddFailed (e : Emulator) : Emulator :=
  mkEmulator (em_pendingNonce e) (em_contract e) (em_Sent e) (em_Confirmed e) (add_u64 (em_Failed e) 1) (em_SelfHealed e) (em_maxGasPrice e) (em_gasSafetyMargin e) (em_accepted e).
Definition maddSelfHealed (e : Emulator) : Emulator :=
  mkEmulator (em_pendingNonce e) (em_contract e) (em_Sent e) (em_Confirmed e) (em_Failed e) (add_u64 (em_SelfHealed e) 1) (em_maxGasPrice e) (em_gasSafetyMargin e) (em_accepted e).
Definition maccept (tx : EmuTx) (e : Emulator) : Emulator :=
  mkEmulator (em_pendingNonce e) (em_contract e) (em_Sent e) (em_Confirmed e) (em_Failed e) (em_SelfHealed e) (em_maxGasPrice e) (em_gasSafetyMargin e) (em_accepted e ++ [tx])%list.
Definition SetSecurityConfig (maxGasPrice margin : Z) (e : Emulator) : Emulator :=
  mkEmulator (em_pendingNonce e) (em_contract e) (em_Sent e) (em_Confirmed e) (em_Failed e) (em_SelfHealed e) maxGasPrice margin (em_accepted e).

(** emulator_core.go, [NewEmulator] after dialling; nonce_manager.go,
    [NewNonceManager], whose failure is the constructor's. *)
Definition NewEmulator (pendingNonceAt : result GoErr Z) : result GoErr Emulator :=
  match pendingNonceAt with
  | Ok nonce => Ok (mkEmulator nonce 0 0 0 0 0 500 20 [])
  | Err e => Err (WrapErr "failed to get initial nonce: " e)
  end.

(** ** nonce_manager.go *)

(** [GetNextNonce]; [chain] is the answer of [PendingNonceAt], asked for at
    multiples of 50. It never fails. *)
Definition GetNextNonce (chain : result GoErr Z) : GoM Emulator Z :=
  e ← gets id;
  (if em_pendingNonce e mod 50 =? 0 then
     match chain with
     | Ok current => if em_pendingNonce e <? current then modify (mset_nonce current) else mret tt
     | Err _ => mret tt
     end
   else mret tt);;
  nonce ← gets em_pendingNonce;
  modify (mset_nonce (add_u64 nonce 1));;
  mret nonce.

(** [RollbackNonce]. *)
Definition RollbackNonce (failedNonce : Z) (e : Emulator) : Emulator :=
  if failedNonce <? em_pendingNonce e then mset_nonce failedNonce e else e.

(** [ResyncNonce]. *)
Definition ResyncNonce (chain : result GoErr Z) : GoM Emulator (option GoErr) :=
  match chain with
  | Ok nonce => modify (mset_nonce nonce);; mret None
  | Err err => mret (Some err)
  end.

(** ** Sending *)

(** emulator_core.go, [ensureBalance]: the node's balance, whether
    anvil_setBalance worked; the flag says that it was called. *)
Definition ensureBalance (balance : result GoErr Z) (topup : option GoErr) : option GoErr * bool :=
  match balance with
  | Err e => (Some e, false)
  | Ok b =>
    if b <? 50 * 10 ^ 18 then
      (match topup with Some e => Some (WrapErr "auto_topup_failed: " e) | None => None end, true)
    else (None, false)
  end.

(** The node's and the random source's answers to one sending. *)
Record SendEnv := mkSendEnv {
  se_pending : result GoErr Z;
  se_gasPrice : result GoErr Z;
  se_random : option Z;
  se_target : option Z;
  se_estimate : result GoErr Z;
  se_signs : bool;
  se_send : option GoErr;
  se_resync : result GoErr Z
}.

(** The gas price, capped at [maxGasPrice] gwei. *)
Definition capGasPrice (maxGasPrice gasPrice : Z) : Z :=
  let maxPrice := maxGasPrice * 10 ^ 9 in if maxPrice <? gasPrice then maxPrice else gasPrice.

(** The gas limit: the estimate plus its margin, on [uint64]. *)
Definition gasLimit (margin fallback : Z) (estimate : result GoErr Z) : Z :=
  match estimate with
  | Err _ => fallback
  | Ok g => add_u64 g (u64 (g * u64 margin) / 100)
  end.

Definition nonceMismatch (err : GoErr) : bool :=
  Contains (Error err) "nonce too low" || Contains (Error err) "already known".

(** emulator_transfer.go, [sendTransfer] (the balance check before it only
    logs); the receipt is waited for in a goroutine, [confirmTransfer]. *)
Definition sendTransfer (env : SendEnv) : GoM Emulator unit :=
  nonce ← GetNextNonce (se_pending env);
  match se_gasPrice env with
  | Err _ => mret tt
  | Ok gasPrice =>
    e ← gets id;
    let gasPrice := capGasPrice (em_maxGasPrice e) gasPrice in
    match se_random env with
    | None => mret tt
    | Some randomVal =>
      let transferVal := randomVal + 1 in
      match se_target env with
      | None => mret tt
      | Some targetAddr =>
        let tx := mkEmuTx nonce (gasLimit (em_gasSafetyMargin e) 100000 (se_estimate env)) gasPrice (Some (targetAddr, transferVal)) in
        if negb (se_signs env) then modify maddFailed
        else match se_send env with
             | Some err =>
               modify maddFailed;;
               if nonceMismatch err then modify maddSelfHealed;; ResyncNonce (se_resync env);; mret tt
               else modify (RollbackNonce nonce)
             | None => modify (maccept tx);; modify maddSent
             end
      end
    end
  end.

Definition confirmTransfer (receipt : option GoErr) (e : Emulator) : Emulator :=
  match receipt with None => maddConfirmed e | Some _ => e end.

(** emulator_transfer.go, [waitForReceipt]: one element per tick, the answer and
    whether the deadline has passed; the context ends it otherwise. *)
Fixpoint waitForReceipt {R : Type} (ctxErr : GoErr) (ticks : list (result GoErr R * bool)) : result GoErr R :=
  match ticks with
  | [] => Err ctxErr
  | (Ok receipt, _) :: _ => Ok receipt
  | (Err _, true) :: _ => Err (Errorf "timeout")
  | (Err _, false) :: rest => waitForReceipt ctxErr rest
  end.

(** emulator_main.go, [deployContract]: [receipt] is what [waitForReceipt]
    returned, the address of the contract. *)
Definition deployContract (env : SendEnv) (signErr : GoErr) (receipt : result GoErr Z) : GoM Emulator (result GoErr Z) :=
  nonce ← GetNextNonce (se_pending env);
  match se_gasPrice env with
  | Err e => mret (Err e)
  | Ok gasPrice =>
    e ← gets id;
    let gasPrice := capGasPrice (em_maxGasPrice e) gasPrice in
    let tx := mkEmuTx nonce (gasLimit (em_gasSafetyMargin e) 1500000 (se_estimate env)) gasPrice None in
    if negb (se_signs env) then mret (Err signErr)
    else match se_send env with
         | Some err => ResyncNonce (se_resync env);; mret (Err err)
         | None => modify (maccept tx);; mret receipt
         end
  end.

(** emulator_main.go, [Start]: deploy, then one transfer per tick until the
    context ends. *)
Fixpoint transfers (envs : list SendEnv) : GoM Emulator unit :=
  match envs with [] => mret tt | env :: rest => sendTransfer env;; transfers rest end.

Definition Start (deploy : SendEnv) (signErr : GoErr) (receipt : result GoErr Z) (ctxErr : GoErr) (envs : list SendEnv) : GoM Emulator GoErr :=
  r ← deployContract deploy signErr receipt;
  match r with
  | Err e => mret e
  | Ok contract => modify (mset_contract contract);; transfers envs;; mret ctxErr
  end.

(** ** Lemmas *)

(** The nonces the node accepted. *)
Definition acceptedNonces (e : Emulator) : list Z := etx_Nonce <$> em_accepted e.

(** From [e] to [e'] the node accepted nonces that increase strictly, from the
    next nonce of [e] to below that of [e']. *)
Definition sends (e e' : Emulator) : Prop :=
  em_pendingNonce e ≤ em_pendingNonce e' ∧
  ∃ l, acceptedNonces e' = (acceptedNonces e ++ l)%list ∧ StronglySorted Z.lt l ∧
       Forall (λ n, em_pendingNonce e ≤ n < em_pendingNonce e') l.

#[export] Instance sends_preorder : PreOrder sends.
Proof.
  split.
  - intros e. split; [lia |]. exists []. rewrite app_nil_r. repeat constructor.
  - intros e1 e2 e3 [H1 (l1 & E1 & S1 & F1)] [H2 (l2 & E2 & S2 & F2)]. split; [lia |]. exists (l1 ++ l2)%list.
    rewrite Forall_forall in F1, F2. split_and!.
    + by rewrite E2, E1, app_assoc.
    + apply (StronglySorted_app_lt _ _ (em_pendingNonce e2)); [done.. | |]; apply Forall_forall; [intros n Hn%F1 | intros n Hn%F2]; lia.
    + apply Forall_app. rewrite !Forall_forall. split; [intros n Hn%F1; lia | intros n Hn%F2; lia].
Qed.

(** A sending during which the node's nonces stay below [b] and no answer
    triggers a resynchronisation. *)
Definition env_steady (b : Z) (env : SendEnv) : Prop :=
  (∀ n, se_pending env = Ok n → n ≤ b) ∧ (∀ err, se_send env = Some err → nonceMismatch err = false).

Lemma GetNextNonce_wp chain e (Q : outcome Z → Emulator → Prop) :
  (∀ nonce, em_pendingNonce e ≤ nonce → (nonce = em_pendingNonce e ∨ chain = Ok nonce) →
     Q (Val nonce) (mset_nonce (add_u64 nonce 1) e)) →
  wp (GetNextNonce chain) Q e.
Proof.
  intros H. apply wp_bind, wp_gets. unfold id. apply wp_bind.
  case_match; [destruct chain as [c |]; [destruct (Z.ltb_spec (em_pendingNonce e) c) |] |].
  1: apply wp_modify, wp_bind, wp_gets, wp_bind, wp_modify, wp_ret; apply (H c); [simpl; lia | by right].
  all: apply wp_ret, wp_bind, wp_gets, wp_bind, wp_modify, wp_ret; apply H; [done | by left].
Qed.

(** A steady sending takes one nonce, and it is accepted, given back or lost. *)
Lemma sendTransfer_sends b env e :
  0 ≤ em_pendingNonce e ≤ b → b < max_u64 → env_steady b env →
  wp (sendTransfer env) (λ o e', o = Val tt ∧ sends e e' ∧ 0 ≤ em_pendingNonce e' ≤ b + 1) e.
Proof.
  intros Hp Hb [Hch Herr]. apply wp_bind, GetNextNonce_wp. intros nonce Hge Hsrc.
  assert (Hn : nonce ≤ b) by (destruct Hsrc as [-> |]; [lia | by apply Hch]).
  rewrite add_u64_id by lia64.
  assert (Hlost : ∀ e', em_pendingNonce e ≤ em_pendingNonce e' ≤ nonce + 1 → acceptedNonces e' = acceptedNonces e →
                        Val tt = Val tt ∧ sends e e' ∧ 0 ≤ em_pendingNonce e' ≤ b + 1).
  { intros e' H1 H2. split_and!; [done | | lia | lia]. split; [lia |]. exists []. rewrite app_nil_r. repeat constructor. done. }
  destruct (se_gasPrice env); [| by apply wp_ret, Hlost; simpl; [lia |]]. apply wp_bind, wp_gets. unfold id.
  destruct (se_random env); [| by apply wp_ret, Hlost; simpl; [lia |]].
  destruct (se_target env); [| by apply wp_ret, Hlost; simpl; [lia |]].
  destruct (se_signs env); simpl; [| by apply wp_modify, Hlost; simpl; [lia |]].
  destruct (se_send env) as [err |] eqn:E.
  - apply wp_bind, wp_modify. rewrite (Herr err) by done. apply wp_modify. unfold RollbackNonce. simpl.
    rewrite (proj2 (Z.ltb_lt _ _)) by lia. apply Hlost; simpl; [lia | done].
  - apply wp_bind, wp_modify, wp_modify. split_and!; [done | | simpl; lia..]. split; simpl; [lia |]. exists [nonce].
    split_and!; [unfold acceptedNonces; simpl; by rewrite fmap_app | by repeat constructor |]. constructor; [lia | done].
Qed.

Lemma transfers_sends b envs e :
  0 ≤ em_pendingNonce e ≤ b → b + Z.of_nat (length envs) ≤ max_u64 → Forall (env_steady b) envs →
  wp (transfers envs) (λ o e', o = Val tt ∧ sends e e') e.
Proof.
  revert b e. induction envs as [| env envs IH]; intros b e Hp Hb Hs; simpl; [by apply wp_ret; split |].
  apply Forall_cons in Hs as [Henv Hs]. simpl in Hb. apply wp_bind.
  eapply wp_mono; [apply (sendTransfer_sends b); [done | lia | done] |]. intros o e1 (-> & Hs1 & Hp1).
  eapply wp_mono; [apply (IH (b + 1)); [done | lia |] |].
  - eapply Forall_impl; [exact Hs |]. intros env' [H1 H2]. split; [| done]. intros n Hn%H1. lia.
  - intros o e2 [-> Hs2]. split; [done |]. by transitivity e1.
Qed.

(** A sending that gets as far as the node; what it leaves as the next nonce [p],
    and the nonces a run has accepted: a failed sending gives its nonce back, one
    that returns before it loses it. *)
Definition reaches (env : SendEnv) : bool :=
  match se_gasPrice env, se_random env, se_target env with Ok _, Some _, Some _ => se_signs env | _, _, _ => false end.
Definition nextNonce (env : SendEnv) (p : Z) : Z :=
  if reaches env then match se_send env with None => p + 1 | Some _ => p end else p + 1.
Fixpoint usedNonces (envs : list SendEnv) (p : Z) : list Z :=
  match envs with
  | [] => []
  | env :: rest =>
    (if reaches env then match se_send env with None => [p] | Some _ => [] end else []) ++ usedNonces rest (nextNonce env p)
  end.
(** The node never knows a nonce the emulator has not used. *)
Fixpoint node_behind (envs : list SendEnv) (p : Z) : Prop :=
  match envs with
  | [] => True
  | env :: rest => (∀ n, se_pending env = Ok n → n ≤ p) ∧ node_behind rest (nextNonce env p)
  end.

Lemma sendTransfer_used b env e :
  0 ≤ em_pendingNonce e ≤ b → b < max_u64 → env_steady b env → (∀ n, se_pending env = Ok n → n ≤ em_pendingNonce e) →
  wp (sendTransfer env) (λ o e', em_pendingNonce e' = nextNonce env (em_pendingNonce e) ∧
     acceptedNonces e' = (acceptedNonces e ++ usedNonces [env] (em_pendingNonce e))%list) e.
Proof.
  intros Hp Hb [_ Herr] Hn. apply wp_bind, GetNextNonce_wp. intros nonce Hge Hsrc.
  assert (nonce = em_pendingNonce e) as -> by (destruct Hsrc as [-> | Hsrc]; [done | specialize (Hn _ Hsrc); lia]).
  rewrite add_u64_id by lia64. unfold nextNonce, usedNonces, reaches.
  destruct (se_gasPrice env); [| apply wp_ret; by rewrite app_nil_r]. apply wp_bind, wp_gets. unfold id.
  destruct (se_random env); [| apply wp_ret; by rewrite app_nil_r].
  destruct (se_target env); [| apply wp_ret; by rewrite app_nil_r].
  destruct (se_signs env); simpl; [| apply wp_modify; by rewrite app_nil_r].
  destruct (se_send env) as [err |] eqn:E.
  - apply wp_bind, wp_modify. rewrite (Herr err) by done. apply wp_modify. unfold RollbackNonce. simpl.
    rewrite (proj2 (Z.ltb_lt _ _)) by lia. by rewrite app_nil_r.
  - apply wp_bind, wp_modify, wp_modify. split; [done |]. unfold acceptedNonces. simpl. by rewrite fmap_app.
Qed.

Lemma transfers_used b envs e :
  0 ≤ em_pendingNonce e ≤ b → b + Z.of_nat (length envs) ≤ max_u64 → Forall (env_steady b) envs →
  node_behind envs (em_pendingNonce e) →
  wp (transfers envs) (λ _ e', acceptedNonces e' = (acceptedNonces e ++ usedNonces envs (em_pendingNonce e))%list) e.
Proof.
  revert b e. induction envs as [| env envs IH]; intros b e Hp Hb Hs Hn; simpl; [apply wp_ret; by rewrite app_nil_r |].
  apply Forall_cons in Hs as [Henv Hs]. simpl in Hb. destruct Hn as [Hn Hn']. apply wp_bind.
  eapply wp_mono; [apply wp_and; [apply (sendTransfer_sends b) | apply (sendTransfer_used b)]; done || lia |].
  intros o e1 [(-> & _ & Hp1) [E1 E2]]. rewrite <- E1 in *.
  eapply wp_mono; [apply (IH (b + 1)); [done | lia | | done] |].
  - eapply Forall_impl; [exact Hs |]. intros env' [H1 H2]. split; [| done]. intros n Hn1%H1. lia.
  - intros o e2 ->. rewrite E2. simpl. by rewrite app_nil_r, <- app_assoc.
Qed.

Lemma usedNonces_consecutive envs p :
  Forall (λ env, reaches env = true) envs → usedNonces envs p = seqZ p (Z.of_nat (length (usedNonces envs p))).
Proof.
  intros H. revert p. induction H as [| env envs He _ IH]; intros p; [done |]. simpl. unfold nextNonce. rewrite He.
  destruct (se_send env); simpl; [apply IH |]. rewrite seqZ_cons by lia. f_equal. rewrite (IH (p + 1)) at 1. f_equal; lia.
Qed.

(** ** Properties *)

(** C25: Nonces are used in order and at most once.  As long as no answer of the
    node reports a nonce mismatch (its resynchronisation may move the nonce
    anywhere) and the nonces stay within [uint64], the transactions the node
    accepts during a run carry strictly increasing nonces, none below the one the
    run started with.  When moreover the node never knows a nonce the emulator has
    not used, the accepted nonces are exactly [usedNonces]: a sending the node
    refuses gives its nonce back to the next one, one that returns before it
    reaches the node (no gas price, random value or signature) loses it; so if
    all reach the node the accepted nonces are consecutive. *)
Theorem transfers_nonces_increase (b : Z) (envs : list SendEnv) (e : Emulator) :
  0 ≤ em_pendingNonce e ≤ b → b + Z.of_nat (length envs) ≤ max_u64 → Forall (env_steady b) envs →
  wp (transfers envs) (λ o e', o = Val tt ∧ ∃ l, acceptedNonces e' = (acceptedNonces e ++ l)%list ∧
     StronglySorted Z.lt l ∧ NoDup l ∧ Forall (λ n, em_pendingNonce e ≤ n) l ∧
     (node_behind envs (em_pendingNonce e) → l = usedNonces envs (em_pendingNonce e) ∧
        (Forall (λ env, reaches env = true) envs → l = seqZ (em_pendingNonce e) (Z.of_nat (length l))))) e.
Proof.
  intros Hp Hb Hs.
  assert (Hused : wp (transfers envs) (λ _ e', node_behind envs (em_pendingNonce e) →
    acceptedNonces e' = (acceptedNonces e ++ usedNonces envs (em_pendingNonce e))%list) e).
  { unfold wp. intros Hn. by apply (transfers_used b envs e). }
  eapply wp_mono; [apply wp_and; [by apply (transfers_sends b) | exact Hused] |]. intros o e' [(-> & _ & l & E & S & F) Hu].
  split; [done |]. exists l. split_and!; [done | done | | eapply Forall_impl; [exact F | intros n; simpl; lia] |].
  - clear -S. induction S as [| x l S IH F]; constructor; [| done]. intros Hin. rewrite Forall_forall in F. specialize (F _ Hin). lia.
  - intros Hn. assert (l = usedNonces envs (em_pendingNonce e)) as -> by (apply (app_inv_head (acceptedNonces e)); rewrite <- E; by apply Hu).
    split; [done | apply usedNonces_consecutive].
Qed.

(** An error before the sending loses the nonce.  When the gas price, the
    random values or the signature fail, the nonce already taken is not given
    back: every transaction accepted later has a higher one, so the account
    keeps a gap and an Ethereum node cannot execute any of them. *)
Theorem early_return_leaves_gap (b : Z) (env : SendEnv) (envs : list SendEnv) (e : Emulator) :
  0 ≤ em_pendingNonce e < b → b + Z.of_nat (length envs) ≤ max_u64 → Forall (env_steady b) envs →
  em_pendingNonce e mod 50 ≠ 0 →
  ((∃ err, se_gasPrice env = Err err) ∨ se_random env = None ∨ se_target env = None ∨ se_signs env = false) →
  wp (sendTransfer env;; transfers envs) (λ o e', o = Val tt ∧ ∃ l, acceptedNonces e' = (acceptedNonces e ++ l)%list ∧
     Forall (λ n, em_pendingNonce e < n) l) e.
Proof.
  intros Hp Hb Hs Hm Hearly. apply wp_bind.
  assert (H : wp (sendTransfer env) (λ o e', o = Val tt ∧ acceptedNonces e' = acceptedNonces e ∧ em_pendingNonce e' = em_pendingNonce e + 1) e).
  { unfold sendTransfer. apply wp_bind, wp_bind, wp_gets. unfold id. rewrite (proj2 (Z.eqb_neq _ _) Hm).
    apply wp_bind, wp_ret, wp_bind, wp_gets, wp_bind, wp_modify, wp_ret.
    rewrite add_u64_id by lia64.
    destruct (se_gasPrice env); [| by apply wp_ret]. apply wp_bind, wp_gets. unfold id.
    destruct (se_random env); [| by apply wp_ret]. destruct (se_target env); [| by apply wp_ret].
    destruct (se_signs env); [| by apply wp_modify]. exfalso. naive_solver. }
  eapply wp_mono; [exact H |]. intros o e1 (-> & Ea & Ep).
  eapply wp_mono; [apply (transfers_sends b); [lia | done | done] |]. intros o e' (-> & _ & l & E & _ & F).
  split; [done |]. exists l. rewrite E, Ea. split; [done |]. eapply Forall_impl; [exact F |]. intros n. simpl. lia.
Qed.

(** What bounds a transaction: the gas price is capped, the gas limit is at
    least the estimate while it fits. *)
Lemma capGasPrice_bound m p : capGasPrice m p = Z.min p (m * 10 ^ 9).
Proof. unfold capGasPrice. destruct (Z.ltb_spec (m * 10 ^ 9) p); lia. Qed.

Lemma gasLimit_margin margin fallback g :
  0 ≤ margin ≤ 100 → 0 ≤ g ≤ 2 ^ 50 → gasLimit margin fallback (Ok g) = g + g * margin / 100.
Proof.
  intros Hm Hg. unfold gasLimit. rewrite (u64_id margin) by lia64. rewrite u64_id by (split; [nia | unfold max_u64; nia]).
  assert (0 ≤ g * margin / 100 ≤ g).
  { split; [apply Z.div_pos; nia | apply Z.div_le_upper_bound; nia]. }
  apply add_u64_id; unfold max_u64; lia.
Qed.

Lemma waitForReceipt_ok {R} ctxErr (ticks : list (result GoErr R * bool)) r :
  waitForReceipt ctxErr ticks = Ok r → ∃ late, (Ok r, late) ∈ ticks.
Proof.
  induction ticks as [| [[r' | err] late] ticks IH]; simpl; [done | |].
  - intros [= ->]. exists late. by left.
  - destruct late; [done |]. intros [late H]%IH. exists late. by right.
Qed.

(** A failed deployment is not retried: the loop of transfers never starts. *)
Lemma Start_needs_contract deploy signErr err receipt ctxErr envs e :
  se_gasPrice deploy = Err err →
  wp (Start deploy signErr receipt ctxErr envs) (λ o e', o = Val err ∧ acceptedNonces e' = acceptedNonces e) e.
Proof.
  intros H. unfold Start, deployContract. apply wp_bind, wp_bind, GetNextNonce_wp. intros. rewrite H. by apply wp_ret, wp_ret.
Qed.

(** ** Witnesses *)

Definition sampleEnv : SendEnv :=
  mkSendEnv (Ok 7) (Ok (30 * 10 ^ 9)) (Some 41) (Some 0xabc) (Ok 21000) true None (Ok 7).
Definition failingEnv : SendEnv :=
  mkSendEnv (Ok 7) (Ok (30 * 10 ^ 9)) (Some 41) (Some 0xabc) (Ok 21000) true (Some (Errorf "connection refused")) (Ok 7).
Definition noGasPrice : SendEnv :=
  mkSendEnv (Ok 7) (Err (Errorf "timeout")) (Some 41) (Some 0xabc) (Ok 21000) true None (Ok 7).
Definition sampleEmulator : Emulator := mkEmulator 7 0 0 0 0 0 500 20 [].

Lemma sampleEnv_steady : env_steady 10 sampleEnv ∧ env_steady 10 failingEnv.
Proof. split; (split; [intros n [= <-]; lia | intros err; by try intros [= <-]]). Qed.

Lemma transfers_nonces_increase_witness :
  acceptedNonces (fst (transfers [sampleEnv; failingEnv; sampleEnv] sampleEmulator)) = [7; 8].
Proof.
  destruct sampleEnv_steady as [H1 H2].
  destruct (transfers_nonces_increase 10 [sampleEnv; failingEnv; sampleEnv] sampleEmulator) as (_ & l & E & _ & _ & _ & H);
    [by vm_compute | by vm_compute | repeat (apply Forall_cons; split; [assumption |]); by apply Forall_nil |].
  destruct H as [-> _]; [| rewrite E; by vm_compute].
  simpl. split_and!; try done; intros n [= <-]; vm_compute; by intros.
Defined.

Lemma early_return_leaves_gap_witness :
  acceptedNonces (fst ((sendTransfer noGasPrice;; transfers [sampleEnv; sampleEnv]) sampleEmulator)) = [8; 9] ∧
  7 ∉ acceptedNonces (fst ((sendTransfer noGasPrice;; transfers [sampleEnv; sampleEnv]) sampleEmulator)).
Proof.
  destruct sampleEnv_steady as [H1 H2]. split; [by vm_compute |].
  destruct (early_return_leaves_gap 10 noGasPrice [sampleEnv; sampleEnv] sampleEmulator) as (_ & l & E & H);
    [by vm_compute | by vm_compute | repeat (apply Forall_cons; split; [assumption |]); by apply Forall_nil | by vm_compute | by left; eexists |].
  rewrite E. intros Hin. rewrite Forall_forall in H. specialize (H 7 Hin). by vm_compute in H.
Defined.
