(* ===== verification/WebHub.v ===== *)
(** * The websocket hub (internal/web/hub.go, hub_throttle.go)

    [Run] owns the set of clients: it registers, unregisters and feeds them,
    dropping a client whose channel is full.  The throttled hub adds a second
    goroutine that feeds the same clients.  Channels that are closed twice or
    written after they were closed panic, as in Go. *)

From S2P Require Import Prelude GoInt Types.
From Stdlib Require Import ZArith Lia String.
From stdpp Require Import base gmap strings list.
Open Scope string_scope.
Open Scope Z_scope.

(** ** State *)

(** An event: a [WSEvent] with its type, or any other value. *)
Inductive HubEvent : Type := EvWS (typ data : string) | EvOther (data : string).

#[export] Instance HubEvent_eq_dec : EqDecision HubEvent.
Proof. solve_decision. Defined.

(** hub.go, [Client]: its [send] channel; [cl_log] is all that was ever put in. *)
Record Client := mkClient { cl_open : bool; cl_send : list string; cl_log : list string }.

Definition sendCap : nat := 256.
Definition broadcastCap : Z := 10000.
Definition newClient : Client := mkClient true [] [].

(** hub.go, [Hub]: [hub_clients] is the map, [hub_all] the client objects by
    identity, [hub_broadcast] the buffered channel. *)
Record Hub := mkHub {
  hub_clients : gset nat;
  hub_all : gmap nat Client;
  hub_broadcast : list HubEvent;
  hub_stopped : bool
}.

Definition NewHub : Hub := mkHub ∅ ∅ [] false.

Definition hset_clients (c : gset nat) (h : Hub) : Hub := mkHub c (hub_all h) (hub_broadcast h) (hub_stopped h).
Definition hset_all (a : gmap nat Client) (h : Hub) : Hub := mkHub (hub_clients h) a (hub_broadcast h) (hub_stopped h).
Definition hset_broadcast (b : list HubEvent) (h : Hub) : Hub := mkHub (hub_clients h) (hub_all h) b (hub_stopped h).
Definition hset_stopped (b : bool) (h : Hub) : Hub := mkHub (hub_clients h) (hub_all h) (hub_broadcast h) b.

Definition closeOfClosed : string := "close of closed channel".
Definition sendOnClosed : string := "send on closed channel".

(** [close(client.send)]. *)
Definition closeSend (c : nat) : GoM Hub unit :=
  h ← gets id;
  match hub_all h !! c with
  | Some cl => if cl_open cl then modify (λ h, hset_all (<[c := mkClient false (cl_send cl) (cl_log cl)]> (hub_all h)) h)
               else go_panic closeOfClosed
  | None => mret tt
  end.

(** [select { case client.send <- message: ...; default: ... }]: whether it was
    sent. *)
Definition trySend (c : nat) (message : string) : GoM Hub bool :=
  h ← gets id;
  match hub_all h !! c with
  | Some cl =>
    if cl_open cl then
      if (length (cl_send cl) <? sendCap)%nat then
        modify (λ h, hset_all (<[c := mkClient true (cl_send cl ++ [message])%list (cl_log cl ++ [message])%list]> (hub_all h)) h);;
        mret true
      else mret false
    else go_panic sendOnClosed
  | None => mret false
  end.

Definition removeClient (c : nat) (h : Hub) : Hub := hset_clients (hub_clients h ∖ {[c]}) h.

(** A loop over some clients. *)
Fixpoint forClients (cs : list nat) (body : nat → GoM Hub unit) : GoM Hub unit :=
  match cs with [] => mret tt | c :: rest => body c;; forClients rest body end.

(** hub.go, [Broadcast]. *)
Definition Broadcast (event : HubEvent) (h : Hub) : Hub :=
  if Z.of_nat (length (hub_broadcast h)) <? broadcastCap then hset_broadcast (hub_broadcast h ++ [event])%list h else h.

Section hub.
(** [json.Marshal] of an event, [None] for an error. *)
Context (marshal : HubEvent → option string).

(** What [Run] does with one client of a broadcast. *)
Definition feedClient (message : string) (c : nat) : GoM Hub unit :=
sent ← trySend c message;
if sent : bool then mret tt else closeSend c;; modify (removeClient c).

(** hub.go, [Run]: the branch for [broadcast]. *)
Definition runBroadcast : GoM Hub unit :=
h ← gets id;
match hub_broadcast h with
| [] => mret tt
| event :: rest =>
  modify (hset_broadcast rest);;
  match marshal event with
  | None => mret tt
  | Some message => forClients (elements (hub_clients h)) (feedClient message)
  end
end.

(** hub.go, [Run]: the branch for [register]; [HandleWS] made the client. *)
Definition runRegister (c : nat) : GoM Hub unit :=
modify (λ h, hset_clients ({[c]} ∪ hub_clients h) (hset_all (<[c := newClient]> (hub_all h)) h)).

(** hub.go, [Run]: the branch for [unregister]. *)
Definition runUnregister (c : nat) : GoM Hub unit :=
h ← gets id;
if decide (c ∈ hub_clients h) then modify (removeClient c);; closeSend c else mret tt.

(** hub.go, [Run]: the branch for [ctx.Done()]. *)
Definition runStop : GoM Hub unit :=
h ← gets id;
forClients (elements (hub_clients h)) (λ c, closeSend c;; modify (removeClient c));;
modify (hset_stopped true).

(** [writePump] takes a message. *)
Definition pumpClient (c : nat) : GoM Hub unit :=
modify (λ h, match hub_all h !! c with
             | Some cl => hset_all (<[c := mkClient (cl_open cl) (tail (cl_send cl)) (cl_log cl)]> (hub_all h)) h
             | None => h
             end).

(** The hub's goroutine, the clients' pumps and the callers of [Broadcast]. *)
Inductive HubCase : Type :=
| HcRegister (c : nat) | HcUnregister (c : nat) | HcBroadcast | HcStop | HcPump (c : nat) | HcEvent (e : HubEvent).

Definition hubStep (x : HubCase) : GoM Hub unit :=
match x with
| HcRegister c => h ← gets id; if hub_stopped h then mret tt else match hub_all h !! c with Some _ => mret tt | None => runRegister c end
| HcUnregister c => h ← gets id; if hub_stopped h then mret tt else runUnregister c
| HcBroadcast => h ← gets id; if hub_stopped h then mret tt else runBroadcast
| HcStop => h ← gets id; if hub_stopped h then mret tt else runStop
| HcPump c => pumpClient c
| HcEvent e => modify (Broadcast e)
end.

Fixpoint hubRun (xs : list HubCase) : GoM Hub unit :=
match xs with [] => mret tt | x :: rest => hubStep x;; hubRun rest end.

(** ** The throttled hub (hub_throttle.go) *)

Record ThrottledHub := mkThrottledHub {
th_hub : Hub;
th_aggregateEvents : list HubEvent;
th_totalEvents : Z;
th_droppedEvents : Z;
th_aggregatedBatches : Z
}.
Definition aggregateCap : Z := 1000.

(** [NewThrottledHub]: the interval is at most 200ms. *)
Definition throttleIntervalOf (throttleInterval : Z) : Z := if 200000000 <? throttleInterval then 200000000 else throttleInterval.
Definition NewThrottledHub : ThrottledHub := mkThrottledHub NewHub [] 0 0 0.

Definition tset_hub (x : Hub) (t : ThrottledHub) : ThrottledHub :=
mkThrottledHub x (th_aggregateEvents t) (th_totalEvents t) (th_droppedEvents t) (th_aggregatedBatches t).
Definition tset_events (x : list HubEvent) (t : ThrottledHub) : ThrottledHub :=
mkThrottledHub (th_hub t) x (th_totalEvents t) (th_droppedEvents t) (th_aggregatedBatches t).
Definition taddTotal (t : ThrottledHub) : ThrottledHub :=
mkThrottledHub (th_hub t) (th_aggregateEvents t) (add_u64 (th_totalEvents t) 1) (th_droppedEvents t) (th_aggregatedBatches t).
Definition taddDropped (t : ThrottledHub) : ThrottledHub :=
mkThrottledHub (th_hub t) (th_aggregateEvents t) (th_totalEvents t) (add_u64 (th_droppedEvents t) 1) (th_aggregatedBatches t).
Definition taddBatch (t : ThrottledHub) : ThrottledHub :=
mkThrottledHub (th_hub t) (th_aggregateEvents t) (th_totalEvents t) (th_droppedEvents t) (add_u64 (th_aggregatedBatches t) 1).

Definition getEventType (event : HubEvent) : string :=
match event with EvWS typ _ => typ | EvOther _ => "unknown" end.
Definition shouldImmediateBroadcast (eventType : string) : bool :=
existsb (String.eqb eventType) ["system_healing"; "engine_panic"; "linearity_status"; "lazy_status"].

(** [smartAggregate]: the last event of each type, in the order in which the
  map happens to be ranged over. *)
Definition typeLatest (events : list HubEvent) : gmap string HubEvent :=
foldl (λ m e, <[getEventType e := e]> m) ∅ events.
Definition smartAggregate (events : list HubEvent) : list HubEvent := (map_to_list (typeLatest events)).*2.

(** The clients of the flush, one by one: the range yields those that are still
  in the map. Between the yield and the sending the hub's own goroutine runs:
  [run] says what it does there. *)
Fixpoint flushClients (cs : list nat) (message : string) (run : nat → GoM Hub unit) : GoM ThrottledHub unit :=
match cs with
| [] => mret tt
| c :: rest =>
  t ← gets id;
  (if decide (c ∈ hub_clients (th_hub t)) then
     zoom th_hub tset_hub (run c);;
     sent ← zoom th_hub tset_hub (trySend c message);
     (if sent : bool then mret tt else modify taddDropped)
   else mret tt);;
  flushClients rest message run
end.

Fixpoint flushEvents (events : list HubEvent) (run : nat → GoM Hub unit) : GoM ThrottledHub unit :=
match events with
| [] => mret tt
| event :: rest =>
  (match marshal event with
   | None => mret tt
   | Some message => t ← gets id; flushClients (elements (hub_clients (th_hub t))) message run
   end);;
  flushEvents rest run
end.

(** [flushAggregatedEvents]. *)
Definition flushAggregatedEvents (run : nat → GoM Hub unit) : GoM ThrottledHub unit :=
t ← gets id;
match th_aggregateEvents t with
| [] => mret tt
| _ =>
  modify taddBatch;;
  flushEvents (smartAggregate (th_aggregateEvents t)) run;;
  modify (tset_events [])
end.

(** [BroadcastWithThrottle]. *)
Definition BroadcastWithThrottle (event : HubEvent) (run : nat → GoM Hub unit) : GoM ThrottledHub unit :=
modify taddTotal;;
if shouldImmediateBroadcast (getEventType event) then modify (λ t, tset_hub (Broadcast event (th_hub t)) t)
else
  modify (λ t, tset_events (th_aggregateEvents t ++ [event])%list t);;
  t ← gets id;
  if aggregateCap <=? Z.of_nat (length (th_aggregateEvents t)) then flushAggregatedEvents run else mret tt.

(** ** Lemmas *)

(** A client in the map has an open channel, its buffer is within its capacity,
  and what it holds is the end of what it was given. *)
Record hub_ok (h : Hub) : Prop := {
hk_open c : c ∈ hub_clients h → ∃ cl, hub_all h !! c = Some cl ∧ cl_open cl = true;
hk_buffers c cl : hub_all h !! c = Some cl → (length (cl_send cl) ≤ sendCap)%nat ∧ cl_send cl `suffix_of` cl_log cl;
hk_broadcast : Z.of_nat (length (hub_broadcast h)) ≤ broadcastCap
}.

Lemma closeSend_wp c h cl (Q : outcome unit → Hub → Prop) :
hub_all h !! c = Some cl → cl_open cl = true →
Q (Val tt) (hset_all (<[c := mkClient false (cl_send cl) (cl_log cl)]> (hub_all h)) h) → wp (closeSend c) Q h.
Proof. intros Hc Ho HQ. apply wp_bind, wp_gets. unfold id. rewrite Hc, Ho. by apply wp_modify. Qed.

Lemma trySend_wp c m h cl (Q : outcome bool → Hub → Prop) :
hub_all h !! c = Some cl → cl_open cl = true →
((length (cl_send cl) < sendCap)%nat →
 Q (Val true) (hset_all (<[c := mkClient true (cl_send cl ++ [m])%list (cl_log cl ++ [m])%list]> (hub_all h)) h)) →
((sendCap ≤ length (cl_send cl))%nat → Q (Val false) h) → wp (trySend c m) Q h.
Proof.
intros Hc Ho H1 H2. apply wp_bind, wp_gets. unfold id. rewrite Hc, Ho. destruct (Nat.ltb_spec (length (cl_send cl)) sendCap).
- by apply wp_bind, wp_modify, wp_ret, H1.
- by apply wp_ret, H2.
Qed.

(** What a broadcast does to one client: the message is queued, or the client
  is closed and removed because its buffer is full. *)
Definition fed (m : string) (c : nat) (cl : Client) (h' : Hub) : Prop :=
if (length (cl_send cl) <? sendCap)%nat then
  c ∈ hub_clients h' ∧ hub_all h' !! c = Some (mkClient true (cl_send cl ++ [m])%list (cl_log cl ++ [m])%list)
else (c ∉ hub_clients h') ∧ hub_all h' !! c = Some (mkClient false (cl_send cl) (cl_log cl)).

(** The two hubs agree on client [d]. *)
Definition same_client (d : nat) (h h' : Hub) : Prop :=
hub_all h' !! d = hub_all h !! d ∧ (d ∈ hub_clients h' ↔ d ∈ hub_clients h).

Lemma feedClient_wp m c cl h :
c ∈ hub_clients h → hub_all h !! c = Some cl → cl_open cl = true →
wp (feedClient m c) (λ o h', o = Val tt ∧ fed m c cl h' ∧ hub_broadcast h' = hub_broadcast h ∧
                             ∀ d, d ≠ c → same_client d h h') h.
Proof.
intros Hin Hc Ho. unfold feedClient, fed. apply wp_bind, (trySend_wp _ _ _ cl); [done.. | |]; intros Hl.
- apply wp_ret. rewrite (proj2 (Nat.ltb_lt _ _)) by done. simpl. rewrite lookup_insert_eq.
  split_and!; try done. intros d Hd. split; simpl; [by rewrite lookup_insert_ne | done].
- rewrite (proj2 (Nat.ltb_ge _ _)) by done. apply wp_bind, (closeSend_wp _ _ cl); [done.. |]. apply wp_modify. simpl.
  rewrite lookup_insert_eq. split_and!; try done; [set_solver |].
  intros d Hd. split; simpl; [by rewrite lookup_insert_ne | set_solver].
Qed.

Lemma feedAll_wp m cs h :
NoDup cs → (∀ c, c ∈ cs → c ∈ hub_clients h ∧ ∃ cl, hub_all h !! c = Some cl ∧ cl_open cl = true) →
wp (forClients cs (feedClient m)) (λ o h', o = Val tt ∧ hub_broadcast h' = hub_broadcast h ∧
   (∀ c cl, c ∈ cs → hub_all h !! c = Some cl → fed m c cl h') ∧ (∀ d, (d ∉ cs) → same_client d h h')) h.
Proof.
revert h. induction cs as [| c cs IH]; intros h Hnd Hcs; simpl.
- apply wp_ret. split_and!; try done. intros c cl Hin. by apply elem_of_nil in Hin.
- apply NoDup_cons in Hnd as [Hni Hnd]. destruct (Hcs c) as (Hin & cl & Hcl & Ho); [by left |].
  apply wp_bind. eapply wp_mono; [by apply (feedClient_wp m c cl) |]. intros o h1 (-> & Hfed & Hb1 & Hoth).
  eapply wp_mono; [apply IH; [done |] |].
  { intros d Hd. assert (Hne : d ≠ c) by (by intros ->). destruct (Hoth d Hne) as [-> ->]. apply Hcs. by right. }
  intros o h2 (-> & Hb2 & Hf2 & Ho2). split_and!; [done | congruence | |].
  + intros d cl' [-> | Hd]%elem_of_cons Hd'.
    * simplify_eq. destruct (Ho2 c Hni) as [E1 E2]. unfold fed in *. case_match; rewrite E1, E2; exact Hfed.
    * apply Hf2; [done |]. destruct (Hoth d) as [-> _]; [by intros -> | done].
  + intros d [Hdc Hd]%not_elem_of_cons. destruct (Ho2 d Hd) as [E1 E2], (Hoth d Hdc) as [E3 E4].
    split; [congruence | by rewrite E2, E4].
Qed.

(** A broadcast, on every client of the hub. *)
Lemma runBroadcast_wp event rest m h :
hub_ok h → hub_broadcast h = event :: rest → marshal event = Some m →
wp runBroadcast (λ o h', o = Val tt ∧ hub_broadcast h' = rest ∧
   (∀ c cl, c ∈ hub_clients h → hub_all h !! c = Some cl → fed m c cl h') ∧
   (∀ d, (d ∉ hub_clients h) → same_client d h h')) h.
Proof.
intros [Ho Hb Hbr] He Hm. apply wp_bind, wp_gets. unfold id. rewrite He, Hm. apply wp_bind, wp_modify.
eapply wp_mono; [apply feedAll_wp; [apply NoDup_elements |] |].
- intros c Hc%elem_of_elements. split; [done | by apply Ho].
- intros o h' (-> & Hb' & Hf & Hs). split_and!; [done | done | |].
  + intros c cl Hc. apply Hf. by apply elem_of_elements.
  + intros d Hd. apply Hs. by rewrite elem_of_elements.
Qed.

Lemma dropped_ok c cl h :
hub_ok h → hub_all h !! c = Some cl →
hub_ok (removeClient c (hset_all (<[c := mkClient false (cl_send cl) (cl_log cl)]> (hub_all h)) h)).
Proof.
intros [Ho Hb Hbr] Hc. split; simpl; [| | done].
- intros d [Hd Hne]%elem_of_difference. rewrite lookup_insert_ne by set_solver. by apply Ho.
- intros d cl'. rewrite lookup_insert. case_decide as E; [| by apply Hb]. subst d. intros [= <-]. simpl. by apply (Hb c).
Qed.

Lemma fed_ok h h' m :
hub_ok h → Z.of_nat (length (hub_broadcast h')) ≤ broadcastCap →
(∀ c cl, c ∈ hub_clients h → hub_all h !! c = Some cl → fed m c cl h') →
(∀ d, (d ∉ hub_clients h) → same_client d h h') → hub_ok h'.
Proof.
intros [Ho Hb _] Hbr Hf Hs. split; [| | done].
- intros c Hc. destruct (decide (c ∈ hub_clients h)) as [Hin | Hin].
  + destruct (Ho c Hin) as (cl & Hcl & _). specialize (Hf c cl Hin Hcl). unfold fed in Hf. case_match.
    * destruct Hf as [_ ->]. by eexists.
    * by destruct Hf.
  + destruct (Hs c Hin) as [_ Hiff]. by apply Hiff in Hc.
- intros c cl' Hc. destruct (decide (c ∈ hub_clients h)) as [Hin | Hin].
  + destruct (Ho c Hin) as (cl & Hcl & _). destruct (Hb c cl Hcl) as [Hl [p Hp]].
    specialize (Hf c cl Hin Hcl). unfold fed in Hf. case_match eqn:E; destruct Hf as [_ Hf]; rewrite Hf in Hc; simplify_eq; simpl.
    * apply Nat.ltb_lt in E. rewrite length_app. simpl. split; [lia |]. exists p. by rewrite Hp, app_assoc.
    * split; [done | by exists p].
  + destruct (Hs c Hin) as [E _]. apply (Hb c). congruence.
Qed.

(** Closing every client at the end. *)
Lemma stopAll_wp cs h :
NoDup cs → hub_ok h → (∀ c, c ∈ cs → c ∈ hub_clients h) →
wp (forClients cs (λ c, closeSend c;; modify (removeClient c))) (λ o h', o = Val tt ∧ hub_ok h') h.
Proof.
revert h. induction cs as [| c cs IH]; intros h Hnd Hok Hcs; simpl; [by apply wp_ret |].
apply NoDup_cons in Hnd as [Hni Hnd]. destruct (hk_open h Hok c) as (cl & Hcl & Ho); [apply Hcs; by left |].
apply wp_bind, wp_bind, (closeSend_wp _ _ cl); [done.. |]. apply wp_modify. apply IH; [done | by apply dropped_ok |].
intros d Hd. simpl. apply elem_of_difference. split; [apply Hcs; by right |]. apply not_elem_of_singleton. by intros ->.
Qed.

Lemma hubStep_ok x h : hub_ok h → wp (hubStep x) (λ o h', o = Val tt ∧ hub_ok h') h.
Proof.
intros Hok. destruct (Hok) as [Ho Hb Hbr]. destruct x as [c | c | | | c | e]; simpl.
- apply wp_bind, wp_gets. unfold id. case_match; [by apply wp_ret |]. destruct (hub_all h !! c) eqn:Hc; [by apply wp_ret |].
  apply wp_modify. split; [done |]. split; simpl; [| | done].
  + intros d [->%elem_of_singleton | Hd]%elem_of_union; [rewrite lookup_insert_eq; by eexists |].
    rewrite lookup_insert_ne; [by apply Ho |]. intros <-. destruct (Ho c Hd) as (? & ? & _). congruence.
  + intros d cl. rewrite lookup_insert. case_decide; [| by apply Hb]. intros [= <-]. simpl. split; [lia | by exists []].
- apply wp_bind, wp_gets. unfold id. case_match; [by apply wp_ret |]. unfold runUnregister. apply wp_bind, wp_gets. unfold id.
  case_decide as Hin; [| by apply wp_ret]. apply wp_bind, wp_modify. destruct (Ho c Hin) as (cl & Hcl & Hcl').
  apply (closeSend_wp _ _ cl); [done.. |]. split; [done |]. by apply (dropped_ok c cl h).
- apply wp_bind, wp_gets. unfold id. case_match; [by apply wp_ret |].
  destruct (hub_broadcast h) as [| event rest] eqn:E.
  { unfold runBroadcast. apply wp_bind, wp_gets. unfold id. rewrite E. by apply wp_ret. }
  simpl in Hbr. destruct (marshal event) as [m |] eqn:Hm.
  + eapply wp_mono; [by apply (runBroadcast_wp event rest m) |]. intros o h' (-> & Eb & Hf & Hs). split; [done |].
    apply (fed_ok h h' m); [done | rewrite Eb; lia | done..].
  + unfold runBroadcast. apply wp_bind, wp_gets. unfold id. rewrite E, Hm. apply wp_bind, wp_modify, wp_ret. split; [done |].
    split; simpl; [done | done | lia].
- apply wp_bind, wp_gets. unfold id. case_match; [by apply wp_ret |]. unfold runStop. apply wp_bind, wp_gets. unfold id.
  apply wp_bind. eapply wp_mono; [apply stopAll_wp; [apply NoDup_elements | done |] |].
  { intros c. by rewrite elem_of_elements. }
  intros o h' [-> [Ho' Hb' Hbr']]. by apply wp_modify.
- apply wp_modify. split; [done |]. destruct (hub_all h !! c) as [cl |] eqn:Hc; [| done]. split; simpl; [| | done].
  + intros d Hd. rewrite lookup_insert. case_decide as E; [| by apply Ho]. subst d. destruct (Ho c Hd) as (cl' & ? & ?).
    simplify_eq. by eexists.
  + intros d cl'. rewrite lookup_insert. case_decide; [| by apply Hb]. intros [= <-]. simpl.
    destruct (Hb c cl Hc) as [Hl [p Hp]]. destruct (cl_send cl) as [| m q]; simpl in *; [split; [lia | by exists p] |].
    split; [lia |]. exists (p ++ [m])%list. by rewrite <- app_assoc.
- apply wp_modify. split; [done |]. unfold Broadcast. case_match eqn:E; [| done]. bool_prop. split; simpl; [done | done |].
  rewrite length_app. simpl. lia.
Qed.
End hub.

(** *** Throttling *)

Lemma typeLatest_snoc events e : typeLatest (events ++ [e]) = <[getEventType e := e]> (typeLatest events).
Proof. unfold typeLatest. by rewrite foldl_app. Qed.

(** The map holds, for each type, its last event. *)
Lemma typeLatest_spec events ty : typeLatest events !! ty = last (filter (λ e, getEventType e = ty) events).
Proof.
  induction events as [| e events IH] using rev_ind; [done |].
  rewrite typeLatest_snoc, filter_app, filter_cons, filter_nil, lookup_insert.
  case_decide; [by rewrite last_snoc | by rewrite app_nil_r].
Qed.

(** At most one event of each type is left, and it is the last one. *)
Lemma smartAggregate_last events e :
  e ∈ smartAggregate events ↔ last (filter (λ x, getEventType x = getEventType e) events) = Some e.
Proof.
  unfold smartAggregate. rewrite list_elem_of_fmap, <- typeLatest_spec. split.
  - intros [[ty x] [-> Hin%elem_of_map_to_list]]. simpl. rewrite typeLatest_spec in *. pose proof Hin as Hl.
    apply last_Some_elem_of, list_elem_of_filter in Hin as [E _]. by rewrite E.
  - intros H. exists (getEventType e, e). by rewrite elem_of_map_to_list.
Qed.

Section throttled.
Context (marshal : HubEvent → option string).

Lemma flushClients_wp cs m run t :
(∀ c h, hub_ok h → wp (run c) (λ o h', o = Val tt ∧ hub_ok h' ∧ (c ∈ hub_clients h → c ∈ hub_clients h')) h) →
hub_ok (th_hub t) →
wp (flushClients cs m run)
   (λ o t', o = Val tt ∧ hub_ok (th_hub t') ∧ th_aggregateEvents t' = th_aggregateEvents t) t.
Proof.
intros Hrun. revert t. induction cs as [| c cs IH]; intros t Hok; simpl; [by apply wp_ret |].
apply wp_bind, wp_gets. unfold id. apply wp_bind. case_decide as Hin; [| by apply wp_ret, IH].
apply wp_bind, wp_zoom. eapply wp_mono; [by apply Hrun |]. intros o h1 (-> & Hok1 & Hin1).
destruct (hk_open h1 Hok1 c (Hin1 Hin)) as (cl & Hcl & Ho).
apply wp_bind, wp_zoom. simpl. apply (trySend_wp c m h1 cl); [done.. | |]; intros Hl.
- apply wp_ret. eapply wp_mono; [apply IH |].
  + destruct Hok1 as [H1 H2 H3]. split; simpl; [| | done].
    * intros d Hd. rewrite lookup_insert. case_decide; [by eexists | by apply H1].
    * intros d cl'. rewrite lookup_insert. case_decide; [| by apply H2]. intros [= <-]. simpl.
      destruct (H2 c cl Hcl) as [Hb [p Hp]]. rewrite length_app. simpl. split; [lia |]. exists p. by rewrite Hp, app_assoc.
  + intros o t' (-> & ? & ?). done.
- apply wp_modify. eapply wp_mono; [apply IH; exact Hok1 |]. intros o t' (-> & ? & ?). done.
Qed.

Lemma flushEvents_wp events run t :
(∀ c h, hub_ok h → wp (run c) (λ o h', o = Val tt ∧ hub_ok h' ∧ (c ∈ hub_clients h → c ∈ hub_clients h')) h) →
hub_ok (th_hub t) →
wp (flushEvents marshal events run)
   (λ o t', o = Val tt ∧ hub_ok (th_hub t') ∧ th_aggregateEvents t' = th_aggregateEvents t) t.
Proof.
intros Hrun. revert t. induction events as [| e events IH]; intros t Hok; simpl; [by apply wp_ret |].
apply wp_bind. destruct (marshal e) as [m |]; [| by apply wp_ret, IH].
apply wp_bind, wp_gets. unfold id. eapply wp_mono; [by apply flushClients_wp |].
intros o t1 (-> & Hok1 & E1). eapply wp_mono; [by apply IH |]. intros o t2 (-> & Hok2 & E2). split_and!; [done.. | congruence].
Qed.

(** A flush empties the buffer, as long as the hub keeps the clients it feeds. *)
Lemma throttledFlush_wp run t :
(∀ c h, hub_ok h → wp (run c) (λ o h', o = Val tt ∧ hub_ok h' ∧ (c ∈ hub_clients h → c ∈ hub_clients h')) h) →
hub_ok (th_hub t) →
wp (flushAggregatedEvents marshal run) (λ o t', o = Val tt ∧ hub_ok (th_hub t') ∧ th_aggregateEvents t' = []) t.
Proof.
intros Hrun Hok. apply wp_bind, wp_gets. unfold id. destruct (th_aggregateEvents t) eqn:E; [by apply wp_ret |].
apply wp_bind, wp_modify, wp_bind. eapply wp_mono; [by apply flushEvents_wp |].
intros o t' (-> & H & _). by apply wp_modify.
Qed.
End throttled.

(** ** Properties *)

(** C26: The hub on its own never panics.  From a new hub, in every interleaving
    of registrations, disconnections, broadcasts, client pumps and the stop, no
    channel is closed twice or written after it was closed; every client in the
    map has an open channel, no buffer exceeds its capacity, and what a client
    still has to send is the end of what it was given, in order. *)
Theorem hub_never_panics (marshal : HubEvent → option string) (xs : list HubCase) :
  wp (hubRun marshal xs) (λ o h, o = Val tt ∧ hub_ok h) NewHub.
Proof.
  assert (H : ∀ h, hub_ok h → wp (hubRun marshal xs) (λ o h', o = Val tt ∧ hub_ok h') h).
  { induction xs as [| x xs IH]; intros h Hok; simpl; [by apply wp_ret |]. apply wp_bind.
    eapply wp_mono; [by apply hubStep_ok |]. intros o h' [-> Hok']. by apply IH. }
  apply H. split; simpl; [intros c Hc; by apply elem_of_empty in Hc | done | unfold broadcastCap; lia].
Qed.

(** A broadcast reaches every connected client or drops it.  The first event
    of the buffer is taken; each client of the map has its message appended to
    its channel, or, when its 256 places are full, is closed and removed without
    it; clients that are not in the map are untouched. *)
Theorem broadcast_delivers_or_drops (marshal : HubEvent → option string) (event : HubEvent) (rest : list HubEvent) (m : string) (h : Hub) :
  hub_ok h → hub_broadcast h = event :: rest → marshal event = Some m →
  wp (runBroadcast marshal) (λ o h', o = Val tt ∧ hub_broadcast h' = rest ∧
    (∀ c cl, c ∈ hub_clients h → hub_all h !! c = Some cl →
       if (length (cl_send cl) <? sendCap)%nat then
         c ∈ hub_clients h' ∧ hub_all h' !! c = Some (mkClient true (cl_send cl ++ [m])%list (cl_log cl ++ [m])%list)
       else (c ∉ hub_clients h') ∧ hub_all h' !! c = Some (mkClient false (cl_send cl) (cl_log cl))) ∧
    (∀ d, (d ∉ hub_clients h) → hub_all h' !! d = hub_all h !! d ∧ (d ∉ hub_clients h'))) h.
Proof.
  intros Hok He Hm. eapply wp_mono; [by apply (runBroadcast_wp marshal event rest m) |].
  intros o h' (-> & Hb & Hf & Hs). split_and!; [done | done | exact Hf |].
  intros d Hd. destruct (Hs d Hd) as [E1 E2]. split; [done | by rewrite E2].
Qed.

(** The throttled hub can crash the program.  A flush alone is safe, but the
    hub's goroutine may unregister a client between the moment the flush takes it
    from the map and the moment it writes to it: the write panics, on a
    goroutine that does not recover. *)
Theorem throttled_flush_races (marshal : HubEvent → option string) (t : ThrottledHub) (event : HubEvent) (m : string) (c : nat) :
  hub_ok (th_hub t) → hub_stopped (th_hub t) = false → th_aggregateEvents t = [event] → marshal event = Some m →
  c ∈ hub_clients (th_hub t) →
  wp (flushAggregatedEvents marshal (λ _, mret tt)) (λ o t', o = Val tt ∧ hub_ok (th_hub t') ∧ th_aggregateEvents t' = []) t ∧
  wp (flushAggregatedEvents marshal (λ d, hubStep marshal (HcUnregister d))) (λ o _, o = Panic sendOnClosed) t.
Proof.
  intros Hok Hst He Hm Hc. split.
  - apply throttledFlush_wp; [| done]. intros d h Hh. by apply wp_ret.
  - apply wp_bind, wp_gets. unfold id. rewrite He. apply wp_bind, wp_modify, wp_bind.
    assert (Hagg : smartAggregate [event] = [event]).
    { unfold smartAggregate, typeLatest. simpl. by rewrite insert_empty, map_to_list_singleton. }
    rewrite Hagg. simpl. rewrite Hm. apply wp_bind, wp_bind, wp_gets. unfold id. simpl.
    destruct (elements (hub_clients (th_hub t))) as [| d cs] eqn:E.
    { apply elements_empty_iff in E. set_solver. }
    assert (Hd : d ∈ hub_clients (th_hub t)) by (apply elem_of_elements; rewrite E; by left).
    destruct (hk_open _ Hok d Hd) as (cl & Hcl & Ho).
    simpl. apply wp_bind, wp_gets. unfold id. simpl. rewrite decide_True by done.
    apply wp_bind, wp_bind, wp_zoom. simpl. apply wp_bind, wp_gets. unfold id. rewrite Hst.
    unfold runUnregister. apply wp_bind, wp_gets. unfold id. rewrite decide_True by done.
    apply wp_bind, wp_modify. apply (closeSend_wp _ _ cl); [done.. |].
    apply wp_bind, wp_zoom. unfold trySend. apply wp_bind, wp_gets. unfold id. simpl.
    rewrite lookup_insert_eq. simpl. by apply wp_panic.
Qed.

(** The throttle's buffer is bounded and loses only superseded events.  Below
    a thousand pending events before a call means below a thousand after it; what
    a flush sends for each type is exactly the last event of that type. *)
Theorem throttle_bounded (marshal : HubEvent → option string) (event : HubEvent) (t : ThrottledHub) :
  hub_ok (th_hub t) → Z.of_nat (length (th_aggregateEvents t)) < aggregateCap →
  wp (BroadcastWithThrottle marshal event (λ _, mret tt))
     (λ o t', o = Val tt ∧ hub_ok (th_hub t') ∧ Z.of_nat (length (th_aggregateEvents t')) < aggregateCap) t ∧
  ∀ e, e ∈ smartAggregate (th_aggregateEvents t) ↔
       last (filter (λ x, getEventType x = getEventType e) (th_aggregateEvents t)) = Some e.
Proof.
  intros Hok Hl. split; [| apply smartAggregate_last]. apply wp_bind, wp_modify. simpl. case_match.
  - apply wp_modify. split_and!; [done | | done]. simpl. destruct Hok as [H1 H2 H3]. unfold Broadcast.
    case_match eqn:E; bool_prop; split; simpl; try done. rewrite length_app. simpl. lia.
  - apply wp_bind, wp_modify, wp_bind, wp_gets. unfold id. cbn [th_aggregateEvents tset_events].
    cbn [th_aggregateEvents taddTotal]. destruct (Z.leb_spec aggregateCap (Z.of_nat (length (th_aggregateEvents t ++ [event])))) as [Hle | Hlt]; [| by apply wp_ret].
    eapply wp_mono; [apply throttledFlush_wp; [intros d h Hh; by apply wp_ret | done] |].
    intros o t' (-> & Hok' & ->). split_and!; [done.. | unfold aggregateCap; simpl; lia].
Qed.

(** ** Witnesses *)

Definition plainMarshal (e : HubEvent) : option string :=
  match e with EvWS typ data => Some (typ ++ ":" ++ data) | EvOther data => Some data end.
Definition connectedHub : Hub := fst (hubRun plainMarshal [HcRegister 1; HcRegister 2; HcEvent (EvWS "block" "7")] NewHub).

Lemma connectedHub_ok : hub_ok connectedHub.
Proof.
  assert (H : ∀ xs h, hub_ok h → hub_ok (fst (hubRun plainMarshal xs h))).
  { induction xs as [| x xs IH]; intros h Hok; [done |].
    pose proof (hubStep_ok plainMarshal x h Hok) as Hw. unfold wp in Hw.
    simpl. unfold mbind, GoM_bind. destruct (hubStep plainMarshal x h) as [h' o]. simpl in Hw.
    destruct Hw as [-> Hok']. by apply IH. }
  apply H. split; simpl; [intros c Hc; by apply elem_of_empty in Hc | done | unfold broadcastCap; lia].
Qed.

Lemma broadcast_delivers_or_drops_witness :
  ∃ h', runBroadcast plainMarshal connectedHub = (h', Val tt) ∧ cl_send <$> hub_all h' !! 1%nat = Some ["block:7"].
Proof.
  destruct (broadcast_delivers_or_drops plainMarshal (EvWS "block" "7") [] "block:7" connectedHub) as (H1 & _ & H2 & _);
    [apply connectedHub_ok | by vm_compute | done |].
  exists (fst (runBroadcast plainMarshal connectedHub)). split; [by vm_compute |].
  destruct (H2 1%nat newClient) as [_ ->]; [apply (bool_decide_unpack (1%nat ∈ hub_clients connectedHub)); by vm_compute | by vm_compute |].
  by vm_compute.
Defined.

Definition pendingHub : ThrottledHub := mkThrottledHub connectedHub [EvWS "block" "8"] 1 0 0.

Lemma throttled_flush_races_witness :
  snd (flushAggregatedEvents plainMarshal (λ d, hubStep plainMarshal (HcUnregister d)) pendingHub) = Panic sendOnClosed.
Proof.
  apply (throttled_flush_races plainMarshal pendingHub (EvWS "block" "8") "block:8" 1);
    [apply connectedHub_ok | by vm_compute | done | done |].
  apply (bool_decide_unpack (1%nat ∈ hub_clients connectedHub)). by vm_compute.
Defined.

Lemma throttle_bounded_witness :
  let t' := fst (BroadcastWithThrottle plainMarshal (EvWS "transfer" "a") (λ _, mret tt) pendingHub) in
  th_aggregateEvents t' = [EvWS "block" "8"; EvWS "transfer" "a"] ∧ Z.of_nat (length (th_aggregateEvents t')) < aggregateCap.
Proof.
  intros t'. split; [by vm_compute |].
  destruct (throttle_bounded plainMarshal (EvWS "transfer" "a") pendingHub) as ((_ & _ & H) & _);
    [apply connectedHub_ok | simpl; unfold aggregateCap; lia | exact H].
Defined.
