(* ===== verification/Policy.v ===== *)
(** * Policies and configuration (internal/engine/indexer_policy.go,
    performance_profile.go, indexer_config.go, eco_strategy.go, tps_monitor.go)

    Which environment the engine thinks it runs in, the live configuration and
    its listeners, and the decisions taken from transaction rates.  Rates are
    binary64 numbers. *)

From S2P Require Import Prelude GoInt Types Limiter.
From Stdlib Require Import ZArith Lia Ascii String SpecFloat.
From stdpp Require Import base gmap strings list.
Open Scope string_scope.
Open Scope Z_scope.

(** ** float64, continued *)

Definition float_add : float64 → float64 → float64 := SFadd 53 1024.
Definition float_leb (a b : float64) : bool := SFleb a b.
Definition float_ltb (a b : float64) : bool := SFltb a b.
Definition float_geb (a b : float64) : bool := SFleb b a.
Definition f0 : float64 := float_of_Z 0.
(** A decimal constant [n / d], rounded once. *)
Definition fdec (n d : Z) : float64 := float_div (float_of_Z n) (float_of_Z d).

(** [int64(f)]: truncation; what does not fit is left to the implementation
    (amd64 gives the least [int64]). *)
Definition int64_of_float (f : float64) : Z :=
  match f with
  | S754_zero _ => 0
  | S754_finite s m e =>
    let t := if 0 <=? e then Zpos m * 2 ^ e else Zpos m / 2 ^ (- e) in
    let v := if s : bool then - t else t in
    if (min_i64 <=? v) && (v <=? max_i64) then v else min_i64
  | _ => min_i64
  end.

(** [math.Round]: to the nearest integer, halves away from zero. *)
Definition math_Round (f : float64) : float64 :=
  match f with
  | S754_finite s m e =>
    if 0 <=? e then f
    else
      let q := (Zpos m + 2 ^ (- e - 1)) / 2 ^ (- e) in
      if q =? 0 then S754_zero s else float_of_Z (if s : bool then - q else q)
  | _ => f
  end.

(** ** indexer_policy.go *)

Record IndexerPolicy := mkIndexerPolicy { ip_AllowSleep : bool; ip_EnforceQuota : bool; ip_BurstBatchSize : Z; ip_LabMode : bool }.

Definition anvilSignals : list string := ["localhost"; "127.0.0.1"; "anvil"; ":8545"; ":8092"].
Definition IsLocalAnvil (rpcURL : string) : bool := existsb (Contains (ToLower rpcURL)) anvilSignals.

Definition labPolicy : IndexerPolicy := mkIndexerPolicy false false 100 true.
Definition GetPolicy (rpcURLs : list string) (chainID : Z) : IndexerPolicy :=
  if chainID =? 31337 then labPolicy
  else if existsb IsLocalAnvil rpcURLs then labPolicy
  else mkIndexerPolicy true true 20 false.

(** ** performance_profile.go *)

Record PerformanceProfile := mkPerformanceProfile {
  pp_Name : string;
  pp_AllowSleep : bool;
  pp_EnforceQuota : bool;
  pp_BatchSize : Z;
  pp_ChannelBufferSize : Z;
  pp_MaxOpenConns : Z;
  pp_FetchConcurrency : Z;
  pp_TPSLimit : float64;
  pp_MetadataCacheSize : Z;
  pp_EnableAggressiveBatch : bool
}.

Definition YokohamaLabProfile : PerformanceProfile :=
  mkPerformanceProfile "Yokohama Lab (Unlimited)" false false 100 10000 100 16 (float_of_Z 100000) 100000 true.
Definition ProductionProfile : PerformanceProfile :=
  mkPerformanceProfile "Production (Conservative)" true true 20 100 25 10 (float_of_Z 20) 10000 false.
Definition GetPerformanceProfile (rpcURLs : list string) (chainID : Z) : PerformanceProfile :=
  if chainID =? 31337 then YokohamaLabProfile
  else if existsb IsLocalAnvil rpcURLs then YokohamaLabProfile
  else ProductionProfile.

(** ** indexer_config.go *)

Record IndexerConfig := mkIndexerConfig {
  ic_SyncMode : string;
  ic_RPCQuotaThreshold : float64;
  ic_RPCBalancedThreshold : float64;
  ic_RPCWindowLimit : Z;
  ic_RPCWindowDuration : Z;
  ic_MaxRPS : float64;
  ic_IdleTimeout : Z;
  ic_AnomalySensitivity : float64;
  ic_AutoWakeupEvent : string;
  ic_FetcherConcurrency : Z;
  ic_BatchSize : Z;
  ic_CheckpointBatch : Z;
  ic_DemoMode : bool;
  ic_AlwaysActive : bool
}.

Definition cfgSecond : Z := 1000000000.
Definition SyncModeAggressive : string := "aggressive".
Definition SyncModeBalanced : string := "balanced".
Definition SyncModeEco : string := "eco".

Definition DefaultConfig : IndexerConfig :=
  mkIndexerConfig SyncModeBalanced (fdec 80 100) (fdec 50 100) 300 (60 * cfgSecond) (float_of_Z 15) (5 * 60 * cfgSecond)
    (float_of_Z 1) "new_block" 4 50 100 false false.

Definition LocalLabConfig : IndexerConfig :=
  let c := DefaultConfig in
  mkIndexerConfig SyncModeAggressive (ic_RPCQuotaThreshold c) (ic_RPCBalancedThreshold c) 100000 (ic_RPCWindowDuration c)
    (float_of_Z 500) (30 * 60 * cfgSecond) (ic_AnomalySensitivity c) (ic_AutoWakeupEvent c) 16 200 500 (ic_DemoMode c) true.

Definition cset_SyncMode (m : string) (c : IndexerConfig) : IndexerConfig :=
  mkIndexerConfig m (ic_RPCQuotaThreshold c) (ic_RPCBalancedThreshold c) (ic_RPCWindowLimit c) (ic_RPCWindowDuration c)
    (ic_MaxRPS c) (ic_IdleTimeout c) (ic_AnomalySensitivity c) (ic_AutoWakeupEvent c) (ic_FetcherConcurrency c) (ic_BatchSize c)
    (ic_CheckpointBatch c) (ic_DemoMode c) (ic_AlwaysActive c).
Definition cset_AlwaysActive (c : IndexerConfig) : IndexerConfig :=
  mkIndexerConfig (ic_SyncMode c) (ic_RPCQuotaThreshold c) (ic_RPCBalancedThreshold c) (ic_RPCWindowLimit c) (ic_RPCWindowDuration c)
    (ic_MaxRPS c) (ic_IdleTimeout c) (ic_AnomalySensitivity c) (ic_AutoWakeupEvent c) (ic_FetcherConcurrency c) (ic_BatchSize c)
    (ic_CheckpointBatch c) (ic_DemoMode c) true.
Definition cset_DemoMode (c : IndexerConfig) : IndexerConfig :=
  mkIndexerConfig (ic_SyncMode c) (ic_RPCQuotaThreshold c) (ic_RPCBalancedThreshold c) (ic_RPCWindowLimit c) (ic_RPCWindowDuration c)
    (ic_MaxRPS c) (ic_IdleTimeout c) (ic_AnomalySensitivity c) (ic_AutoWakeupEvent c) (ic_FetcherConcurrency c) (ic_BatchSize c)
    (ic_CheckpointBatch c) true (ic_AlwaysActive c).

(** [NewConfigManagerFromEnv]: the configuration it starts with. *)
Definition configFromEnv (getenv : string → string) : IndexerConfig :=
  let isLocal v := existsb (Contains v) ["localhost"; "127.0.0.1"; "anvil"] in
  let cfg := if existsb (λ var, negb (String.eqb (getenv var) "") && isLocal (getenv var)) ["RPC_URLS"; "RPC_URL"; "DATABASE_URL"]
             then LocalLabConfig else DefaultConfig in
  let cfg := if String.eqb (getenv "SYNC_MODE") "" then cfg else cset_SyncMode (getenv "SYNC_MODE") cfg in
  let cfg := if String.eqb (getenv "ALWAYS_ACTIVE") "true" then cset_AlwaysActive cfg else cfg in
  if String.eqb (getenv "DEMO_MODE") "true" then cset_DemoMode cfg else cfg.

(** [validateConfig]; the messages are given by their formats. *)
Definition validateConfig (cfg : IndexerConfig) : option GoErr :=
  if float_leb (ic_RPCQuotaThreshold cfg) f0 || float_gtb (ic_RPCQuotaThreshold cfg) (float_of_Z 1) then
    Some (Errorf "rpc_quota_threshold must be in (0, 1], got %f")
  else if float_leb (ic_RPCBalancedThreshold cfg) f0 || float_geb (ic_RPCBalancedThreshold cfg) (ic_RPCQuotaThreshold cfg) then
    Some (Errorf "rpc_balanced_threshold must be in (0, rpc_quota_threshold), got %f")
  else if float_leb (ic_MaxRPS cfg) f0 then Some (Errorf "max_rps must be > 0, got %f")
  else if ic_RPCWindowLimit cfg <=? 0 then Some (Errorf "rpc_window_limit must be > 0, got %d")
  else if ic_FetcherConcurrency cfg <=? 0 then Some (Errorf "fetcher_concurrency must be > 0, got %d")
  else if (ic_BatchSize cfg <=? 0) || (2000 <? ic_BatchSize cfg) then Some (Errorf "batch_size must be in [1, 2000], got %d")
  else if existsb (String.eqb (ic_SyncMode cfg)) [SyncModeAggressive; SyncModeBalanced; SyncModeEco] then None
  else Some (Errorf "unknown sync_mode: %q").

(** [ConfigManager] over the world [W] its listeners act on. *)
Record ConfigManager (W : Type) := mkConfigManager {
  cm_current : IndexerConfig;
  cm_onChange : list (IndexerConfig → W → W);
  cm_world : W
}.
Arguments mkConfigManager {W}.
Arguments cm_current {W}.
Arguments cm_onChange {W}.
Arguments cm_world {W}.

Section manager.
Context {W : Type}.
Implicit Types cm : ConfigManager W.

Definition NewConfigManager (initial : IndexerConfig) (w : W) : ConfigManager W := mkConfigManager initial [] w.
Definition NewConfigManagerFromEnv (getenv : string → string) (w : W) : ConfigManager W := NewConfigManager (configFromEnv getenv) w.

(** [OnChange]. *)
Definition OnChange (fn : IndexerConfig → W → W) cm : ConfigManager W :=
mkConfigManager (cm_current cm) (cm_onChange cm ++ [fn])%list (cm_world cm).

(** [Update]. *)
Definition Update (next : IndexerConfig) : GoM (ConfigManager W) (option GoErr) :=
match validateConfig next with
| Some err => mret (Some err)
| None =>
  modify (λ cm, mkConfigManager next (cm_onChange cm) (cm_world cm));;
  modify (λ cm, mkConfigManager (cm_current cm) (cm_onChange cm) (foldl (λ w fn, fn next w) (cm_world cm) (cm_onChange cm)));;
  mret None
end.

(** [AnomalyGapThreshold]. *)
Definition AnomalyGapThreshold cm : Z :=
int64_of_float (float_mul (float_of_Z 1000) (ic_AnomalySensitivity (cm_current cm))).

(** [BuildSlidingWindowLimiter]. *)
Definition BuildSlidingWindowLimiter cm : SlidingWindowLimiter :=
let cfg := cm_current cm in
fst (SetThresholds (ic_RPCBalancedThreshold cfg) (ic_RPCQuotaThreshold cfg)
       (NewSlidingWindowLimiter (ic_RPCWindowLimit cfg) (ic_RPCWindowDuration cfg))).

Fixpoint updates (cs : list IndexerConfig) : GoM (ConfigManager W) unit :=
match cs with [] => mret tt | c :: rest => Update c;; updates rest end.
End manager.

(** ** eco_strategy.go *)

Record HeatStrategy := mkHeatStrategy { hs_tpsWindow : list float64; hs_isExhausted : bool; hs_lastHeat : float64 }.

Definition windowSize : nat := 60.
Definition wakeThreshold : float64 := float_of_Z 2.
Definition racingThreshold : float64 := float_of_Z 5.
Definition coolingThreshold : float64 := fdec 1 2.
Definition NewHeatStrategy : HeatStrategy := mkHeatStrategy [] false f0.

Definition RecordTPS (tps : float64) (s : HeatStrategy) : HeatStrategy :=
  let w := (hs_tpsWindow s ++ [tps])%list in
  mkHeatStrategy (if (windowSize <? length w)%nat then tail w else w) (hs_isExhausted s) tps.

Definition calculateAverage (s : HeatStrategy) : float64 :=
  match hs_tpsWindow s with
  | [] => f0
  | w => float_div (foldl float_add f0 w) (float_of_Z (Z.of_nat (length w)))
  end.

Definition ShouldWakeUp (currentTPS : float64) (s : HeatStrategy) : bool :=
  if hs_isExhausted s then false
  else if float_gtb currentTPS (float_mul (calculateAverage s) (float_of_Z 2)) then true
  else float_gtb currentTPS wakeThreshold.

(** [GetRecommendedPace], in nanoseconds. *)
Definition GetRecommendedPace (s : HeatStrategy) : Z :=
  let avg := calculateAverage s in
  let effectiveTPS := if float_gtb (hs_lastHeat s) (float_mul avg (float_of_Z 2)) then hs_lastHeat s else avg in
  if float_geb effectiveTPS racingThreshold then 200 * 1000000
  else if float_geb effectiveTPS wakeThreshold then 1 * cfgSecond
  else if float_geb effectiveTPS coolingThreshold then 5 * cfgSecond
  else 30 * cfgSecond.

Definition GetCurrentHeat (s : HeatStrategy) : float64 :=
  match hs_tpsWindow s with
  | [] => f0
  | _ =>
    let heat := float_mul (float_div (calculateAverage s) racingThreshold) (float_of_Z 100) in
    if float_gtb heat (float_of_Z 100) then float_of_Z 100 else heat
  end.

Definition ForceExhaustion (s : HeatStrategy) : HeatStrategy := mkHeatStrategy (hs_tpsWindow s) true (hs_lastHeat s).
Definition ResetExhaustion (s : HeatStrategy) : HeatStrategy := mkHeatStrategy (hs_tpsWindow s) false (hs_lastHeat s).

(** ** tps_monitor.go *)

Record TPSMonitor := mkTPSMonitor { tm_lastBlockTime : Z; tm_lastTPS : float64 }.
Definition NewTPSMonitor : TPSMonitor := mkTPSMonitor 0 f0.

Definition round2 (f : float64) : float64 := float_div (math_Round (float_mul f (float_of_Z 100))) (float_of_Z 100).

(** [CalculateChainTPS]: the block's time and its number of transactions. *)
Definition CalculateChainTPS (currentTime txCount : Z) (m : TPSMonitor) : TPSMonitor * float64 :=
  if tm_lastBlockTime m =? 0 then (mkTPSMonitor currentTime (tm_lastTPS m), f0)
  else
    let duration := sub_u64 currentTime (tm_lastBlockTime m) in
    if duration =? 0 then (mkTPSMonitor currentTime (tm_lastTPS m), tm_lastTPS m)
    else
      let tps := round2 (float_div (float_of_Z txCount) (float_of_Z duration)) in
      (mkTPSMonitor currentTime tps, tps).

(** [CalculateIngestionRate]; [seconds] is [duration.Seconds()]. *)
Definition CalculateIngestionRate (recordCount : Z) (seconds : float64) : float64 :=
  if SFeqb seconds f0 then f0 else round2 (float_div (float_of_Z recordCount) seconds).

(** ** Lemmas *)

(** The two detectors agree. *)
Lemma policy_profile_agree rpcURLs chainID :
  let p := GetPolicy rpcURLs chainID in
  let q := GetPerformanceProfile rpcURLs chainID in
  ip_AllowSleep p = pp_AllowSleep q ∧ ip_EnforceQuota p = pp_EnforceQuota q ∧ ip_BurstBatchSize p = pp_BatchSize q ∧
  ip_LabMode p = pp_EnableAggressiveBatch q.
Proof. unfold GetPolicy, GetPerformanceProfile. by repeat case_match. Qed.

Lemma Contains_mid a sub b : Contains (a ++ sub ++ b) sub = true.
Proof.
  assert (Hp : ∀ s t, String.prefix s (s ++ t) = true).
  { induction s as [| c s IH]; intros t; simpl; [by destruct t |]. destruct (ascii_dec c c); [apply IH | done]. }
  assert (Hc : ∀ s, String.prefix sub s = true → Contains s sub = true).
  { intros s Hs. destruct s; cbn [Contains]; by rewrite Hs. }
  induction a as [| c a IH]; [apply Hc; exact (Hp sub b) |]. 
  change (String.prefix sub (String c (a ++ sub ++ b)) || Contains (a ++ sub ++ b) sub = true). by rewrite IH, orb_true_r.
Qed.

Lemma ToLower_app s t : ToLower (s ++ t) = ToLower s ++ ToLower t.
Proof. induction s as [| c s IH]; simpl; [done | by rewrite IH]. Qed.

(** Any node on port 8545 is taken for a local one, and the quota is lifted. *)
Lemma port_8545_is_local host path chainID : ip_EnforceQuota (GetPolicy [host ++ ":8545" ++ path] chainID) = false.
Proof.
  unfold GetPolicy. destruct (Z.eqb_spec chainID 31337); [done |]. assert (H : IsLocalAnvil (host ++ ":8545" ++ path) = true).
  { unfold IsLocalAnvil, anvilSignals. rewrite !ToLower_app. cbn [existsb].
    change (ToLower ":8545") with ":8545". by rewrite Contains_mid, !orb_true_r. }
  cbn [existsb]. by rewrite H.
Qed.

Lemma defaults_valid : validateConfig DefaultConfig = None ∧ validateConfig LocalLabConfig = None.
Proof. split; by vm_compute. Qed.

(** [NewConfigManagerFromEnv] does not validate: an unknown mode in the
    environment becomes the live configuration. *)
Lemma env_not_validated {W} (w : W) :
  let getenv v := if String.eqb v "SYNC_MODE" then "turbo" else "" in
  validateConfig (cm_current (NewConfigManagerFromEnv getenv w)) = Some (Errorf "unknown sync_mode: %q").
Proof. by vm_compute. Qed.

Lemma anomaly_threshold_default {W} (w : W) : AnomalyGapThreshold (NewConfigManager DefaultConfig w) = 1000.
Proof. by vm_compute. Qed.

Lemma Update_wp {W} next (cm : ConfigManager W) (Q : outcome (option GoErr) → ConfigManager W → Prop) :
  (∀ err, validateConfig next = Some err → Q (Val (Some err)) cm) →
  (validateConfig next = None →
   Q (Val None) (mkConfigManager next (cm_onChange cm) (foldl (λ w fn, fn next w) (cm_world cm) (cm_onChange cm)))) →
  wp (Update next) Q cm.
Proof.
  intros H1 H2. unfold Update. destruct (validateConfig next) as [err |] eqn:E; [by apply wp_ret, H1 |].
  by apply wp_bind, wp_modify, wp_bind, wp_modify, wp_ret, H2.
Qed.

(** *** Rates *)

Lemma RecordTPS_window tps s :
  (length (hs_tpsWindow s) ≤ windowSize)%nat →
  (length (hs_tpsWindow (RecordTPS tps s)) ≤ windowSize)%nat ∧ last (hs_tpsWindow (RecordTPS tps s)) = Some tps ∧
  hs_isExhausted (RecordTPS tps s) = hs_isExhausted s.
Proof.
  intros H. unfold RecordTPS. cbn [hs_tpsWindow hs_isExhausted]. case_match eqn:E.
  - destruct (hs_tpsWindow s) as [| x w]; [done |]. cbn [tail app] in *. rewrite last_snoc.
    rewrite length_app in *. simpl in *. split_and!; [lia | done | done].
  - apply Nat.ltb_ge in E. by rewrite last_snoc.
Qed.

(** Exhaustion decides the wake-up, but not the recommended pace. *)
Lemma exhausted_never_wakes tps s : ShouldWakeUp tps (ForceExhaustion s) = false.
Proof. done. Qed.
Lemma exhausted_pace_unchanged s : GetRecommendedPace (ForceExhaustion s) = GetRecommendedPace s.
Proof. done. Qed.

(** With an empty window every positive rate wakes the engine, however far below
    the threshold of two per second. *)
Lemma first_transaction_wakes : ShouldWakeUp (fdec 1 1000) NewHeatStrategy = true.
Proof. by vm_compute. Qed.

(** A block older than the one before it gives a huge unsigned duration. *)
Lemma older_block_zero_tps :
  snd (CalculateChainTPS 99 200 (mkTPSMonitor 100 (float_of_Z 17))) = f0.
Proof. by vm_compute. Qed.
Lemma CalculateChainTPS_example :
  snd (CalculateChainTPS 1234567902 200 (mkTPSMonitor 1234567890 f0)) = fdec 1667 100.
Proof. by vm_compute. Qed.

(** ** Properties *)

(** The live configuration is always a valid one, and the listeners follow
    it.  After any sequence of updates from a valid configuration, the current
    one is the last that passed validation, refused ones change nothing, and each
    listener was called, in the order of registration, with exactly the accepted
    configurations in their order. *)
Theorem config_stays_valid {W} (cs : list IndexerConfig) (cm : ConfigManager W) :
  validateConfig (cm_current cm) = None →
  let accepted := filter (λ c, validateConfig c = None) cs in
  wp (updates cs) (λ o cm', o = Val tt ∧ validateConfig (cm_current cm') = None ∧
    cm_current cm' = default (cm_current cm) (last accepted) ∧ cm_onChange cm' = cm_onChange cm ∧
    cm_world cm' = foldl (λ w c, foldl (λ w fn, fn c w) w (cm_onChange cm)) (cm_world cm) accepted) cm.
Proof.
  revert cm. induction cs as [| c cs IH]; intros cm Hv accepted; simpl; [by apply wp_ret |].
  apply wp_bind. unfold accepted. rewrite filter_cons. apply Update_wp.
  - intros err E. rewrite decide_False by congruence. by apply IH.
  - intros E. rewrite decide_True by done. eapply wp_mono; [by apply IH |].
    intros o cm' (-> & H1 & H2 & H3 & H4). split_and!; [done | done | | done | done].
    rewrite H2. simpl. destruct (filter _ cs) as [| d l] eqn:El using rev_ind; [done |]. clear IHl.
    by rewrite app_comm_cons, !last_snoc.
Qed.

(** The heat window never exceeds sixty samples.  From a new strategy, after
    any sequence of recorded rates the window holds the latest ones, at most
    sixty of them; the recommended pace is one of four. *)
Theorem heat_window_bounded (rates : list float64) :
  let s := foldl (λ s r, RecordTPS r s) NewHeatStrategy rates in
  hs_tpsWindow s = drop (length rates - windowSize) rates ∧ (length (hs_tpsWindow s) ≤ windowSize)%nat ∧
  GetRecommendedPace s ∈ [200 * 1000000; 1 * cfgSecond; 5 * cfgSecond; 30 * cfgSecond].
Proof.
  intros s. assert (H : hs_tpsWindow s = drop (length rates - windowSize) rates).
  { unfold s. clear s. induction rates as [| r rates IH] using rev_ind; [done |].
    rewrite foldl_app. set (s0 := foldl _ NewHeatStrategy rates) in *. cbn [foldl]. unfold RecordTPS at 1. cbn [hs_tpsWindow].
    rewrite IH, !length_app, length_drop. cbn [length].
    destruct (Nat.ltb_spec windowSize (length rates - (length rates - windowSize) + 1)) as [Hl | Hl].
    - replace (length rates + 1 - windowSize)%nat with (S (length rates - windowSize)) by lia.
      rewrite <- drop_app_le by lia. change (tail (drop (length rates - windowSize) (rates ++ [r])))
        with (drop 1 (drop (length rates - windowSize) (rates ++ [r]))). by rewrite drop_drop, Nat.add_1_r.
    - replace (length rates - windowSize)%nat with 0%nat by lia.
      by replace (length rates + 1 - windowSize)%nat with 0%nat by lia. }
  split_and!; [done | rewrite H, length_drop; lia |].
  unfold GetRecommendedPace. repeat case_match; set_solver.
Qed.

(** ** Witnesses *)

Lemma config_stays_valid_witness :
  let bad := cset_SyncMode "turbo" DefaultConfig in
  let cm := OnChange (λ c w, ic_BatchSize c :: w) (NewConfigManager DefaultConfig []) in
  let cm' := fst (updates [LocalLabConfig; bad] cm) in
  cm_current cm' = LocalLabConfig ∧ cm_world cm' = [200].
Proof.
  intros bad cm cm'.
  destruct (config_stays_valid [LocalLabConfig; bad] cm) as (_ & _ & H1 & _ & H2); [by vm_compute |].
  split; [etransitivity; [exact H1 | by vm_compute] | etransitivity; [exact H2 | by vm_compute]].
Defined.
