(* ===== verification/Monitor.v ===== *)
(** * Rates and quotas (internal/monitor/stats.go, quota_monitor.go;
    internal/engine/metrics_methods.go)

    The ring of five one-second buckets behind the rates the engine reports, the
    daily quota of RPC calls, and the counters of [Metrics] that the engine reads
    back (its gauges and histograms are written to Prometheus only). *)

From S2P Require Import Prelude GoInt Types.
From Stdlib Require Import ZArith Lia String SpecFloat.
From stdpp Require Import base strings list.
Open Scope string_scope.
Open Scope Z_scope.

(** ** stats.go *)

Definition secondNs : Z := 1000000000.

(** [TPSMonitor]: its five buckets, the current one, the last tick. *)
Record TPSMonitor := mkTPSMonitor { tps_buckets : list Z; tps_currentPos : nat; tps_lastTick : Z }.

Definition NewTPSMonitor (now : Z) : TPSMonitor := mkTPSMonitor [0; 0; 0; 0; 0] 0 now.

(** One turn of the loop that advances: the next bucket is cleared. *)
Definition advance (m : TPSMonitor) : TPSMonitor :=
  let pos := ((tps_currentPos m + 1) mod 5)%nat in
  mkTPSMonitor (<[pos := 0]> (tps_buckets m)) pos (tps_lastTick m).

(** [int(now.Sub(m.lastTick).Seconds())]: whole seconds. *)
Definition elapsedSeconds (now lastTick : Z) : Z := Z.quot (now - lastTick) secondNs.

Definition roll (now : Z) (m : TPSMonitor) : TPSMonitor :=
  let elapsed := elapsedSeconds now (tps_lastTick m) in
  if 1 <=? elapsed then
    let m := if 5 <=? elapsed then mkTPSMonitor [0; 0; 0; 0; 0] 0 (tps_lastTick m)
             else Nat.iter (Z.to_nat elapsed) advance m in
    mkTPSMonitor (tps_buckets m) (tps_currentPos m) now
  else m.

(** stats.go, [Record]: on a 64-bit [int]. *)
Definition Record_ (now count : Z) (m : TPSMonitor) : TPSMonitor :=
  let m := roll now m in
  mkTPSMonitor (alter (λ b, i64 (b + count)) (tps_currentPos m) (tps_buckets m)) (tps_currentPos m) (tps_lastTick m).

Definition bucketSum (m : TPSMonitor) : Z := foldl (λ s b, i64 (s + b)) 0 (tps_buckets m).

(** stats.go, [GetTPS]. *)
Definition GetTPS (now : Z) (m : TPSMonitor) : float64 :=
  if 5 * secondNs <? now - tps_lastTick m then float_of_Z 0
  else float_div (float_of_Z (bucketSum m)) (float_of_Z 5).

(** ** quota_monitor.go *)

Definition MaxDailyQuota : Z := 300000.
Definition AlertThreshold : float64 := float_div (float_of_Z 80) (float_of_Z 100).
Definition CriticalThreshold : float64 := float_div (float_of_Z 90) (float_of_Z 100).

(** [QuotaMonitor] with the last values of its two gauges. *)
Record QuotaMonitor := mkQuotaMonitor { qm_dailyCalls : Z; qm_usageGauge : float64; qm_statusGauge : Z }.
Definition NewQuotaMonitor : QuotaMonitor := mkQuotaMonitor 0 (float_of_Z 0) 0.

Definition quotaStatus (usagePercent : float64) : Z :=
  if SFleb CriticalThreshold usagePercent then 2 else if SFleb AlertThreshold usagePercent then 1 else 0.

(** [Inc]. *)
Definition Inc (m : QuotaMonitor) : QuotaMonitor :=
  let current := add_u64 (qm_dailyCalls m) 1 in
  let usagePercent := float_div (float_of_Z current) (float_of_Z MaxDailyQuota) in
  mkQuotaMonitor current (float_mul usagePercent (float_of_Z 100)) (quotaStatus usagePercent).

(** [GetUsagePercent], [ResetDaily]. *)
Definition GetUsagePercent (m : QuotaMonitor) : float64 :=
  float_mul (float_div (float_of_Z (qm_dailyCalls m)) (float_of_Z MaxDailyQuota)) (float_of_Z 100).
Definition ResetDaily (m : QuotaMonitor) : QuotaMonitor := mkQuotaMonitor 0 (float_of_Z 0) 0.

(** ** metrics_methods.go

    The fields of [Metrics] that are read back. *)
Record Metrics := mkMetrics {
  mt_totalTxProcessed : Z;
  mt_totalBlocksProcessed : Z;
  mt_lastSyncHeight : Z;
  mt_lastChainHeight : Z;
  mt_tpsMonitor : TPSMonitor;
  mt_bpsMonitor : TPSMonitor
}.

Definition NewMetrics (now : Z) : Metrics := mkMetrics 0 0 0 0 (NewTPSMonitor now) (NewTPSMonitor now).

Definition RecordActivity (now count : Z) (m : Metrics) : Metrics :=
  mkMetrics (mt_totalTxProcessed m) (mt_totalBlocksProcessed m) (mt_lastSyncHeight m) (mt_lastChainHeight m)
    (Record_ now count (mt_tpsMonitor m)) (mt_bpsMonitor m).
Definition RecordBlockActivity (now count : Z) (m : Metrics) : Metrics :=
  mkMetrics (mt_totalTxProcessed m) (mt_totalBlocksProcessed m) (mt_lastSyncHeight m) (mt_lastChainHeight m)
    (mt_tpsMonitor m) (Record_ now count (mt_bpsMonitor m)).
Definition RecordBlockProcessed (now : Z) (m : Metrics) : Metrics :=
  RecordBlockActivity now 1
    (mkMetrics (mt_totalTxProcessed m) (add_u64 (mt_totalBlocksProcessed m) 1) (mt_lastSyncHeight m) (mt_lastChainHeight m)
       (mt_tpsMonitor m) (mt_bpsMonitor m)).
Definition RecordTransferProcessed (m : Metrics) : Metrics :=
  mkMetrics (add_u64 (mt_totalTxProcessed m) 1) (mt_totalBlocksProcessed m) (mt_lastSyncHeight m) (mt_lastChainHeight m)
    (mt_tpsMonitor m) (mt_bpsMonitor m).
(** The value [recalculateLag] gives to the gauge. *)
Definition recalculateLag (m : Metrics) : Z :=
  let lag := SafeInt64Diff (u64 (Z.max 0 (mt_lastChainHeight m))) (u64 (Z.max 0 (mt_lastSyncHeight m))) in
  if lag <? 0 then 0 else lag.
(** [lastSyncHeight.Store], [lastChainHeight.Store]. *)
Definition UpdateCurrentSyncHeight (height : Z) (m : Metrics) : Metrics :=
  mkMetrics (mt_totalTxProcessed m) (mt_totalBlocksProcessed m) height (mt_lastChainHeight m) (mt_tpsMonitor m) (mt_bpsMonitor m).
Definition UpdateChainHeight (height : Z) (m : Metrics) : Metrics :=
  mkMetrics (mt_totalTxProcessed m) (mt_totalBlocksProcessed m) (mt_lastSyncHeight m) height (mt_tpsMonitor m) (mt_bpsMonitor m).
Definition GetSnapshot (m : Metrics) : Z * Z * Z * Z := (mt_totalTxProcessed m, mt_totalBlocksProcessed m, 0, 0).
Definition GetWindowTPS (now : Z) (m : Metrics) : float64 := GetTPS now (mt_tpsMonitor m).
Definition GetWindowBPS (now : Z) (m : Metrics) : float64 := GetTPS now (mt_bpsMonitor m).

(** ** Lemmas: the ring *)

(** The buckets from the current one backwards. *)
Definition ringView (m : TPSMonitor) : list Z :=
  (λ j, default 0 (tps_buckets m !! ((tps_currentPos m + 5 - j) mod 5)%nat)) <$> [0; 1; 2; 3; 4]%nat.

Definition ring_ok (m : TPSMonitor) : Prop := length (tps_buckets m) = 5%nat ∧ (tps_currentPos m < 5)%nat.

(** A ring of five, bucket by bucket. *)
Ltac ring_cases m :=
  destruct m as [bs pos t]; unfold ring_ok in *; simpl in *;
  destruct bs as [| b0 [| b1 [| b2 [| b3 [| b4 [| b5 bs]]]]]]; simpl in *; try lia;
  destruct pos as [| [| [| [| [| pos]]]]]; try lia.

Lemma ringView_advance m : ring_ok m → ringView (advance m) = 0 :: take 4 (ringView m) ∧ ring_ok (advance m).
Proof. intros [H1 H2]. ring_cases m; repeat split; simpl; lia || done. Qed.

Lemma ringView_advances k m :
  ring_ok m → (k ≤ 5)%nat →
  ringView (Nat.iter k advance m) = (repeat 0 k ++ take (5 - k) (ringView m))%list ∧ ring_ok (Nat.iter k advance m).
Proof.
  intros Hm. induction k as [| k IH]; intros Hk.
  - split; [| done]. symmetry. by apply take_ge.
  - destruct IH as [E Hok]; [lia |]. change (Nat.iter (S k) advance m) with (advance (Nat.iter k advance m)).
    destruct (ringView_advance _ Hok) as [-> Hok']. split; [| done]. rewrite E. cbn [repeat app]. f_equal. assert (Hl : length (ringView m) = 5%nat) by done.
    rewrite take_app, repeat_length, firstn_all2 by (rewrite repeat_length; lia). f_equal. rewrite take_take. f_equal. lia.
Qed.

(** What a record adds goes into the current bucket. *)
Lemma ringView_alter f m :
  ring_ok m →
  let m' := mkTPSMonitor (alter f (tps_currentPos m) (tps_buckets m)) (tps_currentPos m) (tps_lastTick m) in
  ringView m' = match ringView m with b :: v => f b :: v | [] => [] end ∧ ring_ok m'.
Proof. intros [H1 H2]. ring_cases m; by repeat split; simpl; try lia. Qed.

Lemma i64_mod z : i64 z mod 2 ^ 64 = z mod 2 ^ 64.
Proof.
  unfold i64, wrap_s. case_match; [by rewrite Z.mod_mod |].
  by rewrite <- (Z.mod_add _ 1), Z.mul_1_l, Z.sub_add, Z.mod_mod.
Qed.

Lemma i64_congr a b : a mod 2 ^ 64 = b mod 2 ^ 64 → i64 a = i64 b.
Proof. unfold i64, wrap_s. by intros ->. Qed.

Lemma i64_add a b : i64 (i64 a + b) = i64 (a + b).
Proof. apply i64_congr. by rewrite Z.add_mod, i64_mod, <- Z.add_mod. Qed.

Lemma i64_add_r a b : i64 (a + i64 b) = i64 (a + b).
Proof. by rewrite Z.add_comm, i64_add, Z.add_comm. Qed.

Definition sumZ (l : list Z) : Z := foldr Z.add 0 l.
Lemma sumZ_app l k : sumZ (l ++ k) = sumZ l + sumZ k.
Proof. induction l as [| x l IH]; simpl; [done | rewrite IH; lia]. Qed.

Lemma foldl_i64 a l : foldl (λ s b, i64 (s + b)) (i64 a) l = i64 (a + sumZ l).
Proof.
  revert a. induction l as [| b l IH]; intros a; simpl; [by rewrite Z.add_0_r |]. rewrite i64_add, IH. f_equal. lia.
Qed.

Lemma bucketSum_view m : ring_ok m → bucketSum m = i64 (sumZ (ringView m)).
Proof.
  intros Hm. unfold bucketSum. change 0 with (i64 0) at 1. rewrite foldl_i64. f_equal.
  destruct Hm as [H1 H2]. ring_cases m; unfold ringView, sumZ; simpl; lia.
Qed.

(** *** What the buckets hold

    The records seen so far as pairs of a time and a count.  The last five
    groups, newest first, are those in the buckets. *)

Definition countSum (rs : list (Z * Z)) : Z := sumZ rs.*2.

Lemma countSum_app a b : countSum (a ++ b) = countSum a + countSum b.
Proof. unfold countSum. by rewrite fmap_app, sumZ_app. Qed.

(** [j] slots back: between [j] and [2 * j] seconds before the last tick, and up
    to a second more recent. *)
Definition in_slot (t : Z) (j : nat) (r : Z * Z) : Prop :=
  t - 2 * Z.of_nat j * secondNs ≤ fst r ∧ fst r < t - Z.of_nat j * secondNs + secondNs.

Definition held (m : TPSMonitor) (hist old : list (Z * Z)) (gs : list (list (Z * Z))) : Prop :=
  ring_ok m ∧ length gs = 5%nat ∧ hist = (old ++ concat (reverse gs))%list ∧
  ringView m = (λ g, i64 (countSum g)) <$> gs ∧
  (∀ j g r, gs !! j = Some g → r ∈ g → in_slot (tps_lastTick m) j r) ∧
  (∀ r, r ∈ old → fst r < tps_lastTick m - 4 * secondNs).

Lemma elapsedSeconds_spec now t :
  t ≤ now → let e := elapsedSeconds now t in 0 ≤ e ∧ t + e * secondNs ≤ now < t + (e + 1) * secondNs.
Proof.
  intros H. unfold elapsedSeconds. rewrite Z.quot_div_nonneg by (unfold secondNs; lia).
  pose proof (Z.div_mod (now - t) secondNs). pose proof (Z.mod_pos_bound (now - t) secondNs). unfold secondNs in *.
  split; [apply Z.div_pos |]; lia.
Qed.

Lemma concat_reverse_shift (k : nat) (gs : list (list (Z * Z))) :
  (k ≤ length gs)%nat →
  concat (reverse gs) = (concat (reverse (drop (length gs - k) gs)) ++ concat (reverse (repeat [] k ++ take (length gs - k) gs)))%list.
Proof.
  intros Hk. rewrite <- (take_drop (length gs - k) gs) at 1. rewrite !reverse_app, !concat_app. f_equal.
  assert (H : ∀ k, concat (reverse (repeat ([] : list (Z * Z)) k)) = []).
  { clear. induction k as [| k IH]; simpl; [done |]. by rewrite reverse_cons, concat_app, IH. }
  by rewrite H, app_nil_r.
Qed.

(** Rolling forward by [k] slots moves the last [k] groups out. *)
Lemma held_shift m m' hist old gs k :
  held m hist old gs → (1 ≤ k ≤ 5)%nat → ring_ok m' →
  ringView m' = (repeat 0%Z k ++ take (5 - k) (ringView m))%list →
  tps_lastTick m + Z.of_nat k * secondNs ≤ tps_lastTick m' →
  ((k < 5)%nat → tps_lastTick m' < tps_lastTick m + (Z.of_nat k + 1) * secondNs) →
  ∃ old', held m' hist old' (repeat [] k ++ take (5 - k) gs)%list.
Proof.
  intros (Hok & Hl & Hh & Hv & Hin & Hold) Hk Hok' Hv' Hlo Hhi. exists (old ++ concat (reverse (drop (5 - k) gs)))%list.
  split_and!; [done | | | | |].
  - rewrite length_app, repeat_length, length_take. lia.
  - rewrite Hh, (concat_reverse_shift k gs), Hl by lia. by rewrite app_assoc.
  - rewrite Hv', Hv, fmap_app, fmap_take. f_equal. clear. induction k as [| k IH]; simpl; [done | by rewrite IH].
  - intros j g r Hj Hr. destruct (decide (j < k)%nat) as [Hjk | Hjk].
    + rewrite lookup_app_l in Hj by (rewrite repeat_length; lia).
      apply list_elem_of_lookup_2 in Hj. assert (E : g = []) by (apply (repeat_spec k []), list_elem_of_In; done).
      subst g. by apply elem_of_nil in Hr.
    + rewrite lookup_app_r in Hj by (rewrite repeat_length; lia). rewrite repeat_length in Hj.
      apply lookup_take_Some in Hj as [Hj Hj5]. destruct (Hin _ _ _ Hj Hr) as [H1 H2].
      specialize (Hhi ltac:(lia)). unfold in_slot in *. unfold secondNs in *. lia.
  - intros r [Hr | Hr]%elem_of_app; [apply Hold in Hr; unfold secondNs in *; lia |].
    apply list_elem_of_In, in_concat in Hr as (g & Hg & Hr). apply list_elem_of_In in Hg, Hr.
    rewrite elem_of_reverse in Hg. apply list_elem_of_lookup in Hg as [j Hj]. rewrite lookup_drop in Hj.
    pose proof (lookup_lt_Some _ _ _ Hj).
    destruct (Hin _ _ _ Hj Hr) as [H1 H2]. unfold in_slot, secondNs in *. lia.
Qed.

Lemma roll_held now m hist old gs :
  held m hist old gs → tps_lastTick m ≤ now →
  ∃ old' gs', held (roll now m) hist old' gs' ∧ tps_lastTick (roll now m) ≤ now < tps_lastTick (roll now m) + secondNs.
Proof.
  intros Hh Hn. pose proof (elapsedSeconds_spec now (tps_lastTick m) Hn) as (He0 & He1 & He2).
  unfold roll. set (e := elapsedSeconds now (tps_lastTick m)) in *. destruct (Z.leb_spec 1 e).
  - destruct (Z.leb_spec 5 e).
    + destruct (held_shift m (mkTPSMonitor [0; 0; 0; 0; 0] 0 now) hist old gs 5) as [old' H'];
        [done | lia | by split; simpl; [| lia] | by rewrite app_nil_r | simpl; unfold secondNs in *; lia | lia |].
      eexists _, _. split; [exact H' | simpl; unfold secondNs; lia].
    + destruct (ringView_advances (Z.to_nat e) m) as [Ev Eok]; [apply Hh | lia |].
      set (m1 := Nat.iter (Z.to_nat e) advance m) in *.
      destruct (held_shift m (mkTPSMonitor (tps_buckets m1) (tps_currentPos m1) now) hist old gs (Z.to_nat e)) as [old' H'];
        [done | lia | exact Eok | exact Ev | simpl; unfold secondNs in *; lia | simpl; unfold secondNs in *; lia |].
      eexists _, _. split; [exact H' | simpl; unfold secondNs; lia].
  - assert (e = 0) by lia. exists old, gs. split; [done |]. unfold secondNs in *. lia.
Qed.

Lemma Record_held now count m hist old gs :
  held m hist old gs → tps_lastTick m ≤ now →
  ∃ old' gs', held (Record_ now count m) (hist ++ [(now, count)])%list old' gs' ∧
              tps_lastTick (Record_ now count m) ≤ now < tps_lastTick (Record_ now count m) + secondNs.
Proof.
  intros Hh Hn. destruct (roll_held now m hist old gs Hh Hn) as (old1 & gs1 & (Hok & Hl & Hhist & Hv & Hin & Hold) & Ht).
  unfold Record_. set (m1 := roll now m) in *. destruct (ringView_alter (λ b, i64 (b + count)) m1 Hok) as [Ev Eok].
  destruct gs1 as [| g0 gs1]; [done |]. exists old1, ((g0 ++ [(now, count)])%list :: gs1). split; [| exact Ht].
  split_and!; [exact Eok | exact Hl | | | | exact Hold].
  - rewrite Hhist, !reverse_cons, !concat_app. simpl. by rewrite !app_nil_r, !app_assoc.
  - rewrite Ev, Hv. simpl. f_equal. rewrite countSum_app, i64_add. f_equal. change (countSum [(now, count)]) with (count + 0). lia.
  - intros [| j] g r Hj Hr; simpl in Hj.
    + injection Hj as <-. apply elem_of_app in Hr as [Hr | ->%list_elem_of_singleton]; [by apply (Hin 0%nat g0) |].
      unfold in_slot. cbn [tps_lastTick fst]. unfold secondNs in *. lia.
    + by apply (Hin (S j) g).
Qed.

(** Adding up the buckets is adding up the records. *)
Lemma held_sum (gs : list (list (Z * Z))) :
  sumZ ((λ g, i64 (countSum g)) <$> gs) mod 2 ^ 64 = countSum (concat (reverse gs)) mod 2 ^ 64.
Proof.
  induction gs as [| g gs IH]; [done |].
  rewrite fmap_cons, reverse_cons, concat_app, countSum_app.
  change (sumZ (i64 (countSum g) :: ((λ g, i64 (countSum g)) <$> gs)))
    with (i64 (countSum g) + sumZ ((λ g, i64 (countSum g)) <$> gs)).
  rewrite Z.add_mod, i64_mod, IH, <- Z.add_mod by done. 
  cbn [concat app]. rewrite app_nil_r. f_equal. lia.
Qed.

(** Records in the order of the clock, none before [t]. *)
Fixpoint clocked (t : Z) (hist : list (Z * Z)) : Prop :=
  match hist with [] => True | (now, _) :: rest => t ≤ now ∧ clocked now rest end.

(** The time of the last record. *)
Definition lastTime (t : Z) (hist : list (Z * Z)) : Z := foldl (λ _ r, fst r) t hist.

Lemma records_held hist m hist0 old gs t :
  held m hist0 old gs → tps_lastTick m ≤ t < tps_lastTick m + secondNs → clocked t hist →
  let m' := foldl (λ m r, Record_ (fst r) (snd r) m) m hist in
  tps_lastTick m' ≤ lastTime t hist < tps_lastTick m' + secondNs ∧ ∃ old' gs', held m' (hist0 ++ hist)%list old' gs'.
Proof.
  revert m hist0 old gs t. induction hist as [| [now count] hist IH]; intros m hist0 old gs t Hh Ht Hc; simpl.
  - split; [exact Ht |]. exists old, gs. by rewrite app_nil_r.
  - destruct Hc as [Hn Hc]. destruct (Record_held now count m hist0 old gs Hh) as (old1 & gs1 & Hh1 & Ht1); [lia |].
    rewrite cons_middle, app_assoc. eapply IH; [exact Hh1 | exact Ht1 | exact Hc].
Qed.

Lemma elem_of_groups (gs : list (list (Z * Z))) r : r ∈ concat (reverse gs) → ∃ j g, gs !! j = Some g ∧ r ∈ g.
Proof.
  intros (g & Hg & Hr)%list_elem_of_In%in_concat. apply list_elem_of_In in Hg, Hr.
  rewrite elem_of_reverse in Hg. apply list_elem_of_lookup in Hg as [j Hj]. eauto.
Qed.

(** The buckets after any records: a suffix of them, between four and eight
    seconds before the last tick; no record is a second later than the tick. *)
Lemma buckets_hold_suffix t0 hist :
  clocked t0 hist →
  let m := foldl (λ m r, Record_ (fst r) (snd r) m) (NewTPSMonitor t0) hist in
  tps_lastTick m ≤ lastTime t0 hist < tps_lastTick m + secondNs ∧
  ∃ old recent, hist = (old ++ recent)%list ∧ bucketSum m = i64 (countSum recent) ∧
    (∀ r, r ∈ recent → tps_lastTick m - 8 * secondNs ≤ fst r < tps_lastTick m + secondNs) ∧
    (∀ r, r ∈ old → fst r < tps_lastTick m - 4 * secondNs).
Proof.
  intros Hc m.
  destruct (records_held hist (NewTPSMonitor t0) [] [] [[]; []; []; []; []] t0) as (Ht & old & gs & Hok & Hl & Hh & Hv & Hin & Hold);
    [| simpl; unfold secondNs; lia | done |].
  { split_and!; try done; [split; simpl; lia | | by intros r Hr%elem_of_nil].
    intros j g r Hj Hr. do 5 (destruct j as [| j]; [injection Hj as <-; by apply elem_of_nil in Hr |]). done. }
  fold m in Ht, Hok, Hh, Hv, Hin, Hold. split; [exact Ht |]. exists old, (concat (reverse gs)). split_and!; [exact Hh | | | exact Hold].
  - rewrite bucketSum_view, Hv by done. apply i64_congr, held_sum.
  - intros r (j & g & Hj & Hr)%elem_of_groups. pose proof (lookup_lt_Some _ _ _ Hj).
    destruct (Hin _ _ _ Hj Hr) as [H1 H2]. unfold secondNs in *. lia.
Qed.

(** ** Properties *)

(** C27: What the rate counts when it is read.  After any records on a clock
    that does not go back, a reading of [GetTPS] at [now] is a fifth of the sum
    (modulo [2^64]) of exactly a suffix of the records: of all those that are at
    most four seconds old at the reading, and of none that is more than thirteen
    seconds old; of none at all once the last record is more than five seconds
    old.  The five seconds of the comment are neither bound: both others are
    nearly reached ([thirteen_seconds_old], [four_seconds_lost]). *)
Theorem rate_window (t0 now : Z) (hist : list (Z * Z)) :
  clocked t0 hist → lastTime t0 hist ≤ now →
  let m := foldl (λ m r, Record_ (fst r) (snd r) m) (NewTPSMonitor t0) hist in
  ∃ old recent, hist = (old ++ recent)%list ∧
    GetTPS now m = float_div (float_of_Z (i64 (countSum recent))) (float_of_Z 5) ∧
    (∀ r, r ∈ recent → now - fst r ≤ 13 * secondNs) ∧
    (∀ r, r ∈ old → 4 * secondNs < now - fst r) ∧
    (5 * secondNs < now - lastTime t0 hist → recent = []).
Proof.
  intros Hc Hn m. destruct (buckets_hold_suffix t0 hist Hc) as (Ht & old & recent & Eh & Es & Hr & Ho). fold m in Ht, Es, Hr, Ho.
  unfold GetTPS. destruct (Z.ltb_spec (5 * secondNs) (now - tps_lastTick m)) as [Hlt | Hle].
  - exists hist, []. split_and!; [by rewrite app_nil_r | by vm_compute | by intros r ?%elem_of_nil | | done].
    intros r Hin. rewrite Eh in Hin. unfold secondNs in *. apply elem_of_app in Hin as [Hin | Hin]; [apply Ho in Hin | apply Hr in Hin]; lia.
  - exists old, recent. split_and!; [exact Eh | by rewrite Es | | |].
    + intros r Hin%Hr. unfold secondNs in *. lia.
    + intros r Hin%Ho. unfold secondNs in *. lia.
    + unfold secondNs in *. lia.
Qed.

(** One record every 1.999 seconds, ten each: the rate reported is twice the
    true one; five seconds later the reading still counts a record of nearly
    thirteen seconds. *)
Lemma window_stretches :
  let hist := (λ k, (k * 1999000000, 10)) <$> [0; 1; 2; 3; 4; 5; 6] in
  let m := foldl (λ m r, Record_ (fst r) (snd r) m) (NewTPSMonitor 0) hist in
  bucketSum m = 50 ∧ GetTPS (6 * 1999000000) m = float_of_Z 10.
Proof. split; by vm_compute. Qed.

Example thirteen_seconds_old :
  let hist := [(0, 1000); (1999000000, 0); (3998000000, 0); (5997000000, 0); (7996000000, 0)] in
  GetTPS 12996000000 (foldl (λ m r, Record_ (fst r) (snd r) m) (NewTPSMonitor 0) hist) = float_of_Z 200.
Proof. by vm_compute. Qed.

Example four_seconds_lost :
  let hist := [(999000000, 1000); (1000000000, 0); (2000000000, 0); (3000000000, 0); (4000000000, 0); (5000000000, 0)] in
  GetTPS 5000000000 (foldl (λ m r, Record_ (fst r) (snd r) m) (NewTPSMonitor 0) hist) = float_of_Z 0.
Proof. by vm_compute. Qed.

(** *** The lag gauge and the quota *)

(** The lag is the distance of the heights, never negative. *)
Lemma recalculateLag_spec m :
  mt_lastChainHeight m ≤ max_i64 → mt_lastSyncHeight m ≤ max_i64 →
  recalculateLag m = Z.max 0 (Z.max 0 (mt_lastChainHeight m) - Z.max 0 (mt_lastSyncHeight m)).
Proof.
  intros Hc Hs. unfold recalculateLag. rewrite !u64_id by lia64.
  rewrite SafeInt64Diff_spec by lia64. case_match eqn:E; bool_prop; lia64.
Qed.

(** The status follows the thresholds at the exact counts. *)
Lemma quota_status_thresholds :
  quotaStatus (float_div (float_of_Z 239999) (float_of_Z MaxDailyQuota)) = 0 ∧
  quotaStatus (float_div (float_of_Z 240000) (float_of_Z MaxDailyQuota)) = 1 ∧
  quotaStatus (float_div (float_of_Z 269999) (float_of_Z MaxDailyQuota)) = 1 ∧
  quotaStatus (float_div (float_of_Z 270000) (float_of_Z MaxDailyQuota)) = 2.
Proof. repeat split; by vm_compute. Qed.

(** ** Witnesses *)

Lemma rate_window_witness :
  let hist := (λ k, (k * 1999000000, 10)) <$> [0; 1; 2; 3; 4; 5; 6] in
  let m := foldl (λ m r, Record_ (fst r) (snd r) m) (NewTPSMonitor 0) hist in
  ∃ recent, GetTPS (6 * 1999000000 + 5000000000) m = float_div (float_of_Z (i64 (countSum recent))) (float_of_Z 5) ∧
            ∀ r, r ∈ recent → (6 * 1999000000 + 5000000000) - fst r ≤ 13 * secondNs.
Proof.
  intros hist m.
  destruct (rate_window 0 (6 * 1999000000 + 5000000000) hist) as (old & recent & _ & H1 & H2 & _);
    [by vm_compute | by vm_compute |].
  exists recent. split; [exact H1 | exact H2].
Defined.
