(* ===== verification/Json.v ===== *)
(** * JSON as [encoding/json] decodes it

    The replay source and the recorders exchange lines of JSON.  A document is
    represented by what the decoder makes of it: numbers are [float64], objects
    keep their members in order.  Decoding into a struct matches member names
    without regard to case (on ASCII names), decoding into a map takes them as
    they are; a member given twice is decoded twice.  What go-ethereum and
    holiman/uint256 make of their own types is the class [EthJson]. *)

From S2P Require Import Prelude GoInt Types.
From Stdlib Require Import ZArith Lia Ascii String SpecFloat.
From stdpp Require Import base strings sorting list pretty.
Open Scope string_scope.
Open Scope Z_scope.

#[local] Unset Elimination Schemes.
Inductive Json : Type :=
| JNull
| JBool (b : bool)
| JNum (f : float64)
| JStr (s : string)
| JArr (l : list Json)
| JObj (fields : list (string * Json)).
#[local] Set Elimination Schemes.
Abbreviation fields := (list (string * Json)).

(** [json.Marshal] of an integer, decoded again. *)
Definition JInt (z : Z) : Json := JNum (float_of_Z z).
Definition JBig (z : option Z) : Json := match z with Some z => JInt z | None => JNull end.

(** ** Decoding into a struct *)

(** The values of the members that name the field [k], in order. *)
Definition fieldValues (k : string) (fs : fields) : list Json :=
  snd <$> filter (λ kv, EqualFold (fst kv) k = true) fs.
(** A field of a struct, decoded once for each of them. *)
Definition decodeField {A} (zero : A) (one : A → Json → option A) (k : string) (fs : fields) : option A :=
  foldl (λ acc v, acc ≫= λ a, one a v) (Some zero) (fieldValues k fs).

Definition intoString (a : string) (v : Json) : option string :=
  match v with JStr s => Some s | JNull => Some a | _ => None end.
Definition intoInterface (_ : Json) (v : Json) : option Json := Some v.
Definition intoRaw (_ : option Json) (v : Json) : option (option Json) := Some (Some v).
Definition intoMap (a : option fields) (v : Json) : option (option fields) :=
  match v with JObj fs => Some (Some (default [] a ++ fs)%list) | JNull => Some None | _ => None end.
Definition intoSlice (a : option (list Json)) (v : Json) : option (option (list Json)) :=
  match v with JArr l => Some (Some l) | JNull => Some None | _ => None end.

(** A [map[string]interface{}], indexed. *)
Definition mapGet (k : string) (m : fields) : option Json := snd <$> last (filter (λ kv, fst kv = k) m).
(** [len(m)]. *)
Definition mapLen (m : fields) : nat := length (remove_dups m.*1).
(** The order of the keys. *)
Definition keyLe (a b : string) : Prop := String.leb a b = true.
#[export] Instance keyLe_dec : RelDecision keyLe.
Proof. intros a b. unfold keyLe. apply _. Defined.
(** [json.Marshal(m)] of a map: the keys sorted, each once. *)
Definition marshalMap (m : fields) : fields :=
  omap (λ k, (k,.) <$> mapGet k m) (merge_sort keyLe (remove_dups m.*1)).

(** ** Numbers *)

(** [fmt.Sprintf("%.0f", f)]: halves to even. *)
Definition roundHalfEven (m e : Z) : Z :=
  if 0 <=? e then m * 2 ^ e
  else
    let q := m / 2 ^ (- e) in
    let r := m mod 2 ^ (- e) in
    let half := 2 ^ (- e - 1) in
    if (half <? r) || ((half =? r) && Z.odd q) then q + 1 else q.
Definition Sprintf_0f (f : float64) : string :=
  match f with
  | S754_zero s => if s : bool then "-0" else "0"
  | S754_finite s m e => (if s : bool then "-" else "") ++ pretty (roundHalfEven (Zpos m) e)
  | S754_infinity s => if s : bool then "-Inf" else "+Inf"
  | S754_nan => "NaN"
  end.

(** ** The libraries' own encodings *)

(** [json.Marshal] of a [*types.Block], a [types.Log], a [*uint256.Int] and a
    [time.Time], and their decoders.  The exported fields of [types.Block] are
    [ReceivedAt] and [ReceivedFrom]; a log decodes to itself. *)
Class EthJson := {
  block_json : EthBlock → Json;
  block_of_json : Json → option EthBlock;
  log_json : Log → Json;
  logs_of_json : list Json → option (list Log);
  u256_json : Z → Json;
  time_json : Json;
  block_json_exported b : ∃ at_ from, block_json b = JObj [("ReceivedAt", at_); ("ReceivedFrom", from)];
  logs_json_roundtrip ls : logs_of_json (log_json <$> ls) = Some ls
}.

(** ** Lemmas *)

Lemma Sprintf_0f_int z : 0 ≤ z < 2 ^ 53 → Sprintf_0f (float_of_Z z) = pretty z.
Proof.
  intros [H0 H1]. unfold float_of_Z, binary_normalize. destruct z as [| p | p]; [done | | lia].
  destruct (binary_normalize_exact false p H1) as (m & e & -> & He & Hm & _). unfold Sprintf_0f, roundHalfEven.
  assert (Hp : 0 < 2 ^ (- e)) by (apply Z.pow_pos_nonneg; lia).
  rewrite Hm. destruct (Z.leb_spec 0 e).
  - assert (e = 0) as -> by lia. change (- 0) with 0. rewrite Z.pow_0_r, !Z.mul_1_r. done.
  - rewrite Z_div_mult, Z_mod_mult by lia.
    assert (0 < 2 ^ (- e - 1)) by (apply Z.pow_pos_nonneg; lia).
    destruct (Z.ltb_spec (2 ^ (- e - 1)) 0); [lia |]. destruct (Z.eqb_spec (2 ^ (- e - 1)) 0); [lia | done].
Qed.
