(* ===== verification/Replay.v ===== *)
(** * Recording and replay (internal/engine/recorder.go, sink_lz4.go,
    storage_guard.go, source_lz4_replay.go, cmd/indexer/replay.go)

    Two writers of JSON lines, and the source that plays a compressed trajectory
    back into the Processor.  A file is the sequence of things written to it; its
    lines are what the scanner finds between the newlines. *)

From S2P Require Import Prelude GoInt Types Sequencer Ingest HotBuffer Policy Json.
From Stdlib Require Import ZArith Lia String SpecFloat.
From stdpp Require Import base strings list pretty.
Open Scope string_scope.
Open Scope Z_scope.

(** ** Files of JSON lines *)

Inductive Chunk : Type := CDoc (v : Json) | CPartial | CNewline.
(** A line that is not one whole document does not decode. *)
Definition Line : Type := option Json.
Definition lineOf (cs : list Chunk) : Line := match cs with [CDoc v] => Some v | _ => None end.
Fixpoint splitLines (cur : list Chunk) (cs : list Chunk) : list Line :=
  match cs with
  | [] => match cur with [] => [] | _ => [lineOf cur] end
  | CNewline :: rest => lineOf cur :: splitLines [] rest
  | c :: rest => splitLines (cur ++ [c])%list rest
  end.
(** The scanner drops an empty last line only. *)
Definition fileLines (cs : list Chunk) : list Line := splitLines [] cs.

Section json.
Context {EJ : EthJson}.

(** ** What the recorders write *)

(** recorder.go, [RecordEntry]. *)
Definition RecordEntry (ts : Z) (entryType : string) (data : Json) : Json :=
  JObj [("ts", JInt ts); ("type", JStr entryType); ("data", data)].

(** [json.Marshal] of a [BlockData] without error, a [models.Transfer], a [models.Block]. *)
Definition BlockData_json (d : BlockData) : Json :=
  JObj [("Number", JBig (bd_Number d)); ("RangeEnd", JBig (bd_RangeEnd d));
        ("Block", match bd_Block d with Some b => block_json b | None => JNull end);
        ("Err", JNull); ("Logs", JArr (log_json <$> bd_Logs d))].
Definition Transfer_json (t : Transfer) : Json :=
  JObj [("BlockNumber", JInt (tr_BlockNumber t)); ("TxHash", JStr (tr_TxHash t)); ("LogIndex", JInt (tr_LogIndex t));
        ("From", JStr (tr_From t)); ("To", JStr (tr_To t)); ("TokenAddress", JStr (tr_TokenAddress t));
        ("Symbol", JStr (tr_Symbol t)); ("Type", JStr (tr_Type t)); ("Amount", u256_json (tr_Amount t))].
Definition Block_json (b : ModelBlock) : Json :=
  JObj [("ProcessedAt", time_json); ("Number", JInt (mb_Number b)); ("Hash", JStr (mb_Hash b));
        ("ParentHash", JStr (mb_ParentHash b)); ("Timestamp", JInt (mb_Timestamp b)); ("GasLimit", JInt (mb_GasLimit b));
        ("GasUsed", JInt (mb_GasUsed b)); ("BaseFeePerGas", JBig (mb_BaseFeePerGas b));
        ("TransactionCount", JInt (mb_TransactionCount b))].

(** ** recorder.go

    [dr_writes]: whether the next writes succeed. *)
Record DataRecorder := mkDataRecorder { dr_file : option (list Chunk); dr_closed : bool; dr_writes : list bool }.

(** One [file.Write], only logged when it fails; a failed one may leave a part
    behind, one to a closed file leaves nothing. *)
Definition dr_Write (c failed : list Chunk) : GoM DataRecorder unit :=
  modify (λ r,
    if dr_closed r then r
    else
      let '(ok, rest) := match dr_writes r with [] => (true, []) | w :: ws => (w, ws) end in
      mkDataRecorder ((λ f, f ++ if ok : bool then c else failed)%list <$> dr_file r) false rest).
(** [Record]; [data] is the value marshalled. *)
Definition Record_ (now : Z) (entryType : string) (data : Json) : GoM DataRecorder unit :=
  r ← gets id;
  match dr_file r with
  | None => mret tt
  | Some _ =>
    dr_Write [CDoc (RecordEntry now entryType data)] [CPartial];;
    dr_Write [CNewline] []
  end.
Fixpoint recordAll (now : Z) (entryType : string) (datas : list Json) : GoM DataRecorder unit :=
  match datas with
  | [] => mret tt
  | d :: rest => Record_ now entryType d;; recordAll now entryType rest
  end.
Definition recorderSink (now : Z) : DataSink DataRecorder := {|
  WriteTransfers ts := recordAll now "transfer" (Transfer_json <$> ts);; mret None;
  WriteBlocks bs := recordAll now "block" (Block_json <$> bs);; mret None;
  Close := modify (λ r, mkDataRecorder (dr_file r) true (dr_writes r));; mret None
|}.

(** ** storage_guard.go *)

(** The fields of [syscall.Statfs_t]. *)
Record Statfs := mkStatfs { sf_Bavail : Z; sf_Blocks : Z; sf_Bsize : Z }.
Definition CheckStorageSpace (stat : result GoErr Statfs) : result GoErr float64 :=
  match stat with
  | Err e => Err e
  | Ok st =>
    let free := u64 (sf_Bavail st * u64 (sf_Bsize st)) in
    let total := u64 (sf_Blocks st * u64 (sf_Bsize st)) in
    Ok (if total =? 0 then f0 else float_mul (float_div (float_of_Z free) (float_of_Z total)) (float_of_Z 100))
  end.

(** ** sink_lz4.go

    What is written through the compressor, the answers of its next operations
    and the state of the disk under it. *)
Record Lz4Sink := mkLz4Sink {
  sk_suspended : bool;
  sk_out : list Chunk;
  sk_answers : list (option GoErr);
  sk_disk : result GoErr Statfs
}.
Definition NewLz4Sink (disk : result GoErr Statfs) (answers : list (option GoErr)) : Lz4Sink := mkLz4Sink false [] answers disk.

Definition checkQuota : GoM Lz4Sink bool :=
  s ← gets id;
  if sk_suspended s then mret false
  else match CheckStorageSpace (sk_disk s) with
       | Err _ => mret true
       | Ok free =>
         if float_ltb free (float_of_Z 10) then
           modify (λ s, mkLz4Sink true (sk_out s) (sk_answers s) (sk_disk s));; mret false
         else mret true
       end.
(** [lz4Writer.Write] and [Flush]. *)
Definition lz4Op (c : list Chunk) : GoM Lz4Sink (option GoErr) := λ s,
  let '(e, rest) := match sk_answers s with [] => (None, []) | e :: es => (e, es) end in
  (mkLz4Sink (sk_suspended s) (sk_out s ++ match e with None => c | Some _ => [] end)%list rest (sk_disk s), Val e).
Fixpoint writeLines (docs : list Json) : GoM Lz4Sink (option GoErr) :=
  match docs with
  | [] => mret None
  | d :: rest => try lz4Op [CDoc d];;; try lz4Op [CNewline];;; writeLines rest
  end.
Definition writeDocs (docs : list Json) : GoM Lz4Sink (option GoErr) :=
  ok ← checkQuota;
  if ok : bool then try writeLines docs;;; lz4Op [] else mret None.
Definition lz4Sink : DataSink Lz4Sink := {|
  WriteTransfers ts := writeDocs (Transfer_json <$> ts);
  WriteBlocks bs := writeDocs (Block_json <$> bs);
  Close := lz4Op [];; mret None
|}.

(** ** source_lz4_replay.go: decoding *)

Definition parseBigInt (val : Json) : option Z :=
  match val with
  | JNum f => SetString10 (Sprintf_0f f)
  | JStr s => SetString10 s
  | _ => None
  end.

(** [FetchLogs], the local [replayEntry]. *)
Record replayEntry := mkReplayEntry { re_Type : string; re_Data : option Json }.
Definition decodeEntry (v : Json) : option replayEntry :=
  match v with
  | JObj fs =>
    t ← decodeField "" intoString "type" fs;
    d ← decodeField None intoRaw "data" fs;
    Some (mkReplayEntry t d)
  | JNull => Some (mkReplayEntry "" None)
  | _ => None
  end.

(** The block of an entry: [None] skips the entry, [Some None] is a nil block. *)
Definition decodeBlock (v : Json) : option (option EthBlock) :=
  match v with
  | JNull => Some None
  | JObj fs => if (mapLen fs =? 2)%nat then None else Some (block_of_json v)
  | _ => Some (block_of_json v)
  end.
Definition decodeLogs (v : option (list Json)) : list Log :=
  match v with Some l => default [] (logs_of_json l) | None => [] end.
Definition numberAt (k : string) (m : fields) : option Z := mapGet k m ≫= parseBigInt.

(** From [json.Unmarshal(entry.Data, &dataMap)] to the logs; [None] is a [continue]. *)
Definition decodeBlockData (data : Json) : option BlockData :=
  m ← match data with JObj fs => Some fs | JNull => Some [] | _ => None end;
  block ← decodeField JNull intoInterface "Block" m;
  _ ← decodeField None intoMap "Err" m;
  logs ← decodeField None intoSlice "Logs" m;
  b ← decodeBlock block;
  Some (mkBlockData (numberAt "Number" m) (numberAt "RangeEnd" m) b None (decodeLogs logs)).
Definition lineData (line : Line) : option BlockData :=
  v ← line;
  entry ← decodeEntry v;
  if String.eqb (re_Type entry) "block_data" then re_Data entry ≫= decodeBlockData else None.

(** [StreamBlocks]: the entry is a [RecordEntry], whose time must decode too
    (integers are written without fraction or exponent), its data a map. *)
Definition intoInt64 (a : Z) (v : Json) : option Z :=
  match v with
  | JNull => Some a
  | JNum f => z ← SetString10 (Sprintf_0f f);
              if SFeqb (float_of_Z z) f && (min_i64 <=? z) && (z <=? max_i64) then Some z else None
  | _ => None
  end.
Definition streamData (line : Line) : option BlockData :=
  v ← line;
  fs ← match v with JObj fs => Some fs | JNull => Some [] | _ => None end;
  _ ← decodeField 0 intoInt64 "ts" fs;
  t ← decodeField "" intoString "type" fs;
  data ← decodeField JNull intoInterface "data" fs;
  m ← (if String.eqb t "block_data" then match data with JObj m => Some m | _ => None end else None);
  number ← numberAt "Number" m;
  block ← decodeField JNull intoInterface "Block" (marshalMap m);
  logs ← decodeField None intoSlice "Logs" (marshalMap m);
  b ← decodeBlock block;
  Some (mkBlockData (Some number) (numberAt "RangeEnd" m) b None (decodeLogs logs)).
End json.

(** ** source_lz4_replay.go: the source

    [rs_lines] are the lines the scanner has not returned, [rs_tail] the error
    it meets after them (a torn frame, a line over 10 MB), [rs_Err] its sticky
    error; [rs_slept] records the pauses of the speed control. *)
Record Lz4ReplaySource := mkLz4ReplaySource {
  rs_lines : list Line;
  rs_tail : option GoErr;
  rs_Err : option GoErr;
  rs_totalSize : Z;
  rs_lastNum : Z;
  rs_lastTime : Z;
  rs_speedFactor : float64;
  rs_slept : list Z
}.
Definition rset_lines (v : list Line) (s : Lz4ReplaySource) : Lz4ReplaySource :=
  mkLz4ReplaySource v (rs_tail s) (rs_Err s) (rs_totalSize s) (rs_lastNum s) (rs_lastTime s) (rs_speedFactor s) (rs_slept s).
Definition rset_Err (v : option GoErr) (s : Lz4ReplaySource) : Lz4ReplaySource :=
  mkLz4ReplaySource (rs_lines s) (rs_tail s) v (rs_totalSize s) (rs_lastNum s) (rs_lastTime s) (rs_speedFactor s) (rs_slept s).
Definition rset_lastNum (v : Z) (s : Lz4ReplaySource) : Lz4ReplaySource :=
  mkLz4ReplaySource (rs_lines s) (rs_tail s) (rs_Err s) (rs_totalSize s) v (rs_lastTime s) (rs_speedFactor s) (rs_slept s).
Definition rset_lastTime (v : Z) (s : Lz4ReplaySource) : Lz4ReplaySource :=
  mkLz4ReplaySource (rs_lines s) (rs_tail s) (rs_Err s) (rs_totalSize s) (rs_lastNum s) v (rs_speedFactor s) (rs_slept s).
Definition rset_slept (v : list Z) (s : Lz4ReplaySource) : Lz4ReplaySource :=
  mkLz4ReplaySource (rs_lines s) (rs_tail s) (rs_Err s) (rs_totalSize s) (rs_lastNum s) (rs_lastTime s) (rs_speedFactor s) v.

Definition NewLz4ReplaySource (lines : list Line) (tail : option GoErr) (size : Z) (speed : float64) : Lz4ReplaySource :=
  mkLz4ReplaySource lines tail None size 0 0 speed [].

(** The pause before a block [diff] seconds after the last one: a [Duration]
    in nanoseconds, cut to 200 ms above two seconds. *)
Definition replaySleep (speed : float64) (diff : Z) : Z :=
  let sleepDur := i64 (int64_of_float (float_div (float_of_Z diff) speed) * 1000000000) in
  if 2000000000 <? sleepDur then 200000000 else sleepDur.

(** [GetProgress]; [pos] is the position of the file, if it can be told. *)
Definition GetProgress (pos : option Z) (s : Lz4ReplaySource) : float64 :=
  if rs_totalSize s =? 0 then f0
  else match pos with
       | None => f0
       | Some p => float_mul (float_div (float_of_Z p) (float_of_Z (rs_totalSize s))) (float_of_Z 100)
       end.

Section source.
(** The decoder of a line, [lineData] or [streamData], and whether the context
    is found done at a check, by the number of lines left. *)
Context (decode : Line → option BlockData) (ctxDone : nat → bool).
Abbreviation srcM := (GoM Lz4ReplaySource).

(** The speed control; [true] when the context ended the pause. *)
Definition throttle (d : BlockData) : srcM bool :=
  s ← gets id;
  match bd_Block d with
  | None => mret false
  | Some b =>
    if float_ltb f0 (rs_speedFactor s) && (0 <? rs_lastTime s) && (rs_lastTime s <? blk_Time b) then
      modify (rset_slept (rs_slept s ++ [replaySleep (rs_speedFactor s) (blk_Time b - rs_lastTime s)])%list);;
      mret (ctxDone (length (rs_lines s)))
    else mret false
  end.
Definition noteTime (d : BlockData) : srcM unit :=
  match bd_Block d with Some b => modify (rset_lastTime (blk_Time b)) | None => mret tt end.

(** After the loop of [FetchLogs]. *)
Definition scanned (results : list BlockData) : srcM (result GoErr (list BlockData)) :=
  s ← gets id;
  mret match rs_Err s with Some e => Err (WrapErr "lz4_scan_failed: " e) | None => Ok results end.

(** The loop of [FetchLogs] over the lines. *)
Fixpoint fetchLoop (lines : list Line) (targetStart targetEnd : Z) (results : list BlockData) : srcM (result GoErr (list BlockData)) :=
  match lines with
  | [] => modify (λ s, rset_Err (rs_tail s) s);; scanned results
  | line :: rest =>
    modify (rset_lines rest);;
    match decode line with
    | None => fetchLoop rest targetStart targetEnd results
    | Some d =>
      match bd_Number d with
      | None => go_panic "invalid memory address or nil pointer dereference"
      | Some n =>
        let bn := big_Uint64 n in
        if (targetStart <=? bn) && (bn <=? targetEnd) then
          stop ← throttle d;
          if stop : bool then mret (Err Canceled)
          else
            noteTime d;;
            modify (rset_lastNum bn);;
            if targetEnd <=? bn then scanned (results ++ [d])%list
            else fetchLoop rest targetStart targetEnd (results ++ [d])%list
        else if targetEnd <=? bn then scanned results
        else fetchLoop rest targetStart targetEnd results
      end
    end
  end.
Definition FetchLogs (start end_ : Z) : srcM (result GoErr (list BlockData)) :=
  s ← gets id;
  fetchLoop (rs_lines s) (big_Uint64 start) (big_Uint64 end_) [].
End source.

(** [GetLatestHeight]. *)
Definition GetLatestHeight : Z := 999999999.

(** [Reset]: back to the first line of the file. *)
Definition Reset (all : list Line) (s : Lz4ReplaySource) : Lz4ReplaySource := rset_Err None (rset_lines all s).

(** [StreamBlocks]: the source pushes into the channel; [ctxDone n i] is the
    [i]-th look at the context with [n] lines left. *)
Record Stream := mkStream { st_src : Lz4ReplaySource; st_out : list BlockData }.
Definition onSrc {A} (m : GoM Lz4ReplaySource A) : GoM Stream A := zoom st_src (λ s t, mkStream s (st_out t)) m.
Section stream.
Context (decode : Line → option BlockData) (ctxDone : nat → nat → bool).
Fixpoint streamLoop (lines : list Line) : GoM Stream (option GoErr) :=
  match lines with
  | [] => onSrc (modify (λ s, rset_Err (rs_tail s) s));; t ← gets id; mret (rs_Err (st_src t))
  | line :: rest =>
    onSrc (modify (rset_lines rest));;
    if ctxDone (length rest) 0%nat then mret (Some Canceled)
    else
      match decode line with
      | None => streamLoop rest
      | Some d =>
        stop ← onSrc (throttle (λ n, ctxDone n 1%nat) d);
        if stop : bool then mret (Some Canceled)
        else
          onSrc (noteTime d);;
          onSrc (modify (rset_lastNum (big_Uint64 (default 0 (bd_Number d)))));;
          if ctxDone (length rest) 2%nat then mret (Some Canceled)
          else modify (λ t, mkStream (st_src t) (st_out t ++ [d])%list);; streamLoop rest
      end
  end.
Definition StreamBlocks : GoM Stream (option GoErr) := t ← gets id; streamLoop (rs_lines (st_src t)).
End stream.

(** ** cmd/indexer/replay.go *)

Record Replay (P : Type) := mkReplay {
  rp_src : Lz4ReplaySource;
  rp_currentBlock : Z;
  rp_proc : P;
  rp_progress : list float64; (* metrics.UpdateReplayProgress *)
  rp_bars : list (nat * nat) (* the bars drawn *)
}.
Arguments mkReplay {P}.
Arguments rp_src {P}.
Arguments rp_currentBlock {P}.
Arguments rp_proc {P}.
Arguments rp_progress {P}.
Arguments rp_bars {P}.

(** [renderProgressBar]: the full and the empty cells. *)
Definition renderProgressBar (progress : float64) : nat * nat :=
  let barLen := 40 in
  let filled := int64_of_float (float_div (float_mul (float_of_Z barLen) progress) (float_of_Z 100)) in
  let filled := if barLen <? filled then barLen else filled in
  (Z.to_nat filled, Z.to_nat (barLen - filled)).

Section replay.
Context {P : Type} {BP : BlockProcessor P} (decode : Line → option BlockData) (ctxDone : nat → bool)
  (filePos : Lz4ReplaySource → option Z).
Abbreviation rpM := (GoM (Replay P)).

Definition rp_onSrc {A} (m : GoM Lz4ReplaySource A) : rpM A :=
  zoom rp_src (λ s r, mkReplay s (rp_currentBlock r) (rp_proc r) (rp_progress r) (rp_bars r)) m.
Definition rp_onProc {A} (m : GoM P A) : rpM A :=
  zoom rp_proc (λ p r, mkReplay (rp_src r) (rp_currentBlock r) p (rp_progress r) (rp_bars r)) m.
Definition rp_moveTo (n : Z) : rpM unit :=
  modify (λ r, mkReplay (rp_src r) n (rp_proc r) (rp_progress r) (rp_bars r)).
Definition rp_report (progress : float64) : rpM unit :=
  modify (λ r, mkReplay (rp_src r) (rp_currentBlock r) (rp_proc r) (rp_progress r ++ [progress])%list
                 (rp_bars r ++ [renderProgressBar progress])%list).

(** One tick of the loop; [Some] ends the replay with that error, [None] goes on. *)
Definition replayTick : rpM (option (option GoErr)) :=
  r ← gets id;
  let end_ := rp_currentBlock r + 10 in
  res ← rp_onSrc (FetchLogs decode ctxDone (rp_currentBlock r) end_);
  match res with
  | Err e => mret (Some (Some e))
  | Ok blocks =>
    r ← gets id;
    let progress := GetProgress (filePos (rp_src r)) (rp_src r) in
    match last blocks with
    | None =>
      if float_geb progress (fdec 999 10) then mret (Some None)
      else rp_moveTo (end_ + 1);; mret None
    | Some d =>
      rp_onProc (ProcessBatch blocks 0);;
      rp_report progress;;
      match bd_Number d with
      | None => go_panic "invalid memory address or nil pointer dereference"
      | Some lastBn => rp_moveTo (lastBn + 1);; mret None
      end
    end
  end.

(** [RunReplayMode] over the turns of its select: a tick, or the end of the context. *)
Fixpoint replayLoop (ticks : list bool) : rpM (option GoErr) :=
  match ticks with
  | [] => mret None
  | false :: _ => mret None
  | true :: rest =>
    x ← replayTick;
    match x with Some e => mret e | None => replayLoop rest end
  end.
Definition RunReplayMode (opened : result GoErr Lz4ReplaySource) (p : P) (ticks : list bool) : P * outcome (option GoErr) :=
  match opened with
  | Err e => (p, Val (Some (WrapErr "failed to open replay file: " e)))
  | Ok src => let '(r, o) := replayLoop ticks (mkReplay src 0 p [] []) in (rp_proc r, o)
  end.
End replay.

(** ** Lemmas *)

(** The numbers of the entries. *)
Definition numbered (d : BlockData) : Prop := ∃ n, bd_Number d = Some n ∧ is_u64 n.
Definition numOf (d : BlockData) : Z := default 0 (bd_Number d).
(** The entries a [FetchLogs] up to [e] takes off the file. *)
Fixpoint takeUpTo (e : Z) (es : list BlockData) : list BlockData :=
  match es with
  | [] => []
  | d :: rest => if e <=? numOf d then [d] else d :: takeUpTo e rest
  end.
Definition inRange (a e : Z) (d : BlockData) : Prop := a ≤ numOf d ≤ e.
#[export] Instance inRange_dec a e d : Decision (inRange a e d).
Proof. unfold inRange. apply _. Defined.

(** A source at [s'] after one at [s]: the scanner has met no error. *)
Definition src_clean (s s' : Lz4ReplaySource) : Prop :=
  rs_lines s' = rs_lines s ∧ rs_tail s' = rs_tail s ∧ rs_Err s' = rs_Err s ∧ rs_totalSize s' = rs_totalSize s.

Section fetch.
Context (decode : Line → option BlockData).
Abbreviation entries s := (omap decode (rs_lines s)).

Lemma filter_inRange a e d es : filter (inRange a e) (d :: es) =
  (if (a <=? numOf d) && (numOf d <=? e) then d :: filter (inRange a e) es else filter (inRange a e) es).
Proof.
  rewrite filter_cons. unfold inRange at 1.
  destruct (Z.leb_spec a (numOf d)), (Z.leb_spec (numOf d) e); simpl; case_decide; unfold inRange in *; done || lia.
Qed.

Lemma filter_inRange_all a e es : Forall (inRange a e) es → filter (inRange a e) es = es.
Proof. induction 1 as [| d es Hd _ IH]; [done |]. by rewrite filter_cons_True, IH. Qed.

Lemma throttle_wp d s (Q : outcome bool → Lz4ReplaySource → Prop) :
  (∀ s', src_clean s s' → Q (Val false) s') → wp (throttle (λ _, false) d) Q s.
Proof.
  intros H. unfold throttle. apply wp_bind, wp_gets. unfold id. destruct (bd_Block d); [| by apply wp_ret, H].
  case_match; [| by apply wp_ret, H]. by apply wp_bind, wp_modify, wp_ret, H.
Qed.

Lemma noteTime_wp d s (Q : outcome unit → Lz4ReplaySource → Prop) :
  (∀ s', src_clean s s' → Q (Val tt) s') → wp (noteTime d) Q s.
Proof. intros H. unfold noteTime. case_match; [by apply wp_modify, H | by apply wp_ret, H]. Qed.

Lemma fetchLoop_wp a e lines results s :
  rs_lines s = lines → Forall numbered (omap decode lines) → rs_tail s = None → rs_Err s = None →
  wp (fetchLoop decode (λ _, false) lines a e results) (λ o s',
    o = Val (Ok (results ++ filter (inRange a e) (takeUpTo e (omap decode lines)))%list) ∧
    entries s' = drop (length (takeUpTo e (omap decode lines))) (omap decode lines) ∧
    rs_tail s' = None ∧ rs_Err s' = None ∧ rs_totalSize s' = rs_totalSize s) s.
Proof.
  revert results s. induction lines as [| line rest IH]; intros results s Hl Hn Ht He; simpl in *.
  { apply wp_bind, wp_modify, wp_bind, wp_gets, wp_ret. unfold id. simpl. by rewrite Ht, app_nil_r, Hl. }
  apply wp_bind, wp_modify. destruct (decode line) as [d |] eqn:Ed; simpl; [| by apply (IH results (rset_lines rest s))].
  apply Forall_cons in Hn as [(n & En & Hu) Hn]. rewrite En, big_Uint64_id by done.
  assert (Hd : numOf d = n) by (unfold numOf; by rewrite En). rewrite Hd.
  assert (Hscan : ∀ s', rs_lines s' = rest → rs_tail s' = None → rs_Err s' = None → rs_totalSize s' = rs_totalSize s →
    ∀ res, wp (scanned res) (λ o s',
    o = Val (Ok res) ∧ entries s' = omap decode rest ∧ rs_tail s' = None ∧ rs_Err s' = None ∧ rs_totalSize s' = rs_totalSize s) s').
  { intros s' H1 H2 H3 H4 res. apply wp_bind, wp_gets, wp_ret. unfold id. by rewrite H1, H2, H3. }
  destruct (Z.leb_spec e n) as [Hen | Hen]; rewrite filter_inRange, Hd; simpl; rewrite ?drop_0.
  - destruct ((a <=? n) && (n <=? e)) eqn:Er.
    + apply wp_bind, throttle_wp. intros s1 (A1 & A2 & A3 & A4).
      apply wp_bind, noteTime_wp. intros s2 (B1 & B2 & B3 & B4). apply wp_bind, wp_modify. apply Hscan; simpl in *; congruence.
    + rewrite app_nil_r. by apply Hscan.
  - destruct ((a <=? n) && (n <=? e)) eqn:Er.
    + apply wp_bind, throttle_wp. intros s1 (A1 & A2 & A3 & A4).
      apply wp_bind, noteTime_wp. intros s2 (B1 & B2 & B3 & B4). apply wp_bind, wp_modify.
      eapply wp_mono; [apply IH; simpl in *; try done; congruence |]. intros o s' (-> & Hs & Ht' & He' & Hz). rewrite <- app_assoc. split_and!; [done.. | simpl in *; congruence].
    + by apply (IH results (rset_lines rest s)).
Qed.

Lemma takeUpTo_consecutive e m es :
  bd_Number <$> es = Some <$> seqZ m (Z.of_nat (length es)) →
  takeUpTo e es = take (Z.to_nat (Z.max (e - m + 1) 1)) es.
Proof.
  revert m. induction es as [| d es IH]; intros m H; [by rewrite take_nil |].
  simpl in H. rewrite seqZ_cons in H by lia. injection H as Hd H. simpl. unfold numOf. rewrite Hd. simpl.
  replace (Z.pred (Z.of_nat (S (length es)))) with (Z.of_nat (length es)) in H by lia.
  destruct (Z.leb_spec e m).
  - replace (Z.to_nat (Z.max (e - m + 1) 1)) with 1%nat by lia. simpl. by rewrite take_0.
  - rewrite (IH (Z.succ m) H). replace (Z.to_nat (Z.max (e - m + 1) 1)) with (S (Z.to_nat (e - m))) by lia. simpl.
    do 2 f_equal. lia.
Qed.

Lemma consecutive_number m es i d :
  bd_Number <$> es = Some <$> seqZ m (Z.of_nat (length es)) → es !! i = Some d → bd_Number d = Some (m + Z.of_nat i).
Proof.
  intros H Hi. pose proof (f_equal (λ l, l !! i) H) as Hl. simpl in Hl. rewrite !list_lookup_fmap, Hi in Hl. simpl in Hl.
  apply lookup_lt_Some in Hi. rewrite lookup_seqZ_lt in Hl by lia. simpl in Hl. congruence.
Qed.

Lemma consecutive_drop k m es :
  bd_Number <$> es = Some <$> seqZ m (Z.of_nat (length es)) →
  bd_Number <$> drop k es = Some <$> seqZ (m + Z.of_nat k) (Z.of_nat (length (drop k es))).
Proof.
  revert m es. induction k as [| k IH]; intros m es H; [by rewrite drop_0, Z.add_0_r |].
  destruct es as [| d es]; [done |]. simpl in *. rewrite seqZ_cons in H by lia. injection H as _ H.
  replace (Z.pred (Z.of_nat (S (length es)))) with (Z.of_nat (length es)) in H by lia.
  rewrite (IH (Z.succ m) es H). do 2 f_equal. lia.
Qed.
End fetch.

Section replay_props.
Context {P : Type} {BP : BlockProcessor P} {TL : TaskLog P} (decode : Line → option BlockData)
  (filePos : Lz4ReplaySource → option Z).
Abbreviation tick := (replayTick decode (λ _, false) filePos).
Abbreviation run := (replayLoop decode (λ _, false) filePos).
Abbreviation entries s := (omap decode (rs_lines s)).

(** The entries of the recording have the numbers from [m] on. *)
Definition consecutive_entries (m : Z) (s : Lz4ReplaySource) : Prop :=
  bd_Number <$> entries s = Some <$> seqZ m (Z.of_nat (length (entries s))).
Definition src_ready (s : Lz4ReplaySource) : Prop := rs_tail s = None ∧ rs_Err s = None.
(** The position of the file, which the decompressor and the scanner read ahead
    of the entries, is at 99.9 per cent or beyond. *)
Definition at_end (s : Lz4ReplaySource) : bool := float_geb (GetProgress (filePos s) s) (fdec 999 10).

Lemma consecutive_numbered m s :
  0 ≤ m → m + Z.of_nat (length (entries s)) ≤ max_u64 → consecutive_entries m s → Forall numbered (entries s).
Proof.
  intros H0 H1 H. apply Forall_lookup. intros i d Hi. exists (m + Z.of_nat i).
  pose proof (lookup_lt_Some _ _ _ Hi). split; [by eapply consecutive_number |]. unfold is_u64. lia.
Qed.

(** A tick on a file without entries moves on or ends; nothing is processed. *)
Lemma tick_empty r :
  entries (rp_src r) = [] → src_ready (rp_src r) →
  wp tick (λ o r', (∃ x, o = Val x) ∧ rp_proc r' = rp_proc r ∧ entries (rp_src r') = [] ∧ src_ready (rp_src r')) r.
Proof.
  intros He [Ht Hr]. unfold replayTick, FetchLogs. apply wp_bind, wp_gets. unfold id.
  apply wp_bind, wp_zoom, wp_bind, wp_gets. unfold id. eapply wp_mono; [apply fetchLoop_wp; try done; by rewrite He |].
  intros o s' (-> & Hs & Ht' & Hr' & Hz). rewrite He in *. simpl in *.
  apply wp_bind, wp_gets. unfold id. simpl. case_match; [apply wp_ret | apply wp_bind, wp_modify, wp_ret]; simpl; split_and!; eauto; by split.
Qed.

Lemma run_empty r ticks :
  entries (rp_src r) = [] → src_ready (rp_src r) →
  wp (run ticks) (λ _ r', rp_proc r' = rp_proc r) r.
Proof.
  revert r. induction ticks as [| [] ticks IH]; intros r He Hr; [by apply wp_ret | | by apply wp_ret].
  simpl. apply wp_bind. eapply wp_mono; [by apply tick_empty |]. intros o r' ([x ->] & Hp & He' & Hr').
  destruct x; [by apply wp_ret |]. eapply wp_mono; [by apply IH |]. simpl. intros _ r'' H. congruence.
Qed.

(** A tick on consecutive entries takes those up to ten above the position, and
    at least one; it hands over those that are in the window. *)
Lemma tick_consecutive m r :
  let es := entries (rp_src r) in
  let c := rp_currentBlock r in
  let k := Z.to_nat (Z.max (c + 11 - m) 1) in
  es ≠ [] → src_ready (rp_src r) → consecutive_entries m (rp_src r) →
  0 ≤ c ≤ m → m + Z.of_nat (length es) + 11 ≤ max_u64 →
  wp tick (λ o r', entries (rp_src r') = drop k es ∧ src_ready (rp_src r') ∧ rs_totalSize (rp_src r') = rs_totalSize (rp_src r) ∧
    if m <=? c + 10 then o = Val None ∧ rp_currentBlock r' = m + Z.of_nat (length (take k es)) ∧
      tl_heights (rp_proc r') = (tl_heights (rp_proc r) ++ omap bodyNumber (take k es))%list
    else rp_proc r' = rp_proc r ∧ if at_end (rp_src r') then o = Val (Some None) else o = Val None ∧ rp_currentBlock r' = c + 11) r.
Proof.
  intros es c k Hne [Ht Hr] Hcons Hc Hb. unfold replayTick, FetchLogs. apply wp_bind, wp_gets. unfold id. fold c.
  assert (Hnum : Forall numbered es) by (apply (consecutive_numbered m); [lia | unfold es in *; lia | done]).
  rewrite (big_Uint64_id c), (big_Uint64_id (c + 10)) by (unfold is_u64; lia).
  apply wp_bind, wp_zoom, wp_bind, wp_gets. unfold id. eapply wp_mono; [by apply fetchLoop_wp |].
  fold es. rewrite (takeUpTo_consecutive (c + 10) m) by done. replace (c + 10 - m + 1) with (c + 11 - m) by lia. fold k.
  intros o s' (-> & Hs & Ht' & Hr' & Hz). simpl.
  assert (Htk : (length (take k es) = k ∨ take k es = es)%nat).
  { destruct (Nat.le_gt_cases k (length es)); [left; rewrite length_take; lia | right; by rewrite take_ge by lia]. }
  assert (Hdrop : drop (length (take k es)) es = drop k es).
  { rewrite length_take. destruct (Nat.le_gt_cases k (length es)); [f_equal; lia | by rewrite !drop_ge by lia]. }
  rewrite Hdrop in Hs. apply wp_bind, wp_gets. unfold id. simpl.
  destruct (Z.leb_spec m (c + 10)) as [Hin | Hout].
  - assert (Hall : filter (inRange c (c + 10)) (take k es) = take k es).
    { apply filter_inRange_all, Forall_lookup. intros i d Hi. apply lookup_take_Some in Hi as [Hi Hik].
      unfold inRange, numOf. rewrite (consecutive_number _ _ _ _ Hcons Hi). simpl. lia. }
    rewrite Hall. destruct es as [| d0 es'] eqn:Ees; [done |].
    destruct (last (take k (d0 :: es'))) as [d |] eqn:El.
    2:{ apply last_None in El. replace k with (S (Z.to_nat (c + 10 - m))) in El by lia. done. }
    rewrite last_lookup in El. apply lookup_take_Some in El as [El _].
    rewrite <- Ees in *. pose proof (consecutive_number _ _ _ _ Hcons El) as Hd. rewrite Hd.
    apply wp_bind, wp_zoom. eapply wp_mono; [apply tl_batch |]. intros o' p' [-> Hh]. simpl.
    apply wp_bind, wp_modify, wp_bind, wp_modify, wp_ret. simpl. split_and!; try done.
    assert (0 < length (take k es))%nat by (rewrite Ees; replace k with (S (Z.to_nat (c + 10 - m))) by lia; simpl; lia).
    lia.
  - assert (Hk : k = 1%nat) by lia. rewrite Hk in *. destruct es as [| d0 es'] eqn:Ees; [done |].
    assert (Hd0 : numOf d0 = m).
    { unfold numOf. rewrite (consecutive_number m (entries (rp_src r)) 0 d0); [simpl; lia | done | fold es; by rewrite Ees]. }
    simpl. rewrite filter_inRange, Hd0, take_0. replace ((c <=? m) && (m <=? c + 10)) with false
      by (symmetry; apply andb_false_iff; right; apply Z.leb_gt; lia). simpl.
    fold (at_end s'). destruct (at_end s') eqn:Ep; [apply wp_ret | apply wp_bind, wp_modify, wp_ret];
      simpl; split_and!; try done; rewrite Ep; [done | split; [done | lia]].
Qed.

(** A run with a tick for each entry hands over all but the first
    [(m - c - 1) / 10], or nothing when the file is at its end before these have
    been read. *)
Definition ends_early (size : Z) (k : nat) (es : list BlockData) : Prop :=
  ∃ i s, (i < k)%nat ∧ entries s = drop (S i) es ∧ drop (S i) es ≠ [] ∧ rs_totalSize s = size ∧ at_end s = true.
Lemma run_delivers ticks r m :
  src_ready (rp_src r) → consecutive_entries m (rp_src r) →
  0 ≤ rp_currentBlock r ≤ m → m + Z.of_nat (length (entries (rp_src r))) + 11 ≤ max_u64 →
  Forall (λ b, b = true) ticks → (length (entries (rp_src r)) ≤ length ticks)%nat →
  let k := Z.to_nat ((m - rp_currentBlock r - 1) / 10) in
  wp (run ticks) (λ _ r',
    tl_heights (rp_proc r') = (tl_heights (rp_proc r) ++ omap bodyNumber (drop k (entries (rp_src r))))%list ∨
    tl_heights (rp_proc r') = tl_heights (rp_proc r) ∧ ends_early (rs_totalSize (rp_src r)) k (entries (rp_src r))) r.
Proof.
  cbv zeta. revert r m. induction ticks as [| b ticks IH]; intros r m Hready Hcons Hc Hb Hticks Hlen.
  { destruct (entries (rp_src r)); [| simpl in Hlen; lia]. apply wp_ret. left. by rewrite drop_nil, app_nil_r. }
  apply Forall_cons in Hticks as [-> Hticks]. destruct (decide (entries (rp_src r) = [])) as [He | He].
  { eapply wp_mono; [by apply run_empty |]. intros _ r' ->. left. by rewrite He, drop_nil, app_nil_r. }
  simpl. apply wp_bind. eapply wp_mono; [by apply (tick_consecutive m) |]. intros o r' (Hs & Hready' & Hz & H).
  set (es := entries (rp_src r)) in *. set (c := rp_currentBlock r) in *. set (k := Z.to_nat (Z.max (c + 11 - m) 1)) in *.
  assert (Hlen' : length (entries (rp_src r')) = (length es - k)%nat) by (by rewrite Hs, length_drop).
  assert (Hk : (1 ≤ k)%nat) by lia.
  assert (Hpos' : (0 < length es)%nat) by (destruct es; [done | simpl; lia]).
  assert (Hnext : consecutive_entries (m + Z.of_nat k) (rp_src r')).
  { unfold consecutive_entries. rewrite Hs. by apply consecutive_drop. }
  destruct (Z.leb_spec m (c + 10)) as [Hin | Hout].
  - destruct H as (-> & Hcur & Hh). replace (Z.to_nat ((m - c - 1) / 10)) with 0%nat
      by (rewrite (Z.div_le_upper_bound (m - c - 1) 10 0) || (assert ((m - c - 1) / 10 < 1) by (apply Z.div_lt_upper_bound; lia); lia)).
    assert (Hgoal : wp (run ticks) (λ _ r'', tl_heights (rp_proc r'') = (tl_heights (rp_proc r) ++ omap bodyNumber es)%list) r');
      [| eapply wp_mono; [exact Hgoal |]; intros o' r'' E; left; rewrite drop_0; exact E].
    rewrite <- (take_drop k es), omap_app, app_assoc, <- Hh, <- Hs.
    destruct (decide (entries (rp_src r') = [])) as [He' | He'].
    { eapply wp_mono; [by apply run_empty |]. intros _ r'' ->. by rewrite He', app_nil_r. }
    assert (Hkl : (k < length es)%nat).
    { apply Nat.nle_gt. intros Hge. apply He'. rewrite Hs. by apply drop_ge. }
    rewrite length_take in Hcur. replace (Nat.min k (length es)) with k in Hcur by lia.
    eapply wp_mono; [apply (IH r' (m + Z.of_nat k)); try done; [rewrite Hcur; lia | lia | simpl in Hlen; lia] |].
    assert (Hz0 : (m + Z.of_nat k - rp_currentBlock r' - 1) / 10 = -1) by (by rewrite Hcur, Z.sub_diag).
    rewrite Hz0. intros o' r'' [-> | [_ (i & s & Hi & _)]]; [done | simpl in Hi; lia].
  - destruct H as [Hp H]. rewrite <- Hp. assert (Hk1 : k = 1%nat) by lia. rewrite Hk1 in *.
    assert (Hdiv : Z.to_nat ((m - c - 1) / 10) = S (Z.to_nat ((m + 1 - (c + 11) - 1) / 10))).
    { replace (m - c - 1) with ((m + 1 - (c + 11) - 1) + 1 * 10) by lia. rewrite Z.div_add by lia.
      assert (0 ≤ (m + 1 - (c + 11) - 1) / 10) by (apply Z.div_pos; lia). lia. }
    rewrite Hdiv. set (k' := Z.to_nat ((m + 1 - (c + 11) - 1) / 10)) in *.
    replace (drop (S k') es) with (drop k' (entries (rp_src r'))) by (rewrite Hs, drop_drop; f_equal; lia).
    destruct (at_end (rp_src r')) eqn:Eend.
    + rewrite H. apply wp_ret. destruct (decide (drop 1 es = [])) as [Hnil | Hnil].
      * left. by rewrite Hs, Hnil, drop_nil, app_nil_r.
      * right. split; [done |]. exists 0%nat, (rp_src r'). split_and!; [lia | done..].
    + destruct H as [-> Hcur]. replace (m + Z.of_nat 1) with (m + 1) in Hnext by lia.
      eapply wp_mono; [apply (IH r' (m + 1)); try done; [rewrite Hcur; lia | lia | simpl in Hlen; lia] |].
      rewrite Hcur. fold k'. intros o' r'' [E | [E (i & s & Hi & E1 & E2 & E3 & E4)]]; [by left | right].
      split; [done |]. rewrite Hs, drop_drop in E1, E2. exists (S i), s. split_and!; [lia | done.. | congruence | done].
Qed.

(** A file at its end after the first entry: the first tick ends the replay. *)
Lemma run_ends ticks r m :
  src_ready (rp_src r) → consecutive_entries m (rp_src r) →
  0 ≤ rp_currentBlock r → rp_currentBlock r + 10 < m → m + Z.of_nat (length (entries (rp_src r))) + 11 ≤ max_u64 →
  (∀ s, entries s = drop 1 (entries (rp_src r)) → rs_totalSize s = rs_totalSize (rp_src r) → at_end s = true) →
  wp (run ticks) (λ _ r', rp_proc r' = rp_proc r) r.
Proof.
  intros Hready Hcons Hc Hm Hb Hend. destruct ticks as [| [] ticks]; [by apply wp_ret | | by apply wp_ret].
  destruct (decide (entries (rp_src r) = [])) as [He | He]; [by apply run_empty |].
  simpl. apply wp_bind. eapply wp_mono; [by apply (tick_consecutive m); try done; lia |]. intros o r' (Hs & _ & Hz & H).
  rewrite (proj2 (Z.leb_gt _ _)) in H by lia. destruct H as [Hp H].
  replace (Z.to_nat (Z.max (rp_currentBlock r + 11 - m) 1)) with 1%nat in Hs by lia. rewrite (Hend _ Hs Hz) in H. rewrite H. by apply wp_ret.
Qed.
End replay_props.

(** *** Recordings without bodies *)

Section bodyless.
Context {P : Type} {BP : BlockProcessor P} {TL : TaskLog P} (decode : Line → option BlockData) (ctxDone : nat → bool)
  (filePos : Lz4ReplaySource → option Z).
Abbreviation bodyless := (Forall (λ d, bodyNumber d = None)).
Abbreviation entries s := (omap decode (rs_lines s)).

Lemma omap_bodyless es : bodyless es → omap bodyNumber es = [].
Proof. induction 1 as [| d es Hd _ IH]; [done |]. simpl. by rewrite Hd. Qed.

Lemma throttle_lines d s : wp (throttle ctxDone d) (λ _ s', rs_lines s' = rs_lines s) s.
Proof.
  unfold throttle. apply wp_bind, wp_gets. unfold id. case_match; [| by apply wp_ret].
  case_match; [by apply wp_bind, wp_modify, wp_ret | by apply wp_ret].
Qed.

Lemma scanned_sub results s :
  bodyless (entries s) → bodyless results →
  wp (scanned results) (λ o s', bodyless (entries s') ∧ ∀ l, o = Val (Ok l) → bodyless l) s.
Proof.
  intros Hs Hr. apply wp_bind, wp_gets, wp_ret. split; [done |]. intros l. case_match; intros [= <-]. done.
Qed.

Lemma fetchLoop_sub lines a e results s :
  rs_lines s = lines → bodyless (omap decode lines) → bodyless results →
  wp (fetchLoop decode ctxDone lines a e results) (λ o s', bodyless (entries s') ∧ ∀ l, o = Val (Ok l) → bodyless l) s.
Proof.
  revert results s. induction lines as [| line rest IH]; intros results s Hl Hb Hr; simpl in *.
  { apply wp_bind, wp_modify, scanned_sub; [by simpl; rewrite Hl | done]. }
  apply wp_bind, wp_modify. destruct (decode line) as [d |] eqn:Ed; simpl in Hb; [| by apply IH].
  apply Forall_cons in Hb as [Hd Hb]. destruct (bd_Number d); [| by apply wp_panic].
  assert (Hr' : bodyless (results ++ [d])%list) by (apply Forall_app; split; [done | by constructor]).
  case_match; [| case_match; [by apply scanned_sub | by apply IH]].
  apply wp_bind. eapply wp_mono; [apply throttle_lines |]. intros [stop | w] s1 H1; simpl in H1; [| by rewrite H1].
  destruct stop; [apply wp_ret; by rewrite H1 |].
  apply wp_bind. eapply (wp_mono _ (λ o s2, rs_lines s2 = rest)); [unfold noteTime; case_match; [by apply wp_modify | by apply wp_ret] |].
  intros [u | w] s2 H2; [| by rewrite H2]. apply wp_bind, wp_modify.
  case_match; [apply scanned_sub; simpl; by rewrite ?H2 | by apply IH].
Qed.

Lemma tick_bodyless r :
  bodyless (entries (rp_src r)) →
  wp (replayTick decode ctxDone filePos) (λ _ r', bodyless (entries (rp_src r')) ∧ tl_heights (rp_proc r') = tl_heights (rp_proc r)) r.
Proof.
  intros Hb. apply wp_bind, wp_gets. unfold id. apply wp_bind, wp_zoom, wp_bind, wp_gets. unfold id.
  eapply wp_mono; [by apply fetchLoop_sub |]. intros [[l | e] | w] s' [Hs Hl]; [| apply wp_ret; by split | by split].
  specialize (Hl l eq_refl). apply wp_bind, wp_gets. unfold id. simpl. case_match.
  2:{ case_match; [by apply wp_ret | by apply wp_bind, wp_modify, wp_ret]. }
  apply wp_bind, wp_zoom. eapply wp_mono; [apply tl_batch |]. intros o p' [-> Hh].
  rewrite (omap_bodyless l Hl) in Hh.
  rewrite app_nil_r in Hh. apply wp_bind, wp_modify. case_match; [by apply wp_bind, wp_modify, wp_ret | by apply wp_panic].
Qed.

Lemma run_bodyless ticks r :
  bodyless (entries (rp_src r)) →
  wp (replayLoop decode ctxDone filePos ticks) (λ _ r', tl_heights (rp_proc r') = tl_heights (rp_proc r)) r.
Proof.
  revert r. induction ticks as [| [] ticks IH]; intros r Hb; [by apply wp_ret | | by apply wp_ret].
  simpl. apply wp_bind. eapply wp_mono; [by apply tick_bodyless |]. intros [[x |] | w] r' [Hb' <-]; [by apply wp_ret | | done].
  by apply IH.
Qed.
End bodyless.

(** *** What the recorders write *)

(** Every document of the file satisfies [Q]. *)
Definition docs (Q : Json → Prop) : list Chunk → Prop := Forall (λ c, ∀ v, c = CDoc v → Q v).

Lemma splitLines_docs Q cur cs : docs Q cur → docs Q cs → Forall (λ l, ∀ v, l = Some v → Q v) (splitLines cur cs).
Proof.
  assert (Hline : ∀ c, docs Q c → ∀ v, lineOf c = Some v → Q v).
  { intros c Hc v. destruct Hc as [| c l Hc [| c' l']]; [done | | by destruct c]. destruct c; [| done..]. intros [= <-]. by apply Hc. }
  intros Hcur Hcs. revert cur Hcur. induction Hcs as [| c cs Hc Hcs IH]; intros cur Hcur; simpl.
  - destruct cur; [constructor |]. constructor; [by apply Hline | constructor].
  - destruct c; try (apply IH, Forall_app; split; [done | by constructor]). constructor; [by apply Hline | by apply IH; constructor].
Qed.

Section recorded.
Context {EJ : EthJson}.

Lemma record_line ts data : lineData (Some (RecordEntry ts "block_data" data)) = decodeBlockData data.
Proof. reflexivity. Qed.
Lemma transfer_line t : lineData (Some (Transfer_json t)) = None.
Proof.
  transitivity (if String.eqb (tr_Type t) "block_data" then None else None : option BlockData); [reflexivity | by case_match].
Qed.
Lemma block_line b : lineData (Some (Block_json b)) = None.
Proof. reflexivity. Qed.
Lemma other_line ts typ data : typ ≠ "block_data" → lineData (Some (RecordEntry ts typ data)) = None.
Proof.
  intros H%String.eqb_neq. transitivity (if String.eqb typ "block_data" then decodeBlockData data else None); [reflexivity | by rewrite H].
Qed.

(** A recorded result decodes to itself when it has no block, and is skipped
    when it has one. *)
Definition exactNumber (z : option Z) : Prop := match z with Some n => 0 ≤ n < 2 ^ 53 | None => True end.
Lemma JBig_roundtrip z : exactNumber z → parseBigInt (JBig z) = z.
Proof. destruct z as [n |]; [| done]. intros H. simpl. by rewrite Sprintf_0f_int, SetString10_pretty. Qed.

Lemma recorded_block d b : bd_Block d = Some b → decodeBlockData (BlockData_json d) = None.
Proof.
  intros Hb. unfold BlockData_json. rewrite Hb. destruct (block_json_exported b) as (r & f & ->). reflexivity.
Qed.
Lemma recorded_header d :
  bd_Block d = None → bd_Err d = None → exactNumber (bd_Number d) → exactNumber (bd_RangeEnd d) →
  decodeBlockData (BlockData_json d) = Some d.
Proof.
  intros Hb He Hn Hr. unfold BlockData_json. rewrite Hb.
  transitivity (Some (mkBlockData (parseBigInt (JBig (bd_Number d))) (parseBigInt (JBig (bd_RangeEnd d))) None None
    (default [] (logs_of_json (log_json <$> bd_Logs d))))); [reflexivity |].
  rewrite !JBig_roundtrip, logs_json_roundtrip by done. destruct d; simpl in *. by subst.
Qed.

(** No document of a file yields a block with a body. *)
Definition no_body (v : Json) : Prop := ∀ d, lineData (Some v) = Some d → bodyNumber d = None.
Lemma file_bodyless cs : docs no_body cs → Forall (λ d, bodyNumber d = None) (omap lineData (fileLines cs)).
Proof.
  intros H. assert (Hl : Forall (λ l, ∀ v, l = Some v → no_body v) (fileLines cs)) by (apply splitLines_docs; [constructor | done]).
  induction Hl as [| [v |] ls Hv _ IH]; [constructor | | exact IH].
  change (omap lineData (Some v :: ls)) with (match lineData (Some v) with Some d => d :: omap lineData ls | None => omap lineData ls end).
  destruct (lineData (Some v)) as [d |] eqn:Ed; [| exact IH]. constructor; [by apply (Hv v) | exact IH].
Qed.
Lemma no_body_result ts d : no_body (RecordEntry ts "block_data" (BlockData_json d)).
Proof.
  intros d'. rewrite record_line. destruct (bd_Block d) as [b |] eqn:Hb; [by rewrite (recorded_block d b) |].
  unfold BlockData_json. rewrite Hb. intros [= <-]. reflexivity.
Qed.
Lemma no_body_transfer t : no_body (Transfer_json t).
Proof. intros d. by rewrite transfer_line. Qed.
Lemma no_body_block b : no_body (Block_json b).
Proof. intros d. by rewrite block_line. Qed.
Lemma no_body_other ts typ v : typ ≠ "block_data" → no_body (RecordEntry ts typ v).
Proof. intros H d. by rewrite other_line. Qed.
End recorded.

(** *** Histories of the recorders *)

(** What happens to an [Lz4Sink]: writes, and changes of the disk and of what
    the compressor will answer. *)
Inductive SinkOp : Type :=
| SoTransfers (ts : list Transfer) | SoBlocks (bs : list ModelBlock)
| SoDisk (disk : result GoErr Statfs) | SoAnswers (answers : list (option GoErr)).
(** What happens to a [DataRecorder]: [sendResult] records a result without an
    error, the sink interface transfers and blocks. *)
Inductive RecOp : Type :=
| RoResult (now : Z) (d : BlockData) | RoTransfers (now : Z) (ts : list Transfer)
| RoBlocks (now : Z) (bs : list ModelBlock) | RoWrites (writes : list bool) | RoClose.

Section histories.
Context {EJ : EthJson}.
Definition sinkStep (op : SinkOp) : GoM Lz4Sink (option GoErr) :=
  match op with
  | SoTransfers ts => WriteTransfers lz4Sink ts
  | SoBlocks bs => WriteBlocks lz4Sink bs
  | SoDisk disk => modify (λ s, mkLz4Sink (sk_suspended s) (sk_out s) (sk_answers s) disk);; mret None
  | SoAnswers answers => modify (λ s, mkLz4Sink (sk_suspended s) (sk_out s) answers (sk_disk s));; mret None
  end.
Definition sinkRun (ops : list SinkOp) (s : Lz4Sink) : Lz4Sink := foldl (λ s op, fst (sinkStep op s)) s ops.
Definition recStep (op : RecOp) : GoM DataRecorder unit :=
  match op with
  | RoResult now d => match bd_Err d with None => Record_ now "block_data" (BlockData_json d) | Some _ => mret tt end
  | RoTransfers now ts => WriteTransfers (recorderSink now) ts;; mret tt
  | RoBlocks now bs => WriteBlocks (recorderSink now) bs;; mret tt
  | RoWrites writes => modify (λ r, mkDataRecorder (dr_file r) (dr_closed r) writes)
  | RoClose => Close (recorderSink 0);; mret tt
  end.
Definition recRun (ops : list RecOp) (r : DataRecorder) : DataRecorder := foldl (λ r op, fst (recStep op r)) r ops.

(** The sinks write only documents of the kinds above. *)
Definition sink_adds (s s' : Lz4Sink) : Prop := docs no_body (sk_out s) → docs no_body (sk_out s').
#[local] Instance sink_adds_preorder : PreOrder sink_adds.
Proof. split; [by intros s H | intros s1 s2 s3 H1 H2 H; auto]. Qed.

Lemma lz4Op_adds c s : docs no_body c → always sink_adds (lz4Op c) s.
Proof.
  intros Hc Hs. unfold lz4Op. destruct (sk_answers s) as [| [e |] es]; simpl; apply Forall_app; (split; [exact Hs | first [exact Hc | constructor]]).
Qed.
Lemma writeLines_adds vs s : Forall no_body vs → always sink_adds (writeLines vs) s.
Proof.
  intros H. revert s. induction H as [| v vs Hv _ IH]; intros s; [by apply always_ret, _ |].
  simpl. apply always_try; [apply _ | apply lz4Op_adds; constructor; [by intros w [= ->] | constructor] |]. intros s1.
  apply always_try; [apply _ | apply lz4Op_adds; constructor; [done | constructor] |]. done.
Qed.
Lemma writeDocs_adds vs s : Forall no_body vs → always sink_adds (writeDocs vs) s.
Proof.
  intros H. unfold writeDocs. apply always_seq; [apply _ | |].
  - unfold checkQuota. apply always_seq; [apply _ | apply always_gets, _ |]. intros s1 s2. unfold id.
    case_match; [apply always_ret, _ |]. case_match; [| apply always_ret, _]. case_match; [| apply always_ret, _].
    apply always_seq; [apply _ | apply always_modify; intros Hs; exact Hs |]. intros u s3. apply always_ret, _.
  - intros ok s1. case_match; [| apply always_ret, _].
    apply always_try; [apply _ | by apply writeLines_adds |]. intros s2. apply lz4Op_adds. constructor.
Qed.
Lemma sinkRun_adds ops s : docs no_body (sk_out s) → docs no_body (sk_out (sinkRun ops s)).
Proof.
  revert s. induction ops as [| op ops IH]; intros s Hs; [done |]. simpl. apply IH. destruct op; [| | done..].
  - apply (writeDocs_adds (Transfer_json <$> ts) s); [| done]. apply Forall_fmap, Forall_true. intros t. apply no_body_transfer.
  - apply (writeDocs_adds (Block_json <$> bs) s); [| done]. apply Forall_fmap, Forall_true. intros b. apply no_body_block.
Qed.

Definition rec_adds (r r' : DataRecorder) : Prop :=
  docs no_body (default [] (dr_file r)) → docs no_body (default [] (dr_file r')).
#[local] Instance rec_adds_preorder : PreOrder rec_adds.
Proof. split; [by intros s H | intros s1 s2 s3 H1 H2 H; auto]. Qed.
Lemma dr_Write_adds c f r : docs no_body c → docs no_body f → always rec_adds (dr_Write c f) r.
Proof.
  intros Hc Hf. apply always_modify. intros Hr. destruct (dr_closed r); [done |].
  destruct (match dr_writes r with [] => (true, []) | w :: ws => (w, ws) end) as [ok rest]. simpl.
  destruct (dr_file r); simpl in *; [| done]. apply Forall_app. split; [exact Hr | by destruct ok].
Qed.
Lemma Record_adds now typ v r : no_body (RecordEntry now typ v) → always rec_adds (Record_ now typ v) r.
Proof.
  intros Hv. apply always_seq; [apply _ | apply always_gets, _ |]. intros r1 r2. case_match; [| apply always_ret, _].
  apply always_seq; [apply _ | |].
  - apply dr_Write_adds; (apply Forall_singleton); [by intros w [= <-] | done].
  - intros u r3. apply dr_Write_adds; [by apply Forall_singleton | constructor].
Qed.
Lemma recordAll_adds now typ vs r : typ ≠ "block_data" → always rec_adds (recordAll now typ vs) r.
Proof.
  intros Ht. revert r. induction vs as [| v vs IH]; intros r; [apply always_ret, _ |].
  simpl. apply always_seq; [apply _ | by apply Record_adds, no_body_other | by intros u r'].
Qed.
Lemma recRun_adds ops r : docs no_body (default [] (dr_file r)) → docs no_body (default [] (dr_file (recRun ops r))).
Proof.
  revert r. induction ops as [| op ops IH]; intros r Hr; [done |]. simpl. apply IH.
  assert (Hkind : ∀ now typ vs, typ ≠ "block_data" →
    always rec_adds ((recordAll now typ vs;; mret (@None GoErr));; mret tt : GoM DataRecorder unit) r).
  { intros now typ vs Ht. apply always_seq; [apply _ | | intros a r'; apply always_ret, _].
    apply always_seq; [apply _ | by apply recordAll_adds | intros a r'; apply (always_ret _ (@None GoErr))]. }
  destruct op; simpl; [| by apply Hkind | by apply Hkind | done..].
  case_match; [done |]. apply (Record_adds now "block_data" (BlockData_json d) r); [apply no_body_result | exact Hr].
Qed.
End histories.

(** ** Properties *)

(** A processor that only notes the heights of the bodies it is handed. *)
#[export] Instance logProcessor : BlockProcessor (list Z) := {|
  ProcessBlockWithRetry d _ :=
    match bodyNumber d with
    | Some n => modify (λ l, l ++ [n])%list;; mret None
    | None => mret (Some (Errorf "no body"))
    end;
  ProcessBatch ds _ := modify (λ l, l ++ omap bodyNumber ds)%list;; mret None;
  GetRPCClient := None
|}.
#[export] Instance logProcessor_log : TaskLog (list Z).
Proof.
  refine {| tl_heights l := l |}; try done. intros d n l. simpl.
  destruct (bodyNumber d) as [k |]; [by split; [eexists |] | apply wp_ret; split; [done | by rewrite app_nil_r]].
Defined.

(** C29: A recording of consecutive blocks from [n] on is handed to the processor
    in order, each block once, except for the entries at its head: the replay
    starts at block 0 and looks at windows of eleven numbers, and an entry read
    from beyond the window is dropped, so the first [(n - 1) / 10] entries are
    lost.  Or nothing at all is handed over, when already during these the
    position of the file is at 99.9 per cent or more ([ends_early]): the
    decompressor and the scanner read ahead, and a tick that finds nothing in its
    window takes that for the end.  So a recording that starts at 10 or below is
    always delivered whole; one that starts above, in a file which the read-ahead
    has consumed with the first entry, delivers nothing.  (A tick for each entry
    is enough.) *)
Theorem replay_delivers {EJ : EthJson} {P : Type} {BP : BlockProcessor P} {TL : TaskLog P}
    (filePos : Lz4ReplaySource → option Z) (src : Lz4ReplaySource) (p : P) (ticks : list bool) (n : Z) :
  let es := omap lineData (rs_lines src) in
  bd_Number <$> es = Some <$> seqZ n (Z.of_nat (length es)) →
  0 ≤ n → n + Z.of_nat (length es) + 11 ≤ max_u64 →
  rs_tail src = None → rs_Err src = None →
  Forall (λ b, b = true) ticks → (length es ≤ length ticks)%nat →
  let k := Z.to_nat ((n - 1) / 10) in
  let delivered := tl_heights (fst (RunReplayMode lineData (λ _, false) filePos (Ok src) p ticks)) in
  (delivered = (tl_heights p ++ omap bodyNumber (drop k es))%list ∨
   delivered = tl_heights p ∧ ends_early lineData filePos (rs_totalSize src) k es) ∧
  (10 < n → (∀ s, omap lineData (rs_lines s) = drop 1 es → rs_totalSize s = rs_totalSize src → at_end filePos s = true) → delivered = tl_heights p).
Proof.
  intros es Hes Hn Hmax Ht He Hticks Hlen k delivered.
  pose proof (run_delivers lineData filePos ticks (mkReplay src 0 p [] []) n) as H1. simpl in H1. rewrite Z.sub_0_r in H1.
  pose proof (run_ends lineData filePos ticks (mkReplay src 0 p [] []) n) as H2. simpl in H2.
  unfold delivered, RunReplayMode. unfold wp in H1, H2.
  destruct (replayLoop lineData (λ _, false) filePos ticks (mkReplay src 0 p [] [])) as [r o]. simpl in *.
  split; [by apply H1 | intros H10 Hend; rewrite H2; done].
Qed.

(** C30: Nothing the program records can be replayed into the database: whatever
    is written to an [Lz4Sink] or a [DataRecorder], and however the replay of
    that file goes, the processor is handed no block with a body.  (An entry of
    the sinks has no type [block_data]; a recorded block is written as the two
    exported fields of [types.Block] and skipped when read.) *)
Theorem own_recordings_store_nothing {EJ : EthJson} {P : Type} {BP : BlockProcessor P} {TL : TaskLog P}
    (disk : result GoErr Statfs) (sinkOps : list SinkOp) (recOps : list RecOp)
    (ctxDone : nat → bool) (filePos : Lz4ReplaySource → option Z) (tail : option GoErr) (size : Z) (speed : float64)
    (ticks : list bool) (p : P) :
  let replayed cs := fst (RunReplayMode lineData ctxDone filePos
    (Ok (NewLz4ReplaySource (fileLines cs) tail size speed)) p ticks) in
  tl_heights (replayed (sk_out (sinkRun sinkOps (NewLz4Sink disk [])))) = tl_heights p ∧
  tl_heights (replayed (default [] (dr_file (recRun recOps (mkDataRecorder (Some []) false []))))) = tl_heights p.
Proof.
  intros replayed.
  assert (Hrun : ∀ cs, docs no_body cs → tl_heights (replayed cs) = tl_heights p).
  { intros cs Hcs. unfold replayed, RunReplayMode.
    pose proof (run_bodyless lineData ctxDone filePos ticks (mkReplay (NewLz4ReplaySource (fileLines cs) tail size speed) 0 p [] [])
      (file_bodyless cs Hcs)) as H. unfold wp in H.
    destruct (replayLoop lineData ctxDone filePos ticks (mkReplay (NewLz4ReplaySource (fileLines cs) tail size speed) 0 p [] [])). done. }
  split; apply Hrun; [apply sinkRun_adds | apply (recRun_adds recOps (mkDataRecorder (Some []) false []))]; constructor.
Qed.

(** Recording results, all writes succeeding. *)
Definition recordResults {EJ : EthJson} (now : Z) (ds : list BlockData) : list Chunk :=
  default [] (dr_file (recRun (RoResult now <$> ds) (mkDataRecorder (Some []) false []))).

Lemma recordResults_chunks {EJ : EthJson} now ds cs :
  Forall (λ d, bd_Err d = None) ds →
  recRun (RoResult now <$> ds) (mkDataRecorder (Some cs) false []) =
  mkDataRecorder (Some (cs ++ concat ((λ d, [CDoc (RecordEntry now "block_data" (BlockData_json d)); CNewline]) <$> ds))%list) false [].
Proof.
  intros H. revert cs. induction H as [| d ds Hd _ IH]; intros cs; [by rewrite app_nil_r |].
  change (recRun (RoResult now <$> d :: ds) (mkDataRecorder (Some cs) false [])) with
    (recRun (RoResult now <$> ds) (fst (recStep (RoResult now d) (mkDataRecorder (Some cs) false [])))).
  unfold recStep. rewrite Hd. simpl. rewrite IH, <- !app_assoc. done.
Qed.

(** What the fetcher records and the replay source reads back: results
    without a block come back as they were (their numbers below 2^53, which a
    JSON number holds), results with a block are gone. *)
Theorem recording_keeps_headers_only {EJ : EthJson} (now : Z) (ds : list BlockData) :
  Forall (λ d, bd_Err d = None ∧ exactNumber (bd_Number d) ∧ exactNumber (bd_RangeEnd d)) ds →
  omap lineData (fileLines (recordResults now ds)) = filter (λ d, bd_Block d = None) ds.
Proof.
  intros H. unfold recordResults. rewrite recordResults_chunks by (eapply Forall_impl; [exact H | by intros d (? & _)]).
  set (F := λ d, [CDoc (RecordEntry now "block_data" (BlockData_json d)); CNewline]).
  change (omap lineData (splitLines [] (concat (F <$> ds))) = filter (λ d, bd_Block d = None) ds).
  induction H as [| d ds (He & Hn & Hr) _ IH]; [done |].
  assert (E : splitLines [] (concat (F <$> d :: ds)) =
    Some (RecordEntry now "block_data" (BlockData_json d)) :: splitLines [] (concat (F <$> ds))) by done.
  rewrite E.
  cbn [omap list_omap]. rewrite record_line, filter_cons. destruct (bd_Block d) as [b |] eqn:Hb.
  - rewrite (recorded_block d b) by done. rewrite decide_False by done. exact IH.
  - rewrite recorded_header by done. rewrite decide_True by done. by f_equal.
Qed.

(** A library whose logs are written as text, for the witnesses; its blocks
    carry what [types.Block] exports when written, and are read back from the
    member number. *)
Definition JText (z : Z) : Json := JStr (pretty z).
Definition textNumber (v : Json) : option Z := match v with JStr s => SetString10 s | _ => None end.
Definition sampleLog_json (l : Log) : Json :=
  JArr [JText (log_Address l); JArr (JText <$> log_Topics l); JArr (JText <$> log_Data l);
        JText (log_BlockNumber l); JStr (log_TxHash l); JText (log_Index l)].
Definition sampleLog_of_json (v : Json) : option Log :=
  match v with
  | JArr [a; JArr ts; JArr ds; n; JStr h; i] =>
    a ← textNumber a; ts ← mapM textNumber ts; ds ← mapM textNumber ds; n ← textNumber n; i ← textNumber i;
    Some (mkLog a ts ds n h i)
  | _ => None
  end.
Lemma textNumbers_roundtrip zs : mapM textNumber (JText <$> zs) = Some zs.
Proof. apply mapM_fmap_Some. intros z. apply SetString10_pretty. Qed.
Definition sampleBlock (n : Z) : EthBlock := mkEthBlock n "" "" (1000 + 12 * n) 0 0 None [].
#[export] Instance sampleJson : EthJson.
Proof.
  refine {| block_json _ := JObj [("ReceivedAt", JStr ""); ("ReceivedFrom", JNull)];
            block_of_json v := match v with JObj fs => sampleBlock <$> numberAt "number" fs | _ => None end;
            log_json := sampleLog_json; logs_of_json := mapM sampleLog_of_json;
            u256_json := JText; time_json := JStr "" |}.
  - intros b. by eexists _, _.
  - intros ls. apply mapM_fmap_Some. intros [a ts ds n h i]. simpl. by rewrite !textNumbers_roundtrip, !SetString10_pretty.
Defined.

Definition playableLine (n : Z) : Line := Some (RecordEntry 0 "block_data"
  (JObj [("Number", JInt n); ("Block", JObj [("number", JInt n); ("hash", JStr ""); ("parentHash", JStr "")])])).

(** Forty blocks from 25 on: with an unknown position 38 of them are delivered;
    with the whole file in the read-ahead buffers, none. *)
Lemma replay_delivers_witness :
  let src := NewLz4ReplaySource (playableLine <$> seqZ 25 40) None 1000 f0 in
  let delivered filePos := tl_heights (fst (RunReplayMode lineData (λ _, false) filePos (Ok src) [] (replicate 40 true))) in
  delivered (λ _, None) = seqZ 27 38 ∧ delivered (λ _, Some 1000) = [].
Proof.
  intros src delivered.
  assert (Hes : bd_Number <$> omap lineData (rs_lines src) = Some <$> seqZ 25 (Z.of_nat (length (omap lineData (rs_lines src)))))
    by (vm_compute; reflexivity).
  assert (Hmax : 25 + Z.of_nat (length (omap lineData (rs_lines src))) + 11 ≤ max_u64) by (by vm_compute).
  assert (Hticks : Forall (λ b, b = true) (replicate 40 true)) by (by apply Forall_replicate).
  assert (Hlen : (length (omap lineData (rs_lines src)) ≤ length (replicate 40 true))%nat) by (by apply Nat.leb_le).
  split.
  - destruct (replay_delivers (P := list Z) (λ _, None) src [] (replicate 40 true) 25 Hes ltac:(done) Hmax eq_refl eq_refl Hticks Hlen)
      as [[H | [_ (i & s & _ & _ & _ & _ & H)]] _].
    + etransitivity; [exact H |]. by vm_compute.
    + exfalso. revert H. unfold at_end, GetProgress. by case_match.
  - destruct (replay_delivers (P := list Z) (λ _, Some 1000) src [] (replicate 40 true) 25 Hes ltac:(done) Hmax eq_refl eq_refl Hticks Hlen)
      as [_ H].
    apply H; [done |]. intros s _ Hz. unfold at_end, GetProgress. rewrite Hz. by vm_compute.
Defined.

Lemma recording_keeps_headers_only_witness :
  omap lineData (fileLines (recordResults 7
    [mkBlockData (Some 5) None None None [mkLog 1 [2; 3] [4] 5 "0xa" 0]; mkBlockData (Some 6) (Some 9) (Some (sampleBlock 6)) None []])) =
  [mkBlockData (Some 5) None None None [mkLog 1 [2; 3] [4] 5 "0xa" 0]].
Proof.
  etransitivity; [apply recording_keeps_headers_only |]; [| done].
  repeat (apply Forall_cons; split; [done |]). by apply Forall_nil.
Defined.

(** ** What modelling showed *)

(** [StreamBlocks] loses nothing: every complete, numbered entry reaches the
    channel, in order, whatever its number; it has no caller. *)
Lemma StreamBlocks_delivers decode (t : Stream) :
  rs_tail (st_src t) = None →
  wp (StreamBlocks decode (λ _ _, false)) (λ o t',
    o = Val None ∧ st_out t' = (st_out t ++ omap decode (rs_lines (st_src t)))%list) t.
Proof.
  unfold StreamBlocks. intros Ht. apply wp_bind, wp_gets. unfold id. remember (rs_lines (st_src t)) as lines eqn:El. clear El.
  revert t Ht. induction lines as [| line lines IH]; intros t Ht.
  - apply wp_bind, wp_zoom, wp_modify, wp_bind, wp_gets, wp_ret. unfold id. simpl. by rewrite Ht, app_nil_r.
  - simpl. apply wp_bind, wp_zoom, wp_modify. destruct (decode line) as [d |];
      [| by apply (IH (mkStream (rset_lines lines (st_src t)) (st_out t)))].
    apply wp_bind, wp_zoom, throttle_wp. intros s1 (_ & H1 & _). simpl in *.
    apply wp_bind, wp_zoom, noteTime_wp. intros s2 (_ & H2 & _). simpl in *.
    apply wp_bind, wp_zoom, wp_modify, wp_bind, wp_modify. simpl.
    eapply wp_mono; [apply IH; simpl; congruence |]. intros o t' [-> H]. split; [done |]. rewrite H. simpl. by rewrite <- app_assoc.
Qed.

(** An entry without a number stops the replay with a nil dereference. *)
Lemma unnumbered_entry_panics {EJ : EthJson} :
  snd (FetchLogs lineData (λ _, false) 0 10 (NewLz4ReplaySource [Some (RecordEntry 0 "block_data" (JObj []))] None 1 f0)) =
  Panic "invalid memory address or nil pointer dereference".
Proof. reflexivity. Qed.

(** A torn end of the file (a crash while recording) discards the blocks read in
    the same call and ends the replay with an error. *)
Lemma torn_tail_drops_batch :
  snd (FetchLogs (lineData (EJ := sampleJson)) (λ _, false) 0 10
         (NewLz4ReplaySource [playableLine 1; playableLine 2] (Some (Errorf "lz4: bad frame")) 1 f0)) =
  Val (Err (WrapErr "lz4_scan_failed: " (Errorf "lz4: bad frame"))).
Proof. by vm_compute. Qed.

(** The cap on the pause is not monotone: two seconds are waited out, three
    become a fifth of a second. *)
Lemma long_pause_is_shorter :
  replaySleep (float_of_Z 1) 2 = 2000000000 ∧ replaySleep (float_of_Z 1) 3 = 200000000.
Proof. by vm_compute. Qed.

(** A sink that ran out of space stays suspended for good, and reports success
    for what it drops; a file system that reports no blocks suspends it too. *)
Lemma suspended_sink_is_silent {EJ : EthJson} docs s :
  sk_suspended s = true → writeDocs docs s = (s, Val None).
Proof. intros H. unfold writeDocs, checkQuota, mbind, GoM_bind, gets, id. simpl. by rewrite H. Qed.
Lemma suspended_for_good {EJ : EthJson} ops s : sk_suspended s = true → sk_suspended (sinkRun ops s) = true.
Proof.
  revert s. induction ops as [| op ops IH]; intros s H; [done |]. simpl. apply IH.
  destruct op; [.. | done | done]; simpl; by rewrite suspended_sink_is_silent.
Qed.
Lemma empty_filesystem_suspends {EJ : EthJson} docs :
  sk_suspended (fst (writeDocs docs (NewLz4Sink (Ok (mkStatfs 0 0 4096)) []))) = true.
Proof. by vm_compute. Qed.
