(* ===== verification/Repository.v ===== *)
(** * The repository and the bulk inserter outside transactions
    (internal/database/repository.go, internal/engine/bulk_inserter.go,
    sink_postgres.go)

    The single statements of the repository, the COPY path of the bulk inserter
    with its fallback, and the PostgreSQL sink, on the interface [Postgres].
    The transactions of the repository are in Database.v, the token metadata in
    Enricher.v. *)

From S2P Require Import Prelude GoInt Types Database HotBuffer.
From Stdlib Require Import ZArith Lia String.
From stdpp Require Import base gmap strings list pretty.
Open Scope string_scope.
Open Scope Z_scope.

(** ** Statements *)

(** [SaveBlock]: four columns, the others take their defaults. *)
Definition saveBlockStmt (b : ModelBlock) : Stmt :=
  mkStmt Tblocks ["number"; "hash"; "parent_hash"; "timestamp"] (Some ["number"])
    (λ t, tset_blocks (insertNew (t_blocks t) (mb_Number b)
            (mkModelBlock (mb_Number b) (mb_Hash b) (mb_ParentHash b) (mb_Timestamp b) 0 0 None 0)) t).

(** [SaveTransfer], and the statement of the sink for several: the activity
    type is written. *)
Definition namedTransfersStmt (ts : list Transfer) : Stmt :=
  mkStmt Ttransfers ["block_number"; "tx_hash"; "log_index"; "from_address"; "to_address"; "amount"; "token_address"; "symbol"; "activity_type"]
    (Some ["block_number"; "log_index"])
    (λ t, tset_transfers (foldl (λ m x, insertNew m (transferKey x) x) (t_transfers t) ts) t).

(** [UpdateSyncStatus]. *)
Definition upsertProcessedStmt (chainID block : Z) (rpcProvider : string) : Stmt :=
  mkStmt Tsync_status ["chain_id"; "last_processed_block"; "rpc_provider"; "status"; "last_processed_timestamp"; "error_message"]
    (Some ["chain_id"])
    (λ t, tset_status
      (<[chainID :=
         match t_status t !! chainID with
         | Some r => mkStatusRow (sr_last_synced_block r) (sr_latest_block r) (sr_sync_lag r) "syncing" (Some block) (Some rpcProvider) None
         | None => mkStatusRow None None None "syncing" (Some block) (Some rpcProvider) None
         end]> (t_status t)) t).

(** [RecordSyncError]. *)
Definition syncErrorStmt (chainID : Z) (errorMsg : string) : Stmt :=
  mkStmt Tsync_status ["chain_id"; "status"; "error_message"; "last_processed_timestamp"] None
    (λ t, tset_status (alter (λ r, mkStatusRow (sr_last_synced_block r) (sr_latest_block r) (sr_sync_lag r) "error"
                                     (sr_last_processed_block r) (sr_rpc_provider r) (Some errorMsg)) chainID (t_status t)) t).

(** [UpdateTokenSymbol] (no symbol is written as NULL). *)
Definition tokenSymbolStmt (tokenAddress symbol : string) : Stmt :=
  mkStmt Ttransfers ["symbol"; "token_address"] None
    (λ t, tset_transfers
      ((λ x, if bool_decide (tr_TokenAddress x = tokenAddress) && String.eqb (tr_Symbol x) ""
             then mkTransfer (tr_BlockNumber x) (tr_TxHash x) (tr_LogIndex x) (tr_From x) (tr_To x) (tr_Amount x)
                    (tr_TokenAddress x) symbol (tr_Type x)
             else x) <$> t_transfers t) t).

(** The rows COPY sends, as they are (the activity type is not among the columns). *)
Definition copyBlocksStmt (blocks : list ModelBlock) : Stmt :=
  mkStmt Tblocks ["number"; "hash"; "parent_hash"; "timestamp"; "gas_limit"; "gas_used"; "base_fee_per_gas"; "transaction_count"] None
    (λ t, tset_blocks (foldl (λ m b, <[mb_Number b := b]> m) (t_blocks t) blocks) t).
Definition copyTransfersStmt (ts : list Transfer) : Stmt :=
  mkStmt Ttransfers ["block_number"; "tx_hash"; "log_index"; "from_address"; "to_address"; "amount"; "token_address"; "symbol"] None
    (λ t, tset_transfers (foldl (λ m x, <[transferKey x := transferRow x]> m) (t_transfers t) ts) t).

(** A key that exists already, or twice among the new rows. *)
Definition keysTaken `{Countable K} {A} (m : gmap K A) (keys : list K) : bool :=
  existsb (λ k, bool_decide (is_Some (m !! k))) keys || negb (bool_decide (NoDup keys)).

Section repository.
Context {W : Type} {PG : Postgres W}.

(** ** repository.go *)

Definition SaveBlock (done : bool) (b : ModelBlock) : GoM W (option GoErr) := pg_Exec done (saveBlockStmt b).
Definition SaveTransfer (done : bool) (x : Transfer) : GoM W (option GoErr) := pg_Exec done (namedTransfersStmt [x]).
Definition Repo_UpdateCheckpoint (done : bool) (chainID blockNumber : Z) : GoM W (option GoErr) :=
  pg_Exec done (upsertCheckpointStmt chainID (pretty blockNumber)).
Definition UpdateSyncStatus (done : bool) (chainID block : Z) (rpcProvider : string) : GoM W (option GoErr) :=
  pg_Exec done (upsertProcessedStmt chainID block rpcProvider).
Definition RecordSyncError (done : bool) (chainID : Z) (errorMsg : string) : GoM W (option GoErr) :=
  pg_Exec done (syncErrorStmt chainID errorMsg).
Definition UpdateTokenSymbol (tokenAddress symbol : string) : GoM W (option GoErr) :=
  pg_Exec false (tokenSymbolStmt tokenAddress symbol).
Definition UpdateTokenDecimals (_ : string) (_ : Z) : GoM W (option GoErr) := mret None.

(** [GetSyncStatus]: the row is scanned into a struct nobody reads; what is
    parsed is the empty string of a variable never assigned ([SetString] fails
    and leaves zero).  A nil height stands for an empty table. *)
Definition GetSyncStatus (chainID : Z) : GoM W (option Z * string * option GoErr) :=
  r ← pg_Query (option StatusRow) (λ t, t_status t !! chainID);
  mret match r with
       | Ok (Some _) =>
         let lastProcessedBlock := "" in
         let rpcProvider := "" in
         (Some (default 0 (SetString10 lastProcessedBlock)), rpcProvider, None)
       | Ok None | Err _ => (None, "", None)
       end.

(** ** bulk_inserter.go

    [CopyFrom]: a key that is taken rejects the whole COPY (on a schema where
    the key is unique). *)
Definition CopyFrom (done : bool) (taken : Tables → bool) (st : Stmt) : GoM W (option GoErr) :=
  r ← pg_Query bool taken;
  match r with
  | Err e => mret (Some e)
  | Ok true => mret (Some (Errorf "duplicate key value violates unique constraint"))
  | Ok false => pg_Exec done st
  end.
(** [conn]: the error of taking a connection from the pool; [pgx]: the driver's
    connection is a [*pgx.Conn]. *)
Definition insertBatch {A} (name : string) (conn : option GoErr) (copy fallback : GoM W (option GoErr)) (pgx : bool)
    (rows : list A) : GoM W (option GoErr) :=
  match rows, conn with
  | [], _ => mret None
  | _, Some e => mret (Some (WrapErr "failed to get raw conn: " e))
  | _, None =>
    e ← (if pgx then copy else fallback);
    mret match e with Some e => Some (WrapErr ("batch insert " ++ name ++ " failed: ") e) | None => None end
  end.
Definition InsertBlocksBatch (done : bool) (conn : option GoErr) (pgx : bool) (blocks : list ModelBlock) : GoM W (option GoErr) :=
  insertBatch "blocks" conn (CopyFrom done (λ t, keysTaken (t_blocks t) (mb_Number <$> blocks)) (copyBlocksStmt blocks))
    (pg_Exec done (insertBlocksStmt blocks)) pgx blocks.
Definition InsertTransfersBatch (done : bool) (conn : option GoErr) (pgx : bool) (ts : list Transfer) : GoM W (option GoErr) :=
  insertBatch "transfers" conn (CopyFrom done (λ t, keysTaken (t_transfers t) (transferKey <$> ts)) (copyTransfersStmt ts))
    (pg_Exec done (insertTransfersStmt ts)) pgx ts.

(** ** sink_postgres.go *)

Definition PostgresSink_WriteTransfers (done : bool) (ts : list Transfer) : GoM W (option GoErr) :=
  match ts with
  | [] => mret None
  | _ =>
    e ← pg_Exec done (namedTransfersStmt ts);
    mret match e with Some e => Some (WrapErr "postgres_sink_transfer_failed: " e) | None => None end
  end.
Definition PostgresSink (done : bool) (conn : option GoErr) (pgx : bool) : DataSink W := {|
  WriteTransfers := PostgresSink_WriteTransfers done;
  WriteBlocks blocks := match blocks with [] => mret None | _ => InsertBlocksBatch done conn pgx blocks end;
  Close := mret None
|}.
End repository.

(** ** Lemmas *)

Section inserts.
Context `{Countable K} {A : Type} (key : A → K).
Abbreviation insertAll rows m := (foldl (λ acc x, insertNew acc (key x) x) m rows).

Lemma insertAll_other rows (m : gmap K A) k a : m !! k = Some a → insertAll rows m !! k = Some a.
Proof.
  revert m. induction rows as [| x rows IH]; intros m Hk; [done |]. simpl. apply IH. unfold insertNew.
  case_match; [done |]. rewrite lookup_insert_ne; [done | congruence].
Qed.
Lemma insertAll_present rows (m : gmap K A) x : x ∈ rows → is_Some (insertAll rows m !! key x).
Proof.
  revert m. induction rows as [| y rows IH]; intros m; [by intros ?%elem_of_nil |].
  intros [-> | Hx]%elem_of_cons; [| by apply IH]. simpl.
  assert (Hy : is_Some (insertNew m (key y) y !! key y)).
  { unfold insertNew. destruct (m !! key y) eqn:E; [by rewrite E | by rewrite lookup_insert_eq]. }
  destruct Hy as [a Ha]. exists a. by apply insertAll_other.
Qed.
Lemma insertAll_id rows (m : gmap K A) : (∀ x, x ∈ rows → is_Some (m !! key x)) → insertAll rows m = m.
Proof.
  induction rows as [| x rows IH]; intros Hm; [done |]. simpl. unfold insertNew at 2.
  destruct (Hm x (list_elem_of_here _ _)) as [a ->]. apply IH. intros y Hy. apply Hm. by right.
Qed.
Lemma insertAll_twice rows (m : gmap K A) : insertAll rows (insertAll rows m) = insertAll rows m.
Proof. apply insertAll_id. intros x. apply insertAll_present. Qed.
End inserts.

(** The sink can be asked twice: writing the same transfers again changes
    nothing, and a stored transfer is never overwritten. *)
Lemma sink_writes_idempotent ts t :
  stmt_run (namedTransfersStmt ts) (stmt_run (namedTransfersStmt ts) t) = stmt_run (namedTransfersStmt ts) t.
Proof. simpl. unfold tset_transfers. simpl. by rewrite insertAll_twice. Qed.
Lemma sink_keeps_stored ts t k x :
  t_transfers t !! k = Some x → t_transfers (stmt_run (namedTransfersStmt ts) t) !! k = Some x.
Proof. apply insertAll_other. Qed.

(** COPY is all or nothing: a batch with a block that is stored already adds
    no block at all, where the fallback adds the others. *)
Lemma copy_rejects_overlap {W} {PG : Postgres W} done blocks b (w : W) :
  b ∈ blocks → is_Some (t_blocks (pg_tables w) !! mb_Number b) →
  wp (InsertBlocksBatch done None true blocks) (λ o w', (∃ e, o = Val (Some e)) ∧ w' = w) w.
Proof.
  intros Hb Hs. unfold InsertBlocksBatch, insertBatch. destruct blocks as [| b0 bs]; [by apply elem_of_nil in Hb |].
  unfold CopyFrom. apply wp_bind, wp_bind. eapply wp_mono; [apply pg_Query_spec |]. intros o w' [-> (r & -> & Hr)].
  assert (Ht : keysTaken (t_blocks (pg_tables w)) (mb_Number <$> b0 :: bs) = true).
  { unfold keysTaken. apply orb_true_iff. left. apply existsb_exists. exists (mb_Number b). split.
    - by apply list_elem_of_In, list_elem_of_fmap_2.
    - by apply bool_decide_eq_true. }
  destruct r as [[] | e]; [by apply wp_ret, wp_ret; eauto | | by apply wp_ret, wp_ret; eauto].
  specialize (Hr false eq_refl). congruence.
Qed.

(** [GetSyncStatus] cannot tell the stored height: whatever the table holds it
    answers nil or 0. *)
Lemma GetSyncStatus_never_reads {W} {PG : Postgres W} chainID (w : W) :
  wp (GetSyncStatus chainID) (λ o w', w' = w ∧ (o = Val (None, "", None) ∨ o = Val (Some 0, "", None))) w.
Proof.
  unfold GetSyncStatus. apply wp_bind. eapply wp_mono; [apply pg_Query_spec |]. intros o w' [-> (r & -> & _)].
  apply wp_ret. destruct r as [[row |] | e]; auto.
Qed.

(** Filling in symbols leaves the transfers that have one. *)
Lemma UpdateTokenSymbol_fills addr sym t k x :
  t_transfers t !! k = Some x →
  ∃ x', t_transfers (stmt_run (tokenSymbolStmt addr sym) t) !! k = Some x' ∧
    (tr_Symbol x ≠ "" → x' = x) ∧ (tr_TokenAddress x = addr → tr_Symbol x = "" → tr_Symbol x' = sym).
Proof.
  intros Hk. simpl. rewrite lookup_fmap, Hk. simpl. eexists. split; [done |]. split.
  - intros Hs. apply String.eqb_neq in Hs as ->. by rewrite andb_false_r.
  - intros Ha Hs. rewrite Hs, Ha, bool_decide_true by done. done.
Qed.
