(* ===== verification/Status.v ===== *)
(** * What the outside is told (internal/engine/ui_projection.go, telemetry.go,
    health_{core,checks,handlers}.go)

    The projection of the internal state for the web page, the diagnostic pulse
    and the health endpoints: functions of snapshots of the Orchestrator, the
    GlobalState, the Sequencer, the Fetcher and the height oracle.  Responses
    are records; encoding and time formatting are left out. *)

From S2P Require Import Prelude GoInt Types GlobalState Sequencer Orchestrator Fetcher Guards Policy.
From Stdlib Require Import ZArith Lia String SpecFloat.
From stdpp Require Import base gmap strings list pretty.
Open Scope string_scope.
Open Scope Z_scope.

(** ** ui_projection.go *)

Record UIStatusDTO := mkUIStatusDTO {
  ui_Version : string;
  ui_State : string;
  ui_LatestBlock : string;
  ui_LatestIndexed : string;
  ui_TotalBlocks : Z;
  ui_TotalTransfers : Z;
  ui_MemorySync : string;
  ui_SyncLag : Z;
  ui_FetchLag : Z;
  ui_SyncProgressPercent : float64;
  ui_FetchProgress : float64;
  ui_TPS : float64;
  ui_BPS : float64;
  ui_Health : bool;
  ui_JobsDepth : Z;
  ui_JobsCapacity : Z;
  ui_ResultsDepth : Z;
  ui_ResultsCapacity : Z;
  ui_SafetyBuffer : Z;
  ui_LastLog : option LogData;
  ui_UpdatedAt : Z;
  ui_LastPulse : Z;
  ui_Fingerprint : string
}.

(** The chain height shown: the best known one while it is still 0. *)
Definition shownLatest (snap : CoordinatorState) : Z :=
  if cs_LatestHeight snap =? 0 then
    if 0 <? cs_FetchedHeight snap then cs_FetchedHeight snap else cs_SyncedCursor snap
  else cs_LatestHeight snap.
Definition shownState (snap : CoordinatorState) (glob : Snapshot) (syncLag : Z) (bps : float64) : string :=
  if go_quot (i32 (sn_PipelineDepth glob * 80)) 100 <? sn_ResultsDepth glob then "pressure_limit"
  else if (1000 <? syncLag) && float_ltb bps (float_of_Z 1) then "stalled"
  else SystemState_String (cs_SystemState snap).
Definition percentOf (part whole : Z) : float64 :=
  if 0 <? whole then float_mul (float_div (float_of_Z part) (float_of_Z whole)) (float_of_Z 100) else float_of_Z 0.

(** [counts]: the answers of the two COUNT queries ([None] without a database);
    an error leaves 0. *)
Definition GetUIStatus (snap : CoordinatorState) (glob : Snapshot) (caps : Z * Z) (counts : option (result GoErr Z * result GoErr Z))
    (tps bps : float64) (nowMilli : Z) (version : string) : UIStatusDTO :=
  let latest := shownLatest snap in
  let counted r := match r with Ok n => n | Err _ => 0 end in
  let totalTransfers := match counts with Some (_, r) => counted r | None => 0 end in
  let totalTransfers := if (totalTransfers =? 0) && (0 <? cs_Transfers snap) then i64 (cs_Transfers snap) else totalTransfers in
  let syncLag := SafeInt64Diff latest (cs_SyncedCursor snap) in
  let syncLag := if syncLag <? 0 then 0 else syncLag in
  let state := shownState snap glob syncLag bps in
  {| ui_Version := version;
     ui_State := state;
     ui_LatestBlock := pretty latest;
     ui_LatestIndexed := pretty (cs_SyncedCursor snap);
     ui_TotalBlocks := i64 (cs_SyncedCursor snap);
     ui_TotalTransfers := totalTransfers;
     ui_MemorySync := pretty (cs_FetchedHeight snap);
     ui_SyncLag := syncLag;
     ui_FetchLag := SafeInt64Diff latest (cs_FetchedHeight snap);
     ui_SyncProgressPercent := percentOf (cs_SyncedCursor snap) latest;
     ui_FetchProgress := percentOf (cs_FetchedHeight snap) latest;
     ui_TPS := tps;
     ui_BPS := bps;
     ui_Health := negb (String.eqb state "stalled");
     ui_JobsDepth := sn_JobsQueueDepth glob;
     ui_JobsCapacity := fst caps;
     ui_ResultsDepth := sn_ResultsDepth glob;
     ui_ResultsCapacity := snd caps;
     ui_SafetyBuffer := cs_SafetyBuffer snap;
     ui_LastLog := cs_LogEntry snap;
     ui_UpdatedAt := cs_UpdatedAt snap;
     ui_LastPulse := nowMilli;
     ui_Fingerprint := "Yokohama-Lab-Primary" |}.

(** ** telemetry.go *)

Record Pulse := mkPulse {
  pu_rpc_actual : Z;
  pu_mem_latest : string;
  pu_is_desync : bool;
  pu_state : string;
  pu_mem_sync : string;
  pu_disk_sync : string;
  pu_diff : Z;
  pu_lag : Z;
  pu_strategy : string
}.
Definition strategyName (s : option Strategy) : string := match s with None => "unknown" | Some s => st_Name s end.
(** [tip]: the answer of the pool, if there is one. *)
Definition LogPulse (status : UIStatusDTO) (tip : option (result GoErr Z)) (strategy : option Strategy) : Pulse :=
  let rpcActual := match tip with Some (Ok h) => big_Uint64 h | _ => 0 end in
  let diff := match SetString10 (ui_LatestBlock status), SetString10 (ui_MemorySync status) with
              | Some latestNum, Some memNum => i64 (big_Int64 latestNum - big_Int64 memNum)
              | _, _ => 0
              end in
  {| pu_rpc_actual := rpcActual;
     pu_mem_latest := ui_LatestBlock status;
     pu_is_desync := negb (String.eqb (pretty rpcActual) (ui_LatestBlock status));
     pu_state := ui_State status;
     pu_mem_sync := ui_MemorySync status;
     pu_disk_sync := ui_LatestIndexed status;
     pu_diff := diff;
     pu_lag := ui_SyncLag status;
     pu_strategy := strategyName strategy |}.

(** ** health_core.go, health_checks.go, health_handlers.go *)

Record Check_ := mkCheck { ck_Status : string; ck_Message : string }.
Definition healthyStatus : string := "healthy".

(** What the server looks at: the answers of the database's ping and of
    [HeaderByNumber], the node counts, the two components if they are set. *)
Record HealthServer (W V : Type) := mkHealthServer {
  he_ping : option GoErr;
  he_header : result GoErr Z;
  he_healthyNodes : Z;
  he_totalNodes : Z;
  he_sequencer : option (Sequencer W);
  he_fetcher : option (Fetcher V)
}.
Arguments mkHealthServer {W V}.
Arguments he_ping {W V}.
Arguments he_header {W V}.
Arguments he_healthyNodes {W V}.
Arguments he_totalNodes {W V}.
Arguments he_sequencer {W V}.
Arguments he_fetcher {W V}.

Section health.
Context {W V : Type}.

Definition checkDatabase (h : HealthServer W V) : Check_ :=
  match he_ping h with Some e => mkCheck "unhealthy" (Error e) | None => mkCheck healthyStatus "" end.
Definition nodesText (h : HealthServer W V) : string :=
  "rpc_nodes: " ++ pretty (he_healthyNodes h) ++ "/" ++ pretty (he_totalNodes h) ++ " healthy, ".
Definition checkRPC (h : HealthServer W V) : Check_ :=
  match he_header h with
  | Err e => mkCheck "unhealthy" (nodesText h ++ "error: " ++ Error e)
  | Ok number =>
    mkCheck (if he_healthyNodes h <? he_totalNodes h then "degraded" else healthyStatus)
      (nodesText h ++ "latest_block: " ++ pretty number)
  end.
Definition checkSequencer (h : HealthServer W V) : Check_ :=
  match he_sequencer h with
  | None => mkCheck "unhealthy" "sequencer not initialized"
  | Some s =>
    let bufferSize := Z.of_nat (size (sq_buffer s)) in
    if 500 <? bufferSize then mkCheck "degraded" ("buffer_size: " ++ pretty bufferSize ++ " (high)")
    else mkCheck healthyStatus ("expected_block: " ++ pretty (sq_expectedBlock s) ++ ", buffer_size: " ++ pretty bufferSize)
  end.
Definition checkFetcher (h : HealthServer W V) : Check_ :=
  match he_fetcher h with
  | None => mkCheck "unhealthy" "fetcher not initialized"
  | Some f => if fe_paused f then mkCheck "degraded" "fetcher paused (likely reorg handling)" else mkCheck healthyStatus "fetcher running"
  end.

Definition is_healthy (c : Check_) : bool := String.eqb (ck_Status c) healthyStatus.

Record HealthStatus := mkHealthStatus { hl_Status : string; hl_Checks : list (string * Check_) }.
(** [Healthz]: the status code and the body. *)
Definition Healthz (h : HealthServer W V) : Z * HealthStatus :=
  let checks := [("database", checkDatabase h); ("rpc", checkRPC h); ("sequencer", checkSequencer h); ("fetcher", checkFetcher h)] in
  if forallb (λ c, is_healthy (snd c)) checks then (200, mkHealthStatus healthyStatus checks)
  else (503, mkHealthStatus "unhealthy" checks).
(** [Ready] and [Live]. *)
Definition Ready (h : HealthServer W V) : Z * HealthStatus :=
  if is_healthy (checkDatabase h) && is_healthy (checkRPC h) then (200, mkHealthStatus "ready" [])
  else (503, mkHealthStatus "not_ready" [("database", checkDatabase h); ("rpc", checkRPC h)]).
Definition Live : Z * HealthStatus := (200, mkHealthStatus "alive" []).
Definition SetSequencer (s : Sequencer W) (h : HealthServer W V) : HealthServer W V :=
  mkHealthServer (he_ping h) (he_header h) (he_healthyNodes h) (he_totalNodes h) (Some s) (he_fetcher h).

Record StatusBody := mkStatusBody {
  sb_is_healthy : bool; sb_latest_chain_block : string; sb_indexed_block : string; sb_sync_lag : Z;
  sb_drift_blocks : Z; sb_time_travel : bool; sb_buffer_size : Z; sb_healthy : Z; sb_total : Z
}.
(** The handler [Status], from a snapshot of the height oracle. *)
Definition Status_ (h : HealthServer W V) (snap : HeightSnapshot) : StatusBody := {|
  sb_is_healthy := 0 <? he_healthyNodes h;
  sb_latest_chain_block := if 0 <? hs_ChainHead snap then pretty (hs_ChainHead snap) else "0";
  sb_indexed_block := pretty (hs_IndexedHead snap);
  sb_sync_lag := hs_SyncLag snap;
  sb_drift_blocks := hs_DriftBlocks snap;
  sb_time_travel := hs_IsTimeTravel snap;
  sb_buffer_size := match he_sequencer h with Some s => Z.of_nat (size (sq_buffer s)) | None => 0 end;
  sb_healthy := he_healthyNodes h;
  sb_total := he_totalNodes h |}.
End health.

(** ** Properties *)

(** The status shown to the page is consistent for all heights: the lag is
    the saturated distance from the cursor to the height shown and never
    negative, that height is 0 only when nothing at all is known, and the page
    reports ill health exactly when the pipeline is not over its pressure limit
    and either the engine says stalled or it is more than a thousand blocks
    behind while it processes less than one block a second. *)
Theorem ui_status_consistent (snap : CoordinatorState) (glob : Snapshot) caps counts tps bps now version :
  is_u64 (cs_LatestHeight snap) → is_u64 (cs_FetchedHeight snap) → is_u64 (cs_SyncedCursor snap) →
  let ui := GetUIStatus snap glob caps counts tps bps now version in
  ui_SyncLag ui = Z.max 0 (Z.min max_i64 (shownLatest snap - cs_SyncedCursor snap)) ∧
  (shownLatest snap = 0 → cs_LatestHeight snap = 0 ∧ cs_FetchedHeight snap = 0 ∧ cs_SyncedCursor snap = 0) ∧
  SetString10 (ui_LatestBlock ui) = Some (shownLatest snap) ∧
  (ui_Health ui = false ↔
     sn_ResultsDepth glob ≤ go_quot (i32 (sn_PipelineDepth glob * 80)) 100 ∧
     ((1000 < shownLatest snap - cs_SyncedCursor snap ∧ float_ltb bps (float_of_Z 1) = true) ∨
      cs_SystemState snap = SystemStateStalled)).
Proof.
  intros H1 H2 H3 ui.
  assert (Hl : is_u64 (shownLatest snap)) by (unfold shownLatest; repeat case_match; done).
  assert (Hlag : ui_SyncLag ui = Z.max 0 (Z.min max_i64 (shownLatest snap - cs_SyncedCursor snap))).
  { simpl. rewrite SafeInt64Diff_spec by done. destruct (Z.ltb_spec (Z.max min_i64 (Z.min max_i64 (shownLatest snap - cs_SyncedCursor snap))) 0); lia64. }
  split_and!; [done | | apply SetString10_pretty |].
  - unfold shownLatest. destruct (Z.eqb_spec (cs_LatestHeight snap) 0); [| done].
    destruct (Z.ltb_spec 0 (cs_FetchedHeight snap)); [lia | unfold is_u64 in *; lia].
  - change (ui_Health ui) with (negb (String.eqb (shownState snap glob (ui_SyncLag ui) bps) "stalled")).
    rewrite Hlag. unfold shownState.
    destruct (Z.ltb_spec (go_quot (i32 (sn_PipelineDepth glob * 80)) 100) (sn_ResultsDepth glob)); [split; [done | lia] |].
    assert (Hst : String.eqb (SystemState_String (cs_SystemState snap)) "stalled" = true ↔ cs_SystemState snap = SystemStateStalled)
      by (by destruct (cs_SystemState snap)).
    destruct (Z.ltb_spec 1000 (Z.max 0 (Z.min max_i64 (shownLatest snap - cs_SyncedCursor snap)))) as [Hb | Hb];
      [destruct (float_ltb bps (float_of_Z 1)) |]; simpl; rewrite ?negb_false_iff, ?Hst.
    + split; [intros _; split; [done | left; split; [lia64 | done]] | done].
    + split; [intros ?; split; [done | by right] | by intros [_ [[_ ?] | ?]]].
    + split; [intros ?; split; [done | by right] | intros [_ [[? _] | ?]]; [lia64 | done]].
Qed.

Definition sampleSnapshot : CoordinatorState :=
  mkCoordinatorState 0 0 5000 1200 7 false (float_of_Z 0) SystemStateRunning 0 0 1 0 0 0 None.
Definition idleGlobal : Snapshot := mkSnapshot 0 0 0 SystemStateRunning 10 (float_of_Z 0) 0 5 5 0.
Lemma ui_status_consistent_witness :
  ui_SyncLag (GetUIStatus sampleSnapshot idleGlobal (100, 100) None f0 f0 0 "v") = 3800 ∧
  ui_Health (GetUIStatus sampleSnapshot idleGlobal (100, 100) None f0 f0 0 "v") = false.
Proof.
  destruct (ui_status_consistent sampleSnapshot idleGlobal (100, 100) None f0 f0 0 "v") as (Hl & _ & _ & Hh); [done.. |].
  split; [by rewrite Hl |]. apply Hh. split; [by apply Z.leb_le | left; by split].
Defined.

(** The health endpoints answer 200 exactly when everything is well: for
    [/healthz] the database and the node answer, no node is marked unhealthy,
    the Sequencer is set and buffers at most 500 blocks, and the Fetcher is set
    and not paused; [/healthz/ready] asks the first three only.  A degraded part
    counts as unhealthy. *)
Theorem health_endpoints_spec {W V} (h : HealthServer W V) :
  (fst (Ready h) = 200 ↔ he_ping h = None ∧ (∃ n, he_header h = Ok n) ∧ he_totalNodes h ≤ he_healthyNodes h) ∧
  (fst (Healthz h) = 200 ↔ fst (Ready h) = 200 ∧
     (∃ s, he_sequencer h = Some s ∧ Z.of_nat (size (sq_buffer s)) ≤ 500) ∧
     (∃ f, he_fetcher h = Some f ∧ fe_paused f = false)) ∧
  (fst (Healthz h) = 200 ∨ fst (Healthz h) = 503) ∧ (fst (Ready h) = 200 ∨ fst (Ready h) = 503).
Proof.
  assert (Hdb : is_healthy (checkDatabase h) = true ↔ he_ping h = None) by (unfold checkDatabase; by destruct (he_ping h)).
  assert (Hrpc : is_healthy (checkRPC h) = true ↔ (∃ n, he_header h = Ok n) ∧ he_totalNodes h ≤ he_healthyNodes h).
  { unfold checkRPC. destruct (he_header h) as [n | e].
    - destruct (Z.ltb_spec (he_healthyNodes h) (he_totalNodes h)); split; [done | by intros [_ ?]; lia | by eauto | done].
    - split; [done | by intros [[n ?] _]]. }
  assert (Hseq : is_healthy (checkSequencer h) = true ↔ ∃ s, he_sequencer h = Some s ∧ Z.of_nat (size (sq_buffer s)) ≤ 500).
  { unfold checkSequencer. destruct (he_sequencer h) as [s |]; [| split; [done | by intros (s & ? & _)]].
    destruct (Z.ltb_spec 500 (Z.of_nat (size (sq_buffer s)))); split; [done | intros (s' & [= <-] & ?); lia | eauto | done]. }
  assert (Hfet : is_healthy (checkFetcher h) = true ↔ ∃ f, he_fetcher h = Some f ∧ fe_paused f = false).
  { unfold checkFetcher. destruct (he_fetcher h) as [f |]; [| split; [done | by intros (f & ? & _)]].
    destruct (fe_paused f) eqn:Ep; split; [done | intros (f' & [= <-] & ?); congruence | eauto | done]. }
  assert (Hready : fst (Ready h) = 200 ↔ is_healthy (checkDatabase h) = true ∧ is_healthy (checkRPC h) = true).
  { unfold Ready. rewrite <- andb_true_iff. by destruct (is_healthy (checkDatabase h) && is_healthy (checkRPC h)). }
  split_and!.
  - rewrite Hready, Hdb, Hrpc. tauto.
  - rewrite Hready, <- Hseq, <- Hfet. unfold Healthz. simpl. rewrite andb_true_r.
    destruct (is_healthy (checkDatabase h)), (is_healthy (checkRPC h)), (is_healthy (checkSequencer h)), (is_healthy (checkFetcher h));
      simpl; intuition congruence.
  - unfold Healthz. case_match; auto.
  - unfold Ready. case_match; auto.
Qed.

(** ** What modelling showed *)

(** The two status interfaces agree on the lag once a chain height is known. *)
Lemma status_interfaces_agree snap glob caps counts tps bps now version healthy total caps' :
  cs_LatestHeight snap ≠ 0 →
  ui_SyncLag (GetUIStatus snap glob caps counts tps bps now version) = sv_sync_lag (GetStatus snap healthy total caps').
Proof. intros H%Z.eqb_neq. simpl. unfold shownLatest. by rewrite H. Qed.

(** The pulse recovers from the texts the distance between the shown height and
    the fetched one, and a node that disagrees with the memory is noticed. *)
Lemma LogPulse_diff snap glob caps counts tps bps now version tip strategy :
  let ui := GetUIStatus snap glob caps counts tps bps now version in
  0 ≤ shownLatest snap ≤ max_i64 → 0 ≤ cs_FetchedHeight snap ≤ max_i64 →
  pu_diff (LogPulse ui tip strategy) = shownLatest snap - cs_FetchedHeight snap ∧
  (pu_is_desync (LogPulse ui tip strategy) = false ↔ pu_rpc_actual (LogPulse ui tip strategy) = shownLatest snap).
Proof.
  intros ui H1 H2. split.
  - simpl. rewrite !SetString10_pretty, !big_Int64_id by (unfold is_i64; lia64). rewrite i64_id by lia64. done.
  - simpl. rewrite negb_false_iff, String.eqb_eq. split; [| by intros ->].
    intros E. apply (f_equal SetString10) in E. rewrite !SetString10_pretty in E. congruence.
Qed.

(** A full pipeline hides a standstill: results over four fifths of the pipeline
    are shown as pressure, in good health, however far the engine is behind. *)
Lemma pressure_hides_stall :
  let jammed := mkSnapshot 0 0 0 SystemStateStalled 1000 (float_of_Z 0) 0 0 1000 0 in
  let ui := GetUIStatus (cset_SystemState SystemStateStalled (cset_LatestHeight 9000000 sampleSnapshot)) jammed (100, 100) None f0 f0 0 "v" in
  ui_State ui = "pressure_limit" ∧ ui_Health ui = true ∧ ui_SyncLag ui = 8998800.
Proof. by vm_compute. Qed.

(** A reorganisation pauses the Fetcher; meanwhile [/healthz] answers 503. *)
Lemma pause_is_unhealthy {W V} (h : HealthServer W V) f :
  he_fetcher h = Some f → fe_paused f = true → fst (Healthz h) = 503.
Proof.
  intros Hf Hp. unfold Healthz, checkFetcher. simpl. rewrite Hf, Hp.
  by destruct (is_healthy (checkDatabase h)), (is_healthy (checkRPC h)), (is_healthy (checkSequencer h)).
Qed.
