(* ===== verification/Checkpoint.v ===== *)
(** * The checkpoint service (internal/engine/checkpoint_service.go)

    Periodic snapshots of the Orchestrator's state to disk, and their restoring
    at the next start.  The functions marked TODO in the source are modelled as
    they are: serialising fails, writing a file writes nothing, looking for a
    file finds none.  The directory is the set of its file names; SHA-256 is a
    parameter. *)

From S2P Require Import Prelude GoInt Types Database Orchestrator.
From Stdlib Require Import ZArith Lia String.
From stdpp Require Import base gmap sets strings list pretty.
Open Scope string_scope.
Open Scope Z_scope.

Record Checkpoint := mkCheckpoint {
  ck_Height : Z;
  ck_Timestamp : Z;
  ck_State : CoordinatorState;
  ck_Checksum : list Z;
  ck_Version : string
}.

Record CheckpointService := mkCheckpointService {
  cp_savePath : string;
  cp_interval : Z;
  cp_maxSnapshots : Z;
  cp_latestCheckpoint : option Checkpoint;
  cp_lastSaveHeight : Z;
  cp_dir : gset string; (* the files of the directory *)
  cp_logged : list string (* errors of the saving goroutines *)
}.
Definition cpset_latest (c : option Checkpoint) (s : CheckpointService) : CheckpointService :=
  mkCheckpointService (cp_savePath s) (cp_interval s) (cp_maxSnapshots s) c (cp_lastSaveHeight s) (cp_dir s) (cp_logged s).
Definition cpset_lastSave (h : Z) (s : CheckpointService) : CheckpointService :=
  mkCheckpointService (cp_savePath s) (cp_interval s) (cp_maxSnapshots s) (cp_latestCheckpoint s) h (cp_dir s) (cp_logged s).
Definition cpset_dir (d : gset string) (s : CheckpointService) : CheckpointService :=
  mkCheckpointService (cp_savePath s) (cp_interval s) (cp_maxSnapshots s) (cp_latestCheckpoint s) (cp_lastSaveHeight s) d (cp_logged s).
Definition cp_log (msg : string) : GoM CheckpointService unit :=
  modify (λ s, mkCheckpointService (cp_savePath s) (cp_interval s) (cp_maxSnapshots s) (cp_latestCheckpoint s)
                 (cp_lastSaveHeight s) (cp_dir s) (cp_logged s ++ [msg])%list).

Definition NewCheckpointService (savePath : string) (interval maxSnapshots : Z) : CheckpointService :=
  mkCheckpointService savePath interval maxSnapshots None 0 ∅ [].

(** ** Saving *)

Definition serializeCheckpoint (_ : Checkpoint) : list Z * option GoErr := ([], Some (Errorf "serialization not implemented")).
Definition writeFile (_ : string) (_ : Checkpoint) : GoM CheckpointService (option GoErr) := mret None.
(** [os.Rename]: the old name must exist. *)
Definition osRename (old new : string) : GoM CheckpointService (option GoErr) :=
  s ← gets id;
  if bool_decide (old ∈ cp_dir s) then
    modify (cpset_dir ({[new]} ∪ (cp_dir s ∖ {[old]})));; mret None
  else mret (Some (Errorf "no such file or directory")).
Definition osRemove (name : string) : GoM CheckpointService unit := modify (λ s, cpset_dir (cp_dir s ∖ {[name]}) s).
Definition cleanupOldSnapshots : GoM CheckpointService unit :=
  s ← gets id;
  if cp_maxSnapshots s <=? 0 then mret tt else mret tt.

Section saving.
Context (Sum256 : list Z → list Z).

(** [atomicSave]: the body of the saving goroutine. *)
Definition atomicSave (checkpoint : Checkpoint) : GoM CheckpointService unit :=
  let '(data, err) := serializeCheckpoint checkpoint in
  match err with
  | Some _ => cp_log "Failed to serialize checkpoint"
  | None =>
    let hash := Sum256 data in
    let checkpoint := mkCheckpoint (ck_Height checkpoint) (ck_Timestamp checkpoint) (ck_State checkpoint) hash (ck_Version checkpoint) in
    s ← gets id;
    let tempFile := cp_savePath s ++ "/temp.ckp." ++ pretty (ck_Height checkpoint) in
    e ← writeFile tempFile checkpoint;
    match e with
    | Some _ => cp_log "Failed to write temp checkpoint"
    | None =>
      let finalFile := cp_savePath s ++ "/checkpoint.ckp." ++ pretty (ck_Height checkpoint) in
      e ← osRename tempFile finalFile;
      match e with
      | Some _ => cp_log "Failed to rename checkpoint";; osRemove tempFile
      | None => modify (cpset_latest (Some checkpoint));; cleanupOldSnapshots
      end
    end
  end.

(** [CreateSnapshot]: [state] is the snapshot it takes.  The goroutine it
    starts runs at some later time; it is returned. *)
Definition CreateSnapshot (now currentHeight : Z) (state : CoordinatorState) : GoM CheckpointService (list Checkpoint) :=
  if cs_SyncedCursor state <? currentHeight then mret []
  else
    modify (cpset_lastSave currentHeight);;
    mret [mkCheckpoint (cs_SyncedCursor state) now state [] "1.0"].

(** [maybeCreateCheckpoint], a tick of [run]: the snapshot is taken twice. *)
Definition maybeCreateCheckpoint (now : Z) (state state' : CoordinatorState) : GoM CheckpointService (list Checkpoint) :=
  let currentHeight := cs_SyncedCursor state in
  s ← gets id;
  if currentHeight <? add_u64 (cp_lastSaveHeight s) (cp_interval s) then mret []
  else CreateSnapshot now currentHeight state'.

(** ** Loading *)

Definition findLatestValidCheckpoint : result GoErr Checkpoint := Err (Errorf "no checkpoint found").
Definition verifyChecksum (_ : Checkpoint) : option GoErr := None.
End saving.

Section loading.
Context {W : Type} {PG : Postgres W} {V : Type}.

(** [verifyDatabaseConsistency]: MAX of no rows is NULL, which a string cannot
    take. *)
Definition verifyDatabaseConsistency (checkpoint : Checkpoint) : GoM W (option GoErr) :=
  r ← pg_Query (option Z) (λ t, if bool_decide (t_blocks t = ∅) then None else Some (maxBlockNumber t));
  mret match r with
       | Err e => Some e
       | Ok None => Some (Errorf "converting NULL to string is unsupported")
       | Ok (Some n) =>
         let maxBlock := pretty n in
         match SetString10 maxBlock with
         | None => Some (Errorf ("invalid block number in database: " ++ maxBlock))
         | Some maxBlockNum =>
           if big_Uint64 maxBlockNum <? ck_Height checkpoint then Some (Errorf "checkpoint height exceeds database max block")
           else None
         end
       end.

(** The service, the database and the Orchestrator it restores. *)
Definition CpWorld : Type := CheckpointService * W * Orchestrator V.
Definition onCpDb {A} (m : GoM W A) : GoM CpWorld A := zoom (λ x, snd (fst x)) (λ w x, (fst (fst x), w, snd x)) m.
Definition onCpOrch {A} (m : GoM (Orchestrator V) A) : GoM CpWorld A := zoom snd (λ o x, (fst x, o)) m.
Definition LoadLatestCheckpoint : GoM CpWorld (option GoErr) :=
  match findLatestValidCheckpoint with
  | Err e => mret (Some e)
  | Ok latest =>
    match verifyChecksum latest with
    | Some e => mret (Some (WrapErr "checksum verification failed: " e))
    | None =>
      e ← onCpDb (verifyDatabaseConsistency latest);
      match e with
      | Some e => mret (Some (WrapErr "database consistency check failed: " e))
      | None =>
        onCpOrch (RestoreState (ck_State latest));;
        modify (λ x, (cpset_lastSave (ck_Height latest) (cpset_latest (Some latest) (fst (fst x))), snd (fst x), snd x));;
        mret None
      end
    end
  end.
(** [Start], up to the start of [run]: [true] when [run] is started. *)
Definition cpStart (mkdir : option GoErr) : GoM CpWorld bool :=
  match mkdir with
  | Some _ => mret false
  | None => LoadLatestCheckpoint;; mret true
  end.
End loading.

(** ** Tuning and metrics *)

Definition EnableNVMeOptimization (s : CheckpointService) : CheckpointService :=
  mkCheckpointService (cp_savePath s) 10000 10 (cp_latestCheckpoint s) (cp_lastSaveHeight s) (cp_dir s) (cp_logged s).
Definition SetCompressionLevel (_ : Z) (s : CheckpointService) : CheckpointService := s.
Record CpMetrics := mkCpMetrics {
  cm_latest_height : Z; cm_latest_timestamp : option Z; cm_last_save_height : Z; cm_save_path : string;
  cm_interval : Z; cm_max_snapshots : Z
}.
Definition ExportMetrics (s : CheckpointService) : CpMetrics := {|
  cm_latest_height := match cp_latestCheckpoint s with Some c => ck_Height c | None => 0 end;
  cm_latest_timestamp := ck_Timestamp <$> cp_latestCheckpoint s;
  cm_last_save_height := cp_lastSaveHeight s;
  cm_save_path := cp_savePath s;
  cm_interval := cp_interval s;
  cm_max_snapshots := cp_maxSnapshots s |}.

(** ** The service over time *)

(** A tick of [run] with the two snapshots it takes, the goroutine of a save
    that was started, or a call of the setters. *)
Inductive CpEvent : Type :=
| CpTick (now : Z) (state state' : CoordinatorState)
| CpSave (i : nat)
| CpNVMe.
Section run.
Context (Sum256 : list Z → list Z).
Record CpRun := mkCpRun { cr_service : CheckpointService; cr_started : list Checkpoint }.
Definition cpStep (r : CpRun) (ev : CpEvent) : CpRun :=
  match ev with
  | CpTick now state state' =>
    let '(s, o) := maybeCreateCheckpoint now state state' (cr_service r) in
    mkCpRun s (cr_started r ++ match o with Val l => l | Panic _ => [] end)%list
  | CpSave i =>
    match cr_started r !! i with
    | Some c => mkCpRun (fst (atomicSave Sum256 c (cr_service r))) (delete i (cr_started r))
    | None => r
    end
  | CpNVMe => mkCpRun (EnableNVMeOptimization (cr_service r)) (cr_started r)
  end.
Definition cpRun (evs : list CpEvent) (r : CpRun) : CpRun := foldl cpStep r evs.

(** ** Properties *)

Lemma cpStep_nothing r ev :
  cp_latestCheckpoint (cr_service r) = None → cp_dir (cr_service r) = ∅ →
  cp_latestCheckpoint (cr_service (cpStep r ev)) = None ∧ cp_dir (cr_service (cpStep r ev)) = ∅.
Proof.
  intros Hl Hd. destruct ev as [now st st' | i |]; simpl; [| by destruct (cr_started r !! i) | done].
  unfold maybeCreateCheckpoint, CreateSnapshot, mbind, GoM_bind, gets, id. simpl.
  destruct (_ <? _); [done |]. by destruct (_ <? _).
Qed.

Lemma cpRun_nothing evs r :
  cp_latestCheckpoint (cr_service r) = None → cp_dir (cr_service r) = ∅ →
  cp_latestCheckpoint (cr_service (cpRun evs r)) = None ∧ cp_dir (cr_service (cpRun evs r)) = ∅.
Proof.
  revert r. induction evs as [| ev evs IH]; intros r Hl Hd; [done |].
  destruct (cpStep_nothing r ev Hl Hd) as [Hl' Hd']. by apply IH.
Qed.
End run.

(** No checkpoint is ever saved or restored, in any interleaving of ticks
    and saving goroutines: the directory stays empty, the service holds none,
    loading at the next start fails and leaves the Orchestrator alone.  Still
    every tick at which the cursor is an interval further moves the height of
    the last save to the cursor, which the metrics report. *)
Theorem checkpoints_never_saved {W} {PG : Postgres W} {V : Type} (Sum256 : list Z → list Z) savePath interval maxSnapshots evs
    (w : W) (o : Orchestrator V) :
  let s := cr_service (cpRun Sum256 evs (mkCpRun (NewCheckpointService savePath interval maxSnapshots) [])) in
  cp_dir s = ∅ ∧ cp_latestCheckpoint s = None ∧
  cpStart None (s, w, o) = ((s, w, o), Val true) ∧
  (∀ r now st, cs_SyncedCursor st < add_u64 (cp_lastSaveHeight (cr_service r)) (cp_interval (cr_service r)) →
     cpStep Sum256 r (CpTick now st st) = mkCpRun (cr_service r) (cr_started r ++ [])%list) ∧
  (∀ r now st, add_u64 (cp_lastSaveHeight (cr_service r)) (cp_interval (cr_service r)) ≤ cs_SyncedCursor st →
     cm_last_save_height (ExportMetrics (cr_service (cpStep Sum256 r (CpTick now st st)))) = cs_SyncedCursor st).
Proof.
  intros s. destruct (cpRun_nothing Sum256 evs (mkCpRun (NewCheckpointService savePath interval maxSnapshots) [])) as [Hl Hd]; [done.. |].
  split_and!; try done.
  - intros r now st Hlt%Z.ltb_lt. unfold cpStep, maybeCreateCheckpoint, mbind, GoM_bind, gets, id. by rewrite Hlt.
  - intros r now st Hge%Z.ltb_ge. unfold cpStep, maybeCreateCheckpoint, CreateSnapshot, mbind, GoM_bind, gets, id.
    rewrite Hge, Z.ltb_irrefl. done.
Qed.

(** ** What modelling showed *)

(** The consistency check a restored checkpoint would meet: its height must not
    exceed the highest stored block, and an empty table never passes. *)
Lemma verifyDatabaseConsistency_spec {W} {PG : Postgres W} c (w : W) :
  0 ≤ maxBlockNumber (pg_tables w) ≤ max_u64 →
  wp (verifyDatabaseConsistency c) (λ o w', w' = w ∧
    (o = Val None → t_blocks (pg_tables w) ≠ ∅ ∧ ck_Height c ≤ maxBlockNumber (pg_tables w))) w.
Proof.
  intros Hm. unfold verifyDatabaseConsistency. apply wp_bind. eapply wp_mono; [apply pg_Query_spec |].
  intros o w' [-> (r & -> & Hr)]. apply wp_ret. split; [done |].
  destruct r as [a | e]; [| done]. specialize (Hr a eq_refl). destruct (bool_decide (t_blocks (pg_tables w) = ∅)) eqn:Eb; subst; [done |].
  bool_prop. rewrite SetString10_pretty, big_Uint64_id by done. case_match eqn:Ec; [done |]. bool_prop. auto.
Qed.

(** Were serialising to succeed, saving would still fail: nothing is written to
    the temporary file that is renamed. *)
Lemma writeFile_writes_nothing path c s :
  cp_dir s = ∅ → snd ((writeFile path c ≫= λ _, osRename path "final") s) = Val (Some (Errorf "no such file or directory")).
Proof. intros H. unfold writeFile, osRename, mbind, GoM_bind, gets, id. simpl. by rewrite H. Qed.
