(* ===== verification/WssListener.v ===== *)
(** * The websocket listener (internal/engine/wss_listener.go)

    The loop that subscribes to new heads, hands their numbers to a channel and
    reconnects with exponential backoff, as a machine whose phases are the
    places where the goroutine can wait; an input is what happens there. *)

From S2P Require Import Prelude GoInt Types Policy.
From Stdlib Require Import ZArith Lia String SpecFloat.
From stdpp Require Import base strings list relations.
Open Scope string_scope.
Open Scope Z_scope.

(** ** State *)

(** Where the goroutine is: before subscribing, in [handleReconnect], in the
    inner select, sending a number to the full channel, at the label
    [reconnect], or returned. *)
Inductive Phase : Type :=
| PhSubscribe | PhHandleReconnect | PhListen | PhSend (number : Z) | PhReconnect | PhReturned.
#[export] Instance Phase_eq_dec : EqDecision Phase.
Proof. solve_decision. Defined.

Record WSSListener := mkWSSListener {
  ws_connected : bool;
  ws_reconnectCount : Z;
  ws_maxReconnects : Z;
  ws_newBlocks : list Z; (* the channel, of capacity 10 *)
  ws_phase : Phase
}.
Definition wset_connected (v : bool) (w : WSSListener) : WSSListener :=
  mkWSSListener v (ws_reconnectCount w) (ws_maxReconnects w) (ws_newBlocks w) (ws_phase w).
Definition wset_count (v : Z) (w : WSSListener) : WSSListener :=
  mkWSSListener (ws_connected w) v (ws_maxReconnects w) (ws_newBlocks w) (ws_phase w).
Definition wset_newBlocks (v : list Z) (w : WSSListener) : WSSListener :=
  mkWSSListener (ws_connected w) (ws_reconnectCount w) (ws_maxReconnects w) v (ws_phase w).
Definition wset_phase (v : Phase) (w : WSSListener) : WSSListener :=
  mkWSSListener (ws_connected w) (ws_reconnectCount w) (ws_maxReconnects w) (ws_newBlocks w) v.
Definition newBlocksCap : nat := 10.

(** [NewWSSListener]; [dial] is the answer of [ethclient.Dial]. *)
Definition NewWSSListener (wssURL : string) (dial : option GoErr) : result GoErr WSSListener :=
  if String.eqb wssURL "" then Err (Errorf "WSS URL is required")
  else match dial with
       | Some e => Err (WrapErr "failed to connect to WSS: " e)
       | None => Ok (mkWSSListener true 0 0 [] PhSubscribe)
       end.

(** ** Backoff *)

(** [math.Pow(2, n)] for [n >= 0]: exact (2^52 scaled), infinite from 1024 on. *)
Definition pow2 (n : Z) : float64 :=
  if n <? 1024 then S754_finite false 4503599627370496 (n - 52) else S754_infinity false.
Definition baseBackoff : float64 := float_of_Z 1000000000.
Definition maxBackoff : float64 := float_of_Z 60000000000.
Definition exponentialBackoff (reconnectCount : Z) : float64 :=
  let b := float_mul baseBackoff (pow2 reconnectCount) in if float_gtb b maxBackoff then maxBackoff else b.
(** [calculateBackoff] in nanoseconds; [r] is the random number in [0, 1). *)
Definition calculateBackoff (r : float64) (reconnectCount : Z) : Z :=
  let jitter := float_add (float_of_Z 1) (float_add (float_mul r (fdec 1 2)) (SFopp (fdec 1 4))) in
  int64_of_float (float_mul (exponentialBackoff reconnectCount) jitter).

(** ** The machine *)

Inductive WssInput : Type :=
| WiSubscribed (ok : bool)      (* SubscribeNewHead returned *)
| WiTimer                       (* the backoff is over *)
| WiCtxDone                     (* a select takes ctx.Done() *)
| WiStop                        (* a select takes stopCh *)
| WiHeader (number : option Z)  (* a header, or nil, from the subscription *)
| WiSubErr                      (* sub.Err() delivers *)
| WiSent                        (* the pending send goes through *)
| WiTake.                       (* the consumer takes a number *)

Definition reconnected (w : WSSListener) : WSSListener := wset_phase PhSubscribe (wset_count (ws_reconnectCount w + 1) w).

(** One step; [None]: the input cannot happen in this phase. *)
Definition wssStep (i : WssInput) (w : WSSListener) : option WSSListener :=
  match i with
  | WiTake => match ws_newBlocks w with [] => None | _ :: rest => Some (wset_newBlocks rest w) end
  | _ =>
    match ws_phase w with
    | PhSubscribe =>
      match i with
      | WiSubscribed ok =>
        if (0 <? ws_maxReconnects w) && (ws_maxReconnects w <=? ws_reconnectCount w) then
          Some (wset_phase PhReturned (wset_connected false w)) (* before asking *)
        else if ok then Some (wset_phase PhListen (wset_count 0 (wset_connected true w)))
        else Some (wset_phase PhHandleReconnect w)
      | _ => None
      end
    | PhHandleReconnect =>
      match i with
      | WiCtxDone => Some (wset_phase PhSubscribe w) (* handleReconnect returns, the loop continues *)
      | WiTimer => Some (reconnected w)
      | _ => None
      end
    | PhListen =>
      match i with
      | WiCtxDone | WiStop => Some (wset_phase PhReturned w)
      | WiHeader None => Some w
      | WiHeader (Some n) =>
        if (length (ws_newBlocks w) <? newBlocksCap)%nat then Some (wset_newBlocks (ws_newBlocks w ++ [n])%list w)
        else Some (wset_phase (PhSend n) w)
      | WiSubErr => Some (wset_phase PhReconnect (wset_connected false w))
      | _ => None
      end
    | PhSend n =>
      match i with
      | WiStop => Some (wset_phase PhReturned w)
      | WiSent =>
        if (length (ws_newBlocks w) <? newBlocksCap)%nat
        then Some (wset_phase PhListen (wset_newBlocks (ws_newBlocks w ++ [n])%list w)) else None
      | _ => None
      end
    | PhReconnect =>
      match i with
      | WiCtxDone => Some (wset_phase PhReturned w)
      | WiTimer => Some (reconnected w)
      | _ => None
      end
    | PhReturned => None
    end
  end.
Fixpoint wssRun (inputs : list WssInput) (w : WSSListener) : option WSSListener :=
  match inputs with
  | [] => Some w
  | i :: rest => wssStep i w ≫= wssRun rest
  end.

(** The numbers announced to the listener, and those the consumer took. *)
Definition announced (i : WssInput) : list Z := match i with WiHeader (Some n) => [n] | _ => [] end.
Fixpoint taken (inputs : list WssInput) (w : WSSListener) : list Z :=
  match inputs with
  | [] => []
  | i :: rest =>
    (match i with WiTake => take 1 (ws_newBlocks w) | _ => [] end ++
     match wssStep i w with Some w' => taken rest w' | None => [] end)%list
  end.
(** What the listener still holds: the channel and a number being sent. *)
Definition held (w : WSSListener) : list Z :=
  (ws_newBlocks w ++ match ws_phase w with PhSend n => [n] | _ => [] end)%list.

(** ** Lemmas *)

(** A step loses at most the number being sent when the listener is stopped. *)
Lemma wssStep_held i w w' :
  wssStep i w = Some w' → (length (ws_newBlocks w) ≤ newBlocksCap)%nat →
  (length (ws_newBlocks w') ≤ newBlocksCap)%nat ∧ ws_maxReconnects w' = ws_maxReconnects w ∧
  ∃ lost, (held w ++ announced i = match i with WiTake => take 1 (ws_newBlocks w) | _ => [] end ++ held w' ++ lost)%list ∧
    (length lost ≤ 1)%nat ∧ (lost = [] ∨ ws_phase w' = PhReturned) ∧
    (ws_phase w = PhReturned → lost = [] ∧ ws_phase w' = PhReturned ∧ announced i = []).
Proof.
  intros H Hcap. destruct w as [con cnt mx q ph]. unfold held, wssStep in *. simpl in *.
  destruct i as [[] | | | | [n |] | | |]; destruct ph; simpl in *; repeat (case_match; simplify_eq; simpl in *); simplify_eq; simpl in *;
    rewrite ?length_app; simpl; repeat match goal with H : (_ <? _)%nat = true |- _ => apply Nat.ltb_lt in H end.
  all: split; [unfold newBlocksCap in *; lia |]; split; [done |].
  all: try (exists []; rewrite ?app_nil_r, <- ?app_assoc; simpl; split_and!; [done | lia | by left | done]).
  all: eexists [_]; rewrite ?app_nil_r; simpl; split_and!; [done | lia | by right | done].
Qed.
Lemma wssRun_held inputs w w' :
  wssRun inputs w = Some w' → (length (ws_newBlocks w) ≤ newBlocksCap)%nat →
  (length (ws_newBlocks w') ≤ newBlocksCap)%nat ∧
  ∃ lost, (held w ++ (inputs ≫= announced) = taken inputs w ++ held w' ++ lost)%list ∧
    (length lost ≤ 1)%nat ∧ (lost = [] ∨ ws_phase w' = PhReturned) ∧
    (ws_phase w = PhReturned → lost = [] ∧ ws_phase w' = PhReturned ∧ inputs ≫= announced = []).
Proof.
  revert w. induction inputs as [| i inputs IH]; intros w H Hcap; [cbn in H | cbn [wssRun] in H].
  { simplify_eq. split; [done |]. exists []. cbn. rewrite !app_nil_r. split_and!; [done | simpl; lia | by left | done]. }
  cbn [taken]. rewrite bind_cons. destruct (wssStep i w) as [w1 |] eqn:Ei; [| done]. cbn in H.
  destruct (wssStep_held i w w1 Ei Hcap) as (Hcap1 & _ & l1 & E1 & Hl1 & Hr1 & Hp1).
  destruct (IH w1 H Hcap1) as (Hcap' & l2 & E2 & Hl2 & Hr2 & Hp2). split; [done |].
  assert (Hret : ws_phase w = PhReturned → l1 = [] ∧ l2 = [] ∧ ws_phase w' = PhReturned ∧ (announced i ++ (inputs ≫= announced) = [])%list).
  { intros Hw. destruct (Hp1 Hw) as (-> & Hw1 & ->). destruct (Hp2 Hw1) as (-> & ? & ->). done. }
  destruct Hr1 as [-> | Hr1].
  - exists l2. rewrite app_nil_r in E1. rewrite app_assoc, E1, <- !app_assoc, E2. split_and!; [done | done | done |].
    intros Hw. by destruct (Hret Hw) as (_ & ? & ? & ?).
  - destruct (Hp2 Hr1) as (-> & Hw' & Hann). rewrite Hann, !app_nil_r in E2.
    exists l1. rewrite Hann, app_nil_r, E1, E2, <- !app_assoc. split_and!; [done | done | by right |].
    intros Hw. destruct (Hret Hw) as (? & _ & ? & Ha). by rewrite Hann, app_nil_r in Ha.
Qed.

(** While no limit of reconnections is set the listener returns only when asked. *)
Lemma wssStep_returns i w w' :
  wssStep i w = Some w' → ws_maxReconnects w = 0 → ws_phase w' = PhReturned →
  ws_phase w = PhReturned ∨ i = WiCtxDone ∨ i = WiStop.
Proof.
  intros H Hm Hr. destruct w as [con cnt mx q ph]. unfold wssStep in H. simpl in *. subst.
  destruct i as [[] | | | | [n |] | | |]; auto; destruct ph; simpl in *; repeat (case_match; simplify_eq; simpl in *); simplify_eq; simpl in *; auto; done.
Qed.

Lemma wssRun_returns inputs w w' :
  wssRun inputs w = Some w' → (length (ws_newBlocks w) ≤ newBlocksCap)%nat → ws_maxReconnects w = 0 →
  ws_phase w ≠ PhReturned → ws_phase w' = PhReturned → WiCtxDone ∈ inputs ∨ WiStop ∈ inputs.
Proof.
  revert w. induction inputs as [| i inputs IH]; intros w H Hcap Hm Hn Hr; cbn in H; [simplify_eq; done |].
  destruct (wssStep i w) as [w1 |] eqn:Ei; [| done]. cbn in H.
  destruct (wssStep_held i w w1 Ei Hcap) as (Hcap1 & Hm1 & _).
  rewrite !elem_of_cons. destruct (decide (ws_phase w1 = PhReturned)) as [Hr1 | Hr1].
  - destruct (wssStep_returns i w w1) as [? | [-> | ->]]; [done.. | by left; left | by right; left].
  - destruct (IH w1) as [? | ?]; try done; [congruence | by left; right | by right; right].
Qed.

(** Backoff: doubling from one second, one minute from the sixth attempt on. *)
#[local] Instance spec_float_eq_dec : EqDecision spec_float.
Proof. solve_decision. Defined.
Definition backoffValue (n : Z) : float64 := float_of_Z (Z.min 60 (2 ^ Z.min n 6) * 1000000000).
Lemma exponentialBackoff_values n : 0 ≤ n → exponentialBackoff n = backoffValue n.
Proof.
  intros Hn. destruct (Z.lt_ge_cases n 1024) as [Hlt | Hge].
  - assert (Hall : Forall (λ n, exponentialBackoff n = backoffValue n) (seqZ 0 1024)) by (apply (bool_decide_unpack _); by vm_compute).
    rewrite Forall_forall in Hall. apply Hall, elem_of_seqZ. lia.
  - unfold exponentialBackoff, pow2, backoffValue. rewrite (proj2 (Z.ltb_ge n 1024)), (Z.min_r n 6) by lia. by vm_compute.
Qed.

(** ** Properties *)

(** C28: Heads reach the consumer in the order in which the subscription
    announced them, through any number of reconnections, and none is lost: what
    was announced is what was taken, then what the channel holds, then the head
    waiting for room; only stopping the listener can lose that last one.  The
    channel never holds more than ten. *)
Theorem heads_in_order (inputs : list WssInput) (wssURL : string) (w w' : WSSListener) :
  NewWSSListener wssURL None = Ok w → wssRun inputs w = Some w' →
  (length (ws_newBlocks w') ≤ 10)%nat ∧
  ∃ lost, (inputs ≫= announced = taken inputs w ++ held w' ++ lost)%list ∧ (length lost ≤ 1)%nat ∧
    (lost = [] ∨ ws_phase w' = PhReturned).
Proof.
  unfold NewWSSListener. intros Hw Hrun. case_match; [done |]. simplify_eq.
  destruct (wssRun_held inputs _ w' Hrun) as (Hcap & lost & E & Hl & Hr & _); [simpl; lia |]. split; [exact Hcap |].
  exists lost. done.
Qed.

Definition sampleInputs : list WssInput :=
  [WiSubscribed false; WiTimer; WiSubscribed true; WiHeader (Some 7); WiSubErr; WiTimer; WiSubscribed true; WiHeader None;
   WiHeader (Some 8); WiTake; WiHeader (Some 9); WiStop].
Definition sampleEnd : WSSListener := mkWSSListener true 0 0 [8; 9] PhReturned.
Lemma heads_in_order_witness :
  wssRun sampleInputs (mkWSSListener true 0 0 [] PhSubscribe) = Some sampleEnd ∧ (length (ws_newBlocks sampleEnd) ≤ 10)%nat.
Proof.
  split; [reflexivity |].
  destruct (heads_in_order sampleInputs "wss://node" (mkWSSListener true 0 0 [] PhSubscribe) sampleEnd) as [H _];
    [reflexivity | reflexivity | exact H].
Defined.

(** A listener cancelled while it cannot subscribe never returns: with the
    context done, [handleReconnect] returns at once and the loop subscribes
    again, for ever and without any pause; stopping is not noticed in either
    backoff, nor cancelling while a head waits for room in the channel.  (With
    no limit of reconnections nothing but these two ends the listener.) *)
Theorem cancelled_listener_spins (n : nat) (w : WSSListener) :
  ws_phase w = PhSubscribe → ws_maxReconnects w = 0 →
  wssRun (concat (replicate n [WiSubscribed false; WiCtxDone])) w = Some w ∧
  (∀ w', ws_phase w' = PhHandleReconnect ∨ ws_phase w' = PhReconnect → wssStep WiStop w' = None) ∧
  (∀ w' h, ws_phase w' = PhSend h → wssStep WiCtxDone w' = None) ∧
  (∀ inputs w', (length (ws_newBlocks w) ≤ newBlocksCap)%nat → wssRun inputs w = Some w' → ws_phase w' = PhReturned →
     WiCtxDone ∈ inputs ∨ WiStop ∈ inputs).
Proof.
  intros Hp Hm. split_and!.
  - destruct w as [con cnt mx q ph]. simpl in *. subst. induction n as [| n IH]; [done | exact IH].
  - intros w' [H | H]; unfold wssStep; by rewrite H.
  - intros w' h H. unfold wssStep. by rewrite H.
  - intros inputs w' Hcap Hrun Hr. eapply wssRun_returns; try done. congruence.
Qed.

Lemma cancelled_listener_spins_witness :
  wssRun (concat (replicate 100 [WiSubscribed false; WiCtxDone])) (mkWSSListener false 3 0 [5] PhSubscribe) =
  Some (mkWSSListener false 3 0 [5] PhSubscribe).
Proof.
  destruct (cancelled_listener_spins 100 (mkWSSListener false 3 0 [5] PhSubscribe)) as [H _]; [reflexivity | reflexivity | exact H].
Defined.

(** ** What modelling showed *)

(** With the jitter the pause stays between three and five quarters: at the
    extremes of the random number, for each of the seven values. *)
Definition almostOne : float64 := S754_finite false 9007199254740991 (-53).
Lemma backoff_jitter :
  Forall (λ n, calculateBackoff f0 n = Z.min 60 (2 ^ n) * 750000000 ∧
    Z.min 60 (2 ^ n) * 1249999999 ≤ calculateBackoff almostOne n ≤ Z.min 60 (2 ^ n) * 1250000000) (seqZ 0 7).
Proof. apply (bool_decide_unpack _). by vm_compute. Qed.
