(* ===== verification/Traffic.v ===== *)
(** * Visitor statistics (cmd/indexer/api_middleware.go)

    The wrapper around every HTTP request: it finds the client's address,
    counts it in the traffic analyzer, and queues visits by browsers for four
    workers that store them.  The tables they write to are not read by the
    program. *)

From S2P Require Import Prelude GoInt Types Text Policy Floats.
From Stdlib Require Import ZArith Lia String Ascii.
From stdpp Require Import base gmap strings list.
Open Scope string_scope.
Open Scope Z_scope.

(** ** The traffic analyzer *)

Record TrafficAnalyzer := mkTrafficAnalyzer {
  ta_counts : gmap string Z;
  ta_threshold : float64;
  ta_total : Z
}.
Definition NewTrafficAnalyzer (threshold : float64) : TrafficAnalyzer := mkTrafficAnalyzer ∅ threshold 0.
Definition globalAnalyzer : TrafficAnalyzer := NewTrafficAnalyzer (fdec 9 10).

(** [Record]: past 2000 requests everything is forgotten. *)
Definition Record_ (ip : string) (ta : TrafficAnalyzer) : TrafficAnalyzer :=
  let counts := <[ip := default 0 (ta_counts ta !! ip) + 1]> (ta_counts ta) in
  let total := ta_total ta + 1 in
  if 2000 <? total then mkTrafficAnalyzer ∅ (ta_threshold ta) 0
  else mkTrafficAnalyzer counts (ta_threshold ta) total.

(** [GetAdminIP]: [order] is the order in which the map is ranged over. *)
Definition overThreshold (ta : TrafficAnalyzer) (e : string * Z) : bool :=
  float_gtb (float_div (float_of_Z e.2) (float_of_Z (ta_total ta))) (ta_threshold ta).
Definition GetAdminIP (order : list (string * Z)) (ta : TrafficAnalyzer) : string :=
  if ta_total ta <? 100 then ""
  else match List.find (overThreshold ta) order with Some e => e.1 | None => "" end.

(** ** The middleware *)

(** [(?i)(bot|crawler|spider|curl|wget|python|postman)]: case folding also
    takes the long s, the bytes 197 191, for an s. *)
Fixpoint foldCase (s : string) : string :=
  match s with
  | "" => ""
  | String c s' =>
    match s' with
    | String d s'' =>
      if (nat_of_ascii c =? 197)%nat && (nat_of_ascii d =? 191)%nat then String "s" (foldCase s'')
      else String (ascii_lower c) (foldCase s')
    | "" => String (ascii_lower c) ""
    end
  end.
Definition botWords : list string := ["bot"; "crawler"; "spider"; "curl"; "wget"; "python"; "postman"].
Definition botUARegex (ua : string) : bool := existsb (Contains (foldCase ua)) botWords.

Record visitorLogTask := mkVisitorLogTask { vt_ip : string; vt_ua : string; vt_path : string }.
Definition visitorLogQueueCap : nat := 2048.

(** A request, as the middleware reads it. *)
Record Request := mkRequest { rq_forwardedFor : string; rq_RemoteAddr : string; rq_UserAgent : string; rq_Method : string; rq_Path : string }.

(** The analyzer and the queue it shares with the other requests, and the
    requests handed on. *)
Record Visits := mkVisits { vs_analyzer : TrafficAnalyzer; vs_queue : list visitorLogTask; vs_served : list Request }.

Definition clientIP (forwardedFor remoteAddr : string) : string :=
  let ip := if String.eqb forwardedFor "" then remoteAddr else forwardedFor in
  match SplitHostPort ip with
  | Ok (host, _) => host
  | Err _ =>
    let ip := TrimSpace ip in
    match IndexByte ip "," with
    | Some idx => TrimSpace (stake idx ip)
    | None => ip
    end
  end.

Definition vset_analyzer (f : TrafficAnalyzer → TrafficAnalyzer) (v : Visits) : Visits :=
  mkVisits (f (vs_analyzer v)) (vs_queue v) (vs_served v).
Definition vset_queue (f : list visitorLogTask → list visitorLogTask) (v : Visits) : Visits :=
  mkVisits (vs_analyzer v) (f (vs_queue v)) (vs_served v).

(** [next.ServeHTTP(w, r)]. *)
Definition serve (r : Request) : GoM Visits unit := modify (λ v, mkVisits (vs_analyzer v) (vs_queue v) (vs_served v ++ [r])%list).

(** [others]: what other requests do between [Record] and [GetAdminIP];
    [order] ranges over the counts; [db] is there or not. *)
Definition VisitorStatsMiddleware (others : GoM Visits unit) (order : TrafficAnalyzer → list (string * Z)) (db : bool) (r : Request)
    : GoM Visits unit :=
  let ip := clientIP (rq_forwardedFor r) (rq_RemoteAddr r) in
  let ua := rq_UserAgent r in
  modify (vset_analyzer (Record_ ip));;
  others;;
  v ← gets id;
  if String.eqb ip (GetAdminIP (order (vs_analyzer v)) (vs_analyzer v)) || String.eqb ip "127.0.0.1" then serve r
  else
    (if Contains ua "Mozilla" && negb (botUARegex ua) && String.eqb (rq_Method r) "GET" then
       if db then
         modify (vset_queue (λ q, if (List.length q <? visitorLogQueueCap)%nat
                                  then (q ++ [mkVisitorLogTask ip ua (rq_Path r)])%list else q))
       else mret tt
     else mret tt);;
    serve r.

(** [logVisitor], in a worker: [exec i] is what attempt [i] at the INSERT
    returns; the pauses in milliseconds, and whether the visit is stored. *)
Fixpoint logLoop (exec : nat → option GoErr) (n attempt : nat) (slept : Z) : bool * Z :=
  match n with
  | O => (false, slept)
  | S n' => match exec attempt with
            | None => (true, slept)
            | Some _ => logLoop exec n' (S attempt) (slept + 100 * (Z.of_nat attempt + 1))
            end
  end.
Definition logVisitor (exec : nat → option GoErr) : bool * Z := logLoop exec 3 0 0.

(** A worker takes a task. *)
Definition workerTake : GoM Visits (option visitorLogTask) :=
  v ← gets id;
  match vs_queue v with
  | [] => mret None
  | t :: rest => modify (vset_queue (λ _, rest));; mret (Some t)
  end.

(** ** Lemmas *)

Definition occurrences (ip : string) (w : list string) : nat := List.length (filter (λ x, x = ip) w).

Lemma occurrences_snoc ip w x : occurrences ip (w ++ [x]) = (occurrences ip w + if decide (x = ip) then 1 else 0)%nat.
Proof.
  unfold occurrences. rewrite filter_app, length_app, filter_cons, filter_nil. by case_decide.
Qed.

Lemma occurrences_le ip w : (occurrences ip w ≤ List.length w)%nat.
Proof. apply length_filter. Qed.

Lemma occurrences_two ip ip' w : ip ≠ ip' → (occurrences ip w + occurrences ip' w ≤ List.length w)%nat.
Proof.
  intros Hne. induction w as [| x w IH]; [done |]. unfold occurrences in *. rewrite !filter_cons. simpl.
  destruct (decide (x = ip)), (decide (x = ip')); simpl; try lia. by subst.
Qed.

(** The analyzer holds exactly the requests [w] since the last reset. *)
Definition holdsWindow (w : list string) (ta : TrafficAnalyzer) : Prop :=
  (List.length w ≤ 2000)%nat ∧ ta_total ta = Z.of_nat (List.length w) ∧
  ∀ ip, ta_counts ta !! ip = match occurrences ip w with O => None | n => Some (Z.of_nat n) end.

Lemma Record_window ip w ta : holdsWindow w ta →
  holdsWindow (if decide (List.length w = 2000%nat) then [] else w ++ [ip])%list (Record_ ip ta) ∧
  ta_threshold (Record_ ip ta) = ta_threshold ta.
Proof.
  intros (Hl & Ht & Hc). unfold Record_. rewrite Ht.
  destruct (decide (List.length w = 2000%nat)) as [E | E].
  - replace (2000 <? Z.of_nat (List.length w) + 1) with true by lia. split; [| done].
    split_and!; [simpl; lia | done |]. intros ip'. apply lookup_empty.
  - replace (2000 <? Z.of_nat (List.length w) + 1) with false by lia. split; [| done]. split_and!; simpl.
    + rewrite length_app. simpl. lia.
    + rewrite length_app. simpl. lia.
    + intros ip'. rewrite occurrences_snoc, Hc. destruct (decide (ip = ip')) as [<- | Hne].
      * rewrite lookup_insert_eq. rewrite Nat.add_1_r. destruct (occurrences ip w); simpl; f_equal; lia.
      * rewrite lookup_insert_ne, Hc, Nat.add_0_r by done. done.
Qed.

Definition recordAll (ips : list string) (ta : TrafficAnalyzer) : TrafficAnalyzer := foldl (λ ta ip, Record_ ip ta) ta ips.

(** The requests since the last reset: every 2001st request resets. *)
Definition cycle : nat := 2001.
Definition window (ips : list string) : list string := drop (cycle * (List.length ips / cycle)) ips.

Lemma window_snoc ips ip :
  window (ips ++ [ip]) = (if decide (List.length (window ips) = 2000%nat) then [] else window ips ++ [ip])%list.
Proof.
  unfold window. set (n := List.length ips). rewrite length_app, length_drop. fold n. change (List.length [ip]) with 1%nat.
  assert (Hcy : cycle = 2001%nat) by reflexivity.
  pose proof (Nat.div_mod n cycle ltac:(lia)) as Hd. pose proof (Nat.mod_upper_bound n cycle ltac:(lia)) as Hm.
  remember (n / cycle)%nat as q. remember (n mod cycle)%nat as r. destruct (decide (_ = 2000%nat)) as [E | E].
  - assert (Hq : ((n + 1) / cycle = q + 1)%nat) by (symmetry; apply (Nat.div_unique _ _ _ 0); nia).
    rewrite Hq. apply drop_ge. rewrite length_app. fold n. change (List.length [ip]) with 1%nat. lia.
  - assert (Hq : ((n + 1) / cycle = q)%nat) by (symmetry; apply (Nat.div_unique _ _ _ (r + 1)); lia).
    rewrite Hq. apply drop_app_le. fold n. lia.
Qed.

Lemma recordAll_window ips th :
  holdsWindow (window ips) (recordAll ips (NewTrafficAnalyzer th)) ∧ ta_threshold (recordAll ips (NewTrafficAnalyzer th)) = th.
Proof.
  induction ips as [| ip ips [IH1 IH2]] using rev_ind.
  - split; [| done]. split_and!; [cbn; lia | done |]. intros ip. apply lookup_empty.
  - unfold recordAll in *. rewrite foldl_snoc, window_snoc. destruct (Record_window ip _ _ IH1) as [H1 H2].
    split; [done | by rewrite H2].
Qed.

Lemma over_spec w ta ip n : holdsWindow w ta → ta_threshold ta = fdec 9 10 → (100 ≤ List.length w)%nat →
  ta_counts ta !! ip = Some n → overThreshold ta (ip, n) = (9 * Z.of_nat (List.length w) <? 10 * Z.of_nat (occurrences ip w)).
Proof.
  intros (Hl & Ht & Hc) Hth Hw Hn. rewrite Hc in Hn. unfold overThreshold, fdec in *. rewrite Hth, Ht. simpl.
  assert (n = Z.of_nat (occurrences ip w)) as -> by (destruct (occurrences ip w); simplify_eq; done).
  pose proof (occurrences_le ip w). rewrite above_nine_tenths; [done | lia..].
Qed.

Lemma size_list_to_set_le (l : list string) : (size (list_to_set l : gset string) ≤ List.length l)%nat.
Proof.
  induction l as [| x l IH]; [done |]. cbn [list_to_set List.length].
  destruct (decide (x ∈ (list_to_set l : gset string))).
  - rewrite subseteq_union_1_L by set_solver. lia.
  - rewrite size_union, size_singleton by set_solver. lia.
Qed.

Lemma holdsWindow_size w ta : holdsWindow w ta → (size (ta_counts ta) ≤ List.length w)%nat.
Proof.
  intros (_ & _ & Hc).
  assert (Hsub : dom (ta_counts ta) ⊆ (list_to_set w : gset string)).
  { intros ip [n Hn]%elem_of_dom. rewrite Hc in Hn. apply elem_of_list_to_set.
    destruct (decide (ip ∈ w)) as [| Hnin]; [done |]. exfalso.
    assert (occurrences ip w = O) as E.
    { unfold occurrences. apply length_zero_iff_nil. clear -Hnin. induction w as [| x w IH]; [done |].
      rewrite filter_cons. apply not_elem_of_cons in Hnin as [H1 H2]. rewrite decide_False by congruence. auto. }
    by rewrite E in Hn. }
  apply subseteq_size in Hsub. rewrite size_dom in Hsub.
  etransitivity; [exact Hsub | apply size_list_to_set_le].
Qed.

Lemma find_over ta order ip : 
  (∀ e e', overThreshold ta e = true → overThreshold ta e' = true → e ∈ order → e' ∈ order → e = e') →
  (match List.find (overThreshold ta) order with Some e => e.1 | None => "" end = ip ∧ ip ≠ "" ↔
   ip ≠ "" ∧ ∃ n, (ip, n) ∈ order ∧ overThreshold ta (ip, n) = true).
Proof.
  intros Huniq. destruct (List.find _ order) as [[ip' n'] |] eqn:E.
  - apply List.find_some in E as [Hin Hov]. apply list_elem_of_In in Hin. simpl. split.
    + intros [<- Hne]. eauto.
    + intros [Hne (n & Hn & Ho)]. specialize (Huniq _ _ Hov Ho Hin Hn). by simplify_eq.
  - split; [by intros [<- ?] |]. intros [Hne (n & Hn & Ho)].
    eapply List.find_none in E; [by rewrite Ho in E | by apply list_elem_of_In].
Qed.

Lemma IndexByte_sep s t c : hasByte s c = false → IndexByte (s ++ String c t) c = Some (String.length s).
Proof.
  unfold hasByte. induction s as [| d s IH]; simpl; [by rewrite Ascii.eqb_refl |].
  destruct (Ascii.eqb d c); [done |]. destruct (IndexByte s c); [done |]. intros _. by rewrite IH.
Qed.

(** ** Theorems *)

(** The address taken for the administrator's: whatever requests were recorded,
    and in whatever order the map is ranged over, it is the one address that
    made more than nine tenths of the requests since the last reset, of which
    there must be at least a hundred; the comparison of the two float64 agrees
    with the exact one.  The analyzer resets itself at every 2001st request and
    never holds more than 2000 addresses. *)
Theorem admin_ip_spec (ips : list string) (order : list (string * Z)) :
  let ta := recordAll ips globalAnalyzer in
  let w := window ips in
  order ≡ₚ map_to_list (ta_counts ta) →
  (∀ ip, ip ≠ "" →
     (GetAdminIP order ta = ip ↔
      (100 ≤ List.length w)%nat ∧ 9 * Z.of_nat (List.length w) < 10 * Z.of_nat (occurrences ip w))) ∧
  (List.length w ≤ 2000)%nat ∧ (size (ta_counts ta) ≤ List.length w)%nat.
Proof.
  intros ta w Hord.
  assert (Hwth : holdsWindow w ta ∧ ta_threshold ta = fdec 9 10) by (apply recordAll_window).
  clearbody ta w. destruct Hwth as [Hw Hth]. pose proof Hw as (Hl & Ht & Hc).
  assert (Hin : ∀ ip n, (ip, n) ∈ order ↔ ta_counts ta !! ip = Some n).
  { intros ip n. by rewrite Hord, elem_of_map_to_list. }
  split_and!; [| done |].
  - intros ip Hne. unfold GetAdminIP. rewrite Ht.
    destruct (Z.of_nat (List.length w) <? 100) eqn:E100; [split; [congruence | lia] |].
    assert (Hov : ∀ ip n, (ip, n) ∈ order →
      overThreshold ta (ip, n) = (9 * Z.of_nat (List.length w) <? 10 * Z.of_nat (occurrences ip w))).
    { intros ip' n Hn%Hin. eapply over_spec; eauto. lia. }
    assert (Huniq : ∀ e e', overThreshold ta e = true → overThreshold ta e' = true → e ∈ order → e' ∈ order → e = e').
    { intros [i n] [i' n'] H1 H2 H3 H4. rewrite Hov in H1, H2 by done. apply Z.ltb_lt in H1, H2.
      destruct (decide (i = i')) as [-> | Hd]; [apply Hin in H3, H4; by simplify_eq |].
      pose proof (occurrences_two i i' w Hd). lia. }
    pose proof (find_over ta order ip Huniq) as Hfind.
    assert (Hiff : (∃ n, (ip, n) ∈ order ∧ overThreshold ta (ip, n) = true) ↔
                   9 * Z.of_nat (List.length w) < 10 * Z.of_nat (occurrences ip w)).
    { split.
      - intros (n & Hn & Ho). rewrite Hov in Ho by done. by apply Z.ltb_lt in Ho.
      - intros Hlt. destruct (occurrences ip w) as [| k] eqn:Ek; [lia |].
        exists (Z.of_nat (S k)). assert (Hm : (ip, Z.of_nat (S k)) ∈ order) by (apply Hin; by rewrite Hc, Ek).
        split; [done |]. rewrite Hov, Ek by done. by apply Z.ltb_lt. }
    rewrite <- Hiff. split.
    + intros HG. split; [lia |]. by apply Hfind.
    + intros [_ Hex]. by apply Hfind.
  - by apply holdsWindow_size.
Qed.

(** The address of a client, on every kind of input: a direct connection gives
    its host; a forwarded address is trimmed, a list of them cut at the first
    comma.  But if the last hop of the list carries a port, the whole list
    without it is taken for the address, and a header that starts with a comma
    gives the empty address, which counts as the administrator's while there
    is none, so that such visits are never queued. *)
Theorem clientIP_spec (forwardedFor remoteAddr host rest port : string) :
  hasByte host ":" = false → hasByte host "[" = false → hasByte host "]" = false →
  hasByte rest ":" = false → hasByte rest "[" = false → hasByte rest "]" = false →
  hasByte port ":" = false → hasByte port "[" = false → hasByte port "]" = false →
  clientIP "" (host ++ String ":" port) = host ∧
  (host ≠ "" → hasByte (TrimSpace host) "," = false → clientIP host remoteAddr = TrimSpace host) ∧
  (forwardedFor = host ++ String "," rest → TrimSpace forwardedFor = forwardedFor → hasByte host "," = false →
     clientIP forwardedFor remoteAddr = TrimSpace host) ∧
  (host ≠ "" → clientIP (host ++ String "," (rest ++ String ":" port)) remoteAddr = host ++ String "," rest) ∧
  (clientIP "," remoteAddr = "" ∧ GetAdminIP [] globalAnalyzer = "").
Proof.
  intros Hc Hl Hr Rc Rl Rr Pc Pl Pr.
  assert (Hno : ∀ s, s ≠ "" → hasByte s ":" = false → clientIP s remoteAddr =
    match IndexByte (TrimSpace s) "," with Some idx => TrimSpace (stake idx (TrimSpace s)) | None => TrimSpace s end).
  { intros s Hs Hcol. unfold clientIP. rewrite (proj2 (String.eqb_neq _ _) Hs). unfold SplitHostPort.
    by rewrite LastIndexByte_none. }
  assert (Hjoin : ∀ c, hasByte host c = false → hasByte rest c = false → Ascii.eqb "," c = false →
    hasByte (host ++ String "," rest) c = false).
  { intros c H1 H2 H3. rewrite IndexByte_app_l by done. unfold hasByte in *. cbn [IndexByte]. rewrite H3.
    by destruct (IndexByte rest c). }
  split_and!.
  - unfold clientIP. rewrite String.eqb_refl. by rewrite SplitHostPort_host.
  - intros Hne Hcomma. rewrite Hno by done. unfold hasByte in Hcomma. by destruct (IndexByte _ _).
  - intros -> Htrim Hcomma. rewrite Hno, Htrim.
    + rewrite IndexByte_sep by done. by rewrite stake_app.
    + by destruct host.
    + by apply Hjoin.
  - intros Hne.
    replace (host ++ String "," (rest ++ String ":" port)) with ((host ++ String "," rest) ++ String ":" port).
    2: { clear. induction host as [| c host IH]; [done | exact (f_equal (String c) IH)]. }
    assert (Hsp : SplitHostPort ((host ++ String "," rest) ++ String ":" port) = Ok (host ++ String "," rest, port)).
    { apply SplitHostPort_host; try done; by apply Hjoin. }
    unfold clientIP. destruct (String.eqb_spec ((host ++ String "," rest) ++ String ":" port) "") as [E |]; [by destruct host |].
    by rewrite Hsp.
  - by vm_compute.
  - by vm_compute.
Qed.

(** Every request is handed on exactly once, in the order in which the
    middleware finishes, and a visit is queued exactly when a browser's GET
    comes from an address that is neither the administrator's at that moment
    nor local, while a database is there and the queue has room; the queue
    never exceeds its 2048 places.  [v1] is what the other requests leave
    between the two uses of the analyzer. *)
Theorem middleware_spec (others : GoM Visits unit) (order : TrafficAnalyzer → list (string * Z)) (db : bool) (r : Request) (v v1 : Visits) :
  let ip := clientIP (rq_forwardedFor r) (rq_RemoteAddr r) in
  let logged := (ip ≠ GetAdminIP (order (vs_analyzer v1)) (vs_analyzer v1) ∧ ip ≠ "127.0.0.1") ∧
    (Contains (rq_UserAgent r) "Mozilla" = true ∧ botUARegex (rq_UserAgent r) = false) ∧
    rq_Method r = "GET" ∧ db = true ∧ (List.length (vs_queue v1) < visitorLogQueueCap)%nat in
  others (vset_analyzer (Record_ ip) v) = (v1, Val tt) →
  ∃ q, VisitorStatsMiddleware others order db r v = (mkVisits (vs_analyzer v1) q (vs_served v1 ++ [r]), Val tt) ∧
    (logged → q = vs_queue v1 ++ [mkVisitorLogTask ip (rq_UserAgent r) (rq_Path r)])%list ∧
    (¬ logged → q = vs_queue v1) ∧
    ((List.length (vs_queue v1) ≤ visitorLogQueueCap)%nat → (List.length q ≤ visitorLogQueueCap)%nat).
Proof.
  intros ip logged Ho. unfold VisitorStatsMiddleware. fold ip.
  unfold mbind, GoM_bind, modify, gets, serve, mret, GoM_ret. cbn beta iota. rewrite Ho. cbn beta iota.
  unfold modify, id, vset_queue. 
  destruct (String.eqb_spec ip (GetAdminIP (order (vs_analyzer v1)) (vs_analyzer v1))) as [Ea | Ea].
  { simpl. eexists. split_and!; [done | by intros [[? ?] _] | done | done]. }
  destruct (String.eqb_spec ip "127.0.0.1") as [El | El].
  { simpl. eexists. split_and!; [done | by intros [[? ?] _] | done | done]. }
  cbn [orb]. destruct (Contains (rq_UserAgent r) "Mozilla") eqn:Em.
  2: { simpl. eexists. split_and!; [done | by intros (_ & [? ?] & _) | done | done]. }
  destruct (botUARegex (rq_UserAgent r)) eqn:Eb.
  { simpl. eexists. split_and!; [done | by intros (_ & [? ?] & _) | done | done]. }
  destruct (String.eqb_spec (rq_Method r) "GET") as [Eg | Eg].
  2: { simpl. eexists. split_and!; [done | by intros (_ & _ & ? & _) | done | done]. }
  destruct db.
  2: { simpl. eexists. split_and!; [done | by intros (_ & _ & _ & ? & _) | done | done]. }
  cbn [andb negb vs_queue vs_served vs_analyzer]. destruct (Nat.ltb_spec (List.length (vs_queue v1)) visitorLogQueueCap) as [Hq | Hq].
  - eexists. split_and!; [done | done | by intros []; split_and! |]. rewrite length_app. change (List.length [_]) with 1%nat. lia.
  - eexists. split_and!; [done | intros (_ & _ & _ & _ & ?); lia | done | done].
Qed.

(** A visit is stored exactly when one of three attempts succeeds; a lost one
    costs its worker 600 ms, the last pause after the last attempt. *)
Lemma logVisitor_spec exec :
  ((logVisitor exec).1 = true ↔ ∃ i, (i < 3)%nat ∧ exec i = None) ∧
  ((logVisitor exec).1 = false → (logVisitor exec).2 = 600).
Proof.
  unfold logVisitor. cbn [logLoop].
  destruct (exec 0%nat) eqn:E0; [destruct (exec 1%nat) eqn:E1; [destruct (exec 2%nat) eqn:E2 |] |]; simpl; split; try done.
  - split; [done |]. intros ([| [| [| i]]] & Hi & Hn); [congruence.. | lia].
  - split; [intros _; exists 2%nat; split; [lia | done] | done].
  - split; [intros _; exists 1%nat; split; [lia | done] | done].
  - split; [intros _; exists 0%nat; split; [lia | done] | done].
Qed.

(** ** Witnesses *)

Definition sampleIPs : list string := (replicate 6 "10.0.0.2" ++ replicate 94 "10.0.0.1")%list.

Lemma admin_ip_spec_witness :
  GetAdminIP (map_to_list (ta_counts (recordAll sampleIPs globalAnalyzer))) (recordAll sampleIPs globalAnalyzer) = "10.0.0.1".
Proof.
  destruct (admin_ip_spec sampleIPs (map_to_list (ta_counts (recordAll sampleIPs globalAnalyzer)))) as [H _]; [done |].
  apply (H "10.0.0.1"); [done |]. split; [apply (bool_decide_unpack _); by vm_compute | by vm_compute].
Defined.

Lemma clientIP_spec_witness :
  clientIP "" "10.0.0.7:51334" = "10.0.0.7" ∧
  clientIP "10.0.0.7,10.0.0.8" "192.168.0.1:80" = "10.0.0.7" ∧
  clientIP "10.0.0.7,10.0.0.8:443" "192.168.0.1:80" = "10.0.0.7,10.0.0.8".
Proof.
  split_and!.
  - destruct (clientIP_spec "" "" "10.0.0.7" "" "51334") as [H _]; [reflexivity.. |]. exact H.
  - destruct (clientIP_spec "10.0.0.7,10.0.0.8" "192.168.0.1:80" "10.0.0.7" "10.0.0.8" "51334") as (_ & _ & H & _);
      [reflexivity.. |]. by apply H.
  - destruct (clientIP_spec "" "192.168.0.1:80" "10.0.0.7" "10.0.0.8" "443") as (_ & _ & _ & H & _); [reflexivity.. |].
    by apply H.
Defined.

Definition sampleRequest : Request := mkRequest "" "10.0.0.7:51334" "Mozilla/5.0 (X11)" "GET" "/".

Lemma middleware_spec_witness :
  ∃ q, VisitorStatsMiddleware (mret tt) (λ ta, map_to_list (ta_counts ta)) true sampleRequest (mkVisits globalAnalyzer [] [])
    = (mkVisits (Record_ "10.0.0.7" globalAnalyzer) q [sampleRequest], Val tt).
Proof.
  destruct (middleware_spec (mret tt) (λ ta, map_to_list (ta_counts ta)) true sampleRequest (mkVisits globalAnalyzer [] [])
    (mkVisits (Record_ "10.0.0.7" globalAnalyzer) [] []) eq_refl) as (q & H & _).
  exists q. exact H.
Defined.

Example bot_agents : (botUARegex "Mozilla/5.0 (compatible; GoogleBot/2.1)", botUARegex "Mozilla/5.0 (X11; Linux)") = (true, false).
Proof. reflexivity. Qed.
