(* ===== verification/Admin.v ===== *)
(** * The admin server (internal/engine/admin_server.go)

    The handlers that start, stop and describe the indexer through the state
    manager of [Power].  Bodies are records of the values of the code's maps;
    times are numbers.  Nothing in src/ constructs the server. *)

From S2P Require Import Prelude GoInt Types Text Power.
From Stdlib Require Import ZArith Lia String.
From stdpp Require Import base strings list.
Open Scope string_scope.
Open Scope Z_scope.

(** ** Answers *)

Record CostReport := mkCostReport { cr_current_mode : string; cr_rpc_quota_usage : string; cr_estimated_daily_cost : string }.
Record StatusReport := mkStatusReport {
  sr_state : string;
  sr_last_access : Z;
  sr_time_since_access : Z;
  sr_indexer_running : bool;
  sr_current_block : option string;
  sr_rpc_nodes : Z * Z;              (* healthy, total *)
  sr_cost_optimization : CostReport
}.
Record ConfigReport := mkConfigReport {
  fr_demo_duration : Z;
  fr_idle_timeout : Z;
  fr_check_interval : Z;
  fr_supported_states : list string
}.
Inductive AdminBody : Type :=
| AbDone (success : bool) (message state : string) (timestamp : Z)
| AbStatus (r : StatusReport)
| AbConfig (r : ConfigReport).

Definition checkInterval : Z := smMinute.

Definition getRPCQuotaUsage (s : IndexerState) : string :=
  match s with
  | StateActive => "HIGH (eth_getLogs intensive)"
  | StateIdle => "NONE (no RPC calls)"
  | StateWatching => "MINIMAL (WSS subscription only)"
  end.
Definition getEstimatedDailyCost (s : IndexerState) : string :=
  match s with
  | StateActive => "~2.4M credits/day (80% of free tier)"
  | StateIdle => "~0 credits/day (0% of free tier)"
  | StateWatching => "~0.1M credits/day (3% of free tier)"
  end.

Definition notAllowed : Response AdminBody := HttpError 405 "Method not allowed".

(** ** Handlers

    [others] is what the state processor, the watchdog and other requests do
    between the handler's own steps. *)
Section admin.
Context {W : Type} {IS : IndexerService W}.
Local Abbreviation M := (GoM (StateManager W)).
Variables (currentBlock : W → string) (healthyNodes : Z).

(** state_manager_api.go, [GetState] and [GetStatus]. *)
Definition GetState : M IndexerState := gets sm_currentState.

Definition StartDemo (others : M unit) (method : string) (now : Z) : M (Response AdminBody) :=
if negb (String.eqb method "POST") then mret notAllowed
else
  RecordAccess now;;
  RecordAccess now;;
  others;;
  s ← GetState;
  mret (HttpOK (AbDone true "Demo mode started" (IndexerState_String s) now)).

Definition Stop (others : M unit) (method : string) (now : Z) : M (Response AdminBody) :=
if negb (String.eqb method "POST") then mret notAllowed
else
  transitionTo StateIdle;;
  others;;
  s ← GetState;
  mret (HttpOK (AbDone true "Indexer stopped" (IndexerState_String s) now)).

Definition GetStatus (others : M unit) (method : string) (now : Z) : M (Response AdminBody) :=
if negb (String.eqb method "GET") then mret notAllowed
else
  RecordAccess now;;
  m ← gets id;
  let running := is_IsRunning (sm_indexer m) in
  let current := if running then Some (currentBlock (sm_indexer m)) else None in
  others;;
  s ← GetState;
  mret (HttpOK (AbStatus (mkStatusReport (IndexerState_String (sm_currentState m)) (sm_lastAccess m) (now - sm_lastAccess m)
    running current (healthyNodes, healthyNodes)
    (mkCostReport (IndexerState_String s) (getRPCQuotaUsage s) (getEstimatedDailyCost s))))).

Definition GetConfig (method : string) (now : Z) : M (Response AdminBody) :=
if negb (String.eqb method "GET") then mret notAllowed
else
  RecordAccess now;;
  m ← gets id;
  mret (HttpOK (AbConfig (mkConfigReport (sm_demoDuration m) (sm_idleTimeout m) checkInterval ["idle"; "active"; "watching"]))).

(** [Middleware]: an access is recorded before the handler's own. *)
Definition Middleware (now : Z) (next : M (Response AdminBody)) : M (Response AdminBody) :=
RecordAccess now;; next.

(** [RegisterRoutes]; another path is not found. *)
Definition adminRoute (others : M unit) (path method : string) (now : Z) : M (Response AdminBody) :=
if String.eqb path "/api/admin/start-demo" then StartDemo others method now
else if String.eqb path "/api/admin/stop" then Stop others method now
else if String.eqb path "/api/admin/status" then GetStatus others method now
else if String.eqb path "/api/admin/config" then GetConfig method now
else mret (HttpError 404 "404 page not found").

(** The goroutines of the manager and the admin requests, interleaved; within a
  request, the manager's steps [inside] happen between the request's own. *)
Inductive AdminCase : Type :=
| AcStep (c : SmCase)
| AcRequest (path method : string) (now : Z) (inside : list SmCase)
| AcWrapped (path method : string) (now : Z) (inside : list SmCase).
Definition adminStep (c : AdminCase) : M unit :=
match c with
| AcStep c => smStep c
| AcRequest path method now inside => adminRoute (smRun inside) path method now;; mret tt
| AcWrapped path method now inside => Middleware now (adminRoute (smRun inside) path method now);; mret tt
end.
Fixpoint adminRun (cs : list AdminCase) : M unit :=
match cs with [] => mret tt | c :: rest => adminStep c;; adminRun rest end.

(** ** Lemmas *)

Hypothesis Start_ok : ∀ w : W, wp is_Start (λ o _, o = Val None) w.
Hypothesis Stop_ok : ∀ w : W, wp is_Stop (λ o _, o = Val None) w.

Definition answered {A} (o : outcome A) (m : StateManager W) : Prop := (∃ a, o = Val a) ∧ sm_ok m.

Lemma answered_ret {A} (a : A) m : sm_ok m → wp (mret a) answered m.
Proof. intros Hm. apply wp_ret. split; eauto. Qed.

Lemma access_then {A} now (k : M A) m : sm_ok m → (∀ m', sm_ok m' → wp k answered m') → wp (RecordAccess now;; k) answered m.
Proof using Start_ok Stop_ok.
intros Hm Hk. apply wp_bind. eapply wp_mono; [by apply (smStep_ok Start_ok Stop_ok (SmAccess now)) |].
intros o m' [-> H]. auto.
Qed.

Lemma run_then {A} inside (k : M A) m : sm_ok m → (∀ m', sm_ok m' → wp k answered m') → wp (smRun inside;; k) answered m.
Proof using Start_ok Stop_ok.
intros Hm Hk. apply wp_bind. eapply wp_mono; [by apply (smRun_ok Start_ok Stop_ok inside) |]. intros o m' [-> H]. auto.
Qed.

Lemma adminRoute_ok inside path method now m : sm_ok m → wp (adminRoute (smRun inside) path method now) answered m.
Proof using Start_ok Stop_ok.
intros Hm. unfold adminRoute.
destruct (String.eqb path "/api/admin/start-demo").
{ unfold StartDemo. destruct (negb _); [by apply answered_ret |]. apply access_then; [done |]. intros m1 H1.
  apply access_then; [done |]. intros m2 H2. apply run_then; [done |]. intros m3 H3. apply wp_bind, wp_gets. by apply answered_ret. }
destruct (String.eqb path "/api/admin/stop").
{ unfold Stop. destruct (negb _); [by apply answered_ret |]. apply wp_bind. eapply wp_mono; [by apply transitionTo_ok |].
  intros o m1 (-> & H1 & _). apply run_then; [done |]. intros m3 H3. apply wp_bind, wp_gets. by apply answered_ret. }
destruct (String.eqb path "/api/admin/status").
{ unfold GetStatus. destruct (negb _); [by apply answered_ret |]. apply access_then; [done |]. intros m1 H1.
  apply wp_bind, wp_gets. apply run_then; [done |]. intros m3 H3. apply wp_bind, wp_gets. by apply answered_ret. }
destruct (String.eqb path "/api/admin/config"); [| by apply answered_ret].
unfold GetConfig. destruct (negb _); [by apply answered_ret |]. apply access_then; [done |]. intros m1 H1.
apply wp_bind, wp_gets. by apply answered_ret.
Qed.

Lemma adminRun_ok cs m : sm_ok m → wp (adminRun cs) (λ o m', o = Val tt ∧ sm_ok m') m.
Proof using Start_ok Stop_ok.
revert m. induction cs as [| c cs IH]; intros m Hm; simpl; [by apply wp_ret |].
apply wp_bind. destruct c as [c | path method now inside | path method now inside]; simpl.
- eapply wp_mono; [by apply smStep_ok |]. intros o m' [-> H]. auto.
- apply wp_bind. eapply wp_mono; [by apply adminRoute_ok |]. intros o m' [[a ->] H]. apply wp_ret. auto.
- unfold Middleware. apply wp_bind. eapply wp_mono; [by apply access_then; [| apply adminRoute_ok] |].
  intros o m' [[a ->] H]. apply wp_ret. auto.
Qed.
End admin.

(** ** Theorems *)

(** The admin requests cannot bring the indexer out of step: in every
    interleaving of requests on any path and with any method, the manager's own
    goroutines between and within them, and for a service whose starts and
    stops succeed, no handler panics and the indexer is in the mode its state
    names. *)
Theorem admin_in_mode {W} {IS : IndexerService W} (currentBlock : W → string) (healthyNodes : Z) (cs : list AdminCase) (now : Z) (w : W) :
  (∀ w, wp is_Start (λ o _, o = Val None) w) → (∀ w, wp is_Stop (λ o _, o = Val None) w) → in_mode StateIdle w →
  wp (adminRun currentBlock healthyNodes cs)
     (λ o m', o = Val tt ∧ in_mode (sm_currentState m') (sm_indexer m') ∧ (List.length (sm_stateCh m') ≤ stateChCap)%nat)
     (NewStateManager false false now w).
Proof.
  intros Hstart Hstop Hw. eapply wp_mono; [apply adminRun_ok; [done | done |] |]; [split; [exact Hw | simpl; lia] |].
  by intros o m' (-> & Hm & Hc).
Qed.

(** What stopping does: a request with the wrong method changes nothing.  A stop
    is answered as done with the state of before, whatever becomes of it: with a
    full channel it is dropped; otherwise the next step of the state processor
    carries it out — and then the first look at the status or the configuration
    queues a start, so that one more step leaves the indexer running again. *)
Theorem admin_stop_undone {W} {IS : IndexerService W} (currentBlock : W → string) (healthyNodes now now' : Z) (m : StateManager W)
    (look : string) (method : string) :
  (∀ w, wp is_Start (λ o _, o = Val None) w) → (∀ w, wp is_Stop (λ o _, o = Val None) w) →
  in_mode StateActive (sm_indexer m) → sm_currentState m = StateActive →
  look = "/api/admin/status" ∨ look = "/api/admin/config" →
  (method ≠ "POST" → Stop (mret tt) method now m = (m, Val notAllowed)) ∧
  (snd (Stop (mret tt) "POST" now m) = Val (HttpOK (AbDone true "Indexer stopped" "active" now))) ∧
  (List.length (sm_stateCh m) = stateChCap → fst (Stop (mret tt) "POST" now m) = m) ∧
  (sm_stateCh m = [] →
   wp (Stop (mret tt) "POST" now;; stateProcessorStep)
      (λ o m1, o = Val tt ∧ sm_currentState m1 = StateIdle ∧ is_IsRunning (sm_indexer m1) = false ∧
         wp (adminRoute currentBlock healthyNodes (mret tt) look "GET" now';; stateProcessorStep)
            (λ o m2, o = Val tt ∧ sm_currentState m2 = StateActive ∧ is_IsRunning (sm_indexer m2) = true) m1) m).
Proof.
  intros Hstart Hstop Hm Hs Hlook. split_and!.
  - intros Hmeth. unfold Stop. by rewrite (proj2 (String.eqb_neq _ _) Hmeth).
  - unfold Stop, transitionTo. simpl. case_match; simpl; by rewrite Hs.
  - intros Hfull. unfold Stop, transitionTo. simpl. by rewrite Hfull.
  - intros Hch. apply wp_bind. unfold Stop. simpl. apply wp_bind, wp_modify. rewrite Hch. simpl.
    apply wp_bind, wp_ret, wp_bind, wp_gets, wp_ret.
    apply wp_bind, wp_gets. unfold id. simpl. apply wp_bind, wp_modify.
    eapply wp_mono; [apply executeTransition_wp; [done | done | simpl; by rewrite Hs | simpl; lia] |].
    intros o m1 (-> & H1 & [H2 H3] & H4). simpl in H4. split_and!; [done | done | done |].
    assert (Hgo : ∀ m2, sm_stateCh m2 = [StateActive] → sm_currentState m2 = StateIdle → in_mode StateIdle (sm_indexer m2) →
      wp stateProcessorStep (λ o m2, o = Val tt ∧ sm_currentState m2 = StateActive ∧ is_IsRunning (sm_indexer m2) = true) m2).
    { intros m2 Hc2 Hs2 Hi2. unfold stateProcessorStep. apply wp_bind, wp_gets. unfold id. rewrite Hc2.
      apply wp_bind, wp_modify. eapply wp_mono; [apply executeTransition_wp; [done | done | simpl; by rewrite Hs2 | simpl; lia] |].
      intros o m3 (-> & ? & [? ?] & ?). done. }
    assert (Hacc : RecordAccess now' m1 = (sset_stateCh [StateActive] (sset_lastAccess now' m1), Val tt)).
    { unfold RecordAccess, transitionTo, modify, gets, mbind, GoM_bind, id. simpl. rewrite H1. simpl. by rewrite H4. }
    destruct Hlook as [-> | ->]; unfold adminRoute, GetStatus, GetConfig; simpl; apply wp_bind, wp_bind;
      unfold wp at 1; rewrite Hacc; simpl; repeat first [by apply Hgo | apply wp_bind | apply wp_gets | apply wp_ret].
Qed.

(** ** Witnesses *)

Lemma admin_in_mode_witness :
  let m' := fst (adminRun (λ _, "7") 3
    [AcRequest "/api/admin/start-demo" "POST" 5 [SmProcess]; AcRequest "/api/admin/stop" "POST" 6 []; AcStep SmProcess]
    (NewStateManager false false 0 (false, false))) in
  sm_currentState m' = StateActive ∧ in_mode (sm_currentState m') (sm_indexer m').
Proof.
  intros m'. split; [by vm_compute |].
  destruct (admin_in_mode (λ _, "7") 3
    [AcRequest "/api/admin/start-demo" "POST" 5 [SmProcess]; AcRequest "/api/admin/stop" "POST" 6 []; AcStep SmProcess]
    0 (false, false)) as (_ & H & _); [done | done | by split | exact H].
Defined.

Lemma admin_stop_undone_witness :
  let m := mkStateManager [] false (5 * smMinute) (10 * smMinute) false StateActive 0 (true, false) in
  snd (Stop (mret tt) "POST" 9 m) = Val (HttpOK (AbDone true "Indexer stopped" "active" 9)).
Proof.
  intros m. destruct (admin_stop_undone (λ _, "7") 3 9 10 m "/api/admin/status" "PUT") as (_ & H & _);
    [done | done | by split | done | by left | exact H].
Defined.
