(* ===== verification/Api.v ===== *)
(** * The HTTP API (cmd/indexer/api_server.go, api_handlers.go, internal/engine/signer.go)

    The server with the dependencies that startup injects, its routes, and the
    handlers, with bodies as records of the values that are encoded.  The
    column processed_at, the row ids and the encoding are left out.  The
    functions of api_handlers.go without a caller are at the end of the model. *)

From S2P Require Import Prelude GoInt Types Text GlobalState Database Orchestrator Guards Power HotBuffer Policy Status Processor.
From Stdlib Require Import ZArith Lia String Ascii.
From stdpp Require Import base gmap strings list sorting pretty.
Open Scope string_scope.
Open Scope Z_scope.

(** ** signer.go *)

Fixpoint EncodeToString (s : string) : string :=
  match s with
  | "" => ""
  | String c s' => let n := Z.of_nat (nat_of_ascii c) in String (hexDigit (n / 16)) (String (hexDigit (n mod 16)) (EncodeToString s'))
  end.
Record SignedPayload (A : Type) := mkSignedPayload {
  sp_Type : string; sp_Data : A; sp_Signature : string; sp_PubKey : string; sp_SignerID : string
}.
Arguments mkSignedPayload {A}.
Arguments sp_Type {A}.
Arguments sp_Data {A}.
Arguments sp_Signature {A}.
Arguments sp_PubKey {A}.
Arguments sp_SignerID {A}.

(** crypto/ed25519: keys and signatures as byte strings. *)
Class Ed25519 := {
  ed_GenerateKey : string → result GoErr (string * string);   (* from the random bytes: public, private *)
  ed_Sign : string → string → string;
  ed_Verify : string → string → string → bool;
  ed_correct rand pub priv msg : ed_GenerateKey rand = Ok (pub, priv) → ed_Verify pub msg (ed_Sign priv msg) = true
}.

Record SignerMachine := mkSignerMachine { sg_privKey : string; sg_pubKey : string; sg_signerID : string }.
Definition NewSignerMachine {E : Ed25519} (rand signerID : string) : option SignerMachine :=
  match ed_GenerateKey rand with Ok (pub, priv) => Some (mkSignerMachine priv pub signerID) | Err _ => None end.
(** [marshal] is [json.Marshal] of the data. *)
Definition Sign {E : Ed25519} {A} (marshal : A → result GoErr string) (s : SignerMachine) (msgType : string) (data : A)
    : result GoErr (SignedPayload A) :=
  match marshal data with
  | Err e => Err e
  | Ok msgBytes => Ok (mkSignedPayload msgType data (EncodeToString (ed_Sign (sg_privKey s) msgBytes))
                         (EncodeToString (sg_pubKey s)) (sg_signerID s))
  end.
Definition GetPublicKeyHex (s : SignerMachine) : string := EncodeToString (sg_pubKey s).
Definition GetSignerID (s : SignerMachine) : string := sg_signerID s.

(** ** Answers *)

Record BlockView := mkBlockView { bv_Number : string; bv_Hash : string; bv_ParentHash : string; bv_Timestamp : string }.
Record TransferView := mkTransferView {
  tv_BlockNumber : string; tv_TxHash : string; tv_LogIndex : Z; tv_FromAddress : string; tv_ToAddress : string;
  tv_Amount : string; tv_TokenAddress : string; tv_Symbol : string; tv_Type : string
}.
Record DebugSnapshot := mkDebugSnapshot {
  ds_mode : string;
  ds_is_healthy : bool;
  ds_reality_gap : Z;
  ds_bps_ema : float64;
  ds_system_state : string;
  ds_safety_buffer : Z;
  ds_jobs_depth : Z;
  ds_results_depth : Z;
  ds_latest_rpc_block : Z;
  ds_latest_db_block : Z;
  ds_is_synced : bool;
  ds_blocks : list BlockView;
  ds_txs : list TransferView
}.
(** [X-Payload-Signature], [X-Signer-ID], [X-Public-Key]. *)
Definition SignHeaders : Type := option (string * string * string).
Inductive Body : Type :=
| BBlocks (blocks : list BlockView)
| BTransfers (transfers : list TransferView) (hot : bool)
| BInitial (state title msg : string)
| BStatus (headers : SignHeaders) (status : UIStatusDTO)
| BDebug (d : DebugSnapshot)
| BStatic | BDashboard | BSecurity | BWebsocket | BPrometheus.

Definition viewBlock (b : ModelBlock) : BlockView := mkBlockView (pretty (mb_Number b)) (mb_Hash b) (mb_ParentHash b) (pretty (mb_Timestamp b)).
Definition viewTransfer (t : Transfer) : TransferView :=
  mkTransferView (pretty (tr_BlockNumber t)) (tr_TxHash t) (tr_LogIndex t) (tr_From t) (tr_To t) (pretty (tr_Amount t))
    (tr_TokenAddress t) (tr_Symbol t) (tr_Type t).

(** ** Queries *)

(** [ORDER BY number DESC] and [ORDER BY block_number DESC, log_index DESC]. *)
Definition byNumber (a b : Z * ModelBlock) : Prop := b.1 <= a.1.
Definition byPosition (a b : (Z * Z) * Transfer) : Prop := b.1.1 < a.1.1 ∨ b.1.1 = a.1.1 ∧ b.1.2 <= a.1.2.
#[export] Instance byNumber_dec a b : Decision (byNumber a b).
Proof. unfold byNumber. apply _. Defined.
#[export] Instance byPosition_dec a b : Decision (byPosition a b).
Proof. unfold byPosition. apply _. Defined.

Definition latestBlocks (limit : nat) (t : Tables) : list ModelBlock :=
  (take limit (merge_sort byNumber (map_to_list (t_blocks t)))).*2.
Definition latestTransfers (limit : nat) (t : Tables) : list Transfer :=
  (take limit (merge_sort byPosition (map_to_list (t_transfers t)))).*2.

(** ** The server *)

(** [sv_db] and [sv_rpcPool] say whether the pointers are set; [sv_processor] is
    the processor's hot buffer. *)
Record Server := mkServer {
  sv_db : bool;
  sv_rpcPool : bool;
  sv_lazyManager : option LazyManager;
  sv_processor : option (option HotBuffer);
  sv_signer : option SignerMachine;
  sv_chainID : Z;
  sv_port : string;
  sv_title : string
}.

(** The server with what its handlers reach: the database and the node in [W],
    the Orchestrator. *)
Record Api (W V : Type) := mkApi { ap_server : Server; ap_world : W; ap_orch : Orchestrator V }.
Arguments mkApi {W V}.
Arguments ap_server {W V}.
Arguments ap_world {W V}.
Arguments ap_orch {W V}.

(** What a request reads elsewhere. *)
Record ApiEnv := mkApiEnv {
  ae_now : Z;
  ae_glob : Snapshot;
  ae_caps : Z * Z;
  ae_tps : float64;
  ae_bps : float64;
  ae_healthyNodes : Z;
  ae_version : string
}.

(** [NewServer], before there is a database. *)
Definition NewServer (port title : string) (signer : option SignerMachine) : Server := mkServer false false None None signer 0 port title.
(** [SetDependencies], with pointers that are not nil. *)
Definition SetDependencies (lazyManager : LazyManager) (processor : option HotBuffer) (chainID : Z) (s : Server) : Server :=
  mkServer true true (Some lazyManager) (Some processor) (sv_signer s) chainID (sv_port s) (sv_title s).

Section api.
Context {W V : Type} {PG : Postgres W} {E : Ed25519} (rpcPool : RPCClient W) (marshal : UIStatusDTO → result GoErr string).
Local Abbreviation M := (GoM (Api W V)).

Definition apWorld {A} (m : GoM W A) : M A := zoom ap_world (λ w a, mkApi (ap_server a) w (ap_orch a)) m.
Definition setLazy (l : option LazyManager) (a : Api W V) : Api W V :=
let s := ap_server a in
mkApi (mkServer (sv_db s) (sv_rpcPool s) l (sv_processor s) (sv_signer s) (sv_chainID s) (sv_port s) (sv_title s)) (ap_world a) (ap_orch a).

Definition handleGetBlocks : M (Response Body) :=
r ← apWorld (pg_Query (list ModelBlock) (latestBlocks 10));
mret match r with
     | Err _ => HttpError 500 "Failed to retrieve blocks"
     | Ok bs => HttpOK (BBlocks (viewBlock <$> bs))
     end.

Definition handleGetTransfers : M (Response Body) :=
r ← apWorld (pg_Query (list Transfer) (latestTransfers 10));
mret match r with
     | Err _ => HttpError 500 "Failed to retrieve transfers"
     | Ok ts => HttpOK (BTransfers (viewTransfer <$> ts) false)
     end.

Definition handleGetTransfersFromHotBuffer (b : HotBuffer) : M (Response Body) :=
match snd (GetLatest 10 b) with
| Val hot => mret (HttpOK (BTransfers (viewTransfer <$> default [] hot) true))
| Panic why => go_panic why
end.

(** The Orchestrator is a singleton, so it is there. *)
Definition handleInitialStatus (title : string) : M (Response Body) :=
a ← gets id;
mret (HttpOK (BInitial (SystemState_String (cs_SystemState (or_snapshot (ap_orch a)))) title "System initializing")).

Definition signHeaders (signer : option SignerMachine) (status : UIStatusDTO) : SignHeaders :=
s ← signer;
match Sign marshal s "status" status with
| Ok p => Some (sp_Signature p, sp_SignerID p, sp_PubKey p)
| Err _ => None
end.

Definition handleGetStatus (env : ApiEnv) : M (Response Body) :=
a ← gets id;
match sv_lazyManager (ap_server a) with
| Some l => modify (setLazy (Some (Trigger (ae_now env) l)))
| None => mret tt
end;;
blocks ← apWorld (pg_Query Z (λ t, Z.of_nat (size (t_blocks t))));
transfers ← apWorld (pg_Query Z (λ t, Z.of_nat (size (t_transfers t))));
let status := GetUIStatus (or_snapshot (ap_orch a)) (ae_glob env) (ae_caps env) (Some (blocks, transfers)) (ae_tps env) (ae_bps env)
                (ae_now env / 1000000) (ae_version env) in
mret (HttpOK (BStatus (signHeaders (sv_signer (ap_server a)) status) status)).

Definition handleGetDebugSnapshot (env : ApiEnv) : M (Response Body) :=
a ← gets id;
let snap := or_snapshot (ap_orch a) in
latestRPC ← apWorld (rpc_GetLatestBlockNumber rpcPool);
let latestRPCNum := match latestRPC with Ok n => big_Uint64 n | Err _ => 0 end in
blocks ← apWorld (pg_Query (list ModelBlock) (latestBlocks 5));
txs ← apWorld (pg_Query (list Transfer) (latestTransfers 5));
mret (HttpOK (BDebug {|
  ds_mode := if cs_IsEcoMode snap then "ECO_SLEEP" else "ACTIVE";
  ds_is_healthy := 0 <? ae_healthyNodes env;
  ds_reality_gap := sub_u64 (cs_LatestHeight snap) (cs_SyncedCursor snap);
  ds_bps_ema := ae_bps env;
  ds_system_state := SystemState_String (cs_SystemState snap);
  ds_safety_buffer := cs_SafetyBuffer snap;
  ds_jobs_depth := cs_JobsDepth snap;
  ds_results_depth := cs_ResultsDepth snap;
  ds_latest_rpc_block := latestRPCNum;
  ds_latest_db_block := cs_SyncedCursor snap;
  ds_is_synced := sub_u64 latestRPCNum (cs_SyncedCursor snap) <? 10;
  ds_blocks := match blocks with Ok bs => viewBlock <$> bs | Err _ => [] end;
  ds_txs := match txs with Ok ts => viewTransfer <$> ts | Err _ => [] end |})).

(** The routes of [Start]: "/static/" is a prefix, the others are exact, "/"
  catches the rest. *)
Definition initializing : Response Body := HttpError 503 "System Initializing...".
Definition route (env : ApiEnv) (path : string) : M (Response Body) :=
a ← gets id;
let s := ap_server a in
if String.prefix "/static/" path then mret (HttpOK BStatic)
else if String.eqb path "/api/blocks" then
  if sv_db s then handleGetBlocks else mret initializing
else if String.eqb path "/api/transfers" then
  if negb (sv_db s) then mret initializing
  else match sv_processor s with
       | Some (Some b) => if 0 <? Z.of_nat (List.length (hb_transfers b)) then handleGetTransfersFromHotBuffer b else handleGetTransfers
       | _ => handleGetTransfers
       end
else if String.eqb path "/api/status" then
  if negb (sv_db s) || negb (sv_rpcPool s) then handleInitialStatus (sv_title s) else handleGetStatus env
else if String.eqb path "/api/debug/snapshot" then
  if negb (sv_db s) || negb (sv_rpcPool s) then mret initializing else handleGetDebugSnapshot env
else if String.eqb path "/ws" then mret (HttpOK BWebsocket)
else if String.eqb path "/security" then mret (HttpOK BSecurity)
else if String.eqb path "/metrics" then mret (HttpOK BPrometheus)
else if String.eqb path "/" then mret (HttpOK BDashboard)
else mret (HttpError 404 "404 page not found").

(** ** Functions without a caller *)

Definition getLatestIndexedBlock : GoM W string :=
r ← pg_Query Z maxBlockNumber; mret match r with Ok n => pretty n | Err _ => "0" end.
Definition getCount (count : Tables → Z) : GoM W Z :=
r ← pg_Query Z count; mret match r with Ok n => n | Err _ => 0 end.
Definition parseBlockNumber (s : string) : Z :=
if String.eqb s "" || String.eqb s "0" then 0
else match SetString10 s with Some n => big_Int64 n | None => 0 end.

(** [processed i] is how long ago block [i] was stored, in seconds; the text is
  what is shown. *)
Inductive LatencyText : Type := LtZero | LtCatchingUp (behind : Z) | LtSeconds (s : float64).
Definition calculateLatency (processed : Tables → option float64) (latestChain latestIndexed : Z) : GoM W (LatencyText * float64) :=
if (latestChain <=? 0) || (latestIndexed <=? 0) then mret (LtZero, float_of_Z 0)
else
  let syncLag := i64 (latestChain - latestIndexed) in
  let est := float_mul (float_of_Z syncLag) (float_of_Z 12) in
  if 100 <? syncLag then mret (LtCatchingUp syncLag, est)
  else
    r ← pg_Query (option float64) processed;
    mret match r with
         | Ok (Some latency) => (LtSeconds latency, latency)
         | _ => (LtSeconds est, est)
         end.
End api.

(** ** Lemmas *)

#[export] Instance byNumber_total : Total byNumber.
Proof. intros a b. unfold byNumber. lia. Qed.
#[export] Instance byNumber_trans : Transitive byNumber.
Proof. intros a b c. unfold byNumber. lia. Qed.
#[export] Instance byPosition_total : Total byPosition.
Proof. intros a b. unfold byPosition. lia. Qed.
#[export] Instance byPosition_trans : Transitive byPosition.
Proof. intros a b c. unfold byPosition. lia. Qed.

(** The first rows of a sorted query. *)
Lemma merge_sort_top {A} (R : A → A → Prop) `{∀ x y, Decision (R x y)} `{!Total R} `{!Transitive R} (n : nat) (l : list A) :
  let top := take n (merge_sort R l) in
  StronglySorted R top ∧ List.length top = Nat.min n (List.length l) ∧ (∀ x, x ∈ top → x ∈ l) ∧
  (∀ x y, x ∈ top → y ∈ l → y ∈ top ∨ R x y).
Proof.
  intros top.
  assert (Hp : merge_sort R l ≡ₚ l) by apply merge_sort_Permutation.
  assert (Hs : StronglySorted R (top ++ drop n (merge_sort R l))).
  { unfold top. rewrite take_drop. by apply StronglySorted_merge_sort. }
  split_and!.
  - by apply StronglySorted_app_1_l in Hs.
  - unfold top. by rewrite length_take, Hp.
  - intros x Hx. rewrite <- Hp, <- (take_drop n). apply elem_of_app. by left.
  - intros x y Hx Hy. rewrite <- Hp, <- (take_drop n), elem_of_app in Hy. destruct Hy as [Hy | Hy]; [by left |].
    right. by eapply StronglySorted_app_1_elem_of.
Qed.

Lemma NoDup_top {K A} `{Countable K} (R : K * A → K * A → Prop) `{∀ x y, Decision (R x y)} (n : nat) (m : gmap K A) :
  NoDup (take n (merge_sort R (map_to_list m))).*1.
Proof.
  apply (NoDup_app _ (drop n (merge_sort R (map_to_list m))).*1). rewrite <- fmap_app, take_drop.
  rewrite merge_sort_Permutation. apply NoDup_fst_map_to_list.
Qed.

(** Rows [m] whose key is a function of the row, read by falling key: the list
    is strictly falling, made of stored rows, and what it leaves out lies below
    everything in it. *)
Definition isLatest {K A} `{Countable K} (ge : K → K → Prop) (key : A → K) (n : nat) (m : gmap K A) (l : list A) : Prop :=
  StronglySorted (λ x y, ge x y ∧ x ≠ y) (key <$> l) ∧ List.length l = Nat.min n (size m) ∧
  (∀ b, b ∈ l → m !! key b = Some b) ∧
  (∀ b k c, b ∈ l → m !! k = Some c → c ∈ l ∨ ge (key b) k ∧ key b ≠ k).

Lemma latest_spec {K A} `{Countable K} (ge : K → K → Prop) (R : K * A → K * A → Prop) `{∀ x y, Decision (R x y)}
    `{!Total R} `{!Transitive R} (key : A → K) (n : nat) (m : gmap K A) :
  (∀ x y, R x y ↔ ge x.1 y.1) → map_Forall (λ k b, key b = k) m →
  isLatest ge key n m (take n (merge_sort R (map_to_list m))).*2.
Proof.
  intros HR Hkey. destruct (merge_sort_top R n (map_to_list m)) as (Hs & Hl & Hin & Hall).
  assert (Hnd : NoDup (take n (merge_sort R (map_to_list m))).*1) by apply NoDup_top.
  set (top := take n (merge_sort R (map_to_list m))) in *.
  assert (Hk : ∀ x, x ∈ top → m !! x.1 = Some x.2 ∧ key x.2 = x.1).
  { intros [k b] Hx%Hin%elem_of_map_to_list. split; [done |]. by apply Hkey. }
  split_and!.
  - assert (El : key <$> top.*2 = top.*1).
    { rewrite <- list_fmap_compose. apply list_fmap_ext. intros i x Hx. simpl. apply Hk. by eapply list_elem_of_lookup_2. }
    rewrite El. clear -Hs Hnd HR. induction Hs as [| x top Hs IH Hx]; [constructor |].
    cbn [fmap list_fmap] in *. apply NoDup_cons in Hnd as [Hx1 Hnd]. constructor; [by apply IH |].
    apply Forall_fmap, Forall_forall. intros y Hy. rewrite Forall_forall in Hx. split; [by apply HR, Hx |].
    intros E. apply Hx1. simpl in E. rewrite E. by apply list_elem_of_fmap_2.
  - by rewrite length_fmap, Hl, length_map_to_list.
  - intros b [[k b'] [-> Hx]]%list_elem_of_fmap. destruct (Hk _ Hx) as [H1 H2]. simpl in *. by rewrite H2.
  - intros b k c [x [-> Hx]]%list_elem_of_fmap Hc. destruct (Hk _ Hx) as [H1 H2].
    destruct (Hall x (k, c) Hx) as [Hy | Hr]; [by apply elem_of_map_to_list | left; by apply (list_elem_of_fmap_2 snd _ (k, c)) |].
    destruct (decide (k = x.1)) as [-> | Hne]; [left; rewrite H1 in Hc; simplify_eq; by apply list_elem_of_fmap_2 |].
    right. rewrite H2. split; [by apply HR in Hr | done].
Qed.

(** Positions on the chain, the later first. *)
Definition later_than (a b : Z * Z) : Prop := b.1 < a.1 ∨ b.1 = a.1 ∧ b.2 <= a.2.
Definition position (t : Transfer) : Z * Z := (tr_BlockNumber t, tr_LogIndex t).
Definition keyed (t : Tables) : Prop :=
  map_Forall (λ k b, mb_Number b = k) (t_blocks t) ∧ map_Forall (λ k tr, position tr = k) (t_transfers t).

Lemma latestBlocks_spec n t : keyed t → isLatest Z.ge mb_Number n (t_blocks t) (latestBlocks n t).
Proof. intros [H _]. apply (latest_spec Z.ge byNumber); [| exact H]. intros x y. unfold byNumber. lia. Qed.
Lemma latestTransfers_spec n t : keyed t → isLatest later_than position n (t_transfers t) (latestTransfers n t).
Proof. intros [_ H]. apply (latest_spec later_than byPosition); [| exact H]. intros x y. unfold byPosition, later_than. lia. Qed.

(** Hexadecimal text determines the bytes. *)
Lemma hexDigit_inj_small c d : 0 ≤ c < 16 → 0 ≤ d < 16 → hexDigit c = hexDigit d → c = d.
Proof.
  intros Hc Hd H.
  assert (Hb : ∀ x y, 0 ≤ x < 16 → 0 ≤ y < 16 → (hexDigit x =? hexDigit y)%char = (x =? y)).
  { intros x y Hx Hy.
    assert (Hall : forallb (λ i, forallb (λ j, Bool.eqb (hexDigit (Z.of_nat i) =? hexDigit (Z.of_nat j))%char (Z.of_nat i =? Z.of_nat j))
      (seq 0 16)) (seq 0 16) = true) by (by vm_compute).
    rewrite forallb_forall in Hall. specialize (Hall (Z.to_nat x)). rewrite in_seq in Hall. specialize (Hall ltac:(lia)).
    rewrite forallb_forall in Hall. specialize (Hall (Z.to_nat y)). rewrite in_seq in Hall. specialize (Hall ltac:(lia)).
    rewrite !Z2Nat.id in Hall by lia. by apply Bool.eqb_prop in Hall. }
  specialize (Hb c d Hc Hd). rewrite H, Ascii.eqb_refl in Hb. symmetry in Hb. by apply Z.eqb_eq in Hb.
Qed.
Lemma EncodeToString_inj s t : EncodeToString s = EncodeToString t → s = t.
Proof.
  revert t. induction s as [| c s IH]; intros [| d t] H; try done. cbn [EncodeToString] in H.
  injection H as H1 H2 H3. f_equal; [| by apply IH].
  pose proof (nat_ascii_bounded c). pose proof (nat_ascii_bounded d).
  assert (Hdiv : ∀ n, (n < 256)%nat → 0 ≤ Z.of_nat n / 16 < 16).
  { intros n Hn. split; [apply Z.div_pos; lia | apply Z.div_lt_upper_bound; lia]. }
  apply hexDigit_inj_small in H1; [| by apply Hdiv..].
  apply hexDigit_inj_small in H2; [| apply Z.mod_pos_bound; lia..].
  rewrite <- (ascii_nat_embedding c), <- (ascii_nat_embedding d). f_equal.
  pose proof (Z.div_mod (Z.of_nat (nat_of_ascii c)) 16). pose proof (Z.div_mod (Z.of_nat (nat_of_ascii d)) 16). lia.
Qed.

Lemma GetLatest_10 b :
  snd (GetLatest 10 b) = Val (if decide (hb_transfers b = []) then None else Some (take 10 (reverse (hb_transfers b)))).
Proof.
  unfold GetLatest, mbind, GoM_bind, gets, id. destruct (decide (hb_transfers b = [])) as [-> | Hb]; [done |].
  assert (Hlen : (0 < List.length (hb_transfers b))%nat) by (destruct (hb_transfers b); simpl; [done | lia]).
  set (n := List.length (hb_transfers b)) in *. replace (Z.of_nat n =? 0) with false by lia.
  assert (Htake : ∀ k, (k ≤ n)%nat → reverse (drop (n - k) (hb_transfers b)) = take k (reverse (hb_transfers b))).
  { intros k Hk. rewrite <- (take_drop (n - k) (hb_transfers b)) at 2. rewrite reverse_app, take_app_le.
    - rewrite take_ge; [done |]. rewrite length_reverse, length_drop. fold n. lia.
    - rewrite length_reverse, length_drop. fold n. lia. }
  destruct (Z.of_nat n <? 10) eqn:E10; (case_match; [lia |]); simpl; f_equal; f_equal.
  - replace (Z.to_nat (Z.of_nat n - Z.of_nat n)) with (n - n)%nat by lia. rewrite Htake by lia.
    rewrite !take_ge by (rewrite length_reverse; fold n; lia). done.
  - replace (Z.to_nat (Z.of_nat n - 10)) with (n - 10)%nat by lia. apply Htake. lia.
Qed.

(** A trigger leaves the manager awake, and no check within the timeout pauses it. *)
Lemma Trigger_awake now l : lm_isAlwaysActive l = false → lm_isActive (Trigger now l) = true ∧ lm_lastHeartbeat (Trigger now l) = now.
Proof.
  intros Ea. unfold Trigger. rewrite Ea. cbn zeta. change (lm_isActive (lset_heartbeat now l)) with (lm_isActive l).
  by destruct (lm_isActive l) eqn:Ei.
Qed.
Lemma Trigger_no_pause now now' snap l : now - now' ≤ lm_timeout l → monitorTick now snap (Trigger now' l) = Trigger now' l.
Proof.
  intros Hnow. destruct (lm_isAlwaysActive l) eqn:Ea.
  - unfold monitorTick, Trigger. by rewrite Ea, Ea.
  - unfold monitorTick. destruct (Trigger_awake now' l Ea) as [_ ->].
    assert (lm_timeout (Trigger now' l) = lm_timeout l) as ->.
    { unfold Trigger. rewrite Ea. cbn zeta. by case_match. }
    replace (lm_timeout l <? now - now') with false by lia. by rewrite andb_false_r.
Qed.

Section api_lemmas.
Context {W V : Type} {PG : Postgres W} {E : Ed25519} (rpcPool : RPCClient W) (marshal : UIStatusDTO → result GoErr string).
Local Abbreviation M := (GoM (Api W V)).

(** A query answers from the tables, or with an error, and changes nothing. *)
Lemma apQuery_wp {A B} (f : Tables → A) (k : result GoErr A → M B) (Q : outcome B → Api W V → Prop) a :
(∀ r, (∀ x, r = Ok x → x = f (pg_tables (ap_world a))) → wp (k r) Q a) →
wp (apWorld (pg_Query A f) ≫= k) Q a.
Proof.
intros H. apply wp_bind, wp_zoom. eapply wp_mono; [apply pg_Query_spec |].
intros o w (-> & r & -> & Hr). destruct a. by apply H.
Qed.
End api_lemmas.

(** ** Theorems *)

(** A node that always answers (an error, or a height). *)
Definition node_answers {W} (rpcPool : RPCClient W) : Prop :=
  ∀ w, wp (rpc_GetLatestBlockNumber rpcPool) (λ o _, ∃ r, o = Val r) w.

(** Until startup injects the dependencies, the data routes answer 503 and the
    status route the state of the Orchestrator; no request touches anything.
    Afterwards no route answers 503, whatever database and node do, and none
    panics.  The server has no other way to become ready: if startup gives up
    before the injection, it stays "System Initializing..." for good. *)
Theorem api_readiness {W V} {PG : Postgres W} {E : Ed25519} (rpcPool : RPCClient W) (marshal : UIStatusDTO → result GoErr string)
    (env : ApiEnv) (path port title : string) (signer : option SignerMachine) (w : W) (o : Orchestrator V)
    (l : LazyManager) (p : option HotBuffer) (chainID : Z) :
  let fresh := mkApi (NewServer port title signer) w o in
  (path ∈ ["/api/blocks"; "/api/transfers"; "/api/debug/snapshot"] → route rpcPool marshal env path fresh = (fresh, Val initializing)) ∧
  (route rpcPool marshal env "/api/status" fresh =
     (fresh, Val (HttpOK (BInitial (SystemState_String (cs_SystemState (or_snapshot o))) title "System initializing")))) ∧
  (fst (route rpcPool marshal env path fresh) = fresh) ∧
  (node_answers rpcPool →
   wp (route rpcPool marshal env path) (λ r _, ∃ x, r = Val x ∧ statusCode x ≠ 503)
      (mkApi (SetDependencies l p chainID (NewServer port title signer)) w o)).
Proof.
  intros fresh. split_and!.
  - intros Hp. rewrite !elem_of_cons, elem_of_nil in Hp. by destruct Hp as [-> | [-> | [-> | []]]].
  - done.
  - unfold route. unfold mbind at 1, GoM_bind at 1, gets, id. cbn [fresh ap_server NewServer sv_db sv_rpcPool negb orb].
    repeat (case_match; [done |]). done.
  - intros Hnode. unfold route. apply wp_bind, wp_gets. unfold id. cbn [ap_server SetDependencies NewServer sv_db sv_rpcPool sv_processor negb orb].
    assert (Hret : ∀ (x : Response Body) a, statusCode x ≠ 503 → wp (mret x) (λ r (_ : Api W V), ∃ x, r = Val x ∧ statusCode x ≠ 503) a).
    { intros x a Hx. apply wp_ret. eauto. }
    case_match; [by apply Hret |].
    case_match; [unfold handleGetBlocks; apply apQuery_wp; intros [] _; by apply Hret |].
    case_match.
    { assert (Hdb : ∀ a, wp handleGetTransfers (λ r (_ : Api W V), ∃ x, r = Val x ∧ statusCode x ≠ 503) a).
      { intros a. unfold handleGetTransfers. apply apQuery_wp. intros [] _; by apply Hret. }
      destruct p as [b |]; [| apply Hdb]. case_match; [| apply Hdb]. unfold handleGetTransfersFromHotBuffer.
      rewrite GetLatest_10. by apply Hret. }
    case_match.
    { unfold handleGetStatus. apply wp_bind, wp_gets. unfold id. cbn [ap_server SetDependencies sv_lazyManager].
      apply wp_bind, wp_modify. apply apQuery_wp. intros r1 _. apply apQuery_wp. intros r2 _. by apply Hret. }
    case_match.
    { unfold handleGetDebugSnapshot. apply wp_bind, wp_gets. apply wp_bind, wp_zoom.
      eapply wp_mono; [apply Hnode |]. intros o' w' (r & ->). apply apQuery_wp. intros r1 _. apply apQuery_wp. intros r2 _. by apply Hret. }
    repeat (case_match; [by apply Hret |]). by apply Hret.
Qed.

(** C32: What the lists show: with the primary keys in order, the blocks route
    answers 500 or exactly the ten highest stored blocks, strictly falling; the
    transfers route the ten latest by position, but only while the hot buffer
    is empty: otherwise its answer is the end of the buffer, in order of
    arrival, and the database is not asked. *)
Theorem api_lists_latest {W V} {PG : Postgres W} {E : Ed25519} (rpcPool : RPCClient W) (marshal : UIStatusDTO → result GoErr string)
    (env : ApiEnv) (a : Api W V) (b : HotBuffer) :
  sv_db (ap_server a) = true → sv_processor (ap_server a) = Some (Some b) → keyed (pg_tables (ap_world a)) →
  wp (route rpcPool marshal env "/api/blocks") (λ o a', a' = a ∧ ∃ r, o = Val r ∧
    (r = HttpError 500 "Failed to retrieve blocks" ∨
     ∃ l, r = HttpOK (BBlocks (viewBlock <$> l)) ∧ isLatest Z.ge mb_Number 10 (t_blocks (pg_tables (ap_world a))) l)) a ∧
  wp (route rpcPool marshal env "/api/transfers") (λ o a', a' = a ∧ ∃ r, o = Val r ∧
    if decide (hb_transfers b = []) then
      r = HttpError 500 "Failed to retrieve transfers" ∨
      ∃ l, r = HttpOK (BTransfers (viewTransfer <$> l) false) ∧ isLatest later_than position 10 (t_transfers (pg_tables (ap_world a))) l
    else r = HttpOK (BTransfers (viewTransfer <$> take 10 (reverse (hb_transfers b))) true)) a.
Proof.
  intros Hdb Hproc Hkey. split; unfold route; apply wp_bind, wp_gets; unfold id; cbn [String.prefix String.eqb]; rewrite Hdb.
  - simpl. unfold handleGetBlocks. apply apQuery_wp. intros [l | e] Hl; apply wp_ret; (split; [done |]); eexists; (split; [done |]).
    + right. exists l. split; [done |]. rewrite (Hl l) by done. by apply latestBlocks_spec.
    + by left.
  - simpl. rewrite Hproc. destruct (decide (hb_transfers b = [])) as [Hb | Hb].
    + rewrite Hb. simpl. unfold handleGetTransfers. apply apQuery_wp.
      intros [l | e] Hl; apply wp_ret; (split; [done |]); eexists; (split; [done |]).
      * right. exists l. split; [done |]. rewrite (Hl l) by done. by apply latestTransfers_spec.
      * by left.
    + assert (Hlen : (0 < List.length (hb_transfers b))%nat) by (destruct (hb_transfers b); simpl; [done | lia]).
      replace (0 <? Z.of_nat (List.length (hb_transfers b))) with true by lia.
      unfold handleGetTransfersFromHotBuffer.
      rewrite GetLatest_10, decide_False by done. apply wp_ret. split; [done |]. eexists. split; [done |]. done.
Qed.

(** The debug snapshot.  While the node answers a height and the cursor is not
    above it, [is_synced] says exactly that fewer than ten blocks are missing;
    if the cursor is above, or the node does not answer, it says false.  The gap
    shown is the distance to the known chain head while the cursor is not above
    it, and otherwise, for heights below 2^63, a number of at least 2^63. *)
Theorem debug_snapshot_spec {W V} {PG : Postgres W} (rpcPool : RPCClient W) (env : ApiEnv) (a : Api W V) (answer : result GoErr Z) :
  let snap := or_snapshot (ap_orch a) in
  let cursor := cs_SyncedCursor snap in
  is_u64 (cs_LatestHeight snap) → 0 ≤ cursor < 2 ^ 63 → (∀ n, answer = Ok n → 0 ≤ n < 2 ^ 63) →
  (∀ w, wp (rpc_GetLatestBlockNumber rpcPool) (λ o _, o = Val answer) w) →
  wp (handleGetDebugSnapshot rpcPool env) (λ o _, ∃ d, o = Val (HttpOK (BDebug d)) ∧
    (ds_is_synced d = true ↔
       match answer with Ok n => cursor ≤ n < cursor + 10 | Err _ => cursor = 0 end) ∧
    (cursor ≤ cs_LatestHeight snap → ds_reality_gap d = cs_LatestHeight snap - cursor) ∧
    (cs_LatestHeight snap < cursor → 2 ^ 63 ≤ ds_reality_gap d) ∧
    (List.length (ds_blocks d) ≤ 5)%nat ∧ (List.length (ds_txs d) ≤ 5)%nat) a.
Proof.
  intros snap cursor Hl Hc Ha Hnode. unfold handleGetDebugSnapshot. apply wp_bind, wp_gets. unfold id. fold snap cursor.
  apply wp_bind, wp_zoom. eapply wp_mono; [apply Hnode |]. intros o w' ->.
  apply apQuery_wp. intros r1 H1. apply apQuery_wp. intros r2 H2. apply wp_ret. eexists. split; [done |]. simpl.
  split_and!.
  - rewrite Z.ltb_lt. destruct answer as [n | e].
    + specialize (Ha n eq_refl). rewrite big_Uint64_id by (unfold is_u64, max_u64; lia).
      destruct (Z.le_gt_cases cursor n).
      * rewrite sub_u64_ge by (unfold is_u64, max_u64 in *; lia). lia.
      * rewrite sub_u64_lt by (unfold is_u64, max_u64 in *; lia). lia.
    + destruct (decide (cursor = 0)) as [-> | Hne]; [done |].
      rewrite sub_u64_lt by (unfold is_u64, max_u64 in *; lia). lia.
  - intros H. apply sub_u64_ge; unfold is_u64, max_u64 in *; lia.
  - intros H. rewrite sub_u64_lt by (unfold is_u64, max_u64 in *; lia). unfold is_u64 in Hl. lia.
  - destruct r1 as [l |]; [| simpl; lia]. rewrite (H1 l), length_fmap by done. unfold latestBlocks. rewrite length_fmap, length_take. lia.
  - destruct r2 as [l |]; [| simpl; lia]. rewrite (H2 l), length_fmap by done. unfold latestTransfers. rewrite length_fmap, length_take. lia.
Qed.

(** Looking at the status keeps the engine awake: a status request leaves the
    lazy manager active with a heartbeat of that moment, so that no inactivity
    check within the timeout pauses anything, whatever the heights are; a page
    that polls more often than the timeout never lets the engine sleep.  And
    the answer carries a signature of exactly the status it contains, which the
    public key beside it verifies. *)
Theorem status_request_spec {W V} {PG : Postgres W} {E : Ed25519} (marshal : UIStatusDTO → result GoErr string) (env : ApiEnv) (a : Api W V) (l : LazyManager) (rand id : string) (s : SignerMachine)
    (now : Z) (snap : HeightSnapshot) :
  sv_lazyManager (ap_server a) = Some l → sv_signer (ap_server a) = Some s → NewSignerMachine rand id = Some s →
  (∀ u, ∃ text, marshal u = Ok text) → now - ae_now env ≤ lm_timeout l →
  wp (handleGetStatus marshal env) (λ o a', ∃ status h sig pub text l',
    o = Val (HttpOK (BStatus (Some h) status)) ∧ h = (EncodeToString sig, id, EncodeToString pub) ∧
    marshal status = Ok text ∧ ed_Verify pub text sig = true ∧
    sv_lazyManager (ap_server a') = Some l' ∧ (lm_isAlwaysActive l = false → lm_isActive l' = true ∧ lm_lastHeartbeat l' = ae_now env) ∧
    monitorTick now snap l' = l') a.
Proof.
  intros Hlazy Hsig Hnew Hmar Hnow. unfold handleGetStatus. apply wp_bind, wp_gets. unfold Datatypes.id. rewrite Hlazy, Hsig.
  apply wp_bind, wp_modify. apply apQuery_wp. intros r1 _. apply apQuery_wp. intros r2 _. apply wp_ret.
  set (status := GetUIStatus _ _ _ _ _ _ _ _). destruct (Hmar status) as [text Ht].
  unfold NewSignerMachine in Hnew. destruct (ed_GenerateKey rand) as [[pub priv] | e] eqn:Eg; [| done]. simplify_eq.
  exists status, (EncodeToString (ed_Sign priv text), id, EncodeToString pub), (ed_Sign priv text), pub, text, (Trigger (ae_now env) l).
  split_and!; try done.
  - unfold signHeaders, Sign. simpl. by rewrite Ht.
  - by eapply ed_correct.
  - intros Ea. by apply Trigger_awake.
  - by apply Trigger_no_pause.
Qed.

(** ** Witnesses *)

(** A scheme with the law of signatures (and no secrecy). *)
#[export] Program Instance plainEd25519 : Ed25519 := {|
  ed_GenerateKey := λ rand, Ok (rand, rand);
  ed_Sign := λ priv msg, priv ++ msg;
  ed_Verify := λ pub msg sig, String.eqb sig (pub ++ msg)
|}.
Next Obligation. intros rand pub priv msg H. simplify_eq/=. apply String.eqb_refl. Qed.

Definition sampleMarshal (u : UIStatusDTO) : result GoErr string := Ok (ui_State u).
Definition sampleNode : RPCClient PgSim := {|
  rpc_BlockByNumber := λ _, mret (Err (Errorf "no block"));
  rpc_FilterLogs := λ _, mret (Ok []);
  rpc_GetLatestBlockNumber := mret (Ok 100)
|}.
Definition sampleRow (n : Z) : ModelBlock := mkModelBlock n "0xa" "0xb" 1700000000 0 0 None 0.
Definition sampleTables : Tables := tset_blocks (<[7 := sampleRow 7]> (<[8 := sampleRow 8]> ∅)) emptyTables.
Definition sampleDB : PgSim := mkPgSim deployedSchema sampleTables None [].
Definition sampleApi : Api PgSim (Z * Z) :=
  mkApi (SetDependencies (NewLazyManager 300000000000 0 true) (Some (NewHotBuffer 50000)) 1
           (NewServer "8080" "Indexer" (NewSignerMachine "seed" "Yokohama-Lab-Primary"))) sampleDB sampleOrch.
Definition sampleApiEnv : ApiEnv := mkApiEnv 5000000000 (mkSnapshot 0 0 0 SystemStateUnknown 0 (float_of_Z 0) 0 0 0 0) (160, 1000) f0 f0 2 "v2.2.0".

Lemma sampleTables_keyed : keyed sampleTables.
Proof. split; [| apply map_Forall_empty]. repeat apply map_Forall_insert_2; [done | done | apply map_Forall_empty]. Qed.

Lemma api_lists_latest_witness :
  ∃ l, snd (route sampleNode sampleMarshal sampleApiEnv "/api/blocks" sampleApi) = Val (HttpOK (BBlocks (viewBlock <$> l))) ∧
    isLatest Z.ge mb_Number 10 (t_blocks sampleTables) l.
Proof.
  destruct (api_lists_latest sampleNode sampleMarshal sampleApiEnv sampleApi (NewHotBuffer 50000)) as [H _];
    [reflexivity | reflexivity | exact sampleTables_keyed |].
  destruct H as (_ & r & Hr & [-> | (l & -> & Hl)]); [by vm_compute in Hr |]. exists l. split; [exact Hr | exact Hl].
Defined.

Lemma debug_snapshot_spec_witness :
  ∃ d, snd (handleGetDebugSnapshot sampleNode sampleApiEnv sampleApi) = Val (HttpOK (BDebug d)) ∧ ds_is_synced d = false ∧ ds_reality_gap d = 0.
Proof.
  destruct (debug_snapshot_spec sampleNode sampleApiEnv sampleApi (Ok 100)) as (d & Hd & Hs & Hg & _);
    [by vm_compute | by vm_compute | intros n [= <-]; lia | done |].
  exists d. split_and!; [exact Hd | | by apply Hg].
  destruct (ds_is_synced d); [| reflexivity]. exfalso. destruct (proj1 Hs eq_refl) as [_ H]. by vm_compute in H.
Defined.

Lemma status_request_spec_witness :
  ∃ status h, snd (handleGetStatus sampleMarshal sampleApiEnv sampleApi) = Val (HttpOK (BStatus (Some h) status)).
Proof.
  destruct (status_request_spec sampleMarshal sampleApiEnv sampleApi (NewLazyManager 300000000000 0 true) "seed"
    "Yokohama-Lab-Primary" (mkSignerMachine "seed" "seed" "Yokohama-Lab-Primary") 200000000000 (mkHeightSnapshot 20 15 5 0 false 0))
    as (status & h & sig & pub & text & l' & H & _); [done | done | done | by intros u; eexists | by vm_compute |].
  exists status, h. exact H.
Defined.

Example parse_heights : (parseBlockNumber "12", parseBlockNumber "0x1", parseBlockNumber "18446744073709551617") = (12, 0, 1).
Proof. by vm_compute. Qed.
