(* ===== verification/Metrics.v ===== *)
(** * The metrics (internal/engine/metrics_core.go, metrics_methods.go)

    The counters, gauges and histograms that the engine registers with the
    Prometheus client, and the methods that write them.  The client is the class
    [Prometheus]: it panics when a name is registered twice, when the labels are
    not those of the metric or a label's value is not UTF-8, and when a counter
    is given a negative amount.  The
    fields that the engine reads back are those of [Monitor]. *)

From S2P Require Import Prelude GoInt Types GlobalState Monitor.
From Stdlib Require Import ZArith Lia Ascii String SpecFloat.
From stdpp Require Import base gmap strings list.
Open Scope string_scope.
Open Scope Z_scope.

(** ** The client *)

Inductive MetricKind : Type := MkCounter | MkGauge | MkHistogram.
#[export] Instance MetricKind_eq_dec : EqDecision MetricKind.
Proof. solve_decision. Defined.

(** A metric with its label names. *)
Record Desc := mkDesc { md_name : string; md_kind : MetricKind; md_labels : list string }.

Inductive MetricOp : Type := MInc | MAdd (x : float64) | MSet (x : float64) | MObserve (x : float64).
Definition op_kind (op : MetricOp) : MetricKind :=
  match op with MInc | MAdd _ => MkCounter | MSet _ => MkGauge | MObserve _ => MkHistogram end.
Definition nonNegative (x : float64) : bool := negb (SFltb x (float_of_Z 0)).
Definition op_allowed (op : MetricOp) : bool := match op with MAdd x => nonNegative x | _ => true end.

(** [utf8.ValidString]: no byte out of place, no overlong form, no surrogate,
    nothing above U+10FFFF. *)
Definition byteIn (lo hi : nat) (c : ascii) : bool := ((lo <=? nat_of_ascii c) && (nat_of_ascii c <=? hi))%nat.
Fixpoint utf8Valid (s : string) : bool :=
  match s with
  | EmptyString => true
  | String c0 s1 =>
    if byteIn 0 127 c0 then utf8Valid s1
    else match s1 with
    | EmptyString => false
    | String c1 s2 =>
      if byteIn 194 223 c0 then byteIn 128 191 c1 && utf8Valid s2
      else match s2 with
      | EmptyString => false
      | String c2 s3 =>
        if byteIn 224 239 c0 then
          byteIn (if byteIn 224 224 c0 then 160 else 128)%nat (if byteIn 237 237 c0 then 159 else 191)%nat c1 &&
          byteIn 128 191 c2 && utf8Valid s3
        else match s3 with
        | EmptyString => false
        | String c3 s4 =>
          byteIn 240 244 c0 && byteIn (if byteIn 240 240 c0 then 144 else 128)%nat (if byteIn 244 244 c0 then 143 else 191)%nat c1 &&
          byteIn 128 191 c2 && byteIn 128 191 c3 && utf8Valid s4
        end
      end
    end
  end.
Definition labels_valid (labels : list (string * string)) : bool := forallb utf8Valid labels.*2.

(** [pr_Do name labels op]: an operation on the metric [name] with these labels. *)
Class Prometheus (R : Type) := {
  pr_registered : R → gmap string Desc;
  pr_gauge : R → string → option float64;      (* a gauge without labels *)
  pr_Register : Desc → GoM R unit;
  pr_Do : string → list (string * string) → MetricOp → GoM R unit;
  pr_Register_spec d r : pr_registered r !! md_name d = None →
    wp (pr_Register d) (λ o r', o = Val tt ∧ pr_registered r' = <[md_name d := d]> (pr_registered r)) r;
  pr_Register_twice d r : is_Some (pr_registered r !! md_name d) → ∃ r' why, pr_Register d r = (r', Panic why);
  pr_Do_spec name labels op d r : pr_registered r !! name = Some d → labels.*1 = md_labels d → op_kind op = md_kind d →
    labels_valid labels = true → op_allowed op = true →
    wp (pr_Do name labels op) (λ o r', o = Val tt ∧ pr_registered r' = pr_registered r ∧
      pr_gauge r' name = match op, labels with MSet x, [] => Some x | _, _ => pr_gauge r name end ∧
      (∀ name', name' ≠ name → pr_gauge r' name' = pr_gauge r name')) r;
  pr_Do_panics name labels op d r : pr_registered r !! name = Some d → labels.*1 = md_labels d → op_kind op = md_kind d →
    labels_valid labels && op_allowed op = false → ∃ r' why, pr_Do name labels op r = (r', Panic why)
}.

(** ** metrics_core.go

    The fields of the struct with what [NewMetrics] registers for them; help
    texts and the default buckets are left out. *)
Definition engineFields : list (string * Desc) := [
  ("BlocksProcessed", mkDesc "indexer_blocks_processed_total" MkCounter []);
  ("BlocksFailed", mkDesc "indexer_blocks_failed_total" MkCounter []);
  ("BlocksSkipped", mkDesc "indexer_blocks_skipped_total" MkCounter []);
  ("ProcessingTime", mkDesc "indexer_block_processing_duration_seconds" MkHistogram []);
  ("ReorgsDetected", mkDesc "indexer_reorgs_detected_total" MkCounter []);
  ("ReorgsHandled", mkDesc "indexer_reorgs_handled_total" MkCounter []);
  ("TransfersProcessed", mkDesc "indexer_transfers_processed_total" MkCounter []);
  ("TransfersFailed", mkDesc "indexer_transfers_failed_total" MkCounter []);
  ("FetcherJobsQueued", mkDesc "indexer_fetcher_jobs_queued_total" MkCounter []);
  ("FetcherJobsComplete", mkDesc "indexer_fetcher_jobs_completed_total" MkCounter []);
  ("FetcherJobsFailed", mkDesc "indexer_fetcher_jobs_failed_total" MkCounter []);
  ("FetcherRateLimited", mkDesc "indexer_fetcher_rate_limited_total" MkCounter []);
  ("FetcherJobsQueueDepth", mkDesc "indexer_fetcher_jobs_queue_depth" MkGauge []);
  ("FetcherResultsDepth", mkDesc "indexer_fetcher_results_depth" MkGauge []);
  ("FetchTime", mkDesc "indexer_fetch_duration_seconds" MkHistogram []);
  ("SequencerBufferSize", mkDesc "indexer_sequencer_buffer_size" MkGauge []);
  ("SequencerBufferFull", mkDesc "indexer_sequencer_buffer_full_total" MkCounter []);
  ("BroadcastDropped", mkDesc "indexer_broadcast_dropped_total" MkCounter []);
  ("RPCRequestsTotal", mkDesc "indexer_rpc_requests_total" MkCounter ["node"; "method"]);
  ("RPCRequestsFailed", mkDesc "indexer_rpc_requests_failed_total" MkCounter ["node"; "method"]);
  ("RPCLatency", mkDesc "indexer_rpc_request_duration_seconds" MkHistogram ["node"; "method"]);
  ("RPCHealthyNodes", mkDesc "indexer_rpc_healthy_nodes" MkGauge ["pool"])].
Definition systemFields : list (string * Desc) := [
  ("DBConnectionsActive", mkDesc "indexer_db_connections_active" MkGauge []);
  ("DBQueriesTotal", mkDesc "indexer_db_queries_total" MkCounter ["operation"]);
  ("DBQueryLatency", mkDesc "indexer_db_query_duration_seconds" MkHistogram ["operation"]);
  ("DBErrors", mkDesc "indexer_db_errors_total" MkCounter ["operation"]);
  ("DBPoolMaxConns", mkDesc "indexer_db_pool_max_connections" MkGauge []);
  ("DBPoolIdleConns", mkDesc "indexer_db_pool_idle_connections" MkGauge []);
  ("DBPoolInUse", mkDesc "indexer_db_pool_in_use" MkGauge []);
  ("LabModeEnabled", mkDesc "indexer_lab_mode_enabled" MkGauge []);
  ("CheckpointUpdates", mkDesc "indexer_checkpoint_updates_total" MkCounter []);
  ("StartTime", mkDesc "indexer_start_time_seconds" MkGauge []);
  ("SystemState", mkDesc "indexer_system_state_code" MkGauge []);
  ("CurrentSyncHeight", mkDesc "indexer_current_sync_height" MkGauge []);
  ("CurrentChainHeight", mkDesc "indexer_current_chain_height" MkGauge []);
  ("SyncLag", mkDesc "indexer_sync_lag_blocks" MkGauge []);
  ("E2ELatency", mkDesc "indexer_e2e_latency_seconds" MkGauge []);
  ("RealtimeTPS", mkDesc "indexer_realtime_tps" MkGauge []);
  ("RealtimeBPS", mkDesc "indexer_realtime_bps" MkGauge []);
  ("DiskFree", mkDesc "indexer_disk_free_percent" MkGauge []);
  ("TransactionTypesTotal", mkDesc "indexer_transaction_types_total" MkCounter ["type"]);
  ("TokenTransferVolume", mkDesc "indexer_token_transfer_volume_total" MkCounter ["symbol"]);
  ("TokenTransferCount", mkDesc "indexer_token_transfer_count_total" MkCounter ["symbol"]);
  ("ReplayProgress", mkDesc "indexer_replay_progress_percentage" MkGauge []);
  ("SelfHealingTriggered", mkDesc "indexer_self_healing_triggered_total" MkCounter []);
  ("SelfHealingSuccess", mkDesc "indexer_self_healing_success_total" MkCounter []);
  ("SelfHealingFailure", mkDesc "indexer_self_healing_failure_total" MkCounter [])].
Definition metricFields : list (string * Desc) := (engineFields ++ systemFields)%list.

(** quota_monitor.go, the gauges of [NewQuotaMonitor]. *)
Definition quotaFields : list (string * Desc) := [
  ("usageGauge", mkDesc "rpc_quota_usage_percent" MkGauge []);
  ("statusGauge", mkDesc "rpc_quota_status" MkGauge [])].

Definition fieldOf (f : string) : option Desc := snd <$> List.find (λ p, String.eqb p.1 f) metricFields.

(** The registry and the fields that are read back. *)
Record Meter (R : Type) := mkMeter { me_reg : R; me_core : Metrics }.
Arguments mkMeter {R}.
Arguments me_reg {R}.
Arguments me_core {R}.

Section metrics.
Context {R : Type} {PR : Prometheus R}.
Local Abbreviation M := (GoM (Meter R)).

Fixpoint registerAll (ds : list Desc) : GoM R unit :=
match ds with [] => mret tt | d :: rest => pr_Register d;; registerAll rest end.

(** [NewMetrics]. *)
Definition NewMetrics : GoM R unit := registerAll metricFields.*2.
Definition NewQuotaMonitorGauges : GoM R unit := registerAll quotaFields.*2.

(** [GetMetrics]: [metricsOnce] and [metrics]. *)
Definition GetMetrics (now : Z) : GoM (R * option Metrics) unit := λ s,
match s with
| (r, Some m) => ((r, Some m), Val tt)
| (r, None) => match NewMetrics r with
               | (r', Val _) => ((r', Some (Monitor.NewMetrics now)), Val tt)
               | (r', Panic why) => ((r', None), Panic why)
               end
end.

(** [m.Field.Op(...)]; an unset field would be a nil pointer. *)
Definition on (f : string) (labels : list (string * string)) (op : MetricOp) : M unit :=
match fieldOf f with
| Some d => zoom me_reg (λ r m, mkMeter r (me_core m)) (pr_Do (md_name d) labels op)
| None => go_panic "invalid memory address or nil pointer dereference"
end.
Definition core (f : Metrics → Metrics) : M unit := modify (λ m, mkMeter (me_reg m) (f (me_core m))).

Definition GetTotalBlocksProcessed : M Z := gets (λ m, mt_totalBlocksProcessed (me_core m)).
Definition GetTotalTransfersProcessed : M Z := gets (λ m, mt_totalTxProcessed (me_core m)).
Definition RecordTokenTransfer (symbol : string) (amount : float64) : M unit :=
on "TokenTransferVolume" [("symbol", symbol)] (MAdd amount);; on "TokenTransferCount" [("symbol", symbol)] MInc.
Definition UpdateReplayProgress (percentage : float64) : M unit := on "ReplayProgress" [] (MSet percentage).

(** ** metrics_methods.go

  Durations are seconds. *)
Definition mRecordBlockProcessed (now : Z) (duration : float64) : M unit :=
on "BlocksProcessed" [] MInc;; on "ProcessingTime" [] (MObserve duration);; core (RecordBlockProcessed now).
Definition RecordBlockFailed : M unit := on "BlocksFailed" [] MInc.
Definition RecordBlockSkipped : M unit := on "BlocksSkipped" [] MInc.
Definition RecordReorgDetected : M unit := on "ReorgsDetected" [] MInc.
Definition RecordReorgHandled : M unit := on "ReorgsHandled" [] MInc.
Definition mRecordTransferProcessed : M unit := on "TransfersProcessed" [] MInc;; core RecordTransferProcessed.
Definition RecordTransferFailed : M unit := on "TransfersFailed" [] MInc.
Definition RecordFetcherJobQueued : M unit := on "FetcherJobsQueued" [] MInc.
Definition RecordFetcherJobCompleted (duration : float64) : M unit :=
on "FetcherJobsComplete" [] MInc;; on "FetchTime" [] (MObserve duration).
Definition RecordFetcherJobFailed : M unit := on "FetcherJobsFailed" [] MInc.
Definition RecordFetcherRateLimited : M unit := on "FetcherRateLimited" [] MInc.
Definition UpdateSequencerBufferSize (size : Z) : M unit := on "SequencerBufferSize" [] (MSet (float_of_Z size)).
Definition RecordSequencerBufferFull : M unit := on "SequencerBufferFull" [] MInc.
Definition RecordRPCRequest (node method : string) (duration : float64) (success : bool) : M unit :=
let labels := [("node", node); ("method", method)] in
on "RPCRequestsTotal" labels MInc;;
on "RPCLatency" labels (MObserve duration);;
if success then mret tt else on "RPCRequestsFailed" labels MInc.
Definition UpdateRPCHealthyNodes (pool : string) (count : Z) : M unit := on "RPCHealthyNodes" [("pool", pool)] (MSet (float_of_Z count)).
Definition UpdateDBConnections (count : Z) : M unit := on "DBConnectionsActive" [] (MSet (float_of_Z count)).
Definition UpdateDBPoolStats (maxOpen idle inUse : Z) : M unit :=
on "DBPoolMaxConns" [] (MSet (float_of_Z maxOpen));;
on "DBPoolIdleConns" [] (MSet (float_of_Z idle));;
on "DBPoolInUse" [] (MSet (float_of_Z inUse)).
Definition SetLabMode (enabled : bool) : M unit := on "LabModeEnabled" [] (MSet (float_of_Z (if enabled then 1 else 0))).
Definition RecordDBQuery (operation : string) (duration : float64) (success : bool) : M unit :=
let labels := [("operation", operation)] in
on "DBQueriesTotal" labels MInc;;
on "DBQueryLatency" labels (MObserve duration);;
if success then mret tt else on "DBErrors" labels MInc.
Definition RecordCheckpointUpdate : M unit := on "CheckpointUpdates" [] MInc.
Definition stateCode (s : SystemStateEnum) : Z :=
match s with
| SystemStateUnknown => 0 | SystemStateIdle => 1 | SystemStateActive => 2 | SystemStateCatchingUp => 3
| SystemStateStalled => 4 | SystemStateHealing => 5 | SystemStateDegraded => 6 | SystemStateRunning => 7
| SystemStateOptimizing => 8 | SystemStateThrottled => 9
end.
Definition UpdateSystemState (s : SystemStateEnum) : M unit := on "SystemState" [] (MSet (float_of_Z (stateCode s))).
Definition RecordStartTime (now : float64) : M unit := on "StartTime" [] (MSet now).

(** The end of [recalculateLag]. *)
Definition setLag : M unit := m ← gets id; on "SyncLag" [] (MSet (float_of_Z (recalculateLag (me_core m)))).
Definition mUpdateCurrentSyncHeight (height : Z) : M unit :=
on "CurrentSyncHeight" [] (MSet (float_of_Z height));; core (UpdateCurrentSyncHeight height);; setLag.
Definition mUpdateChainHeight (height : Z) : M unit :=
on "CurrentChainHeight" [] (MSet (float_of_Z height));; core (UpdateChainHeight height);; setLag.
Definition UpdateSyncLag (lag : Z) : M unit := on "SyncLag" [] (MSet (float_of_Z lag)).
Definition UpdateE2ELatency (seconds : float64) : M unit := on "E2ELatency" [] (MSet seconds).
Definition UpdateRealtimeTPS (tps : float64) : M unit := on "RealtimeTPS" [] (MSet tps).
Definition UpdateRealtimeBPS (bps : float64) : M unit := on "RealtimeBPS" [] (MSet bps).
Definition mRecordActivity (now count : Z) : M unit := core (RecordActivity now count).
Definition mRecordBlockActivity (now count : Z) : M unit := core (RecordBlockActivity now count).
Definition UpdateDiskFree (freePercent : float64) : M unit := on "DiskFree" [] (MSet freePercent).

(** The calls of the engine: the methods, and the fields it writes itself. *)
Inductive MetricCall : Type :=
| McBlockProcessed (now : Z) (duration : float64) | McBlockFailed | McBlockSkipped | McReorgDetected | McReorgHandled
| McTransferProcessed | McTransferFailed | McJobQueued | McJobCompleted (duration : float64) | McJobFailed | McRateLimited
| McBufferSize (size : Z) | McBufferFull | McRPC (node method : string) (duration : float64) (success : bool)
| McHealthyNodes (pool : string) (count : Z) | McDBConnections (count : Z) | McDBPool (maxOpen idle inUse : Z) | McLabMode (enabled : bool)
| McDBQuery (operation : string) (duration : float64) (success : bool) | McCheckpoint | McState (s : SystemStateEnum) | McStart (now : float64)
| McSyncHeight (height : Z) | McChainHeight (height : Z) | McSyncLag (lag : Z) | McLatency (seconds : float64) | McTPS (x : float64)
| McBPS (x : float64) | McActivity (now count : Z) | McBlockActivity (now count : Z) | McDiskFree (x : float64)
| McToken (symbol : string) (amount : float64) | McReplay (percentage : float64)
| McTransferSeen (type : string) | McHealing (f : string) | McDropped | McDepths (jobs results : Z).

(** processor_block_part1.go, the counters of an activity; sequencer_core.go and
  watchdog_deadlock.go, the healing counters; orchestrator_loop.go, dropped
  broadcasts and queue depths. *)
Definition metricCall (c : MetricCall) : M unit :=
match c with
| McBlockProcessed now d => mRecordBlockProcessed now d
| McBlockFailed => RecordBlockFailed
| McBlockSkipped => RecordBlockSkipped
| McReorgDetected => RecordReorgDetected
| McReorgHandled => RecordReorgHandled
| McTransferProcessed => mRecordTransferProcessed
| McTransferFailed => RecordTransferFailed
| McJobQueued => RecordFetcherJobQueued
| McJobCompleted d => RecordFetcherJobCompleted d
| McJobFailed => RecordFetcherJobFailed
| McRateLimited => RecordFetcherRateLimited
| McBufferSize n => UpdateSequencerBufferSize n
| McBufferFull => RecordSequencerBufferFull
| McRPC node method d ok => RecordRPCRequest node method d ok
| McHealthyNodes pool n => UpdateRPCHealthyNodes pool n
| McDBConnections n => UpdateDBConnections n
| McDBPool a b c => UpdateDBPoolStats a b c
| McLabMode b => SetLabMode b
| McDBQuery op d ok => RecordDBQuery op d ok
| McCheckpoint => RecordCheckpointUpdate
| McState s => UpdateSystemState s
| McStart now => RecordStartTime now
| McSyncHeight h => mUpdateCurrentSyncHeight h
| McChainHeight h => mUpdateChainHeight h
| McSyncLag lag => UpdateSyncLag lag
| McLatency x => UpdateE2ELatency x
| McTPS x => UpdateRealtimeTPS x
| McBPS x => UpdateRealtimeBPS x
| McActivity now n => mRecordActivity now n
| McBlockActivity now n => mRecordBlockActivity now n
| McDiskFree x => UpdateDiskFree x
| McToken symbol x => RecordTokenTransfer symbol x
| McReplay x => UpdateReplayProgress x
| McTransferSeen type => on "TransfersProcessed" [] MInc;; on "TransactionTypesTotal" [("type", type)] MInc
| McHealing f => if bool_decide (f ∈ ["SelfHealingTriggered"; "SelfHealingSuccess"; "SelfHealingFailure"]) then on f [] MInc else mret tt
| McDropped => on "BroadcastDropped" [] (MAdd (float_of_Z 1))
| McDepths j r => on "FetcherJobsQueueDepth" [] (MSet (float_of_Z j));; on "FetcherResultsDepth" [] (MSet (float_of_Z r))
end.
Fixpoint metricCalls (cs : list MetricCall) : M unit := match cs with [] => mret tt | c :: rest => metricCall c;; metricCalls rest end.

(** ** Lemmas *)

Lemma registerAll_wp ds r :
NoDup (md_name <$> ds) → Forall (λ d, pr_registered r !! md_name d = None) ds →
wp (registerAll ds) (λ o r', o = Val tt ∧ (∀ d, d ∈ ds → pr_registered r' !! md_name d = Some d) ∧
  (∀ n, n ∉ md_name <$> ds → pr_registered r' !! n = pr_registered r !! n)) r.
Proof using Type*.
revert r. induction ds as [| d ds IH]; intros r Hnd Hfresh; simpl.
{ apply wp_ret. split_and!; [done | by intros d ?%elem_of_nil | done]. }
cbn [fmap list_fmap] in Hnd. apply NoDup_cons in Hnd as [Hd Hnd]. apply Forall_cons in Hfresh as [Hd0 Hfresh].
apply wp_bind. eapply wp_mono; [by apply pr_Register_spec |]. intros o r1 [-> E1].
eapply wp_mono; [apply IH; [done |] |].
- rewrite Forall_forall in *. intros d' Hd'. rewrite E1, lookup_insert_ne; [by apply Hfresh |].
  intros E. apply Hd. rewrite E. by apply list_elem_of_fmap_2.
- intros o r2 (-> & H1 & H2). split_and!; [done | |].
  + intros d' [-> | Hd']%elem_of_cons; [| by apply H1]. rewrite H2 by done. by rewrite E1, lookup_insert_eq.
  + intros n Hn. cbn [fmap list_fmap] in Hn. apply not_elem_of_cons in Hn as [Hn1 Hn2].
    rewrite H2 by done. by rewrite E1, lookup_insert_ne.
Qed.

(** Registering leaves a gauge alone, if a single registration does. *)
Lemma registerAll_gauge ds r : (∀ d r, pr_gauge (pr_Register d r).1 "indexer_sync_lag_blocks" = pr_gauge r "indexer_sync_lag_blocks") →
pr_gauge (registerAll ds r).1 "indexer_sync_lag_blocks" = pr_gauge r "indexer_sync_lag_blocks".
Proof.
intros Hgr. revert r. induction ds as [| d ds IH]; intros r; simpl; [done |]. unfold mbind, GoM_bind.
specialize (Hgr d r). destruct (pr_Register d r) as [r2 [] ]; simpl in *; [by rewrite IH | done].
Qed.

(** Everything is registered. *)
Definition lagName : string := "indexer_sync_lag_blocks".
Definition meter_ok (m : Meter R) : Prop := Forall (λ d, pr_registered (me_reg m) !! md_name d = Some d) metricFields.*2.

(** A use of a field that exists, with its kind and the names of its labels. *)
Definition fits (f : string) (names : list string) (op : MetricOp) : bool :=
match fieldOf f with
| Some d => bool_decide (names = md_labels d) && bool_decide (op_kind op = md_kind d)
| None => false
end.

Lemma fieldOf_elem f d : fieldOf f = Some d → d ∈ metricFields.*2.
Proof.
unfold fieldOf. destruct (List.find _ _) as [p |] eqn:Ef; simpl; [| done]. intros [= <-].
apply List.find_some in Ef as [Hin _]. apply list_elem_of_In in Hin. exact (list_elem_of_fmap_2 snd _ _ Hin).
Qed.

Lemma fits_registered f names op m : fits f names op = true → meter_ok m →
∃ d, fieldOf f = Some d ∧ pr_registered (me_reg m) !! md_name d = Some d ∧ names = md_labels d ∧ op_kind op = md_kind d.
Proof.
unfold fits. intros Hfit Hm. destruct (fieldOf f) as [d |] eqn:Ef; [| done].
apply andb_prop in Hfit as [H1%bool_decide_eq_true H2%bool_decide_eq_true]. exists d. split_and!; [done | | done | done].
unfold meter_ok in Hm. rewrite Forall_forall in Hm. by apply Hm, (fieldOf_elem f).
Qed.

(** A fitting operation returns; it keeps what is registered, the fields, and
  the gauges of other metrics. *)
Lemma on_wp f labels op m : fits f labels.*1 op = true → labels_valid labels = true → op_allowed op = true → meter_ok m →
wp (on f labels op) (λ o m', o = Val tt ∧ meter_ok m' ∧ me_core m' = me_core m ∧ ∃ d, fieldOf f = Some d ∧
   pr_gauge (me_reg m') (md_name d) = match op, labels with MSet x, [] => Some x | _, _ => pr_gauge (me_reg m) (md_name d) end ∧
   ∀ n, n ≠ md_name d → pr_gauge (me_reg m') n = pr_gauge (me_reg m) n) m.
Proof using Type*.
intros Hfit Hv Ha Hm. destruct (fits_registered _ _ _ _ Hfit Hm) as (d & Ef & Er & H1 & H2). unfold on. rewrite Ef.
apply wp_zoom. eapply wp_mono; [by eapply pr_Do_spec |].
intros o r' (-> & Hr & Hg & Hother). split_and!; [done | | done |].
- unfold meter_ok in *. simpl. by rewrite Hr.
- exists d. split_and!; done.
Qed.

(** One with a bad label or a negative amount panics. *)
Lemma on_panics f labels op m : fits f labels.*1 op = true → labels_valid labels && op_allowed op = false → meter_ok m →
∃ m' why, on f labels op m = (m', Panic why).
Proof using Type*.
intros Hfit Hbad Hm. destruct (fits_registered _ _ _ _ Hfit Hm) as (d & Ef & Er & H1 & H2).
destruct (pr_Do_panics _ _ _ _ _ Er H1 H2 Hbad) as (r' & why & E).
unfold on, zoom. rewrite Ef, E. eauto.
Qed.

(** *** The lag gauge

  What it has to show, from the calls alone: the heights last given, and the
  value it got last. *)
Definition lagOf (chain sync : Z) : Z := Z.max 0 (Z.max 0 chain - Z.max 0 sync).
Definition lagStep (st : Z * Z * option Z) (c : MetricCall) : Z * Z * option Z :=
let '(chain, sync, shown) := st in
match c with
| McSyncHeight h => (chain, h, Some (lagOf chain h))
| McChainHeight h => (h, sync, Some (lagOf h sync))
| McSyncLag lag => (chain, sync, Some lag)
| _ => st
end.
Definition lagShown (cs : list MetricCall) : option Z := (foldl lagStep (0, 0, None) cs).2.

(** The calls respect the types of the heights; the label values are UTF-8 and
  the amounts not negative. *)
Definition call_typed (c : MetricCall) : Prop := match c with McSyncHeight h | McChainHeight h => is_i64 h | _ => True end.
Definition call_allowed (c : MetricCall) : bool :=
match c with
| McRPC node method _ _ => utf8Valid node && utf8Valid method
| McHealthyNodes pool _ => utf8Valid pool
| McDBQuery operation _ _ => utf8Valid operation
| McToken symbol x => utf8Valid symbol && nonNegative x
| McTransferSeen type => utf8Valid type
| _ => true
end.

(** The registry is complete and, where a state of the lag is given, the heights
  and the gauge agree with it. *)
Definition meter_at (st : option (Z * Z * option Z)) (m : Meter R) : Prop :=
meter_ok m ∧
match st with
| Some (chain, sync, shown) =>
  mt_lastChainHeight (me_core m) = chain ∧ chain ≤ max_i64 ∧ mt_lastSyncHeight (me_core m) = sync ∧ sync ≤ max_i64 ∧
  pr_gauge (me_reg m) lagName = (float_of_Z <$> shown)
| None => True
end.

(** An operation that leaves the lag gauge alone. *)
Definition notLag (f : string) : bool := match fieldOf f with Some d => negb (String.eqb (md_name d) lagName) | None => false end.
Lemma on_ok f labels op m st : fits f labels.*1 op = true → labels_valid labels = true → op_allowed op = true → notLag f = true →
meter_at st m → wp (on f labels op) (λ o m', o = Val tt ∧ meter_at st m') m.
Proof using Type*.
intros Hfit Hv Ha Hn [Hr Hl]. eapply wp_mono; [by apply on_wp |]. intros o m' (-> & Hr' & Hc & d & Hd & _ & Hg).
split; [done |]. split; [done |]. unfold notLag in Hn. rewrite Hd in Hn. apply negb_true_iff, String.eqb_neq in Hn.
destruct st as [[[chain sync] shown] |]; [| done]. by rewrite Hc, Hg by congruence.
Qed.
Lemma core_ok f m st : (∀ c, mt_lastChainHeight (f c) = mt_lastChainHeight c ∧ mt_lastSyncHeight (f c) = mt_lastSyncHeight c) →
meter_at st m → wp (core f) (λ o m', o = Val tt ∧ meter_at st m') m.
Proof.
intros Hf [Hr Hl]. apply wp_modify. split; [done |]. split; [done |]. destruct st as [[[chain sync] shown] |]; [| done].
simpl. by destruct (Hf (me_core m)) as [-> ->].
Qed.

(** The lag gauge set. *)
Lemma onLag_ok lag m chain sync shown : meter_at (Some (chain, sync, shown)) m →
wp (on "SyncLag" [] (MSet (float_of_Z lag))) (λ o m', o = Val tt ∧ meter_at (Some (chain, sync, Some lag)) m') m.
Proof using Type*.
intros (Hr & Hc & Hcm & Hs & Hsm & _). eapply wp_mono; [by apply on_wp |]. intros o m' (-> & Hr' & Hcore & d & Hd & Hg & _).
cbv in Hd. simplify_eq. split; [done |]. split; [done |]. rewrite Hcore. split_and!; try done.
Qed.
Lemma setLag_ok m chain sync shown : meter_at (Some (chain, sync, shown)) m →
wp setLag (λ o m', o = Val tt ∧ meter_at (Some (chain, sync, Some (lagOf chain sync))) m') m.
Proof using Type*.
intros Hm. unfold setLag. apply wp_bind, wp_gets. unfold id. pose proof Hm as (_ & Hc & Hcm & Hs & Hsm & _).
rewrite recalculateLag_spec, Hc, Hs by lia. by eapply onLag_ok.
Qed.
Lemma setLag_any m : meter_ok m → wp setLag (λ o m', o = Val tt ∧ meter_at None m') m.
Proof using Type*.
intros Hm. unfold setLag. apply wp_bind, wp_gets. eapply wp_mono; [by apply on_wp |]. by intros o m' (-> & Hr & _).
Qed.

Lemma then_ok {A} (k1 : M A) (k2 : M unit) m st1 st2 :
wp k1 (λ o m', (∃ a, o = Val a) ∧ meter_at st1 m') m → (∀ m', meter_at st1 m' → wp k2 (λ o m', o = Val tt ∧ meter_at st2 m') m') →
wp (k1;; k2) (λ o m', o = Val tt ∧ meter_at st2 m') m.
Proof. intros H1 H2. apply wp_bind. eapply wp_mono; [exact H1 |]. intros o m' [[a ->] H]. auto. Qed.

Ltac labels_ok := unfold labels_valid; simpl; repeat match goal with H : _ = true |- _ => rewrite H end; done.
Ltac meter_step :=
first [ done
      | apply wp_ret; by split
      | apply on_ok; [done | labels_ok | done | done | done]
      | apply core_ok; [done | done]
      | eapply then_ok; [eapply wp_mono; [meter_step | by intros ? ? [-> ?]; eauto] | intros ? ?; meter_step] ].

Lemma metricCall_at c m st : call_typed c → call_allowed c = true → meter_at (Some st) m →
wp (metricCall c) (λ o m', o = Val tt ∧ meter_at (Some (lagStep st c)) m') m.
Proof using Type*.
intros Ht Hc Hm. destruct st as [[chain sync] shown].
destruct c; simpl in Hc, Ht; try (apply andb_prop in Hc as [Hc Hc']); try (meter_step; fail); cbn [metricCall lagStep].
- unfold RecordRPCRequest. cbn zeta. destruct success; meter_step.
- unfold RecordDBQuery. cbn zeta. destruct success; meter_step.
- unfold mUpdateCurrentSyncHeight. eapply then_ok; [eapply wp_mono; [meter_step | by intros ? ? [-> ?]; eauto] |].
  intros m1 (H1 & H2 & H3 & H4 & H5 & H6). apply wp_bind, wp_modify. eapply setLag_ok. split; [done |].
  unfold is_i64 in Ht. split_and!; try done; lia.
- unfold mUpdateChainHeight. eapply then_ok; [eapply wp_mono; [meter_step | by intros ? ? [-> ?]; eauto] |].
  intros m1 (H1 & H2 & H3 & H4 & H5 & H6). apply wp_bind, wp_modify. eapply setLag_ok. split; [done |].
  unfold is_i64 in Ht. split_and!; try done; lia.
- unfold UpdateSyncLag. by eapply onLag_ok.
- case_bool_decide as Hf; [| meter_step]. rewrite !elem_of_cons, elem_of_nil in Hf. destruct Hf as [-> | [-> | [-> | []]]]; meter_step.
Qed.
(** For any state of the heights. *)
Lemma metricCall_ok c m : call_allowed c = true → meter_ok m → wp (metricCall c) (λ o m', o = Val tt ∧ meter_ok m') m.
Proof using Type*.
intros Hc Hm. assert (Hn : meter_at None m) by done. 
enough (wp (metricCall c) (λ o m', o = Val tt ∧ meter_at None m') m) as H
  by (eapply wp_mono; [exact H | intros o m' [H1 [H2 _] ]; by split]).
assert (Hh : ∀ f x g, fits f [] (MSet x) = true → notLag f = true →
  wp (on f [] (MSet x);; core g;; setLag) (λ o m', o = Val tt ∧ meter_at None m') m).
{ intros f x g Hf Hl. eapply then_ok; [eapply wp_mono; [by apply on_ok | by intros ? ? [-> ?]; eauto] |].
  intros m1 [H1 _]. apply wp_bind, wp_modify. by apply setLag_any. }
destruct c; simpl in Hc; try (apply andb_prop in Hc as [Hc Hc']); try (meter_step; fail); cbn [metricCall].
- unfold RecordRPCRequest. cbn zeta. destruct success; meter_step.
- unfold RecordDBQuery. cbn zeta. destruct success; meter_step.
- unfold mUpdateCurrentSyncHeight. apply Hh; reflexivity.
- unfold mUpdateChainHeight. apply Hh; reflexivity.
- eapply wp_mono; [by apply on_wp |]. by intros o m' (-> & Hr & _).
- case_bool_decide as Hf; [| meter_step]. rewrite !elem_of_cons, elem_of_nil in Hf. destruct Hf as [-> | [-> | [-> | []]]]; meter_step.
Qed.

(** A call that is not allowed panics. *)
Lemma panics_first {A} (k1 : M A) (k2 : M unit) m : (∃ m' why, k1 m = (m', Panic why)) → ∃ m' why, (k1;; k2) m = (m', Panic why).
Proof. intros (m' & why & E). unfold mbind, GoM_bind. rewrite E. eauto. Qed.
Lemma panics_then {A} (k1 : M A) (k2 : M unit) m st : wp k1 (λ o m', (∃ a, o = Val a) ∧ meter_at st m') m →
(∀ m', meter_at st m' → ∃ m'' why, k2 m' = (m'', Panic why)) → ∃ m' why, (k1;; k2) m = (m', Panic why).
Proof.
unfold wp, mbind, GoM_bind. destruct (k1 m) as [m1 o]. simpl. intros [[a ->] H1] H2. by apply H2.
Qed.

Lemma metricCall_panics c m : call_allowed c = false → meter_ok m → ∃ m' why, metricCall c m = (m', Panic why).
Proof using Type*.
intros Hc Hm.
assert (Hon : ∀ f labels op, fits f labels.*1 op = true → labels_valid labels && op_allowed op = false →
  ∃ m' why, on f labels op m = (m', Panic why)) by (intros; by apply on_panics).
destruct c; try done; cbn [metricCall call_allowed] in *.
- apply panics_first, Hon; [done |]. unfold labels_valid. simpl. by rewrite !andb_true_r.
- apply Hon; [done |]. unfold labels_valid. simpl. by rewrite !andb_true_r.
- apply panics_first, Hon; [done |]. unfold labels_valid. simpl. by rewrite !andb_true_r.
- apply panics_first, Hon; [done |]. unfold labels_valid. simpl. by rewrite !andb_true_r.
- apply (panics_then _ _ _ None); [eapply wp_mono; [apply (on_ok _ _ _ _ None); [reflexivity.. | by split] | by intros ? ? [-> ?]; eauto] |].
  intros m1 [H1 _]. apply on_panics; [done | | done]. unfold labels_valid. simpl. by rewrite !andb_true_r.
Qed.

(** A sequence of calls: the state of the lag, or the panic of the first call
  that is not allowed. *)
Lemma metricCalls_at cs m st : Forall call_typed cs → meter_at (Some st) m →
if forallb call_allowed cs
then wp (metricCalls cs) (λ o m', o = Val tt ∧ meter_at (Some (foldl lagStep st cs)) m') m
else ∃ m' why, metricCalls cs m = (m', Panic why).
Proof using Type*.
revert m st. induction cs as [| c cs IH]; intros m st Ht Hm; simpl; [apply wp_ret; by split |].
apply Forall_cons in Ht as [Ht Hts]. destruct (call_allowed c) eqn:Hc; simpl.
- pose proof (metricCall_at c m st Ht Hc Hm) as Hcall.
  destruct (forallb call_allowed cs) eqn:Hcs.
  + apply wp_bind. eapply wp_mono; [exact Hcall |]. intros o m' [-> H]. by apply IH.
  + apply (panics_then _ _ _ (Some (lagStep st c))); [eapply wp_mono; [exact Hcall | by intros ? ? [-> ?]; eauto] |].
    intros m' H. exact (IH m' _ Hts H).
- apply panics_first. apply metricCall_panics; [done | apply Hm].
Qed.

Lemma names_distinct : NoDup (md_name <$> (metricFields ++ quotaFields)%list.*2).
Proof. apply (bool_decide_unpack _). by vm_compute. Qed.
End metrics.

(** ** Theorems *)

(** C33: When the metrics stop the engine, and what the lag gauge shows.  With a
    registry that has none of the names, [NewMetrics] registers all of them (the
    quota monitor's gauges fit beside them), and [GetMetrics] may be called any
    number of times.  Afterwards a sequence of calls, with heights in their
    type, panics exactly when one of them has a label value that is not UTF-8 or
    a negative token amount: every call uses a field that exists, with its
    labels and its kind.  If none has, everything stays registered, and the lag
    gauge shows the value of the last [UpdateSyncLag], or the distance of the
    last two heights after the last update of one, never below zero; before the
    first of these calls it is unset. *)
Theorem metrics_never_panic {R} {PR : Prometheus R} (r : R) (now : Z) (cs : list MetricCall) :
  Forall (λ d, pr_registered r !! md_name d = None) (metricFields ++ quotaFields)%list.*2 →
  pr_gauge r lagName = None → (∀ d r, pr_gauge (pr_Register d r).1 lagName = pr_gauge r lagName) →
  Forall call_typed cs →
  wp (GetMetrics now;; GetMetrics now) (λ o s, o = Val tt ∧ ∃ m, s.2 = Some m ∧
    (if forallb call_allowed cs
     then wp (metricCalls cs) (λ o m', o = Val tt ∧
            (∀ d, d ∈ metricFields.*2 → pr_registered (me_reg m') !! md_name d = Some d) ∧
            pr_gauge (me_reg m') lagName = (float_of_Z <$> lagShown cs)) (mkMeter s.1 m)
     else ∃ m' why, metricCalls cs (mkMeter s.1 m) = (m', Panic why)) ∧
    wp NewQuotaMonitorGauges (λ o _, o = Val tt) s.1) (r, None).
Proof.
  intros Hfresh Hg0 Hgr Hcs. pose proof names_distinct as Hnd.
  rewrite fmap_app, fmap_app in Hnd. apply NoDup_app in Hnd as (Hnd1 & Hdis & Hnd2).
  rewrite fmap_app, Forall_app in Hfresh. destruct Hfresh as [Hf1 Hf2].
  pose proof (registerAll_wp metricFields.*2 r Hnd1 Hf1) as Hreg.
  pose proof (registerAll_gauge metricFields.*2 r Hgr) as Hgauge. unfold wp in Hreg.
  destruct (registerAll metricFields.*2 r) as [r' o] eqn:Er. cbn [fst snd] in *. destruct Hreg as (-> & Hall & Hrest).
  assert (E : (GetMetrics now;; GetMetrics now) (r, None) = ((r', Some (Monitor.NewMetrics now)), Val tt)).
  { unfold mbind, GoM_bind, GetMetrics, NewMetrics. by rewrite Er. }
  unfold wp at 1. rewrite E. cbn [fst snd].
  split; [done |]. exists (Monitor.NewMetrics now). split_and!; [done | |].
  - assert (Hm : meter_at (Some (0, 0, None)) (mkMeter r' (Monitor.NewMetrics now))).
    { split; [apply Forall_forall; intros d Hd; by apply Hall |]. split_and!; [done | unfold max_i64; lia | done | unfold max_i64; lia |]. exact (eq_trans Hgauge Hg0). }
    pose proof (metricCalls_at cs _ _ Hcs Hm) as H. destruct (forallb call_allowed cs); [| exact H].
    eapply wp_mono; [exact H |]. intros o m' [-> [Hr Hl] ]. unfold lagShown.
    destruct (foldl lagStep (0, 0, None) cs) as [[chain sync] shown]. destruct Hl as (_ & _ & _ & _ & Hl).
    split_and!; [done | | exact Hl]. unfold meter_ok in Hr. by rewrite Forall_forall in Hr.
  - unfold NewQuotaMonitorGauges. eapply wp_mono; [apply registerAll_wp; [done |] | by intros o r2 [-> _] ].
    rewrite Forall_forall in *. intros d Hd. rewrite Hrest; [by apply Hf2 |].
    intros Hin. eapply Hdis; [exact Hin | by apply list_elem_of_fmap_2].
Qed.

(** Registering a second time panics: two metrics objects, or two RPC pools with
    their quota monitors, cannot live in one process. *)
Lemma second_metrics_panics {R} {PR : Prometheus R} (r : R) (m : R * option Metrics) :
  Forall (λ d, is_Some (pr_registered r !! md_name d)) metricFields.*2 → ∃ r' why, NewMetrics r = (r', Panic why).
Proof.
  unfold NewMetrics. destruct (metricFields.*2) as [| d ds] eqn:E; [done |]. clear E. intros [H _]%Forall_cons. cbn [registerAll].
  destruct (pr_Register_twice _ _ H) as (r' & why & E).
  exists r', why. unfold mbind, GoM_bind. by rewrite E.
Qed.

(** The exported total of transfers stands still: what the Processor counts goes
    to the counter only, so the field behind [GetTotalTransfersProcessed] and
    the transaction side of [GetSnapshot] stays 0. *)
Lemma transfers_not_totalled {R} {PR : Prometheus R} (types : list string) (m : Meter R) :
  Forall (λ t, utf8Valid t = true) types → meter_ok m →
  wp (metricCalls (McTransferSeen <$> types)) (λ o m', mt_totalTxProcessed (me_core m') = mt_totalTxProcessed (me_core m)) m.
Proof.
  intros Ht. revert m. induction Ht as [| t types Hv Ht IH]; intros m Hm; [done |].
  cbn [fmap list_fmap metricCalls metricCall].
  apply wp_bind, wp_bind. eapply wp_mono; [by apply on_wp |]. intros o m1 (-> & Hr1 & Hc1 & _).
  eapply wp_mono; [apply on_wp; [done | by unfold labels_valid; simpl; rewrite Hv | done | done] |]. intros o m2 (-> & Hr2 & Hc2 & _).
  eapply wp_mono; [by apply IH |]. intros o m3 ->. by rewrite Hc2, Hc1.
Qed.

(** A block that the Processor handles and the AsyncWriter stores counts twice in
    the block rate. *)
Example block_counted_twice :
  bucketSum (mt_bpsMonitor (RecordBlockActivity 5 1 (RecordBlockProcessed 5 (Monitor.NewMetrics 0)))) = 2.
Proof. reflexivity. Qed.

(** ** Witnesses *)

(** A registry as a map, with the gauges. *)
Record Registry := mkRegistry { rg_descs : gmap string Desc; rg_gauges : gmap string float64 }.
Definition rg_Register (d : Desc) : GoM Registry unit := λ r,
  match rg_descs r !! md_name d with
  | Some _ => (r, Panic "duplicate metrics collector registration attempted")
  | None => (mkRegistry (<[md_name d := d]> (rg_descs r)) (rg_gauges r), Val tt)
  end.
Definition rg_Do (name : string) (labels : list (string * string)) (op : MetricOp) : GoM Registry unit := λ r,
  match rg_descs r !! name with
  | Some d =>
    if bool_decide (labels.*1 = md_labels d) && (labels_valid labels && op_allowed op) then
      (match op, labels with MSet x, [] => mkRegistry (rg_descs r) (<[name := x]> (rg_gauges r)) | _, _ => r end, Val tt)
    else (r, Panic "inconsistent label cardinality")
  | None => (r, Panic "no such metric")
  end.
#[export] Program Instance mapPrometheus : Prometheus Registry := {|
  pr_registered := rg_descs;
  pr_gauge := λ r n, rg_gauges r !! n;
  pr_Register := rg_Register;
  pr_Do := rg_Do
|}.
Next Obligation. intros d r E. unfold wp, rg_Register. by rewrite E. Qed.
Next Obligation. intros d r [d' E]. unfold rg_Register. rewrite E. eauto. Qed.
Next Obligation.
  intros name labels op d r E Hl Hk Hv Ho. unfold wp, rg_Do. rewrite E, Ho, Hv. simpl.
  rewrite bool_decide_eq_true_2 by done. simpl. destruct op, labels; simpl; split_and!; try done.
  - by rewrite lookup_insert_eq.
  - intros n Hn. by rewrite lookup_insert_ne.
Qed.
Next Obligation. intros name labels op d r E Hl Hk Hbad. simpl. unfold rg_Do. rewrite E, Hbad, andb_false_r. eauto. Qed.

(** The symbol of a token is text of its contract, where a single byte [0xff] is
    enough; [RecordTokenTransfer] has no caller as yet. *)
Definition badSymbol : string := String "255" "".
Example utf8_examples :
  utf8Valid "http://127.0.0.1:8545" = true ∧ utf8Valid (String "195" (String "169" "")) = true ∧
  utf8Valid badSymbol = false ∧ utf8Valid (String "237" (String "160" (String "128" ""))) = false.
Proof. repeat split; by vm_compute. Qed.

Lemma metrics_never_panic_witness :
  ∃ s m, (GetMetrics 0;; GetMetrics 0) (mkRegistry ∅ ∅, None) = (s, Val tt) ∧ s.2 = Some m ∧
    wp (metricCalls [McSyncHeight 7; McRPC "a" "b" (float_of_Z 1) false; McChainHeight 12]) (λ o m',
      o = Val tt ∧ pr_gauge (me_reg m') lagName = Some (float_of_Z 5)) (mkMeter s.1 m).
Proof.
  destruct (metrics_never_panic (mkRegistry ∅ ∅) 0 [McSyncHeight 7; McRPC "a" "b" (float_of_Z 1) false; McChainHeight 12])
    as (Ho & m & Es & H & _).
  - apply (bool_decide_unpack _). by vm_compute.
  - reflexivity.
  - intros d r. simpl. unfold rg_Register. by case_match.
  - repeat constructor; by vm_compute.
  - destruct ((GetMetrics 0;; GetMetrics 0) (mkRegistry ∅ ∅, None)) as [s o]. cbn [fst snd] in *. subst o.
    exists s, m. split; [reflexivity |]. split; [exact Es |]. cbn [forallb call_allowed] in H.
    eapply wp_mono; [exact H |]. intros o' m' (E1 & _ & E2). exact (conj E1 E2).
Defined.
