(* ===== verification/Boot.v ===== *)
(** * The boot sequence (cmd/indexer/main_core.go, main_init.go, main_services.go,
    service_manager.go, monitor.go)

    From the process's start to the running engine: the early API server, the
    initialisation with its early returns, the services in the order they are
    started, the reporter that watches the database, and the shutdown.  The
    state is the API server with its world and the Orchestrator; the parts
    started are recorded in order. *)

From S2P Require Import Prelude GoInt Types Text GlobalState Database Orchestrator Sequencer Fetcher Guards Service Power HotBuffer Policy Status Processor Config Api.
From Stdlib Require Import ZArith Lia String Ascii.
From stdpp Require Import base gmap strings list pretty.
Open Scope string_scope.
Open Scope Z_scope.

(** ** Data *)

(** The goroutines started, in the code's names. *)
Inductive Part : Type :=
| PtHub (throttled : bool) | PtApiServer | PtLazyMonitor | PtSubscription | PtAsyncWriter (ephemeral : bool)
| PtSelfHealer | PtWatchdog | PtSequencer | PtFetcher (workers : Z) | PtTailFollow (startBlock : Z)
| PtCatchUp (from to : Z) | PtMetricsReporter | PtSimulator | PtReplay.

#[export] Instance Part_eq_dec : EqDecision Part.
Proof. solve_decision. Defined.

(** The events broadcast on the hub during startup. *)
Inductive BootEvent : Type := EvLinearity (status detail : string) (progress : Z) | EvEnginePanic (worker error : string).

(** What initialisation leaves: [bt_hooked] says that the hub's callbacks and
    the processor's event hook are set, [bt_events] are the events broadcast on
    the hub, [bt_oracle] the settings of the height oracle, [bt_lab] the lab mode
    of the metrics; the Fetcher's pool is the world of the API. *)
Record Boot (W V : Type) := mkBoot {
  bt_api : Api W V;
  bt_onPanic : bool;
  bt_hooked : bool;
  bt_events : list BootEvent;
  bt_oracle : HeightOracle;
  bt_lab : bool;
  bt_fetcher : option (Fetcher unit);
  bt_recording : bool;
  bt_sequencer : option (Sequencer unit);
  bt_running : list Part;
  bt_cancelled : bool
}.
Arguments mkBoot {W V}.
Arguments bt_api {W V}.
Arguments bt_onPanic {W V}.
Arguments bt_hooked {W V}.
Arguments bt_events {W V}.
Arguments bt_oracle {W V}.
Arguments bt_lab {W V}.
Arguments bt_fetcher {W V}.
Arguments bt_recording {W V}.
Arguments bt_sequencer {W V}.
Arguments bt_running {W V}.
Arguments bt_cancelled {W V}.

(** What the process meets outside: the clock, the answers to connecting, to the
    text of the schema's statements, to dialling, the disk. *)
Record BootEnv (W : Type) := mkBootEnv {
  be_now : Z;
  be_connect : option GoErr;
  be_conn : nat → option GoErr;
  be_ddl : string → GoM W (option GoErr);
  be_rpc : option GoErr;
  be_dial : nat → Dialled;
  be_resultsSize : string;
  be_recorder : bool;
  be_sink : option GoErr
}.
Arguments mkBootEnv {W}.
Arguments be_now {W}.
Arguments be_connect {W}.
Arguments be_conn {W}.
Arguments be_ddl {W}.
Arguments be_rpc {W}.
Arguments be_dial {W}.
Arguments be_resultsSize {W}.
Arguments be_recorder {W}.
Arguments be_sink {W}.

(** The part of the configuration that startup reads. *)
Definition startConfig (cfg : Config.Config) : Service.Config :=
  Service.mkConfig (c_ChainID cfg) (c_StartBlock cfg) (c_StartBlockStr cfg) (c_DemoMode cfg).

(** [make(chan T, n)]: a negative size panics (so does one beyond the address
    space, which is not modelled). *)
Definition makeChan {S} (n : Z) : GoM S unit :=
  if n <? 0 then go_panic "makechan: size out of range" else mret tt.

(** ** schema.go *)

(** The text that creates the tables, abbreviated. *)
Definition createTables : string := "CREATE TABLE IF NOT EXISTS ...".
Definition patches : list string := [
  "ALTER TABLE sync_status ADD COLUMN IF NOT EXISTS last_processed_block NUMERIC";
  "ALTER TABLE sync_status ADD COLUMN IF NOT EXISTS last_processed_timestamp TIMESTAMP WITH TIME ZONE DEFAULT NOW()";
  "ALTER TABLE transfers ADD COLUMN IF NOT EXISTS activity_type VARCHAR(20) DEFAULT 'TRANSFER'"].
Definition indices : list string := [
  "CREATE INDEX IF NOT EXISTS idx_transfers_block_number ON transfers(block_number)";
  "CREATE INDEX IF NOT EXISTS idx_transfers_tx_hash ON transfers(tx_hash)";
  "CREATE INDEX IF NOT EXISTS idx_token_metadata_symbol ON token_metadata(symbol)"].

(** Statements whose errors are only logged. *)
Fixpoint execLogged {W} (ddl : string → GoM W (option GoErr)) (sts : list string) : GoM W unit :=
  match sts with [] => mret tt | st :: rest => ddl st;; execLogged ddl rest end.

(** [InitSchema] as a run of its statements (the tables it creates are
    [Database.InitSchema]). *)
Definition runInitSchema {W} (ddl : string → GoM W (option GoErr)) : GoM W (option GoErr) :=
  err ← ddl createTables;
  match err with
  | Some e => mret (Some (WrapErr "failed to initialize database schema: " e))
  | None => execLogged ddl patches;; execLogged ddl indices;; mret None
  end.

(** ** Initialisation *)

Section boot.
Context {W V : Type} {PG : Postgres W} {PR : PickRow} {OW : OrchWorld V} (rpcPool : RPCClient W) (cfg : Config.Config).
Local Abbreviation M := (GoM (Boot W V)).

Definition bset_api (a : Api W V) (b : Boot W V) : Boot W V :=
mkBoot a (bt_onPanic b) (bt_hooked b) (bt_events b) (bt_oracle b) (bt_lab b) (bt_fetcher b) (bt_recording b) (bt_sequencer b) (bt_running b) (bt_cancelled b).
Definition bset_onPanic (v : bool) (b : Boot W V) : Boot W V :=
mkBoot (bt_api b) v (bt_hooked b) (bt_events b) (bt_oracle b) (bt_lab b) (bt_fetcher b) (bt_recording b) (bt_sequencer b) (bt_running b) (bt_cancelled b).
Definition bset_hooked (v : bool) (b : Boot W V) : Boot W V :=
mkBoot (bt_api b) (bt_onPanic b) v (bt_events b) (bt_oracle b) (bt_lab b) (bt_fetcher b) (bt_recording b) (bt_sequencer b) (bt_running b) (bt_cancelled b).
Definition bset_events (v : list BootEvent) (b : Boot W V) : Boot W V :=
mkBoot (bt_api b) (bt_onPanic b) (bt_hooked b) v (bt_oracle b) (bt_lab b) (bt_fetcher b) (bt_recording b) (bt_sequencer b) (bt_running b) (bt_cancelled b).
Definition bset_settings (o : HeightOracle) (b : Boot W V) : Boot W V :=
mkBoot (bt_api b) (bt_onPanic b) (bt_hooked b) (bt_events b) o (bt_lab b) (bt_fetcher b) (bt_recording b) (bt_sequencer b) (bt_running b) (bt_cancelled b).
Definition bset_lab (v : bool) (b : Boot W V) : Boot W V :=
mkBoot (bt_api b) (bt_onPanic b) (bt_hooked b) (bt_events b) (bt_oracle b) v (bt_fetcher b) (bt_recording b) (bt_sequencer b) (bt_running b) (bt_cancelled b).
Definition bset_fetcher (v : option (Fetcher unit)) (b : Boot W V) : Boot W V :=
mkBoot (bt_api b) (bt_onPanic b) (bt_hooked b) (bt_events b) (bt_oracle b) (bt_lab b) v (bt_recording b) (bt_sequencer b) (bt_running b) (bt_cancelled b).
Definition bset_recording (v : bool) (b : Boot W V) : Boot W V :=
mkBoot (bt_api b) (bt_onPanic b) (bt_hooked b) (bt_events b) (bt_oracle b) (bt_lab b) (bt_fetcher b) v (bt_sequencer b) (bt_running b) (bt_cancelled b).
Definition bset_sequencer (v : option (Sequencer unit)) (b : Boot W V) : Boot W V :=
mkBoot (bt_api b) (bt_onPanic b) (bt_hooked b) (bt_events b) (bt_oracle b) (bt_lab b) (bt_fetcher b) (bt_recording b) v (bt_running b) (bt_cancelled b).
Definition bset_running (v : list Part) (b : Boot W V) : Boot W V :=
mkBoot (bt_api b) (bt_onPanic b) (bt_hooked b) (bt_events b) (bt_oracle b) (bt_lab b) (bt_fetcher b) (bt_recording b) (bt_sequencer b) v (bt_cancelled b).
Definition bset_cancelled (v : bool) (b : Boot W V) : Boot W V :=
mkBoot (bt_api b) (bt_onPanic b) (bt_hooked b) (bt_events b) (bt_oracle b) (bt_lab b) (bt_fetcher b) (bt_recording b) (bt_sequencer b) (bt_running b) v.

(** The parts of the state the calls work on. *)
Definition btWorld {A} (m : GoM W A) : M A :=
zoom (λ b, ap_world (bt_api b)) (λ w b, bset_api (mkApi (ap_server (bt_api b)) w (ap_orch (bt_api b))) b) m.
Definition btOrch {A} (m : GoM (Orchestrator V) A) : M A :=
zoom (λ b, ap_orch (bt_api b)) (λ o b, bset_api (mkApi (ap_server (bt_api b)) (ap_world (bt_api b)) o) b) m.
Definition btServer (f : Server → Server) : M unit :=
modify (λ b, bset_api (mkApi (f (ap_server (bt_api b))) (ap_world (bt_api b)) (ap_orch (bt_api b))) b).
Definition btFetcher (m : GoM (Fetcher unit) unit) : M unit :=
b ← gets id;
match bt_fetcher b with
| Some f => match m f with
            | (f', Val _) => modify (bset_fetcher (Some f'))
            | (_, Panic why) => go_panic why
            end
| None => go_panic "nil pointer dereference: fetcher"
end.
Definition goStart (p : Part) : M unit := modify (λ b, bset_running (bt_running b ++ [p])%list b).

(** The guard, whose status callback broadcasts on the hub. *)
Definition btGuard {A} (m : GoM (Guard W V) A) : M A :=
zoom (λ b, mkGuard (c_DemoMode cfg) (Some []) (ap_orch (bt_api b)) (ap_world (bt_api b)))
     (λ g b, bset_events (bt_events b ++ ((λ '(s, d, p), EvLinearity s d p) <$> default [] (gd_onStatus g)))%list
               (bset_api (mkApi (ap_server (bt_api b)) (gd_repo g) (gd_orch g)) b)) m.

(** service_manager.go, [NewServiceManager]: the channels of the Fetcher and of
  the processor's retry queue, and the recording sink. *)
Definition NewServiceManager (env : BootEnv W) : M unit :=
makeChan (i64 (c_FetchConcurrency cfg * 10));;
makeChan (getFetcherResultsChannelSize (be_resultsSize env));;
modify (bset_fetcher (Some (NewFetcherWithLimiter (c_FetchConcurrency cfg) (be_resultsSize env) (be_recorder env) tt)));;
makeChan (c_RetryQueueSize cfg);;
(if c_EnableRecording cfg && negb (String.eqb (c_RecordingPath cfg) "") then
   match be_sink env with
   | None => modify (bset_recording true)
   | Some _ => mret tt
   end
 else mret tt).

(** strategy.go and orchestrator_core.go, [OnStartup]: [LoadInitialState] with
  its queries; the second is asked only when the first does not help. *)
Definition OnStartup : M (option GoErr) :=
r ← btWorld (pg_Query (option string) (λ t, t_checkpoints t !! c_ChainID cfg));
let checkpoint := match r with Ok (Some s) => Ok s | Ok None => Err ErrNoRows | Err e => Err e end in
let asks := match checkpoint with Ok s => String.eqb s "" || String.eqb s "0" | Err _ => true end in
maxInDB ← (if asks then btWorld (pg_Query Z maxBlockNumber) else mret (Ok 0));
btOrch (LoadInitialState checkpoint maxInDB).

(** main_services.go, [initServices]; the Sequencer is started before the
  Fetcher's workers and the tail. *)
Definition initServices (env : BootEnv W) (startBlock : Z) : M unit :=
(if c_ChainID cfg =? 31337 then btWorld (AlignAnvilData rpcPool false) else mret tt);;
let strategy := GetStrategy (c_ChainID cfg) in
btOrch (Init true strategy);;
OnStartup;;
btOrch (SetAsyncWriter true);;
goStart (PtAsyncWriter (negb (st_ShouldPersist strategy)));;
modify (λ b, bset_sequencer (Some (NewSequencer startBlock (be_now env) (fe_paused <$> bt_fetcher b) tt)) b);;
btFetcher (Fetcher.SetSequencer 0);;
goStart PtSelfHealer;;
goStart PtWatchdog;;
goStart PtSequencer;;
goStart (PtFetcher (c_FetchConcurrency cfg));;
goStart (PtTailFollow startBlock);;
(if c_EnableSimulator cfg then goStart PtSimulator else mret tt).

(** main_init.go, [setupSubscriptions]. *)
Definition setupSubscriptions : M unit := btOrch Subscribe;; goStart PtSubscription.

(** The lazy manager as [initEngine] makes it; its flag is the Fetcher's. *)
Definition localNode : bool := (c_ChainID cfg =? 31337) || IsLocalAnvil (default "" (head (c_RPCURLs cfg))).
Definition newLazyManager (now : Z) : LazyManager :=
let l := NewLazyManager 300000000000 now true in
if localNode then SetAlwaysActive true l else l.
Definition setupLazyManager (now : Z) : M LazyManager :=
btFetcher Pause;;
(if localNode then btFetcher Resume;; btFetcher (SetThroughputLimit (float_of_Z 100000)) else mret tt);;
mret (newLazyManager now).

(** main_init.go, [initEngine] after the checks that return early: first the
  part up to the API's dependencies, then the start block and the services. *)
Definition prepareEngine (env : BootEnv W) (hot : HotBuffer) : M unit :=
NewServiceManager env;;
btFetcher (SetThroughputLimit (float_of_Z (tpsLimit cfg)));;
btWorld (AlignInfrastructure rpcPool false);;
btGuard (PerformLinearityCheck rpcPool false);;
modify (λ b, let o := bt_oracle b in
             bset_settings (mkHeightOracle (ho_chainHead o) (ho_indexedHead o) (ho_updatedAt o) (c_StrictHeightCheck cfg) (c_DriftTolerance cfg)) b);;
l ← setupLazyManager (be_now env);
modify (bset_lab ((c_ChainID cfg =? 31337) || c_ForceAlwaysActive cfg));;
goStart PtLazyMonitor;;
setupSubscriptions;;
btServer (SetDependencies l (Some hot) (c_ChainID cfg));;
modify (bset_hooked true).

Definition launchEngine (env : BootEnv W) (forceFrom : string) (resetDB : bool) : M unit :=
start ← btWorld (getStartBlockFromCheckpoint rpcPool (startConfig cfg) false (c_ChainID cfg) forceFrom resetDB);
let startBlock := match start with Ok n => n | Err _ => c_StartBlock cfg end in
btWorld (setupParentAnchor rpcPool startBlock);;
initServices env startBlock.

(** main_init.go, [initEngine]: the stages whose failure ends it. *)
Definition initEngine (env : BootEnv W) (hot : HotBuffer) (forceFrom : string) (resetDB : bool) : M unit :=
modify (bset_onPanic true);;
match connectDB (c_ChainID cfg =? 31337) (be_connect env) (be_conn env) with
| Err _ => mret tt
| Ok _ =>
  schema ← btWorld (runInitSchema (be_ddl env));
  match schema with
  | Some _ => mret tt
  | None =>
    match setupRPC cfg (be_rpc env) with
    | Err _ => mret tt
    | Ok _ =>
      match fst (verifyNetworkWithRetry cfg (be_dial env)) with
      | Some _ => mret tt
      | None => prepareEngine env hot;; launchEngine env forceFrom resetDB
      end
    end
  end
end.

(** service_manager.go, [StartTailFollow]: the gap below the start block is
  scheduled in the background, the reporter started, the tail followed. *)
Definition StartTailFollow (startBlock : Z) : M unit :=
gap ← btWorld (startupGap startBlock);
match gap with Some (from, to) => goStart (PtCatchUp from to) | None => mret tt end;;
goStart PtMetricsReporter.

(** panic_recovery.go: a panic is logged and handed to [OnPanic], which
  [initEngine] sets to a broadcast. *)
Definition OnPanic (name err : string) : M unit := modify (λ b, bset_events (bt_events b ++ [EvEnginePanic name err])%list b).
Definition recovered (name : string) (fn : M unit) : M unit := λ b,
match fn b with
| (b', Val _) => (b', Val tt)
| (b', Panic why) => (if bt_onPanic b' then OnPanic name why else mret tt) b'
end.
Definition WithRecoverySync (fn : M unit) : M unit := recovered "sync_task" fn.
Definition WithRecoveryNamed (name : string) (fn : M unit) : M unit := recovered name fn.

(** main_core.go, [setupWebSocketHub]. *)
Definition setupWebSocketHub : M unit := goStart (PtHub (c_ChainID cfg =? 31337)).

(** main_core.go, [startReplayMode] up to the replay loop. *)
Definition startReplayMode (env : BootEnv W) (replayFile : string) : M (option GoErr) :=
if String.eqb replayFile "" then mret (Some (Errorf "replay mode requires -file parameter"))
else
  match connectDB (c_ChainID cfg =? 31337) (be_connect env) (be_conn env) with
  | Err e => mret (Some e)
  | Ok _ =>
    btOrch (SetAsyncWriter true);;
    goStart (PtAsyncWriter (c_EphemeralMode cfg));;
    goStart PtReplay;;
    mret None
  end.

(** main_core.go, [run]: up to the wait for a signal, and after the signal. *)
Record Flags := mkFlags { fl_resetDB : bool; fl_startFrom : string; fl_mode : string; fl_file : string }.
Definition bootUp (env : BootEnv W) (hot : HotBuffer) (fl : Flags) : M (option GoErr) :=
setupWebSocketHub;;
if String.eqb (fl_mode fl) "replay" then startReplayMode env (fl_file fl)
else
  goStart PtApiServer;;
  WithRecoveryNamed "async_init" (initEngine env hot (fl_startFrom fl) (fl_resetDB fl));;
  mret None.

(** The API server first, then the context, then the Orchestrator with its
  writer. *)
Definition shutdown : M unit :=
modify (λ b, bset_running (filter (λ p, p ≠ PtApiServer) (bt_running b)) b);;
modify (bset_cancelled true);;
btOrch Shutdown.
End boot.

(** ** The reporter and the performance monitor *)

(** service_manager.go, [startMetricsReporter]: the local [lastProcessedBlock]
    with the lazy manager, if it is set; a tick with the clock and the highest
    stored block. *)
Definition reporterTick (now : Z) (max : result GoErr Z) : GoM (Z * option LazyManager) unit :=
  '(lastProcessedBlock, lazy) ← gets id;
  match max with
  | Err _ => mret tt
  | Ok currentMaxBlock =>
    if lastProcessedBlock <? currentMaxBlock then
      modify (λ _, (currentMaxBlock, NotifyBlockProcessed now <$> lazy))
    else mret tt
  end.
Fixpoint reporterRun (ticks : list (Z * result GoErr Z)) : GoM (Z * option LazyManager) unit :=
  match ticks with [] => mret tt | (now, max) :: rest => reporterTick now max;; reporterRun rest end.

(** monitor.go, [startPerformanceMonitor]: the previous counters and the
    published rates; a tick every two seconds. *)
Record PerfMonitor := mkPerfMonitor { pm_lastTx : Z; pm_lastBlock : Z; pm_TPS : Z; pm_BPS : Z }.
Definition perfTick (currTx currBlock : Z) (m : PerfMonitor) : PerfMonitor :=
  if 0 <? pm_lastTx m then
    mkPerfMonitor currTx currBlock (sub_u64 currTx (pm_lastTx m) / 2) (sub_u64 currBlock (pm_lastBlock m) / 2)
  else mkPerfMonitor currTx currBlock (pm_TPS m) (pm_BPS m).

(** ** Lemmas *)

(** A node that always returns. *)
Definition node_returns {W} (rpcPool : RPCClient W) : Prop :=
  node_answers rpcPool ∧ ∀ n w, wp (rpc_BlockByNumber rpcPool n) (λ o _, ∃ r, o = Val r) w.

(** Statements of the schema leave the tables' rows alone. *)
Definition ddl_quiet {W} {PG : Postgres W} (ddl : string → GoM W (option GoErr)) : Prop :=
  ∀ sql w, wp (ddl sql) (λ o w', (∃ e, o = Val e) ∧ pg_tables w' = pg_tables w) w.

Section boot_lemmas.
Context {W V : Type} {PG : Postgres W} {PR : PickRow} {OW : OrchWorld V} (rpcPool : RPCClient W) (cfg : Config.Config).
Implicit Types (b : Boot W V).

(** Neither the server nor the services have changed. *)
Definition early b b' : Prop :=
ap_server (bt_api b') = ap_server (bt_api b) ∧ bt_running b' = bt_running b ∧ bt_sequencer b' = bt_sequencer b ∧
bt_onPanic b' = bt_onPanic b ∧ (is_Some (bt_fetcher b) → is_Some (bt_fetcher b')).

#[local] Instance early_preorder : PreOrder early.
Proof.
split; [by intros b |]. intros b1 b2 b3 (H1 & H2 & H3 & H4 & H5) (K1 & K2 & K3 & K4 & K5).
split_and!; [congruence.. | auto].
Qed.

Lemma btWorld_early {A} (m : GoM W A) b : always early (btWorld m) b.
Proof. apply wp_zoom. unfold wp. by split_and!. Qed.
Lemma btGuard_early {A} (m : GoM (Guard W V) A) b : always early (btGuard cfg m) b.
Proof. apply wp_zoom. unfold wp. by split_and!. Qed.
Lemma btFetcher_early (m : GoM (Fetcher unit) unit) b : always early (btFetcher m) b.
Proof.
apply wp_bind, wp_gets. unfold id. destruct (bt_fetcher b) as [f |] eqn:E; [| apply wp_panic; reflexivity].
destruct (m f) as [f' [[] | why]]; [apply wp_modify | apply wp_panic; reflexivity].
by split_and!.
Qed.

(** A call on the Fetcher that returns. *)
Lemma btFetcher_wp (m : GoM (Fetcher unit) unit) (Q : outcome unit → Boot W V → Prop) b :
is_Some (bt_fetcher b) → (∀ f, snd (m f) = Val tt) →
(∀ f, Q (Val tt) (bset_fetcher (Some f) b)) → wp (btFetcher m) Q b.
Proof.
intros [f Hf] Hm HQ. apply wp_bind, wp_gets. unfold id. rewrite Hf. specialize (Hm f).
destruct (m f) as [f' o]. simpl in Hm. subst o. apply wp_modify, HQ.
Qed.

(** The outcomes of the initialisation from [b]: a panic before anything has
  started, or a return that satisfies [P]. *)
Definition panicsOr (P : Boot W V → Prop) b : outcome unit → Boot W V → Prop := λ o b',
(∃ why, o = Panic why) ∧ early b b' ∨ o = Val tt ∧ P b'.

Lemma early_seq {A} (P : Boot W V → Prop) (m : GoM (Boot W V) A) (k : A → GoM (Boot W V) unit) b s :
early b s → always early m s → (∀ a s', early b s' → early s s' → wp (k a) (panicsOr P b) s') → wp (m ≫= k) (panicsOr P b) s.
Proof.
intros Hs Hm Hk. apply wp_bind. eapply (wp_mono m (λ _ s1, early s s1)); [exact Hm |]. intros [a | why] s' He.
- apply Hk; [by transitivity s | done].
- left. split; [eauto | by transitivity s].
Qed.

Lemma NewServiceManager_wp (P : Boot W V → Prop) (env : BootEnv W) (k : unit → GoM (Boot W V) unit) b s :
early b s →
(0 ≤ i64 (c_FetchConcurrency cfg * 10) → 0 ≤ c_RetryQueueSize cfg →
   ∀ s', early b s' → is_Some (bt_fetcher s') → wp (k tt) (panicsOr P b) s') →
wp (NewServiceManager cfg env ≫= k) (panicsOr P b) s.
Proof.
intros Hs Hk. unfold NewServiceManager, makeChan. apply wp_bind, wp_bind.
destruct (Z.ltb_spec (i64 (c_FetchConcurrency cfg * 10)) 0); [apply wp_panic; left; split; [eauto | done] |].
apply wp_ret, wp_bind. case_match; [apply wp_panic; left; split; [eauto | done] |].
apply wp_ret, wp_bind, wp_modify, wp_bind.
set (s1 := bset_fetcher _ _). assert (H1 : early b s1 ∧ is_Some (bt_fetcher s1)).
{ destruct Hs as (E1 & E2 & E3 & E4 & E5). by split_and!; [split_and! | eexists]. }
destruct (Z.ltb_spec (c_RetryQueueSize cfg) 0); [apply wp_panic; left; split; [eauto | apply H1] |]. apply wp_ret.
case_match; [case_match; [apply wp_ret | apply wp_modify] | apply wp_ret]; apply Hk; try done; try apply H1.
Qed.

(** The services that are started, in order. *)
Definition services (startBlock : Z) : list Part :=
([PtLazyMonitor; PtSubscription; PtAsyncWriter false; PtSelfHealer; PtWatchdog; PtSequencer;
  PtFetcher (c_FetchConcurrency cfg); PtTailFollow startBlock] ++ (if c_EnableSimulator cfg then [PtSimulator] else []))%list.

(** The calls on the world that return. *)
Definition returns {S A} (m : GoM S A) : Prop := ∀ s, wp m (λ o _, ∃ a, o = Val a) s.
Lemma returns_bind {S A B} (m : GoM S A) (k : A → GoM S B) : returns m → (∀ a, returns (k a)) → returns (m ≫= k).
Proof. intros Hm Hk s. apply wp_bind. eapply wp_mono; [apply Hm |]. intros o s' (a & ->). apply Hk. Qed.
Lemma returns_ret {S A} (a : A) : returns (mret a : GoM S A).
Proof. intros s. apply wp_ret. eauto. Qed.
Lemma returns_Query A (f : Tables → A) : returns (pg_Query A f).
Proof. intros w. eapply wp_mono; [apply pg_Query_spec |]. intros o w' (_ & r & -> & _). eauto. Qed.
Lemma returns_Exec done st : returns (pg_Exec done st).
Proof. intros w. eapply wp_mono; [apply pg_Exec_spec |]. intros o w' (e & -> & _). eauto. Qed.

Hypothesis Hnode : node_returns rpcPool.
Lemma returns_latest : returns (rpc_GetLatestBlockNumber rpcPool).
Proof using Hnode. exact (proj1 Hnode). Qed.
Lemma returns_block n : returns (rpc_BlockByNumber rpcPool n).
Proof using Hnode. exact (proj2 Hnode n). Qed.

Local Ltac returning :=
  repeat first [ apply returns_latest | apply returns_block | apply returns_Query | apply returns_Exec | apply returns_ret
               | apply returns_bind; [| intros ?] | progress cbv beta zeta | case_match ].

Lemma returns_start scfg done chainID forceFrom resetDB :
returns (getStartBlockFromCheckpoint rpcPool scfg done chainID forceFrom resetDB).
Proof using Hnode. unfold getStartBlockFromCheckpoint. returning. Qed.
Lemma returns_anchor startBlock : returns (setupParentAnchor rpcPool startBlock).
Proof using Hnode. unfold setupParentAnchor. returning. Qed.
Lemma returns_AlignAnvil done : returns (AlignAnvilData rpcPool done).
Proof using Hnode. unfold AlignAnvilData. returning. Qed.

(** Where the boot stands: the server, the parts running, and a Fetcher. *)
Definition standing (sv : Server) (run : list Part) b : Prop :=
ap_server (bt_api b) = sv ∧ bt_running b = run ∧ is_Some (bt_fetcher b).

Lemma standing_world {A B} sv run (m : GoM W A) (k : A → GoM (Boot W V) B) Q b :
standing sv run b → returns m → (∀ a b', standing sv run b' → wp (k a) Q b') → wp (btWorld m ≫= k) Q b.
Proof.
intros Hb Hm Hk. apply wp_bind, wp_zoom. eapply wp_mono; [apply Hm |]. intros o w' (a & ->). apply Hk. exact Hb.
Qed.
Lemma standing_modify {B} sv run sv' run' (f : Boot W V → Boot W V) (k : unit → GoM (Boot W V) B) Q b :
standing sv run b → (∀ b, standing sv run b → standing sv' run' (f b)) →
(∀ b', standing sv' run' b' → wp (k tt) Q b') → wp (modify f ≫= k) Q b.
Proof. intros Hb Hf Hk. apply wp_bind, wp_modify, Hk, Hf, Hb. Qed.
Lemma standing_start {B} sv run p (k : unit → GoM (Boot W V) B) Q b :
standing sv run b → (∀ b', standing sv (run ++ [p]) b' → wp (k tt) Q b') → wp (goStart p ≫= k) Q b.
Proof. intros Hb. apply (standing_modify sv run); [exact Hb |]. intros b1 (H1 & H2 & H3). split_and!; try done. simpl. by rewrite H2. Qed.
Lemma standing_fetcher {B} sv run (m : GoM (Fetcher unit) unit) (k : unit → GoM (Boot W V) B) Q b :
standing sv run b → (∀ f, snd (m f) = Val tt) → (∀ b', standing sv run b' → wp (k tt) Q b') → wp (btFetcher m ≫= k) Q b.
Proof.
intros (H1 & H2 & H3) Hm Hk. apply wp_bind, btFetcher_wp; [done.. |]. intros f. apply Hk. by split_and!.
Qed.

(** The initialisation once the linearity check is passed. *)
Definition started (startBlock : Z) sv run b' : Prop :=
ap_server (bt_api b') = sv ∧ bt_running b' = (run ++ services startBlock)%list ∧
(∃ s, bt_sequencer b' = Some s ∧ sq_expectedBlock s = startBlock ∧ sq_buffer s = ∅) ∧
or_asyncWriter (ap_orch (bt_api b')) = true ∧ or_fetcher (ap_orch (bt_api b')) = true.

Lemma OnStartup_wp sv run (k : option GoErr → GoM (Boot W V) unit) Q b :
standing sv run b → (∀ a b', standing sv run b' → or_fetcher (ap_orch (bt_api b')) = or_fetcher (ap_orch (bt_api b)) → wp (k a) Q b') →
wp (OnStartup cfg ≫= k) Q b.
Proof.
intros Hb Hk. unfold OnStartup. apply wp_bind, wp_bind, wp_zoom.
eapply wp_mono; [apply pg_Query_spec |]. intros o w (-> & r & -> & _). cbv zeta.
set (ck := match r with Ok (Some s) => _ | _ => _ end). apply wp_bind.
assert (HL : ∀ mx b1, standing sv run b1 → or_fetcher (ap_orch (bt_api b1)) = or_fetcher (ap_orch (bt_api b)) →
  wp (btOrch (LoadInitialState ck mx)) (λ o b', match o with Val a => wp (k a) Q b' | Panic why => Q (Panic why) b' end) b1).
{ intros mx b1 Hb1 Hf. apply wp_zoom. unfold LoadInitialState, loadCursor. cbv zeta. apply wp_bind.
  repeat case_match; repeat first [apply wp_bind, wp_modify | apply wp_modify]; repeat apply wp_ret; by apply Hk. }
destruct (match ck with Ok _ => _ | Err _ => _ end).
- apply wp_zoom. eapply wp_mono; [apply pg_Query_spec |]. intros o w (-> & mx & -> & _). by apply HL.
- apply wp_ret. by apply HL.
Qed.

Lemma initServices_wp env startBlock sv run b :
standing sv (run ++ [PtLazyMonitor; PtSubscription]) b →
wp (initServices rpcPool cfg env startBlock) (λ o b', o = Val tt ∧ started startBlock sv run b') b.
Proof using Hnode.
intros Hb. unfold initServices. cbv zeta.
assert (Hrest : ∀ b, standing sv (run ++ [PtLazyMonitor; PtSubscription]) b →
  wp (btOrch (Init true (GetStrategy (c_ChainID cfg)));; OnStartup cfg;; btOrch (SetAsyncWriter true);;
      goStart (PtAsyncWriter (negb (st_ShouldPersist (GetStrategy (c_ChainID cfg)))));;
      modify (λ b, bset_sequencer (Some (NewSequencer startBlock (be_now env) (fe_paused <$> bt_fetcher b) tt)) b);;
      btFetcher (Fetcher.SetSequencer 0);; goStart PtSelfHealer;; goStart PtWatchdog;; goStart PtSequencer;;
      goStart (PtFetcher (c_FetchConcurrency cfg));; goStart (PtTailFollow startBlock);;
      (if c_EnableSimulator cfg then goStart PtSimulator else mret tt))
     (λ o b', o = Val tt ∧ started startBlock sv run b') b).
{ clear b Hb. intros b Hb. apply wp_bind, wp_zoom. do 2 (apply wp_bind, wp_modify). apply wp_modify.
  apply (OnStartup_wp sv (run ++ [PtLazyMonitor; PtSubscription])); [exact Hb |]. intros _ b1 (Hs & Hr & [f Hf]) Ho. simpl in Ho.
  apply wp_bind, wp_zoom, wp_modify. apply wp_bind, wp_modify. apply wp_bind, wp_modify.
  apply wp_bind, wp_bind, wp_gets. unfold id. cbn [bset_sequencer bset_running bset_api bt_fetcher]. rewrite Hf.
  unfold Fetcher.SetSequencer, modify at 1. apply wp_modify. do 5 (apply wp_bind, wp_modify).
  assert (Hp : negb (st_ShouldPersist (GetStrategy (c_ChainID cfg))) = false) by (unfold GetStrategy; by case_match).
  rewrite Hp. unfold started, services.
  case_match; [apply wp_modify | apply wp_ret]; cbn; rewrite Hr, <- ?app_assoc; simpl; split_and!; try done;
    eexists; split_and!; done. }
destruct (c_ChainID cfg =? 31337); [apply (standing_world sv (run ++ [PtLazyMonitor; PtSubscription])); [done | apply returns_AlignAnvil |]; eauto |].
apply wp_bind, wp_ret. by apply Hrest.
Qed.

Lemma launchEngine_wp env forceFrom resetDB sv run b :
standing sv (run ++ [PtLazyMonitor; PtSubscription]) b →
wp (launchEngine rpcPool cfg env forceFrom resetDB) (λ o b', o = Val tt ∧ ∃ startBlock, started startBlock sv run b') b.
Proof using Hnode.
intros Hb. unfold launchEngine. eapply standing_world; [exact Hb | apply returns_start |]. intros start b1 H1. cbv zeta.
eapply standing_world; [exact H1 | apply returns_anchor |]. intros _ b2 H2.
eapply wp_mono; [by apply initServices_wp |]. intros o b3 [-> Hs]. eauto.
Qed.

(** The server the launch leaves behind. *)
Definition ready (now : Z) (hot : HotBuffer) (sv : Server) : Server :=
SetDependencies (newLazyManager cfg now) (Some hot) (c_ChainID cfg) sv.

Lemma prepareEngine_wp env hot b :
wp (prepareEngine rpcPool cfg env hot)
   (panicsOr (λ b', (0 ≤ i64 (c_FetchConcurrency cfg * 10) ∧ 0 ≤ c_RetryQueueSize cfg) ∧
      standing (ready (be_now env) hot (ap_server (bt_api b))) (bt_running b ++ [PtLazyMonitor; PtSubscription]) b') b) b.
Proof.
unfold prepareEngine. apply NewServiceManager_wp; [reflexivity |]. intros Hc Hq b1 E1 Hf1.
apply wp_bind, btFetcher_wp; [done | done |]. intros f1. set (b2 := bset_fetcher _ b1).
assert (E2 : early b b2) by (by destruct E1 as (? & ? & ? & ? & ?); split_and!).
assert (Hf2 : is_Some (bt_fetcher b2)) by (by eexists).
apply early_seq; [exact E2 | apply btWorld_early |]. intros _ b3 E3 (_ & _ & _ & _ & Hf3).
apply early_seq; [exact E3 | apply btGuard_early |]. intros _ b4 (Es & Er & _ & _ & _) (_ & _ & _ & _ & Hf4).
set (sv := ap_server (bt_api b)) in *. set (run := bt_running b) in *.
assert (Hst : standing sv run b4) by (split_and!; auto). clear Es Er Hf1 Hf2 Hf3 Hf4 E1 E2 E3.
apply (standing_modify sv run sv run); [exact Hst | by intros b5 (? & ? & ?); split_and! |]. clear b1 f1 b2 b3 b4 Hst. intros b1 H1.
unfold setupLazyManager. apply wp_bind, wp_bind.
assert (Hk : ∀ b2, standing sv run b2 →
  wp (modify (bset_lab ((c_ChainID cfg =? 31337) || c_ForceAlwaysActive cfg));; goStart PtLazyMonitor;; setupSubscriptions;;
      btServer (SetDependencies (newLazyManager cfg (be_now env)) (Some hot) (c_ChainID cfg));; modify (bset_hooked true))
     (panicsOr (λ b', (0 ≤ i64 (c_FetchConcurrency cfg * 10) ∧ 0 ≤ c_RetryQueueSize cfg) ∧
        standing (ready (be_now env) hot sv) (run ++ [PtLazyMonitor; PtSubscription]) b') b) b2).
{ intros b2 H2. apply (standing_modify sv run sv run); [exact H2 | by intros b5 (? & ? & ?); split_and! |]. intros b3 H3.
  apply (standing_start sv run); [exact H3 |]. intros b4 (H4s & H4r & H4f). unfold setupSubscriptions, Subscribe.
  apply wp_bind, wp_bind, wp_zoom, wp_bind, wp_gets, wp_bind, wp_modify, wp_ret, wp_modify, wp_bind, wp_modify, wp_modify.
  right. split; [done |]. split; [done |]. split_and!; simpl; [by rewrite H4s | by rewrite H4r, <- app_assoc | done]. }
apply btFetcher_wp; [apply H1 | done |]. intros f1. set (b2 := bset_fetcher _ b1).
assert (H2 : standing sv run b2) by (by destruct H1 as (? & ? & ?); split_and!).
clearbody b2. clear f1 b1 H1. destruct (localNode cfg).
- apply wp_bind, wp_bind, btFetcher_wp; [apply H2 | done |]. intros f3. apply btFetcher_wp; [by eexists | done |]. intros f4.
  apply wp_ret, Hk. destruct H2 as (? & ? & ?). by split_and!.
- apply wp_bind, wp_ret, wp_ret. by apply Hk.
Qed.

Lemma engine_wp env hot forceFrom resetDB b :
wp (prepareEngine rpcPool cfg env hot;; launchEngine rpcPool cfg env forceFrom resetDB)
   (panicsOr (λ b', (0 ≤ i64 (c_FetchConcurrency cfg * 10) ∧ 0 ≤ c_RetryQueueSize cfg) ∧
      ∃ startBlock, started startBlock (ready (be_now env) hot (ap_server (bt_api b))) (bt_running b) b') b) b.
Proof using Hnode.
apply wp_bind. eapply wp_mono; [apply prepareEngine_wp |].
intros o b1 [[[why ->] He] | [-> [Hsz Hst]]]; [left; split; [eauto | done] |].
eapply wp_mono; [by apply launchEngine_wp |]. intros o b2 [-> Hs]. right. split; [done |]. split; [done | exact Hs].
Qed.

(** A stage that ends the initialisation whatever the database does. *)
Definition refused (env : BootEnv W) : Prop :=
be_connect env ≠ None ∨ be_rpc env ≠ None ∨ fst (verifyNetworkWithRetry cfg (be_dial env)) ≠ None.

Lemma execLogged_wp (ddl : string → GoM W (option GoErr)) sts w :
ddl_quiet ddl → wp (execLogged ddl sts) (λ o w', o = Val tt ∧ pg_tables w' = pg_tables w) w.
Proof.
intros Hd. revert w. induction sts as [| st sts IH]; intros w; [by apply wp_ret |]. apply wp_bind.
eapply wp_mono; [apply Hd |]. intros o w1 [[e ->] Ht]. rewrite <- Ht. apply IH.
Qed.

Lemma runInitSchema_wp (ddl : string → GoM W (option GoErr)) w :
ddl_quiet ddl → wp (runInitSchema ddl) (λ o w', (∃ e, o = Val e) ∧ pg_tables w' = pg_tables w) w.
Proof.
intros Hd. apply wp_bind. eapply wp_mono; [apply Hd |]. intros o w1 [[e ->] Ht]. destruct e; [apply wp_ret; eauto |].
apply wp_bind. eapply wp_mono; [by apply execLogged_wp |]. intros o w2 [-> Ht2].
apply wp_bind. eapply wp_mono; [by apply execLogged_wp |]. intros o w3 [-> Ht3]. apply wp_ret. split; [eauto | congruence].
Qed.

Definition btTables b : Tables := pg_tables (ap_world (bt_api b)).

(** The initialisation returns early, panics early, or starts everything. *)
Lemma initEngine_wp env hot forceFrom resetDB b :
ddl_quiet (be_ddl env) →
wp (initEngine rpcPool cfg env hot forceFrom resetDB)
   (λ o b', early (bset_onPanic true b) b' ∧ (o = Val tt ∧ btTables b' = btTables b ∨ ¬ refused env ∧ ∃ why, o = Panic why) ∨
      o = Val tt ∧ ¬ refused env ∧ (0 ≤ i64 (c_FetchConcurrency cfg * 10) ∧ 0 ≤ c_RetryQueueSize cfg) ∧
      ∃ startBlock, started startBlock (ready (be_now env) hot (ap_server (bt_api b))) (bt_running b) b') b.
Proof using Hnode.
intros Hd. unfold initEngine. apply wp_bind, wp_modify. set (b1 := bset_onPanic true b). unfold connectDB.
destruct (be_connect env) as [ce |] eqn:Ec; [apply wp_ret; left; split; [done | by left] |].
apply wp_bind, wp_zoom. eapply wp_mono; [by apply runInitSchema_wp |]. intros o w1 [[e ->] Ht].
set (b2 := bset_api _ b1). assert (E2 : early b1 b2 ∧ btTables b2 = btTables b) by done. clearbody b2. destruct E2 as [E2 Et2].
destruct e as [e |]; [apply wp_ret; left; split; [done | by left] |].
unfold setupRPC. destruct (be_rpc env) as [re |] eqn:Er; [apply wp_ret; left; split; [done | by left] |].
destruct (fst (verifyNetworkWithRetry cfg (be_dial env))) as [ve |] eqn:Ev; [apply wp_ret; left; split; [done | by left] |].
assert (Hr : ¬ refused env) by (intros [? | [? | ?]]; congruence).
eapply wp_mono; [apply engine_wp |]. intros o b3 [[Hw He] | [-> [Hs Hst]]]; [left | right].
- split; [by transitivity b2 | right; by split].
- destruct E2 as (E2s & E2r & _). rewrite E2s, E2r in Hst. split; [done |]. split; [done |]. split; [done | exact Hst].
Qed.

(** A recovered panic is at most reported on the hub. *)
Lemma recovered_wp name fn b (Q : outcome unit → Boot W V → Prop) :
wp fn (λ o b', match o with
                | Val _ => Q (Val tt) b'
                | Panic why => Q (Val tt) (if bt_onPanic b' then bset_events (bt_events b' ++ [EvEnginePanic name why])%list b' else b')
                end) b →
wp (recovered name fn) Q b.
Proof.
unfold wp, recovered. destruct (fn b) as [b' [[] | why]]; simpl; [done |]. by destruct (bt_onPanic b').
Qed.
End boot_lemmas.

(** ** Theorems *)

(** C8: The engine runs completely or not at all, and the API tells which.  Whatever
    database, node and configuration do, the start returns to the wait for a
    signal.  Either nothing but the hub and the API server has been started:
    then the data routes answer 503 "System Initializing...", as they will for
    good (the status route answers 200), and if it was the connection, the node or the chain check that failed
    the database has not been touched; or every service has been started, in the
    code's order, around a Sequencer that expects the start block and an
    Orchestrator that knows its writer and its Fetcher, and no route answers
    503. *)
Theorem boot_ready_or_initializing {W V} {PG : Postgres W} {PR : PickRow} {OW : OrchWorld V} {E : Ed25519} (rpcPool : RPCClient W)
    (cfg : Config.Config) (marshal : UIStatusDTO → result GoErr string) (env : BootEnv W) (hot : HotBuffer) (fl : Flags)
    (port title : string) (signer : option SignerMachine) (b : Boot W V) :
  node_returns rpcPool → ddl_quiet (be_ddl env) → fl_mode fl ≠ "replay" → ap_server (bt_api b) = NewServer port title signer →
  let run := (bt_running b ++ [PtHub (c_ChainID cfg =? 31337); PtApiServer])%list in
  wp (bootUp rpcPool cfg env hot fl) (λ o b', o = Val None ∧
     (bt_running b' = run ∧ bt_sequencer b' = bt_sequencer b ∧ (refused cfg env → btTables b' = btTables b) ∧
        (∀ aenv path, path ∈ ["/api/blocks"; "/api/transfers"; "/api/debug/snapshot"] →
           route rpcPool marshal aenv path (bt_api b') = (bt_api b', Val initializing)) ∨
      (¬ refused cfg env ∧ 0 ≤ i64 (c_FetchConcurrency cfg * 10) ∧ 0 ≤ c_RetryQueueSize cfg) ∧
        (∃ startBlock, started cfg startBlock (ready cfg (be_now env) hot (NewServer port title signer)) run b') ∧
        ∀ aenv path, wp (route rpcPool marshal aenv path) (λ r _, ∃ x, r = Val x ∧ statusCode x ≠ 503) (bt_api b'))) b.
Proof.
  intros Hn Hd Hm Hsv run. unfold bootUp, setupWebSocketHub. apply wp_bind, wp_modify.
  rewrite (proj2 (String.eqb_neq _ _) Hm). apply wp_bind, wp_modify. set (b1 := bset_running _ (bset_running _ b)).
  assert (H1 : bt_running b1 = run) by (unfold b1, run; simpl; by rewrite <- app_assoc).
  assert (H1s : ap_server (bt_api b1) = NewServer port title signer) by done.
  assert (H1q : bt_sequencer b1 = bt_sequencer b) by done. assert (H1t : btTables b1 = btTables b) by done. clearbody b1.
  assert (Hinit : ∀ b', early (bset_onPanic true b1) b' → (refused cfg env → btTables b' = btTables b) →
     bt_running b' = run ∧ bt_sequencer b' = bt_sequencer b ∧ (refused cfg env → btTables b' = btTables b) ∧
     (∀ aenv path, path ∈ ["/api/blocks"; "/api/transfers"; "/api/debug/snapshot"] →
        route rpcPool marshal aenv path (bt_api b') = (bt_api b', Val initializing))).
  { intros b' (Es & Er & Eq & _) Ht. simpl in Es, Er, Eq. split_and!; [congruence.. | done |]. intros aenv path Hp.
    destruct (bt_api b') as [sv w o]. simpl in Es. rewrite Es, H1s.
    by apply (api_readiness rpcPool marshal aenv path port title signer w o (newLazyManager cfg 0) None 0). }
  apply wp_bind, recovered_wp. eapply wp_mono; [by apply initEngine_wp |].
  intros o b2 [[He Ho] | (-> & Hr & [Hc Hq] & start & Hst)].
  - destruct Ho as [[-> Ht] | [Hr [why ->]]]; apply wp_ret; (split; [done | left]).
    + apply Hinit; [done | congruence].
    + apply Hinit; [| done]. by destruct (bt_onPanic b2).
  - apply wp_ret. split; [done |]. right. split; [done |]. rewrite H1s, H1 in Hst. split; [by exists start |].
    intros aenv path. destruct Hst as (Hst & _). destruct (bt_api b2) as [sv w o]. simpl in Hst. subst sv.
    apply api_readiness, Hn.
Qed.

(** ** The first block and the cursor *)

(** A node that returns and does not touch the database. *)
Definition node_quiet {W} {PG : Postgres W} (rpcPool : RPCClient W) : Prop :=
  (∀ w, wp (rpc_GetLatestBlockNumber rpcPool) (λ o w', (∃ r, o = Val r) ∧ pg_tables w' = pg_tables w) w) ∧
  (∀ n w, wp (rpc_BlockByNumber rpcPool n) (λ o w', (∃ r, o = Val r) ∧ pg_tables w' = pg_tables w) w).

(** A database whose queries are answered. *)
Definition reads_well {W} (PG : Postgres W) : Prop := ∀ A (f : Tables → A) w, pg_Query A f w = (w, Val (Ok (f (pg_tables w)))).

(** Where the start block comes from, and what the Orchestrator takes as its
    cursor, with the checkpoint [ck] and the highest stored block [m]. *)
Definition firstBlock (chainID : Z) (ck : option Z) : Z :=
  match ck with Some c => c + 1 | None => getDefaultStartBlockForChain chainID end.
Definition loadedCursor (ck : option Z) (m old : Z) : Z :=
  match ck with Some c => if c =? 0 then if 0 <? m then m else old else c | None => if 0 <? m then m else old end.

Section cursor.
Context {W V : Type} {PG : Postgres W} {PR : PickRow} {OW : OrchWorld V} (rpcPool : RPCClient W) (cfg : Config.Config).
Hypothesis Hnode : node_quiet rpcPool.
Hypothesis Hread : reads_well PG.
Implicit Types b : Boot W V.

Lemma pretty_ne_empty (z : Z) : String.eqb (pretty z) "" = false.
Proof. apply String.eqb_neq. intros H. pose proof (SetString10_pretty z) as Hp. by rewrite H in Hp. Qed.
Lemma pretty_eq_0 (z : Z) : String.eqb (pretty z) "0" = (z =? 0).
Proof.
destruct (Z.eqb_spec z 0) as [-> | Hz]; [done |]. apply String.eqb_neq. intros H.
pose proof (SetString10_pretty z) as Hp. rewrite H in Hp. by injection Hp.
Qed.

Lemma getStart_reads scfg done chainID (ck : option Z) w :
from_checkpoint scfg → t_checkpoints (pg_tables w) !! chainID = pretty <$> ck →
wp (getStartBlockFromCheckpoint rpcPool scfg done chainID "" false)
   (λ o w', o = Val (Ok (firstBlock chainID ck)) ∧ pg_tables w' = pg_tables w) w.
Proof using Hnode Hread.
intros [Hs Hstr] Hc. apply wp_bind. eapply wp_mono; [apply Hnode |]. intros o w1 [[r ->] Ht1]. simpl.
rewrite (proj2 (String.eqb_neq _ _) Hstr), (proj2 (Z.ltb_ge _ _) Hs).
apply wp_bind. unfold wp at 1. rewrite Hread. simpl. rewrite Ht1, Hc.
destruct ck as [c |]; simpl; [| by apply wp_ret]. rewrite pretty_ne_empty, SetString10_pretty. by apply wp_ret.
Qed.

Lemma maxBlockNumber_anchor (t : Tables) n h ph tm : 0 ≤ n →
maxBlockNumber (stmt_run (insertAnchorStmt n h ph tm) t) ≤ Z.max (maxBlockNumber t) n.
Proof.
intros Hn. pose proof (maxBlockNumber_nonneg t). apply maxBlockNumber_le; [lia |]. intros k blk Hk. simpl in Hk. unfold insertNew in Hk.
assert (k = n ∨ t_blocks t !! k = Some blk) as [-> | Hk1]; [| lia |].
{ destruct (t_blocks t !! n) eqn:E; [by right |]. apply lookup_insert_Some in Hk as [[-> _] | [_ ?]]; auto. }
pose proof (maxBlockNumber_ge _ _ _ Hk1). lia.
Qed.

(** The anchor leaves the checkpoints alone. *)
Lemma anchor_keeps startBlock w :
wp (setupParentAnchor rpcPool startBlock) (λ o w', o = Val tt ∧ t_checkpoints (pg_tables w') = t_checkpoints (pg_tables w) ∧
   maxBlockNumber (pg_tables w') ≤ Z.max (maxBlockNumber (pg_tables w)) (startBlock - 1)) w.
Proof using Hnode.
unfold setupParentAnchor. destruct (Z.leb_spec startBlock 0); [apply wp_ret; split_and!; [done.. | lia] |].
apply wp_bind. eapply wp_mono; [apply Hnode |].
intros o w1 [[r ->] Ht]. destruct r as [blk | e]; [| apply wp_ret; rewrite Ht; split_and!; [done.. | lia]]. apply wp_bind.
eapply wp_mono; [apply pg_Exec_spec |]. intros o w2 (e & -> & _ & Hok & Herr). apply wp_ret. split; [done |]. rewrite <- Ht.
assert (Hrun : pg_tables w2 = pg_tables w1 ∨
  pg_tables w2 = stmt_run (insertAnchorStmt (startBlock - 1) (blk_Hash blk) (blk_ParentHash blk) (blk_Time blk)) (pg_tables w1)).
{ destruct e as [e |]; [by apply Herr | right; by apply Hok]. }
destruct Hrun as [-> | ->]; [split; [done | lia] | split; [done |]].
etrans; [apply maxBlockNumber_anchor; lia | lia].
Qed.

Lemma OnStartup_reads (ck : option Z) b (k : option GoErr → GoM (Boot W V) unit) Q :
t_checkpoints (btTables b) !! c_ChainID cfg = pretty <$> ck → (∀ c, ck = Some c → 0 ≤ c ≤ max_u64) → maxBlockNumber (btTables b) ≤ max_i64 →
(∀ e b', btTables b' = btTables b → bt_fetcher b' = bt_fetcher b →
   cs_SyncedCursor (or_state (ap_orch (bt_api b'))) =
     loadedCursor ck (maxBlockNumber (btTables b)) (cs_SyncedCursor (or_state (ap_orch (bt_api b)))) → wp (k e) Q b') →
wp (OnStartup cfg ≫= k) Q b.
Proof using Hread.
intros Hc Hr Hm Hk. unfold OnStartup. apply wp_bind, wp_bind, wp_zoom. unfold wp at 1. rewrite Hread. cbn [fst snd].
unfold btTables in *. rewrite Hc. pose proof (maxBlockNumber_nonneg (pg_tables (ap_world (bt_api b)))) as Hm0.
set (m := maxBlockNumber _) in *.
assert (Hnum : ∀ n b1, 0 < n ≤ max_u64 → bt_fetcher b1 = bt_fetcher b → ap_orch (bt_api b1) = ap_orch (bt_api b) →
   pg_tables (ap_world (bt_api b1)) = pg_tables (ap_world (bt_api b)) →
   loadedCursor ck m (cs_SyncedCursor (or_state (ap_orch (bt_api b)))) = n →
   wp (btOrch (loadCursor (pretty n))) (λ o b', match o with Val a => wp (k a) Q b' | Panic why => Q (Panic why) b' end) b1).
{ intros n b1 Hn Hf Ho Ht Hl. apply wp_zoom. unfold loadCursor. rewrite pretty_ne_empty, pretty_eq_0.
  rewrite (proj2 (Z.eqb_neq n 0)) by lia. cbn [negb andb]. rewrite SetString10_pretty, big_Uint64_id by lia64.
  apply wp_bind, wp_bind, wp_modify, wp_modify, wp_ret. apply Hk; [done.. |]. simpl. by rewrite Hl. }
assert (Hnone : ∀ last b1, (last = "" ∨ last = "0") → bt_fetcher b1 = bt_fetcher b → ap_orch (bt_api b1) = ap_orch (bt_api b) →
   pg_tables (ap_world (bt_api b1)) = pg_tables (ap_world (bt_api b)) →
   loadedCursor ck m (cs_SyncedCursor (or_state (ap_orch (bt_api b)))) = cs_SyncedCursor (or_state (ap_orch (bt_api b))) →
   wp (btOrch (loadCursor last)) (λ o b', match o with Val a => wp (k a) Q b' | Panic why => Q (Panic why) b' end) b1).
{ intros last b1 Hlast Hf Ho Ht Hl. apply wp_zoom. unfold loadCursor.
  replace (negb (String.eqb last "") && negb (String.eqb last "0")) with false by (by destruct Hlast as [-> | ->]).
  apply wp_bind, wp_ret, wp_ret. apply Hk; [done.. |]. simpl. by rewrite Ho, Hl. }
destruct ck as [c |]; cbn [fmap option_fmap option_map].
- rewrite pretty_ne_empty, pretty_eq_0. cbn [orb]. destruct (Z.eqb_spec c 0) as [-> | Hc0].
  + apply wp_bind, wp_zoom. unfold wp at 1. rewrite Hread. cbn [fst snd bset_api bt_api ap_world].
    change (pretty 0) with "0". unfold LoadInitialState. fold m. cbn [String.eqb Ascii.eqb Bool.eqb orb]. destruct (Z.ltb_spec 0 m).
    * apply Hnum; try done; [lia64 | simpl; by rewrite (proj2 (Z.ltb_lt 0 m))].
    * apply Hnone; try done; [by right | simpl; by rewrite (proj2 (Z.ltb_ge 0 m))].
  + apply wp_bind, wp_ret. unfold LoadInitialState. rewrite pretty_ne_empty, pretty_eq_0, (proj2 (Z.eqb_neq c 0)) by done. cbn [orb].
    specialize (Hr c eq_refl). apply Hnum; try done; [lia |]. simpl. by rewrite (proj2 (Z.eqb_neq c 0)).
- cbn [orb]. apply wp_bind, wp_zoom. unfold wp at 1. rewrite Hread. cbn [fst snd bset_api bt_api ap_world]. unfold LoadInitialState. cbn [orb]. fold m.
  destruct (Z.ltb_spec 0 m).
  + apply Hnum; try done; [lia64 | simpl; by rewrite (proj2 (Z.ltb_lt 0 m))].
  + apply Hnone; try done; [by left | simpl; by rewrite (proj2 (Z.ltb_ge 0 m))].
Qed.
End cursor.

(** C9: The first block and the cursor.  On a chain other than 31337, when no flag
    or setting overrides the start, the database answers and the node's calls
    return without touching it: the Sequencer starts at [firstBlock], the block
    after the checkpoint of the chain, or the chain's default block when there is
    no checkpoint; the cursor the Orchestrator loads is [loadedCursor], the
    checkpoint unless it is missing or "0", and then the highest stored block
    (the anchor block before a start included), or the cursor as it was when
    nothing is stored.  With a checkpoint that is not 0 the cursor is the block
    before the first one.  Otherwise a start forced at [N] that stored its anchor
    but no checkpoint, followed by an ordinary start, shows [N - 1] as synced
    while the Sequencer starts at the default block. *)
Theorem start_and_cursor {W V} {PG : Postgres W} {PR : PickRow} {OW : OrchWorld V} (rpcPool : RPCClient W)
    (cfg : Config.Config) (env : BootEnv W) (ck : option Z) (b : Boot W V) :
  let old := cs_SyncedCursor (or_state (ap_orch (bt_api b))) in
  node_quiet rpcPool → reads_well PG → from_checkpoint (startConfig cfg) → c_ChainID cfg ≠ 31337 → is_Some (bt_fetcher b) →
  t_checkpoints (btTables b) !! c_ChainID cfg = pretty <$> ck → (∀ c, ck = Some c → 0 ≤ c ≤ max_i64) → maxBlockNumber (btTables b) ≤ max_i64 →
  wp (launchEngine rpcPool cfg env "" false) (λ o b', o = Val tt ∧ ∃ s, bt_sequencer b' = Some s ∧
     sq_expectedBlock s = firstBlock (c_ChainID cfg) ck ∧
     let cursor := cs_SyncedCursor (or_state (ap_orch (bt_api b'))) in
     cursor = loadedCursor ck (maxBlockNumber (btTables b')) old ∧
     (∀ c, ck = Some c → c ≠ 0 → cursor + 1 = sq_expectedBlock s)) b.
Proof.
  intros old Hn Hr Hcfg Hch Hf Hc Hck Hm. unfold launchEngine. apply wp_bind, wp_zoom.
  eapply wp_mono; [by apply (getStart_reads rpcPool Hn Hr _ _ _ ck) |]. intros o w1 [-> Ht1]. cbv zeta.
  apply wp_bind, wp_zoom. eapply wp_mono; [by apply anchor_keeps |]. intros o w2 (-> & Hc2 & Hm2). cbn [bt_api bset_api ap_world] in Hc2, Hm2.
  rewrite Ht1 in Hc2, Hm2. unfold btTables in Hc, Hm.
  assert (Hfirst : firstBlock (c_ChainID cfg) ck - 1 ≤ max_i64).
  { destruct ck as [c |]; simpl; [specialize (Hck c eq_refl); lia |]. unfold getDefaultStartBlockForChain. case_match; lia64. }
  unfold initServices. rewrite (proj2 (Z.eqb_neq _ _) Hch). apply wp_bind, wp_ret. cbv zeta.
  apply wp_bind, wp_zoom. do 2 (apply wp_bind, wp_modify). apply wp_modify.
  match goal with |- wp _ _ ?b1 => set (b3 := b1) end.
  assert (H3 : btTables b3 = pg_tables w2 ∧ bt_fetcher b3 = bt_fetcher b ∧ cs_SyncedCursor (or_state (ap_orch (bt_api b3))) = old) by done.
  clearbody b3. destruct H3 as (H3t & H3f & H3o).
  apply (OnStartup_reads cfg Hr ck b3); rewrite ?H3t, ?Hc2; [done | intros c Hc'; specialize (Hck c Hc'); lia64 | lia |].
  intros e b4 Et Ef Ecur. apply wp_bind, wp_zoom, wp_modify, wp_bind, wp_modify, wp_bind, wp_modify, wp_bind.
  apply btFetcher_wp; [cbn; by rewrite Ef, H3f | done |]. intros f. do 5 (apply wp_bind, wp_modify).
  assert (Hfin : cs_SyncedCursor (or_state (ap_orch (bt_api b4))) = loadedCursor ck (maxBlockNumber (btTables b4)) old)
    by (by rewrite Ecur, Et, H3o).
  assert (Hag : ∀ c, ck = Some c → c ≠ 0 → cs_SyncedCursor (or_state (ap_orch (bt_api b4))) + 1 = firstBlock (c_ChainID cfg) ck).
  { intros c -> Hc0. rewrite Hfin. simpl. by rewrite (proj2 (Z.eqb_neq c 0)). }
  case_match; [apply wp_modify | apply wp_ret]; (split; [done |]); eexists; split_and!; done.
Qed.

(** The reporter wakes the lazy manager exactly when the highest stored block
    exceeds every one read before (and 0): the first reading of a database that
    is not empty counts as a processed block, and after a rollback nothing does
    until the old height is passed. *)
Definition notices (before : list Z) (max : result GoErr Z) : Prop :=
  match max with Ok m => 0 < m ∧ Forall (λ x, x < m) before | Err _ => False end.
Definition readings (ticks : list (Z * result GoErr Z)) : list Z := omap (λ t, match t.2 with Ok m => Some m | Err _ => None end) ticks.
Lemma foldl_max_lt (l : list Z) (a m : Z) : a < m ∧ Forall (λ x, x < m) l ↔ foldl Z.max a l < m.
Proof.
  revert a. induction l as [| x l IH]; intros a; simpl; [rewrite Forall_nil; tauto |].
  rewrite Forall_cons, <- IH, Z.max_lub_lt_iff. tauto.
Qed.
Lemma reporter_notices (ticks : list (Z * result GoErr Z)) (now : Z) (max : result GoErr Z) (l : option LazyManager) :
  wp (reporterRun ticks;; s ← gets id; reporterTick now max;; s' ← gets id; mret (s.2, s'.2))
     (λ o _, ∃ l1 l2, o = Val (l1, l2) ∧
        (notices (readings ticks) max → l2 = NotifyBlockProcessed now <$> l1) ∧
        (¬ notices (readings ticks) max → l2 = l1)) (0, l).
Proof.
  assert (Hrun : ∀ s, wp (reporterRun ticks) (λ o s', o = Val tt ∧ s'.1 = foldl Z.max s.1 (readings ticks)) s).
  { induction ticks as [| [t m] ticks IH]; intros s; [by apply wp_ret |].
    cbn [reporterRun]. apply wp_bind, wp_bind, wp_gets. unfold id. destruct s as [last lz]. destruct m as [m | e].
    - destruct (Z.ltb_spec last m); [apply wp_modify | apply wp_ret]; (eapply wp_mono; [apply IH |]); intros o s' [-> ->];
        (split; [done |]); unfold readings; simpl; f_equal; lia.
    - apply wp_ret. apply IH. }
  apply wp_bind. eapply wp_mono; [apply Hrun |]. intros o [last lz] [-> Hl]. simpl in Hl. apply wp_bind, wp_gets. unfold id.
  assert (Hnot : ∀ m, 0 < m ∧ Forall (λ x, x < m) (readings ticks) ↔ last < m) by (intros m; rewrite Hl; apply foldl_max_lt).
  apply wp_bind, wp_bind, wp_gets. unfold id. destruct max as [m | e]; simpl.
  - destruct (Z.ltb_spec last m) as [L | L]; [apply wp_modify | apply wp_ret]; apply wp_bind, wp_gets, wp_ret; eexists _, _;
      (split; [done |]); rewrite Hnot; (split; [intros; try done; lia | intros; try done; lia]).
  - apply wp_ret, wp_bind, wp_gets, wp_ret. eexists _, _. split_and!; done.
Qed.

Lemma perfTick_rates (tx0 blk0 tx1 blk1 : Z) (m : PerfMonitor) :
  0 < tx0 ≤ tx1 → tx1 ≤ max_u64 → 0 ≤ blk0 ≤ blk1 → blk1 ≤ max_u64 →
  let m' := perfTick tx1 blk1 (perfTick tx0 blk0 m) in
  pm_TPS m' = (tx1 - tx0) / 2 ∧ pm_BPS m' = (blk1 - blk0) / 2.
Proof.
  intros H1 H2 H3 H4. assert (E : pm_lastTx (perfTick tx0 blk0 m) = tx0 ∧ pm_lastBlock (perfTick tx0 blk0 m) = blk0)
    by (unfold perfTick; destruct (0 <? pm_lastTx m); by split).
  destruct (perfTick tx0 blk0 m) as [tx blk tps bps]. simpl in E. destruct E as [-> ->]. unfold perfTick. cbn [pm_lastTx pm_lastBlock].
  rewrite (proj2 (Z.ltb_lt 0 tx0)) by lia. simpl. rewrite !sub_u64_ge by (unfold is_u64; lia). done.
Qed.

(** ** Witnesses *)

Definition bootGetenv (demo : bool) (k : string) : string :=
  if String.eqb k "DEMO_MODE" then if demo then "true" else ""
  else if String.eqb k "RPC_URLS" then "https://node.example" else "".
Definition bootConfig (demo : bool) : Config.Config := Config.Load (bootGetenv demo).
Definition bootEnv (chain : Z) : BootEnv PgSim :=
  mkBootEnv 0 None (λ _, None) (λ _, mret None) None (λ _, Ok (Ok chain)) "" true None.
Definition bootStart (db : PgSim) : Boot PgSim (Z * Z) :=
  mkBoot (mkApi (NewServer "8080" "Indexer" None) db (newOrchestrator 0 (0, 1))) false false [] globalHeightOracle false None false None [] false.
Definition bootFlags : Flags := mkFlags false "" "index" "".

Lemma headClient_returns h : node_returns (headClient h).
Proof. split; [intros w | intros n w]; apply wp_ret; eauto. Qed.

Lemma boot_ready_or_initializing_witness :
  let OW := depthsWorld in
  let b' := fst (bootUp (headClient 8) (bootConfig false) (bootEnv 5) (NewHotBuffer 50000) bootFlags (bootStart sampleDB)) in
  bt_running b' = [PtHub false; PtApiServer] ∧
  route (headClient 8) sampleMarshal sampleApiEnv "/api/blocks" (bt_api b') = (bt_api b', Val initializing).
Proof.
  intros OW b'.
  destruct (boot_ready_or_initializing (headClient 8) (bootConfig false) sampleMarshal (bootEnv 5) (NewHotBuffer 50000) bootFlags
    "8080" "Indexer" None (bootStart sampleDB)) as [_ [H | H]];
    [apply headClient_returns | intros sql w; apply wp_ret; eauto | done | reflexivity | |].
  - destruct H as (Hrun & _ & _ & Hroute). split; [exact Hrun | apply Hroute; by left].
  - exfalso. destruct H as [[H _] _]. apply H. right. right. by vm_compute.
Defined.

(** The main net behind a node that knows it: everything starts, from block 8. *)
Example boot_starts :
  let OW := depthsWorld in
  let b' := fst (bootUp (headClient 9) (bootConfig false) (bootEnv 1) (NewHotBuffer 50000) bootFlags
                   (bootStart (blocksDb [4; 5; 6; 7] "7"))) in
  bt_running b' = ([PtHub false; PtApiServer] ++ services (bootConfig false) 8)%list ∧
  cs_SyncedCursor (or_snapshot (ap_orch (bt_api b'))) = 7 ∧ fe_paused <$> bt_fetcher b' = Some true.
Proof. by vm_compute. Qed.

(** A demo more than 100000 blocks behind its chain, say with an empty
    database, panics "Triggering system reset" inside the recovery of the
    initialisation: the hub gets the event and nothing is ever started. *)
Example demo_never_starts :
  let OW := depthsWorld in
  let b' := fst (bootUp (headClient 200000) (bootConfig true) (bootEnv 1) (NewHotBuffer 50000) bootFlags (bootStart (blocksDb [] "0"))) in
  bt_running b' = [PtHub false; PtApiServer] ∧
  last (bt_events b') = Some (EvEnginePanic "async_init" "DATABASE_CLEARED: Abnormal gap > 100,000 detected. Triggering system reset.") ∧
  sv_db (ap_server (bt_api b')) = false.
Proof. by vm_compute. Qed.

Lemma start_and_cursor_witness :
  let OW := depthsWorld in
  let b := bset_fetcher (Some (NewFetcherWithLimiter 10 "" false tt)) (bootStart (mkPgSim deployedSchema sampleTables None [])) in
  let b' := fst (launchEngine (headClient 9) (bootConfig false) (bootEnv 1) "" false b) in
  sq_expectedBlock <$> bt_sequencer b' = Some 0 ∧ cs_SyncedCursor (or_state (ap_orch (bt_api b'))) = 8.
Proof.
  intros OW b b'.
  destruct (start_and_cursor (headClient 9) (bootConfig false) (bootEnv 1) None b) as (_ & s & Hs & Hb & Hc & _).
  - split; [intros w | intros n w]; apply wp_ret; eauto.
  - intros A f w. reflexivity.
  - split; [by vm_compute | done].
  - done.
  - by eexists.
  - by vm_compute.
  - intros c [=].
  - by vm_compute.
  - split; [unfold b'; rewrite Hs; simpl; f_equal; exact Hb | exact Hc].
Defined.
