(* ===== verification/Simulator.v ===== *)
(** * The simulators (internal/engine/pro_simulator.go, defi_simulator_core.go,
    defi_simulator_gen.go, defi_simulator_utils.go, simulator_factory.go)

    The chaos generator that sends transactions to the local node, and the two
    generators of synthetic transfers (which nobody constructs).  Addresses are
    numbers, bytes lie in 0..255; the node, the signatures and the random
    sources are interfaces. *)

From S2P Require Import Prelude GoInt Types Processor Policy Codecs.
From Stdlib Require Import ZArith Lia String Ascii.
From stdpp Require Import base numbers strings list pretty.
Open Scope string_scope.
Open Scope Z_scope.

(** ** Transactions *)

Record TxData := mkTxData {
  td_Nonce : Z;
  td_To : option Z;
  td_Value : Z;
  td_Gas : Z;
  td_GasPrice : Z;
  td_Data : list Z
}.
Record SignedTx := mkSignedTx { stx_tx : TxData; stx_from : Z }.

(** go-ethereum's keys, signatures and byte helpers. *)
Class EthCrypto := {
  ec_Key : Type;
  ec_HexToECDSA : string → result GoErr ec_Key;
  ec_Address : ec_Key → Z;
  ec_SignTx : TxData → Z → ec_Key → result GoErr SignedTx;
  ec_LeftPadBytes : list Z → nat → list Z;
  ec_HexToHash : string → Z;

  ec_SignTx_spec tx chain key s : ec_SignTx tx chain key = Ok s → stx_tx s = tx ∧ stx_from s = ec_Address key;
  ec_LeftPadBytes_spec b n : (length b ≤ n)%nat → ec_LeftPadBytes b n = (replicate (n - length b) 0 ++ b)%list
}.

(** An address no key signs for. *)
Definition orphan `{EthCrypto} (a : Z) : Prop := ∀ k, ec_Address k ≠ a.

(** The random sources and the node.  [sw_count] is an account's nonce in the
    latest block: only transactions it signed can raise it, a lower nonce is
    refused as too low, and nothing lowers it. *)
Class SimWorld `{EthCrypto} (W : Type) := {
  sw_randInt : Z → GoM W (result GoErr Z);
  sw_ExpFloat64 : GoM W float64;
  sw_Float64 : GoM W float64;
  sw_NonceAt : Z → GoM W (result GoErr Z);
  sw_ChainID : GoM W (result GoErr Z);
  sw_SendTransaction : SignedTx → GoM W (option GoErr);
  sw_mine : GoM W (option GoErr);
  sw_HeaderByNumber : GoM W (result GoErr (Z * Z));
  sw_count : W → Z → Z;

  sw_randInt_spec n w : 0 < n →
    wp (sw_randInt n) (λ o w', ∃ r, o = Val r ∧ sw_count w' = sw_count w ∧ ∀ x, r = Ok x → 0 ≤ x < n) w;
  sw_NonceAt_spec a w :
    wp (sw_NonceAt a) (λ o w', ∃ r, o = Val r ∧ sw_count w' = sw_count w ∧ ∀ n, r = Ok n → n = sw_count w a) w;
  sw_ChainID_spec w : wp sw_ChainID (λ o w', ∃ r, o = Val r ∧ sw_count w' = sw_count w) w;
  sw_Send_spec s w :
    wp (sw_SendTransaction s) (λ o w', ∃ e, o = Val e ∧
       (∀ a, sw_count w a ≤ sw_count w' a) ∧ (∀ a, orphan a → sw_count w' a = sw_count w a) ∧
       (td_Nonce (stx_tx s) < sw_count w (stx_from s) → ∃ err, e = Some err ∧ Contains (Error err) "nonce too low" = true)) w;
  sw_mine_spec w :
    wp sw_mine (λ o w', ∃ e, o = Val e ∧
       (∀ a, sw_count w a ≤ sw_count w' a) ∧ (∀ a, orphan a → sw_count w' a = sw_count w a)) w
}.

(** utils.go, [secureIntn]. *)
Definition secureIntn `{SimWorld W} (n : Z) : GoM W Z :=
  if n <=? 0 then mret 0
  else r ← sw_randInt n; mret match r with Ok x => x | Err _ => 0 end.

(** ** Amounts and bytes *)

(** [big.Float]s: [SetInt] and [SetInt64] of a number, [SetFloat64], and the
    truncation; a float that is not finite has no integer. *)
Definition flt_SetInt (z : Z) : BigFloat := if z =? 0 then FltZero else Flt z 0.
Definition flt_SetFloat64 (f : float64) : BigFloat :=
  match f with
  | SpecFloat.S754_finite _ m e => Flt (Zpos m) e
  | SpecFloat.S754_zero _ => FltZero
  | _ => FltInf
  end.
Definition flt_Trunc (f : BigFloat) : Z := default 0 (fst (flt_Int false f)).

(** The bytes of [n] in base 256 without leading zeros: [big.Int.Bytes]. *)
Fixpoint bigBytes_fuel (fuel : nat) (n : Z) : list Z :=
  match fuel with
  | O => []
  | S fuel' => if n <=? 0 then [] else (bigBytes_fuel fuel' (n / 256) ++ [n mod 256])%list
  end.
Definition big_Bytes (n : Z) : list Z := bigBytes_fuel (Z.to_nat (Z.log2 n + 1)) n.
(** [Address.Bytes]: twenty bytes. *)
Fixpoint fixedBytes (k : nat) (n : Z) : list Z :=
  match k with O => [] | S k' => (fixedBytes k' (n / 256) ++ [n mod 256])%list end.
Definition addr_Bytes (a : Z) : list Z := fixedBytes 20 a.

(** The bytes of a constant in hex. *)
Definition hexNibble (c : ascii) : Z :=
  let n := Z.of_nat (nat_of_ascii c) in
  if (48 <=? n) && (n <=? 57) then n - 48 else if (97 <=? n) && (n <=? 102) then n - 87 else 0.
Fixpoint hexBytes (s : string) : list Z :=
  match s with
  | String a (String b s') => 16 * hexNibble a + hexNibble b :: hexBytes s'
  | _ => []
  end.

(** ** pro_simulator.go *)

Record TokenInfo := mkTokenInfo { ti_Address : Z; ti_Symbol : string; ti_Decimals : Z }.
Record simAccount := mkSimAccount { sa_addr : Z; sa_pk : string; sa_nonce : Z }.
Definition sset_nonce (n : Z) (a : simAccount) : simAccount := mkSimAccount (sa_addr a) (sa_pk a) n.

Record ProSimulator (W : Type) := mkProSimulator {
  ps_enabled : bool;
  ps_tps : Z;
  ps_client : bool;
  ps_accounts : list simAccount;
  ps_world : W
}.
Arguments mkProSimulator {W}.
Arguments ps_enabled {W}.
Arguments ps_tps {W}.
Arguments ps_client {W}.
Arguments ps_accounts {W}.
Arguments ps_world {W}.

Definition proAccounts : list simAccount := [
  mkSimAccount 0xf39Fd6e51aad88F6F4ce6aB8827279cffFb92266 "ac0974bec39a17e36ba4a6b4d238ff944bacb478cbed5efcae784d7bf4f2ff80" 0;
  mkSimAccount 0x70997970C51812dc3A010C7d01b50e0d17dc79ee "59c6995e998f97a5a0044966f0945389dc9e86dae88c7a8412f4603b6b78690d" 0;
  mkSimAccount 0x3C44CdDdB6a900fa2b585dd299e03d12FA4293BC "5de4111afa1a4b94908f83103eb1f1706367c2e68ca870fc3fb9a804cdab365a" 0].
Definition proTokens : list TokenInfo := [
  mkTokenInfo 0xA0b86991c6218b36c1d19D4a2e9Eb0cE3606eB48 "USDC" 6;
  mkTokenInfo 0xdAC17F958D2ee523a2206206994597C13D831ec7 "USDT" 6;
  mkTokenInfo 0x2260FAC5E5542a773Aa44fBCfeDf7C193bc2C599 "WBTC" 8;
  mkTokenInfo 0xC02aaA39b223FE8D0A0e5C4F27eAD9083C756Cc2 "WETH" 18].

(** [NewProSimulator]; a client that could not be dialled is nil. *)
Definition NewProSimulator {W} (dial : option GoErr) (enabled : bool) (tps : Z) (w : W) : ProSimulator W :=
  mkProSimulator enabled tps (match dial with None => true | Some _ => false end) proAccounts w.

(** [time.NewTicker(time.Second / time.Duration(tps))], in its goroutine. *)
Definition newTicker {S} (tps : Z) : GoM S Z :=
  if tps =? 0 then go_panic "runtime error: integer divide by zero"
  else let d := go_quot 1000000000 tps in
       if d <=? 0 then go_panic "non-positive interval for NewTicker" else mret d.

(** [formatAmount] of a whole number. *)
Definition formatAmount (amount decimals : Z) : Z := flt_Trunc (flt_Mul 53 (flt_SetInt amount) (flt_SetInt (10 ^ decimals))).

Definition dummyCode : list Z := hexBytes "6080604052348015600f57600080fd5b50603e80601d6000396000f3fe6080604052600080fd".

Section pro.
Context {EC : EthCrypto} {W : Type} {SW : SimWorld W}.
Local Abbreviation M := (GoM (ProSimulator W)).

Definition onNode {A} (m : GoM W A) : M A :=
zoom ps_world (λ w s, mkProSimulator (ps_enabled s) (ps_tps s) (ps_client s) (ps_accounts s) w) m.
Definition setNonce (i : nat) (n : Z) : M unit :=
modify (λ s, mkProSimulator (ps_enabled s) (ps_tps s) (ps_client s) (alter (sset_nonce n) i (ps_accounts s)) (ps_world s)).

(** The address of a random account, a random token. *)
Definition anyAccount (s : ProSimulator W) : M Z :=
k ← onNode (secureIntn (Z.of_nat (length (ps_accounts s))));
match ps_accounts s !! Z.to_nat k with Some a => mret (sa_addr a) | None => go_panic "index out of range" end.
Definition anyToken : M TokenInfo :=
k ← onNode (secureIntn (Z.of_nat (length proTokens)));
match proTokens !! Z.to_nat k with Some t => mret t | None => go_panic "index out of range" end.

Definition signAndSend (tx : TxData) (pkHex : string) : M (option GoErr) :=
match ec_HexToECDSA pkHex with
| Err e => mret (Some e)
| Ok privKey =>
  chainID ← onNode sw_ChainID;
  match chainID with
  | Err e => mret (Some e)
  | Ok chainID =>
    match ec_SignTx tx chainID privKey with
    | Err e => mret (Some e)
    | Ok signedTx => onNode (sw_SendTransaction signedTx)
    end
  end
end.

Definition sendETH (acc : simAccount) : M (option GoErr) :=
s ← gets id;
to ← anyAccount s;
k ← onNode (secureIntn 10);
signAndSend (mkTxData (sa_nonce acc) (Some to) ((1 + k) * 10 ^ 15) 21000 (10 ^ 9) []) (sa_pk acc).

(** The calldata of [transferERC20] and of [approve]. *)
Definition callData (methodID : string) (a : Z) (word : list Z) : list Z :=
(hexBytes methodID ++ ec_LeftPadBytes (addr_Bytes a) 32 ++ ec_LeftPadBytes word 32)%list.

Definition transferERC20 (acc : simAccount) : M (option GoErr) :=
s ← gets id;
token ← anyToken;
to ← anyAccount s;
k ← onNode (secureIntn 490);
let amount := formatAmount (10 + k) (ti_Decimals token) in
signAndSend (mkTxData (sa_nonce acc) (Some (ti_Address token)) 0 100000 (10 ^ 9) (callData "a9059cbb" to (big_Bytes amount))) (sa_pk acc).

Definition approve (acc : simAccount) : M (option GoErr) :=
s ← gets id;
token ← anyToken;
spender ← anyAccount s;
signAndSend (mkTxData (sa_nonce acc) (Some (ti_Address token)) 0 100000 (10 ^ 9) (callData "095ea7b3" spender (replicate 32 255))) (sa_pk acc).

Definition deployDummy (acc : simAccount) : M (option GoErr) :=
signAndSend (mkTxData (sa_nonce acc) None 0 500000 (10 ^ 9) dummyCode) (sa_pk acc).

(** [executeChaosAction]: the action the dice choose, then the nonce. *)
Definition chaosAction (action : Z) (acc : simAccount) : M (option GoErr) :=
if action <? 15 then deployDummy acc
else if action <? 40 then sendETH acc
else if action <? 60 then approve acc
else transferERC20 acc.

Definition executeChaosAction (i : nat) : M unit :=
s ← gets id;
match ps_accounts s !! i with
| None => go_panic "index out of range"
| Some acc =>
  action ← onNode (secureIntn 100);
  err ← chaosAction action acc;
  match err with
  | None =>
    setNonce i (add_u64 (sa_nonce acc) 1);;
    onNode sw_mine;;
    onNode (secureIntn 10);;
    mret tt
  | Some e =>
    if Contains (Error e) "nonce too low" then
      n ← onNode (sw_NonceAt (sa_addr acc));
      match n with Ok n => setNonce i n | Err _ => mret tt end
    else mret tt
  end
end.

(** [Start]: the nonces, then one action per tick; the actions of one account
  follow each other. *)
Fixpoint initNonces (js : list nat) : M unit :=
match js with
| [] => mret tt
| i :: rest =>
  s ← gets id;
  match ps_accounts s !! i with
  | Some acc => n ← onNode (sw_NonceAt (sa_addr acc)); match n with Ok n => setNonce i n | Err _ => mret tt end
  | None => mret tt
  end;;
  initNonces rest
end.
Definition chaosTick : M unit :=
s ← gets id;
k ← onNode (secureIntn (Z.of_nat (length (ps_accounts s))));
executeChaosAction (Z.to_nat k).
Fixpoint chaosTicks (n : nat) : M unit := match n with O => mret tt | S n' => chaosTick;; chaosTicks n' end.
Definition StartChaos (ticks : nat) : M unit :=
s ← gets id;
if negb (ps_enabled s) || negb (ps_client s) then mret tt
else
  initNonces (seq 0 (length (ps_accounts s)));;
  newTicker (ps_tps s);;
  chaosTicks ticks.
End pro.

(** ** Synthetic transfers *)

(** simulator_factory.go, [SynthesizedTransfer]; a hash is its 32 bytes or, for
    a block, the number of its bytes. *)
Record SynthesizedTransfer := mkSynthesized {
  sy_TxHash : list Z;
  sy_BlockNumber : Z;
  sy_BlockHash : Z;
  sy_TokenAddress : Z;
  sy_From : Z;
  sy_To : Z;
  sy_Amount : Z;
  sy_Timestamp : Z;
  sy_Synthesized : bool
}.

(** ** The DeFi simulator *)

Definition uniswapV3Router : Z := 0xE592427A0AEce92De3Edee1F18E0157C05861564.
Definition curvePool : Z := 0xbEbc44782C7dB0a1A60Cb6fe97d0b483032FF1C7.
Definition balancerVault : Z := 0xBA12222222228d8Ba445958a75a0704d566BF2C8.
Definition aaveV3Pool : Z := 0x87870Bca3F3fD6335C3F4ce8392D69350B4fA4E2.
Definition defiTokens : list TokenInfo :=
  (proTokens ++ [mkTokenInfo 0x6B175474E89094C44Da98b954EedeAC495271d0F "DAI" 18])%list.
Definition arbitrageBots : list Z := [
  0x742d35Cc6634C0532925a3b844Bc9e7595f0bEb0; 0x5615dEb798BB3E4dFa01397d0Db2C6b0404A38D7;
  0x3f5CE5FBFe3E9af3971dD833D26bA9b5C936f0bE].
Definition userAddresses : list Z := [
  0xf39Fd6e51aad88F6F4ce6aB8827279cffFb92266; 0x70997970C51812dc3A010C7d01b50e0d17dc79C8;
  0x3C44CdDdB6a900fa2b585dd299e03d12FA4293BC; 0x90F79bf6EB2c4f870365E785982E1f101E93b906;
  0x15d34AAf54267DB7D7c367839AAf71A00a2C6A65].

Definition byteOf (n : Z) : Z := n mod 256.
(** [generateTxHash]. *)
Definition generateTxHash (blockNumber seqNum : Z) (txType : string) : list Z :=
  ([byteOf (Z.shiftr blockNumber 24); byteOf (Z.shiftr blockNumber 16); byteOf (Z.shiftr blockNumber 8); byteOf blockNumber;
    byteOf seqNum; byteOf (Z.of_nat (String.length txType))] ++ replicate 26 0)%list.

(** [generatePowerLawAmount], from the magnitude on; the float64 constant 1e18
    as [5 ^ 18 * 2 ^ 18]. *)
Definition scalePowerLaw (magnitude decimals : Z) : Z :=
  let amount := flt_Mul 64 (flt_SetInt magnitude) (Flt (5 ^ 18) 18) in
  flt_Trunc (flt_Quo 64 amount (flt_SetInt (10 ^ decimals))).
(** [lo + mathrand.Float64() * width]. *)
Definition spread (lo width : Z) (u : float64) : float64 := float_add (float_of_Z lo) (float_mul u (float_of_Z width)).
Definition scaleTokens (base : float64) (decimals : Z) : Z :=
  flt_Trunc (flt_Mul 53 (flt_SetFloat64 base) (flt_SetInt (10 ^ decimals))).

Section defi.
Context {EC : EthCrypto} {W : Type} {SW : SimWorld W}.
Local Abbreviation M := (GoM W).

Definition pick {A} (l : list A) : M A :=
k ← secureIntn (Z.of_nat (length l));
match l !! Z.to_nat k with Some a => mret a | None => go_panic "index out of range" end.

Definition generatePowerLawAmount (decimals : Z) : M Z :=
expValue ← sw_ExpFloat64;
u ← sw_Float64;
let magnitude :=
  if float_ltb expValue (fdec 7 10) then spread 1 99 u
  else if float_ltb expValue (fdec 95 100) then spread 100 9900 u
  else spread 10000 990000 u in
mret (scalePowerLaw (int64_of_float magnitude) decimals).
Definition generateLargeAmount (decimals : Z) : M Z := u ← sw_Float64; mret (scaleTokens (spread 10000 90000 u) decimals).
Definition generateMegaAmount (decimals : Z) : M Z := u ← sw_Float64; mret (scaleTokens (spread 100000 900000 u) decimals).
Definition generateMediumAmount (decimals : Z) : M Z := u ← sw_Float64; mret (scaleTokens (spread 1000 9000 u) decimals).
Definition randomUserAddress : M Z := pick userAddresses.

Definition synthesized (now blockNumber seqNum : Z) (txType : string) (token from to amount : Z) : SynthesizedTransfer :=
mkSynthesized (generateTxHash blockNumber seqNum txType) blockNumber (ec_HexToHash ("0x" ++ pretty blockNumber)) token from to amount now true.

Definition generateSwapTransfer (now blockNumber seqNum : Z) : M SynthesizedTransfer :=
token0 ← pick defiTokens;
amountRaw ← generatePowerLawAmount (ti_Decimals token0);
from ← randomUserAddress;
mret (synthesized now blockNumber seqNum "SWAP" (ti_Address token0) from uniswapV3Router amountRaw).
Definition generateArbitrageTransfer (now blockNumber seqNum : Z) : M SynthesizedTransfer :=
bot ← pick arbitrageBots;
token0 ← pick defiTokens;
amountRaw ← generateLargeAmount (ti_Decimals token0);
mret (synthesized now blockNumber seqNum "ARBITRAGE" (ti_Address token0) bot uniswapV3Router amountRaw).
Definition generateFlashloanTransfer (now blockNumber seqNum : Z) : M SynthesizedTransfer :=
token ← pick defiTokens;
amountRaw ← generateMegaAmount (ti_Decimals token);
mret (synthesized now blockNumber seqNum "FLASHLOAN" (ti_Address token) aaveV3Pool balancerVault amountRaw).
Definition generateMEVTransfer (now blockNumber seqNum : Z) : M SynthesizedTransfer :=
bot ← pick arbitrageBots;
match defiTokens !! 3%nat with
| None => go_panic "index out of range"
| Some token =>
  amountRaw ← generateMediumAmount (ti_Decimals token);
  mret (synthesized now blockNumber seqNum "MEV" (ti_Address token) bot uniswapV3Router amountRaw)
end.

Definition generateDeFiTransfer (now seqNum : Z) : M (option SynthesizedTransfer) :=
header ← sw_HeaderByNumber;
match header with
| Err _ => mret None
| Ok (number, _) =>
  let currentBlock := big_Uint64 number in
  txType ← secureIntn 100;
  transfer ← (if txType <? 60 then generateSwapTransfer now currentBlock seqNum
              else if txType <? 80 then generateArbitrageTransfer now currentBlock seqNum
              else if txType <? 90 then generateFlashloanTransfer now currentBlock seqNum
              else generateMEVTransfer now currentBlock seqNum);
  mret (Some transfer)
end.

(** [Start]: a tick's batch of five, and the batches; the transfers are the
  values sent on the channel. *)
Definition defiBatchSize : nat := 5.
Fixpoint defiBatch (now batchCount : Z) (js : list nat) : M (list SynthesizedTransfer) :=
match js with
| [] => mret []
| i :: rest =>
  transfer ← generateDeFiTransfer now (batchCount * 10 + Z.of_nat i);
  sent ← defiBatch now batchCount rest;
  mret (option_list transfer ++ sent)%list
end.
Fixpoint defiBatches (nows : list Z) (batchCount : Z) : M (list SynthesizedTransfer) :=
match nows with
| [] => mret []
| now :: rest =>
  sent ← defiBatch now batchCount (seq 0 defiBatchSize);
  more ← defiBatches rest (batchCount + 1);
  mret (sent ++ more)%list
end.
Definition StartDeFi (enabled : bool) (tps : Z) (nows : list Z) : M (list SynthesizedTransfer) :=
if enabled then newTicker tps;; defiBatches nows 0 else mret [].

(** ** The injector *)

Definition mockTokens : list Z := take 3 (ti_Address <$> proTokens).
Definition mockWallets : list Z := [
  0x70997970C51812dc3A010C7d01b50e0d17dc79ee; 0x3C44CdDdB6a900fa2b585dd299e03d12FA4293BC;
  0x90F79bf6EB2c4f870365E785982E1f101E93b906; 0x15d34AAf54267DB7D7c367839AAf71A00a2C6A65].

(** [for to == from]: [None] when the draws allowed have run out. *)
Fixpoint drawOther (fuel : nat) (from : Z) : M (option Z) :=
to ← pick mockWallets;
if to =? from then match fuel with O => mret None | S fuel' => drawOther fuel' from end else mret (Some to).

(** [generateMockTransfer]; the hash is [BytesToHash] of the two bytes. *)
Definition generateMockTransfer (fuel : nat) (now seqNum : Z) : M (option SynthesizedTransfer) :=
token ← pick mockTokens;
from ← pick mockWallets;
to ← drawOther fuel from;
match to with
| None => mret None
| Some to =>
  k ← secureIntn 1000;
  currentBlock ← sw_HeaderByNumber;
  match currentBlock with
  | Err _ => mret None
  | Ok (number, hash) =>
    mret (Some (mkSynthesized (replicate 31 0 ++ [byteOf seqNum])%list (big_Uint64 number) hash token from to ((k + 1) * 1000000000) now true))
  end
end.
Fixpoint injectAll (fuel : nat) (nows : list Z) (seqNum : Z) : M (list SynthesizedTransfer) :=
match nows with
| [] => mret []
| now :: rest =>
  transfer ← generateMockTransfer fuel now seqNum;
  more ← injectAll fuel rest (match transfer with Some _ => seqNum + 1 | None => seqNum end);
  mret (option_list transfer ++ more)%list
end.
(** The ticker's interval and [Start]; [SetRateLimit] changes a field nobody
  reads again. *)
Definition rateLimit : Z := 500000000.
Definition StartInjector (fuel : nat) (enabled : bool) (nows : list Z) : M (list SynthesizedTransfer) :=
if enabled then injectAll fuel nows 0 else mret [].
End defi.

(** ** Lemmas: amounts and bytes *)

(** A rounding that loses nothing. *)
Lemma setExpAndRound_exact (prec c t e : Z) :
  0 < c < 2 ^ prec → 0 < prec ≤ 100 → 0 ≤ t ≤ 1000 → -1000 ≤ e ≤ 1000 → 0 ≤ t + e →
  flt_Trunc (setExpAndRound prec (c * 2 ^ t) e false) = c * 2 ^ (t + e).
Proof.
  intros Hc Hp Ht He Hte. unfold setExpAndRound, round_even.
  pose proof (Z.pow_pos_nonneg 2 t ltac:(lia) ltac:(lia)) as H2t.
  destruct (Z.eqb_spec (c * 2 ^ t) 0); [nia |].
  rewrite Z.log2_mul_pow2 by lia. assert (Hlog : 0 ≤ Z.log2 c < prec) by (split; [apply Z.log2_nonneg | apply Z.log2_lt_pow2; lia]).
  (* truncation of a multiple of the power it is divided by *)
  assert (Htr : ∀ q k, q * 2 ^ k = c * 2 ^ t → 0 ≤ k ≤ t → flt_Trunc (Flt q (e + k)) = c * 2 ^ (t + e)).
  { intros q k Hq Hk. unfold flt_Trunc, flt_Int.
    assert (Hval : q = c * 2 ^ (t - k)).
    { apply (Z.mul_reg_r _ _ (2 ^ k)); [apply Z.pow_nonzero; lia |]. rewrite Hq, <- Z.mul_assoc, <- Z.pow_add_r by lia. do 2 f_equal; lia. }
    destruct (Z.leb_spec 0 (e + k)); simpl.
    - rewrite Hval, <- Z.mul_assoc, <- Z.pow_add_r by lia. do 2 f_equal; lia.
    - rewrite Hval. replace (t - k) with ((t + e) + (- (e + k))) by lia. rewrite Z.pow_add_r, Z.mul_assoc by lia.
      apply Z.div_mul, Z.pow_nonzero; lia. }
  assert (Hexp : ∀ q k, q * 2 ^ k = c * 2 ^ t → 0 ≤ k → MinExp ≤ flt_exp q (e + k) ≤ MaxExp).
  { intros q k Hq Hk. unfold flt_exp, MinExp, MaxExp. assert (0 < q) by (pose proof (Z.pow_pos_nonneg 2 k ltac:(lia) Hk); nia).
    pose proof (Z.log2_mul_pow2 q k ltac:(lia) Hk) as Hl. rewrite Hq, Z.log2_mul_pow2 in Hl by lia. lia. }
  destruct (Z.leb_spec (t + Z.log2 c + 1 - prec) 0) as [| Hx].
  - specialize (Hexp (c * 2 ^ t) 0 ltac:(lia) ltac:(lia)). specialize (Htr (c * 2 ^ t) 0 ltac:(lia) ltac:(lia)).
    rewrite Z.add_0_r in *. rewrite (proj2 (Z.ltb_ge _ MinExp)), (proj2 (Z.ltb_ge MaxExp _)) by lia. exact Htr.
  - set (x := t + Z.log2 c + 1 - prec) in *.
    assert (Hdiv : c * 2 ^ t = c * 2 ^ (t - x) * 2 ^ x) by (rewrite <- Z.mul_assoc, <- Z.pow_add_r by lia; do 2 f_equal; lia).
    assert (H2x : 2 ^ x ≠ 0) by (apply Z.pow_nonzero; lia).
    rewrite Hdiv, Z.mod_mul, Z.div_mul by done.
    assert (Hh : 0 < 2 ^ (x - 1)) by (apply Z.pow_pos_nonneg; lia).
    rewrite (proj2 (Z.ltb_ge (2 ^ (x - 1)) 0)), (proj2 (Z.eqb_neq 0 (2 ^ (x - 1)))) by lia. cbn [andb orb]. rewrite Z.add_0_r.
    specialize (Hexp (c * 2 ^ (t - x)) x ltac:(lia) ltac:(lia)). specialize (Htr (c * 2 ^ (t - x)) x ltac:(lia) ltac:(lia)).
    rewrite (proj2 (Z.ltb_ge _ MinExp)), (proj2 (Z.ltb_ge MaxExp _)) by lia. exact Htr.
Qed.

Lemma pow10_split d : 0 ≤ d → 10 ^ d = 5 ^ d * 2 ^ d.
Proof. intros Hd. rewrite <- Z.pow_mul_l. done. Qed.

Lemma pow5_bound d : 0 ≤ d ≤ 18 → 1 ≤ 5 ^ d ≤ 5 ^ 18.
Proof. intros Hd. split; [pose proof (Z.pow_pos_nonneg 5 d); lia | apply Z.pow_le_mono_r; lia]. Qed.

Lemma formatAmount_exact n d : 0 < n < 2 ^ 11 → 0 ≤ d ≤ 18 → formatAmount n d = n * 10 ^ d.
Proof.
  intros Hn Hd. pose proof (pow5_bound d Hd). unfold formatAmount, flt_SetInt.
  rewrite (proj2 (Z.eqb_neq n 0)), (proj2 (Z.eqb_neq (10 ^ d) 0)) by (try apply Z.pow_nonzero; lia). unfold flt_Mul.
  rewrite pow10_split, Z.mul_assoc by lia. rewrite setExpAndRound_exact by nia. rewrite Z.add_0_r. done.
Qed.

Lemma scalePowerLaw_exact mag d : 0 < mag < 2 ^ 22 → 0 ≤ d ≤ 18 → scalePowerLaw mag d = mag * 10 ^ (18 - d).
Proof.
  intros Hm Hd. pose proof (pow5_bound d Hd). pose proof (pow5_bound (18 - d) ltac:(lia)).
  unfold scalePowerLaw, flt_SetInt.
  rewrite (proj2 (Z.eqb_neq mag 0)), (proj2 (Z.eqb_neq (10 ^ d) 0)) by (try apply Z.pow_nonzero; lia). unfold flt_Mul at 1, setExpAndRound at 1.
  rewrite (proj2 (Z.eqb_neq (mag * 5 ^ 18) 0)), round_even_fits by lia.
  assert (Hl : 0 ≤ Z.log2 (mag * 5 ^ 18) < 64) by (split; [apply Z.log2_nonneg | apply Z.log2_lt_pow2; lia]).
  unfold flt_exp at 1 2, MinExp, MaxExp. rewrite (proj2 (Z.ltb_ge _ (-2147483648))), (proj2 (Z.ltb_ge 2147483647 _)) by lia.
  unfold flt_Quo. set (s := Z.max 0 _).
  assert (Hl10 : 3 * d ≤ Z.log2 (10 ^ d) ≤ 60).
  { split; [apply Z.log2_le_pow2; [pose proof (Z.pow_pos_nonneg 10 d); lia |]; rewrite Z.pow_mul_r by lia; apply Z.pow_le_mono_l; lia |].
    apply Z.lt_le_incl. apply Z.log2_lt_pow2; [pose proof (Z.pow_pos_nonneg 10 d); lia |].
    apply (Z.le_lt_trans _ (10 ^ 18)); [apply Z.pow_le_mono_r; lia | done]. }
  assert (Hs : d + 2 < s ≤ 126) by (unfold s; lia).
  assert (E : mag * 5 ^ 18 * 2 ^ s = mag * 5 ^ (18 - d) * 2 ^ (s - d) * 10 ^ d).
  { assert (P5 : 5 ^ 18 = 5 ^ (18 - d) * 5 ^ d) by (rewrite <- Z.pow_add_r by lia; f_equal; lia).
    assert (P2 : 2 ^ s = 2 ^ (s - d) * 2 ^ d) by (rewrite <- Z.pow_add_r by lia; f_equal; lia).
    rewrite pow10_split, P5, P2 by lia. ring. }
  rewrite E, Z.div_mul, Z.mod_mul by (apply Z.pow_nonzero; lia). cbn [negb Z.eqb].
  rewrite setExpAndRound_exact by nia. replace (s - d + (0 + 18 - 0 - s)) with (18 - d) by lia.
  rewrite pow10_split by lia. ring.
Qed.

Lemma SetBytes_snoc l b : SetBytes (l ++ [b])%list = SetBytes l * 256 + b.
Proof. unfold SetBytes. by rewrite foldl_app. Qed.

Lemma SetBytes_zeros k l : SetBytes (replicate k 0 ++ l)%list = SetBytes l.
Proof. unfold SetBytes. rewrite foldl_app. f_equal. induction k; [done | simpl; exact IHk]. Qed.

Lemma SetBytes_fixed k n : 0 ≤ n < 256 ^ Z.of_nat k → SetBytes (fixedBytes k n) = n ∧ length (fixedBytes k n) = k.
Proof.
  revert n. induction k as [| k IH]; intros n Hn; [change (256 ^ Z.of_nat 0) with 1 in Hn; assert (n = 0) as -> by lia; done |]. simpl. rewrite SetBytes_snoc, length_app. simpl.
  rewrite Nat2Z.inj_succ, Z.pow_succ_r in Hn by lia.
  destruct (IH (n / 256)) as [-> ->]; [split; [apply Z.div_pos; lia | apply Z.div_lt_upper_bound; lia] |].
  split; [pose proof (Z.div_mod n 256 ltac:(lia)); lia | lia].
Qed.

Lemma SetBytes_big fuel k n : 0 ≤ n < 2 ^ Z.of_nat fuel → n < 256 ^ Z.of_nat k →
  SetBytes (bigBytes_fuel fuel n) = n ∧ (length (bigBytes_fuel fuel n) ≤ k)%nat.
Proof.
  revert k n. induction fuel as [| fuel IH]; intros k n Hn Hk; [change (2 ^ Z.of_nat 0) with 1 in Hn; assert (n = 0) as -> by lia; split; [done | simpl; lia] |]. simpl.
  rewrite Nat2Z.inj_succ, Z.pow_succ_r in Hn by lia.
  destruct (Z.leb_spec n 0); [assert (n = 0) as -> by lia; split; [done | simpl; lia] |].
  destruct k as [| k]; [change (256 ^ Z.of_nat 0) with 1 in Hk; lia |]. rewrite Nat2Z.inj_succ, Z.pow_succ_r in Hk by lia.
  rewrite SetBytes_snoc, length_app. simpl.
  destruct (IH k (n / 256)) as [-> Hlen].
  - split; [apply Z.div_pos; lia | apply Z.div_lt_upper_bound; lia].
  - apply Z.div_lt_upper_bound; lia.
  - split; [pose proof (Z.div_mod n 256 ltac:(lia)); lia | lia].
Qed.

Lemma big_Bytes_spec n k : 0 ≤ n < 256 ^ Z.of_nat k → SetBytes (big_Bytes n) = n ∧ (length (big_Bytes n) ≤ k)%nat.
Proof.
  intros Hn. apply SetBytes_big; [| lia]. rewrite Z2Nat.id by (pose proof (Z.log2_nonneg n); lia).
  destruct (decide (n = 0)) as [-> | H0]; [done |]. pose proof (Z.log2_spec n ltac:(lia)). rewrite Z.add_1_r. lia.
Qed.

(** The two hashes agree exactly when the block agrees modulo [2 ^ 32], the
    sequence number modulo 256 and the length of the type. *)
Lemma generateTxHash_eq b s t b' s' t' : 0 ≤ b → 0 ≤ b' →
  generateTxHash b s t = generateTxHash b' s' t' ↔
  b mod 2 ^ 32 = b' mod 2 ^ 32 ∧ s mod 256 = s' mod 256 ∧
  Z.of_nat (String.length t) mod 256 = Z.of_nat (String.length t') mod 256.
Proof.
  intros Hb Hb'. unfold generateTxHash, byteOf. rewrite !Z.shiftr_div_pow2 by lia.
  split.
  - intros H. injection H as H1 H2 H3 H4 H5 H6. split_and!; [| done..].
    Z.div_mod_to_equations. lia.
  - intros (H1 & -> & ->).
    assert (b / 2 ^ 24 mod 256 = b' / 2 ^ 24 mod 256 ∧ b / 2 ^ 16 mod 256 = b' / 2 ^ 16 mod 256 ∧
            b / 2 ^ 8 mod 256 = b' / 2 ^ 8 mod 256 ∧ b mod 256 = b' mod 256) as (-> & -> & -> & ->); [| done].
    Z.div_mod_to_equations. lia.
Qed.

(** ** Lemmas: the chaos generator *)

Section pro_lemmas.
Context {EC : EthCrypto} {W : Type} {SW : SimWorld W}.
Implicit Types (s : ProSimulator W) (w : W) (acc : simAccount).

(** The nonces of the chain only grow, those of orphans never. *)
Definition grows w w' : Prop := (∀ a, sw_count w a ≤ sw_count w' a) ∧ (∀ a, orphan a → sw_count w' a = sw_count w a).
#[local] Instance grows_preorder : PreOrder grows.
Proof.
split; [by intros w; split |]. intros w1 w2 w3 [H1 K1] [H2 K2]. split; [intros a; etrans; eauto | intros a Ha; rewrite K2, K1; auto].
Qed.
Lemma grows_same w w' : sw_count w' = sw_count w → grows w w'.
Proof. intros E. split; intros; by rewrite E. Qed.

(** Only the world has changed, and grown. *)
Definition later_world s s' : Prop :=
ps_enabled s' = ps_enabled s ∧ ps_tps s' = ps_tps s ∧ ps_client s' = ps_client s ∧ ps_accounts s' = ps_accounts s ∧
grows (ps_world s) (ps_world s').
#[local] Instance later_world_preorder : PreOrder later_world.
Proof.
split; [by intros s; split_and! |]. intros s1 s2 s3 (A1 & A2 & A3 & A4 & A5) (B1 & B2 & B3 & B4 & B5).
split_and!; try congruence. by transitivity (ps_world s2).
Qed.

Lemma onNode_wp {A} (m : GoM W A) s (Q : outcome A → ProSimulator W → Prop) :
wp m (λ o w', ∃ a, o = Val a ∧ grows (ps_world s) w' ∧ ∀ s', later_world s s' → ps_world s' = w' → Q (Val a) s') (ps_world s) →
wp (onNode m) Q s.
Proof. intros H. apply wp_zoom. eapply wp_mono; [exact H |]. intros o w' (a & -> & Hg & HQ). apply HQ; [by split_and! | done]. Qed.

Lemma randInt_wp n s (Q : outcome Z → ProSimulator W → Prop) :
0 < n → (∀ x s', 0 ≤ x < n → later_world s s' → Q (Val x) s') → wp (onNode (secureIntn n)) Q s.
Proof.
intros Hn HQ. apply onNode_wp. unfold secureIntn. rewrite (proj2 (Z.leb_gt n 0)) by lia.
apply wp_bind. eapply wp_mono; [by apply sw_randInt_spec |]. intros o w' (r & -> & Hc & Hr). apply wp_ret.
eexists. split; [done |]. split; [by apply grows_same |]. intros s' Hs _. apply HQ; [destruct r; [by apply Hr | lia] | done].
Qed.

Lemma anyAccount_wp t s (Q : outcome Z → ProSimulator W → Prop) :
ps_accounts t ≠ [] → (∀ a s', later_world s s' → Q (Val a) s') → wp (anyAccount t) Q s.
Proof.
intros Hne HQ. assert (Hlen : 0 < Z.of_nat (length (ps_accounts t))) by (destruct (ps_accounts t); [done | simpl; lia]).
apply wp_bind, randInt_wp; [done |]. intros k s' Hk Hs.
destruct (lookup_lt_is_Some_2 (ps_accounts t) (Z.to_nat k)) as [acc ->]; [lia |]. by apply wp_ret, HQ.
Qed.
Lemma anyToken_wp s (Q : outcome TokenInfo → ProSimulator W → Prop) :
(∀ t s', t ∈ proTokens → later_world s s' → Q (Val t) s') → wp anyToken Q s.
Proof.
intros HQ. apply wp_bind, randInt_wp; [done |]. intros k s' Hk Hs.
destruct (lookup_lt_is_Some_2 proTokens (Z.to_nat k)) as [t E]; [simpl in *; lia |]. rewrite E.
apply wp_ret, HQ; [by eapply list_elem_of_lookup_2 | done].
Qed.

(** Signing and sending returns; a nonce the chain has passed is refused. *)
Lemma signAndSend_wp tx pk s (Q : outcome (option GoErr) → ProSimulator W → Prop) :
(∀ e s', later_world s s' →
   (∀ key, ec_HexToECDSA pk = Ok key → td_Nonce tx < sw_count (ps_world s) (ec_Address key) → e ≠ None) → Q (Val e) s') →
wp (signAndSend tx pk) Q s.
Proof.
intros HQ. unfold signAndSend. destruct (ec_HexToECDSA pk) as [key | err] eqn:Ek; [| by apply wp_ret, HQ].
apply wp_bind, onNode_wp. eapply wp_mono; [apply sw_ChainID_spec |]. intros o w1 (r & -> & Hc).
exists r. split; [done |]. split; [by apply grows_same |]. intros s1 Hs1 Hw1.
destruct r as [chainID | err]; [| by apply wp_ret, HQ].
destruct (ec_SignTx tx chainID key) as [signed | err] eqn:Es; [| by apply wp_ret, HQ].
apply ec_SignTx_spec in Es as [Etx Efrom]. apply onNode_wp. eapply wp_mono; [apply sw_Send_spec |].
intros o w2 (e & -> & Hm & Ho & Hlow). exists e. split; [done |]. split; [by split |]. intros s2 Hs2 _. apply HQ; [by transitivity s1 |].
intros key' [= <-] Hlt. destruct Hlow as (err & -> & _); [| done].
rewrite Etx, Efrom. destruct Hs1 as (_ & _ & _ & _ & Hg & _). specialize (Hg (ec_Address key)). lia.
Qed.

(** So does each action; only the account's key and nonce matter. *)
Lemma chaosAction_wp action acc s (Q : outcome (option GoErr) → ProSimulator W → Prop) :
ps_accounts s ≠ [] →
(∀ e s', later_world s s' →
   (∀ key, ec_HexToECDSA (sa_pk acc) = Ok key → sa_nonce acc < sw_count (ps_world s) (ec_Address key) → e ≠ None) → Q (Val e) s') →
wp (chaosAction action acc) Q s.
Proof.
intros Hne HQ.
assert (Hsend : ∀ tx s1, td_Nonce tx = sa_nonce acc → later_world s s1 → wp (signAndSend tx (sa_pk acc)) Q s1).
{ intros tx s1 Hn H1. apply signAndSend_wp. intros e s2 H2 He. apply HQ; [by transitivity s1 |]. intros key Hk Hlt.
  apply (He key Hk). destruct H1 as (_ & _ & _ & _ & Hg & _). specialize (Hg (ec_Address key)). lia. }
unfold chaosAction. case_match; [by apply Hsend |]. case_match; [| case_match].
- apply wp_bind, wp_gets, wp_bind, anyAccount_wp; [done |]. intros a s1 L1. apply wp_bind, randInt_wp; [done |].
  intros k s2 _ L2. apply Hsend; [done | by transitivity s1].
- apply wp_bind, wp_gets, wp_bind, anyToken_wp. intros t s1 _ L1. apply wp_bind, anyAccount_wp; [done |].
  intros a s2 L2. apply Hsend; [done | by transitivity s1].
- apply wp_bind, wp_gets, wp_bind, anyToken_wp. intros t s1 _ L1. apply wp_bind, anyAccount_wp; [done |].
  intros a s2 L2. apply wp_bind, randInt_wp; [done |]. intros k s3 _ L3. apply Hsend; [done |].
  transitivity s1; [done |]. by transitivity s2.
Qed.

(** An account whose address is not that of its key, which the chain has moved
  past the nonce it starts from. *)
Definition stuck (i : nat) (key : ec_Key) s : Prop :=
∃ acc, ps_accounts s !! i = Some acc ∧ ec_HexToECDSA (sa_pk acc) = Ok key ∧ orphan (sa_addr acc) ∧
  sw_count (ps_world s) (sa_addr acc) = 0 ∧ 0 < sw_count (ps_world s) (ec_Address key) ∧ sa_nonce acc = 0.

Lemma stuck_later i key s s' : stuck i key s → later_world s s' → stuck i key s'.
Proof.
intros (acc & Ha & Hk & Ho & Hz & Hp & Hn) (_ & _ & _ & E & Hg & Hgo). exists acc. rewrite E, (Hgo _ Ho).
specialize (Hg (ec_Address key)). split_and!; try done. lia.
Qed.

Lemma stuck_other i j key n s s' :
stuck i key s → j ≠ i → later_world s s' →
stuck i key (mkProSimulator (ps_enabled s') (ps_tps s') (ps_client s') (alter (sset_nonce n) j (ps_accounts s')) (ps_world s')).
Proof.
intros Hs Hj Hl. destruct (stuck_later _ _ _ _ Hs Hl) as (acc & Ha & H). exists acc. split; [| exact H].
simpl. by rewrite list_lookup_alter_ne.
Qed.

(** Reading its nonce leaves it where it was. *)
Lemma resync_stuck i j key acc s (k : unit → GoM (ProSimulator W) unit) (Q : outcome unit → ProSimulator W → Prop) :
stuck i key s → ps_accounts s !! j = Some acc →
(∀ s', stuck i key s' → length (ps_accounts s') = length (ps_accounts s) → ps_tps s' = ps_tps s → wp (k tt) Q s') →
wp ((n ← onNode (sw_NonceAt (sa_addr acc)); match n with Ok n => setNonce j n | Err _ => mret tt end) ≫= k) Q s.
Proof.
intros Hst Hj Hk. apply wp_bind, wp_bind, onNode_wp. eapply wp_mono; [apply sw_NonceAt_spec |].
intros o w' (r & -> & Hc & Hr). exists r. split; [done |]. split; [by apply grows_same |]. intros s' Hs' Hw'.
pose proof (stuck_later _ _ _ _ Hst Hs') as Hst'. pose proof Hs' as (_ & Et & _ & Ea & _).
destruct r as [n | e]; [| apply wp_ret, Hk; [done | by rewrite Ea | done]].
apply wp_modify, Hk; [| simpl; by rewrite length_alter, Ea | done].
destruct (decide (j = i)) as [-> | Hne]; [| by apply (stuck_other _ _ _ _ s)].
destruct Hst as (acc0 & Ha & Hkey & Ho & Hz & Hp & Hn). rewrite Ha in Hj. simplify_eq. rewrite (Hr n eq_refl), Hz.
destruct Hst' as (acc1 & Ha1 & Hkey1 & Ho1 & Hz1 & Hp1 & Hn1). rewrite Ea, Ha in Ha1. simplify_eq.
exists (sset_nonce 0 acc1). simpl. rewrite list_lookup_alter_eq, Ea, Ha. split_and!; [done | exact Hkey1 | exact Ho1 | exact Hz1 | exact Hp1 | done].
Qed.

(** One action, of this account or another. *)
Lemma executeChaosAction_stuck i j key s :
stuck i key s → (j < length (ps_accounts s))%nat →
wp (executeChaosAction j)
   (λ o s', o = Val tt ∧ stuck i key s' ∧ length (ps_accounts s') = length (ps_accounts s) ∧ ps_tps s' = ps_tps s) s.
Proof.
intros Hst Hj. apply wp_bind, wp_gets. unfold id. destruct (lookup_lt_is_Some_2 (ps_accounts s) j Hj) as [acc Ej]. rewrite Ej.
apply wp_bind, randInt_wp; [done |]. intros action s1 _ L1. apply wp_bind, chaosAction_wp.
{ destruct L1 as (_ & _ & _ & -> & _). by intros E; rewrite E in Ej. }
intros e s2 L2 He. assert (L : later_world s s2) by (by transitivity s1).
pose proof (stuck_later _ _ _ _ Hst L) as Hst2. pose proof L as (_ & Et & _ & Ea & _).
destruct e as [err |].
- destruct (Contains (Error err) "nonce too low").
  + assert (Hr : wp ((n ← onNode (sw_NonceAt (sa_addr acc)); match n with Ok n => setNonce j n | Err _ => mret tt end) ≫= mret)
       (λ o s', o = Val tt ∧ stuck i key s' ∧ length (ps_accounts s') = length (ps_accounts s) ∧ ps_tps s' = ps_tps s) s2).
    { apply (resync_stuck i j key acc); [done | by rewrite Ea |]. intros s' Hs' Hl Ht. apply wp_ret. rewrite Hl, Ht, Ea, Et. done. }
    unfold wp, mbind, GoM_bind in *. destruct (onNode (sw_NonceAt (sa_addr acc)) s2) as [s3 [r | why]]; [| exact Hr].
    destruct r; exact Hr.
  + apply wp_ret. by rewrite Ea, Et.
- assert (Hne : j ≠ i).
  { intros ->. destruct Hst as (acc0 & Ha & Hkey & Ho & Hz & Hp & Hn). rewrite Ej in Ha. simplify_eq.
    apply (He key Hkey); [| done]. destruct L1 as (_ & _ & _ & _ & Hg & _). specialize (Hg (ec_Address key)). lia. }
  apply wp_bind, wp_modify. set (s3 := mkProSimulator _ _ _ _ _).
  assert (H3 : stuck i key s3 ∧ length (ps_accounts s3) = length (ps_accounts s) ∧ ps_tps s3 = ps_tps s).
  { split_and!; [by apply (stuck_other _ _ _ _ s) | simpl; by rewrite length_alter, Ea | exact Et]. }
  clearbody s3. destruct H3 as (H3 & H3l & H3t).
  apply wp_bind, onNode_wp. eapply wp_mono; [apply sw_mine_spec |]. intros o w' (m & -> & Hm). exists m.
  split; [done |]. split; [done |]. intros s4 L4 _. apply wp_bind, randInt_wp; [done |]. intros x s5 _ L5.
  assert (L35 : later_world s3 s5) by (by transitivity s4). apply wp_ret. pose proof L35 as (_ & E5 & _ & A5 & _).
  rewrite E5, A5. split_and!; [done | by apply (stuck_later _ _ s3) | done | done].
Qed.

Lemma initNonces_stuck i key js s (k : unit → GoM (ProSimulator W) unit) (Q : outcome unit → ProSimulator W → Prop) :
stuck i key s →
(∀ s', stuck i key s' → length (ps_accounts s') = length (ps_accounts s) → ps_tps s' = ps_tps s → wp (k tt) Q s') →
wp (initNonces js ≫= k) Q s.
Proof.
revert s. induction js as [| j js IH]; intros s Hst Hk; [by apply wp_bind, wp_ret, Hk |].
simpl. apply wp_bind, wp_bind, wp_gets. unfold id. destruct (ps_accounts s !! j) as [acc |] eqn:Ej.
- apply (resync_stuck i j key acc s (λ _, initNonces js)); [done | done |]. intros s' Hs' Hl Ht.
  pose proof (IH s' Hs') as H'. assert (Hk' : wp (initNonces js ≫= k) Q s').
  { apply H'. intros s2 H2 Hl2 Ht2. apply Hk; [done | congruence | congruence]. }
  unfold wp, mbind, GoM_bind in *. destruct (initNonces js s') as [s2 [[] | why]]; exact Hk'.
- apply wp_bind, wp_ret. assert (Hk' : wp (initNonces js ≫= k) Q s) by (by apply IH).
  unfold wp, mbind, GoM_bind in *. destruct (initNonces js s) as [s2 [[] | why]]; exact Hk'.
Qed.

Lemma chaosTicks_stuck i key n s :
stuck i key s → wp (chaosTicks n) (λ o s', o = Val tt ∧ stuck i key s') s.
Proof.
revert s. induction n as [| n IH]; intros s Hst; [by apply wp_ret |].
assert (Hlen : 0 < Z.of_nat (length (ps_accounts s))).
{ destruct Hst as (acc & Ha & _). apply lookup_lt_Some in Ha. lia. }
apply wp_bind, wp_bind, wp_gets, wp_bind, randInt_wp; [exact Hlen |]. intros k s1 Hk L1.
pose proof (stuck_later _ _ _ _ Hst L1) as Hst1. pose proof L1 as (_ & _ & _ & Ea & _).
eapply wp_mono; [apply (executeChaosAction_stuck i _ key); [done | rewrite Ea; unfold id in Hk; lia] |].
intros o s2 (-> & H2 & _). by apply IH.
Qed.
End pro_lemmas.

(** ** Theorems *)

(** An account that signs with a foreign key stops for good.  When the address
    listed for an account is not the address of its key, the node's nonce of that
    address stays 0.  Once the key has sent something (in an earlier run, say)
    every action of the account is refused with "nonce too low", the resync reads
    the nonce of the wrong address and the next action is refused again: through
    any number of actions of all accounts, whatever the dice, its nonce stays 0
    and every action it might take next fails.  Nothing panics. *)
Theorem mismatched_account_never_sends {EC : EthCrypto} {W} {SW : SimWorld W} (i : nat) (key : ec_Key) (ticks : nat) (s : ProSimulator W) :
  stuck i key s → 0 < ps_tps s ≤ 1000000000 →
  wp (StartChaos ticks) (λ o s', o = Val tt ∧ ∃ acc, ps_accounts s' !! i = Some acc ∧ sa_nonce acc = 0 ∧
     ∀ action, wp (chaosAction action acc) (λ r _, ∃ e, r = Val (Some e)) s') s.
Proof.
  intros Hst Htps.
  assert (Hend : ∀ s', stuck i key s' → ∃ acc, ps_accounts s' !! i = Some acc ∧ sa_nonce acc = 0 ∧
     ∀ action, wp (chaosAction action acc) (λ r _, ∃ e, r = Val (Some e)) s').
  { intros s' (acc & Ha & Hk & Ho & Hz & Hp & Hn). exists acc. split_and!; [done | done |]. intros action.
    apply chaosAction_wp; [by intros E; rewrite E in Ha |]. intros e s2 _ He.
    specialize (He key Hk). destruct e as [e |]; [by exists e |]. destruct He; [lia | done]. }
  unfold StartChaos. apply wp_bind, wp_gets. unfold id. case_match; [apply wp_ret; split; [done | by apply Hend] |].
  apply (initNonces_stuck i key); [done |]. intros s1 H1 _ Ht1. apply wp_bind. unfold newTicker.
  rewrite (proj2 (Z.eqb_neq (ps_tps s) 0)) by lia. unfold go_quot. cbv zeta.
  assert (Hq : 0 < Z.quot 1000000000 (ps_tps s)).
  { rewrite Z.quot_div_nonneg by lia. apply Z.div_str_pos. lia. }
  rewrite (proj2 (Z.leb_gt _ 0)) by lia. apply wp_ret.
  eapply wp_mono; [by apply (chaosTicks_stuck i key) |]. intros o s2 [-> H2]. split; [done | by apply Hend].
Qed.

(** The transfer's calldata decodes to what was drawn: the selector, the
    receiver in its word, and exactly [n] tokens in the base unit: the product
    in [big.Float] loses nothing. *)
Theorem transfer_calldata {EC : EthCrypto} (a n d : Z) :
  0 ≤ a < 2 ^ 160 → 10 ≤ n < 500 → 0 ≤ d ≤ 18 →
  let data := callData "a9059cbb" a (big_Bytes (formatAmount n d)) in
  length data = 68%nat ∧ take 4 data = [0xa9; 0x05; 0x9c; 0xbb] ∧
  SetBytes (take 32 (drop 4 data)) = a ∧ SetBytes (drop 36 data) = n * 10 ^ d.
Proof.
  intros Ha Hn Hd. rewrite formatAmount_exact by lia. intros data.
  destruct (SetBytes_fixed 20 a) as [Hav Hal]; [exact Ha |].
  assert (Hamt : 0 ≤ n * 10 ^ d < 256 ^ Z.of_nat 32).
  { assert (1 ≤ 10 ^ d ≤ 10 ^ 18) by (split; [pose proof (Z.pow_pos_nonneg 10 d); lia | apply Z.pow_le_mono_r; lia]). split; [nia |].
    apply (Z.le_lt_trans _ (500 * 10 ^ 18)); [nia | done]. }
  destruct (big_Bytes_spec _ 32 Hamt) as [Hbv Hbl].
  unfold data, callData. rewrite !ec_LeftPadBytes_spec by (unfold addr_Bytes; rewrite ?Hal; lia).
  set (h := hexBytes "a9059cbb"). set (w1 := (replicate _ 0 ++ addr_Bytes a)%list). set (w2 := (replicate _ 0 ++ big_Bytes _)%list).
  assert (H1 : length w1 = 32%nat) by (unfold w1, addr_Bytes; rewrite length_app, length_replicate, Hal; lia).
  assert (H2 : length w2 = 32%nat) by (unfold w2; rewrite length_app, length_replicate; lia).
  assert (Hd1 : drop 4 (h ++ w1 ++ w2) = (w1 ++ w2)%list) by (apply (drop_app_length' h); done).
  split_and!.
  - rewrite !length_app, H1, H2. done.
  - by rewrite (take_app_length' h).
  - rewrite Hd1, take_app_length' by done. unfold w1. by rewrite SetBytes_zeros.
  - replace 36%nat with (4 + 32)%nat by done. rewrite <- drop_drop, Hd1, drop_app_length' by done. unfold w2. by rewrite SetBytes_zeros.
Qed.

(** The hashes of the synthetic transfers repeat: the DeFi simulator's every 128
    batches within a block (and between blocks [2 ^ 32] apart), an arbitrage and a
    flashloan of the same number share theirs. *)
Lemma defi_hashes_repeat (block batch i : Z) (t : string) : 0 ≤ block →
  generateTxHash block ((batch + 128) * 10 + i) t = generateTxHash block (batch * 10 + i) t ∧
  generateTxHash block (batch * 10 + i) "ARBITRAGE" = generateTxHash block (batch * 10 + i) "FLASHLOAN" ∧
  generateTxHash (block + 2 ^ 32) (batch * 10 + i) t = generateTxHash block (batch * 10 + i) t.
Proof.
  intros Hb. split_and!; (apply generateTxHash_eq; [lia | lia |]); split_and!; try done.
  - replace ((batch + 128) * 10 + i) with (batch * 10 + i + 5 * 256) by lia. apply Z.mod_add. done.
  - rewrite <- (Z.mul_1_l (2 ^ 32)) at 1. apply Z.mod_add. done.
Qed.

Section injector.
Context {EC : EthCrypto} {W : Type} {SW : SimWorld W}.

Lemma secureIntn_wp n w (Q : outcome Z → W → Prop) :
0 < n → (∀ x w', 0 ≤ x < n → Q (Val x) w') → wp (secureIntn n) Q w.
Proof.
intros Hn HQ. unfold secureIntn. rewrite (proj2 (Z.leb_gt n 0)) by lia. apply wp_bind.
eapply wp_mono; [by apply sw_randInt_spec |]. intros o w' (r & -> & _ & Hr). apply wp_ret, HQ. destruct r; [by apply Hr | lia].
Qed.
Lemma pick_wp {A} (l : list A) w (Q : outcome A → W → Prop) :
l ≠ [] → (∀ x w', x ∈ l → Q (Val x) w') → wp (pick l) Q w.
Proof.
intros Hl HQ. assert (0 < Z.of_nat (length l)) by (destruct l; [done | simpl; lia]).
apply wp_bind, secureIntn_wp; [done |]. intros k w' Hk.
destruct (lookup_lt_is_Some_2 l (Z.to_nat k)) as [x E]; [lia |]. rewrite E. apply wp_ret, HQ. by eapply list_elem_of_lookup_2.
Qed.
Lemma drawOther_wp fuel from w (Q : outcome (option Z) → W → Prop) :
(∀ to w', (∀ t, to = Some t → t ≠ from ∧ t ∈ mockWallets) → Q (Val to) w') → wp (drawOther fuel from) Q w.
Proof.
intros HQ. revert w. induction fuel as [| fuel IH]; intros w; simpl; apply wp_bind, pick_wp; try done; intros t w' Ht;
  (destruct (Z.eqb_spec t from) as [-> | Hne]; [| by apply wp_ret, HQ; intros t' [= <-]]).
- by apply wp_ret, HQ.
- apply IH.
Qed.

(** What the injector sends: two different wallets, a listed token, an amount of
  one to a thousand units of [10 ^ 9] (the comment says 18 decimals), and the
  number's last byte as its hash. *)
Lemma generateMockTransfer_spec fuel now seqNum w :
(∀ w, wp sw_HeaderByNumber (λ o _, ∃ r, o = Val r) w) →
wp (generateMockTransfer fuel now seqNum) (λ o _, ∃ t, o = Val t ∧ ∀ y, t = Some y →
   sy_From y ≠ sy_To y ∧ sy_From y ∈ mockWallets ∧ sy_To y ∈ mockWallets ∧ sy_TokenAddress y ∈ mockTokens ∧
   10 ^ 9 ≤ sy_Amount y ≤ 10 ^ 12 ∧ sy_TxHash y = (replicate 31 0 ++ [seqNum mod 256])%list) w.
Proof.
intros Hh. apply wp_bind, pick_wp; [done |]. intros token w1 Htok. apply wp_bind, pick_wp; [done |]. intros from w2 Hfrom.
apply wp_bind, drawOther_wp. intros to w3 Hto. destruct to as [to |]; [| by apply wp_ret; eexists].
destruct (Hto to eq_refl) as [Hne Hin]. apply wp_bind, secureIntn_wp; [done |]. intros k w4 Hk.
apply wp_bind. eapply wp_mono; [apply Hh |]. intros o w5 (r & ->). destruct r as [[number hash] | e]; [| by apply wp_ret; eexists].
apply wp_ret. eexists. split; [done |]. intros y [= <-]. simpl. split_and!; [by intros E; apply Hne | done.. | lia | lia | done].
Qed.

(** Without a random source the loop for a second wallet never ends, whatever
  the draws allowed, and keeps the injector's lock. *)
Lemma injector_hangs_without_randomness fuel w :
(∀ w n, ∃ e w', sw_randInt n w = (w', Val (Err e))) →
wp (generateMockTransfer fuel 0 0) (λ o _, o = Val None) w ∧
∀ w, wp (drawOther fuel 0x70997970C51812dc3A010C7d01b50e0d17dc79ee) (λ o _, o = Val None) w.
Proof.
intros Hr.
assert (Hp : ∀ A (l : list A) x w (Q : outcome A → W → Prop), l !! 0%nat = Some x → (∀ w', Q (Val x) w') → wp (pick l) Q w).
{ intros A l x w0 Q Hx HQ. assert (0 < Z.of_nat (length l)) by (apply lookup_lt_Some in Hx; lia).
  apply wp_bind. unfold secureIntn. rewrite (proj2 (Z.leb_gt _ 0)) by lia. apply wp_bind. unfold wp at 1.
  destruct (Hr w0 (Z.of_nat (length l))) as (e & w' & ->). simpl. apply wp_ret. change (Z.to_nat 0) with 0%nat. rewrite Hx. by apply wp_ret. }
assert (Hd : ∀ w, wp (drawOther fuel 0x70997970C51812dc3A010C7d01b50e0d17dc79ee) (λ o _, o = Val None) w).
{ induction fuel as [| fuel' IH]; intros w0; simpl; apply wp_bind; (eapply Hp; [reflexivity |]); intros w'; [by apply wp_ret | apply IH]. }
split; [| exact Hd]. apply wp_bind. eapply Hp; [reflexivity |]. intros w1. apply wp_bind. eapply Hp; [reflexivity |]. intros w2.
apply wp_bind. eapply wp_mono; [apply Hd |]. intros o w3 ->. by apply wp_ret.
Qed.
End injector.

(** The ticker: a rate that is not between one and 10^9 per second panics in
    its goroutine. *)
Lemma newTicker_panics {S} (tps : Z) (s : S) :
  - 2 ^ 62 ≤ tps ≤ 2 ^ 62 → (¬ 1 ≤ tps ≤ 1000000000 ↔ ∃ why, snd (newTicker tps s) = Panic why).
Proof.
  intros Hr. unfold newTicker, go_quot. destruct (Z.eqb_spec tps 0) as [-> | Hne]; [split; [intros _; by eexists | lia] |]. cbv zeta.
  destruct (Z.leb_spec (Z.quot 1000000000 tps) 0) as [Hq | Hq]; simpl.
  - split; [intros _; by eexists |]. intros _ Ht. rewrite Z.quot_div_nonneg in Hq by lia.
    pose proof (Z.div_str_pos 1000000000 tps ltac:(lia)). lia.
  - split; [| by intros [why [=]]]. intros Ht. exfalso. destruct (Z.lt_ge_cases tps 0).
    + pose proof (Z.quot_opp_r 1000000000 tps Hne). pose proof (Z.quot_pos 1000000000 (- tps) ltac:(lia) ltac:(lia)). lia.
    + rewrite Z.quot_small in Hq by lia. lia.
Qed.

(** ** Witnesses *)

(** Keys are numbers; their addresses lie below zero, so that every listed
    address is foreign.  The node keeps the nonces and mines at once. *)
#[export] Program Instance toyCrypto : EthCrypto := {|
  ec_Key := Z;
  ec_HexToECDSA := λ pk, Ok (Z.of_nat (String.length pk));
  ec_Address := λ k, - Z.abs k - 1;
  ec_SignTx := λ tx chain key, Ok (mkSignedTx tx (- Z.abs key - 1));
  ec_LeftPadBytes := λ b n, (replicate (n - length b) 0 ++ b)%list;
  ec_HexToHash := λ s, 0
|}.
Next Obligation. by intros tx chain key s [= <-]. Qed.
Next Obligation. done. Qed.

Definition toyNode : Type := list (Z * Z).
Definition toyCount (w : toyNode) (a : Z) : Z := foldr (λ e n, if e.1 =? a then Z.max e.2 n else n) 0 w.
Definition toySend (s : SignedTx) : GoM toyNode (option GoErr) := λ w,
  let c := toyCount w (stx_from s) in
  if td_Nonce (stx_tx s) <? c then (w, Val (Some (Errorf "nonce too low")))
  else if stx_from s <? 0 then ((stx_from s, c + 1) :: w, Val None)
  else (w, Val (Some (Errorf "unknown account"))).

#[export] Program Instance toyWorld : SimWorld toyNode := {|
  sw_randInt := λ n, mret (Ok (n / 2));
  sw_ExpFloat64 := mret f0;
  sw_Float64 := mret f0;
  sw_NonceAt := λ a w, (w, Val (Ok (toyCount w a)));
  sw_ChainID := mret (Ok 31337);
  sw_SendTransaction := toySend;
  sw_mine := mret None;
  sw_HeaderByNumber := mret (Ok (1, 0));
  sw_count := toyCount
|}.
Next Obligation.
  intros n w Hn. apply wp_ret. eexists. split_and!; [done | done |]. intros x [= <-].
  split; [apply Z.div_pos; lia | apply Z.div_lt_upper_bound; lia].
Qed.
Next Obligation. intros a w. eexists. split_and!; [done | done |]. by intros n [= <-]. Qed.
Next Obligation. intros w. apply wp_ret. by eexists. Qed.
Next Obligation.
  intros [tx from] w. unfold wp, toySend. simpl. destruct (Z.ltb_spec (td_Nonce tx) (toyCount w from)); simpl.
  { eexists. split_and!; [done | done | done |]. intros _. eexists. by split. }
  destruct (Z.ltb_spec from 0); simpl; eexists; (split; [done |]); split_and!; try done; try lia.
  - intros a. simpl. destruct (Z.eqb_spec from a); simpl; lia.
  - intros a Ha. simpl. destruct (Z.eqb_spec from a) as [-> |]; [| done]. exfalso. apply (Ha (- a - 1)). simpl. lia.
Qed.
Next Obligation. intros w. apply wp_ret. by eexists. Qed.

(** The generator as [main] starts it, on a chain where the key has sent. *)
Definition toyChaos : ProSimulator toyNode := NewProSimulator None true 10 [(-65, 3)].
Lemma mismatched_account_never_sends_witness :
  ∃ acc, ps_accounts (fst (StartChaos 5 toyChaos)) !! 1%nat = Some acc ∧ sa_nonce acc = 0.
Proof.
  destruct (mismatched_account_never_sends (EC := toyCrypto) 1 64 5 toyChaos) as (_ & acc & Ha & Hn & _).
  - eexists. split; [reflexivity |]. split; [reflexivity |]. split; [intros k; simpl; lia |]. by vm_compute.
  - done.
  - exists acc. split; [exact Ha | exact Hn].
Defined.

Lemma transfer_calldata_witness : length (callData "a9059cbb" 1 (big_Bytes (formatAmount 10 6))) = 68%nat.
Proof. destruct (transfer_calldata 1 10 6) as [H _]; [lia | lia | lia | exact H]. Defined.

(** Fifty tokens with six decimals come out a million times too large, with
    eighteen as fifty of the smallest units: the precision is divided by instead
    of multiplied with. *)
Example power_law_inverted : scalePowerLaw 50 6 = 50 * 10 ^ 12 ∧ scalePowerLaw 50 18 = 50.
Proof. by vm_compute. Qed.
