(* ===== verification/Events.v ===== *)
(** * What the Processor shows (internal/engine/processor_block_part1.go,
    processor_core.go)

    The gas leaderboard of a block, the events handed to the hook, the metrics
    of a block, the accessors and the retry worker.  Iterating over a Go map and
    [sort.Slice] leave the order open: [GoRange] says what is known of it. *)

From S2P Require Import Prelude GoInt Types Codecs Database Processor Json Monitor Metrics Policy Enricher Simulator.
From Stdlib Require Import ZArith Lia Ascii String SpecFloat.
From stdpp Require Import base gmap strings sorting list pretty.
Open Scope string_scope.
Open Scope Z_scope.

(** ** The gas leaderboard *)

(** models/types.go, [GasSpender]. *)
Record GasSpender := mkGasSpender { gs_Address : string; gs_Label : string; gs_TotalGas : Z; gs_TotalFee : string }.

#[export] Instance GasSpender_eq_dec : EqDecision GasSpender.
Proof. solve_decision. Defined.

(** [result[i].TotalGas > result[j].TotalGas]. *)
Definition moreGas (a b : GasSpender) : Prop := gs_TotalGas b < gs_TotalGas a.
Definition gasOrdered (a b : GasSpender) : Prop := gs_TotalGas b ≤ gs_TotalGas a.

(** The order of [range spenders] and of equal elements after [sort.Slice]. *)
Class GoRange := {
  range_spenders : gmap string GasSpender → list GasSpender;
  range_spenders_perm m : range_spenders m ≡ₚ (map_to_list m).*2;
  sort_spenders : list GasSpender → list GasSpender;
  sort_spenders_perm l : sort_spenders l ≡ₚ l;
  sort_spenders_sorted l : StronglySorted gasOrdered (sort_spenders l)
}.

(** The receiver, in lower case. *)
Definition spenderOf (tx : Tx) : string :=
  match tx_To tx with Some to => ToLower to | None => "0xcontract_creation" end.
(** [tx.Gas() * tx.GasPrice()]: the limit, not what was used. *)
Definition txFee (tx : Tx) : Z := tx_Gas tx * tx_GasPrice tx.

(** One transaction of the loop. *)
Definition addSpending (spenders : gmap string GasSpender) (tx : Tx) : gmap string GasSpender :=
  let to := spenderOf tx in
  match spenders !! to with
  | Some s =>
    let existingFee := default 0 (SetString10 (gs_TotalFee s)) in
    <[to := mkGasSpender (gs_Address s) (gs_Label s) (add_u64 (gs_TotalGas s) (tx_Gas tx)) (pretty (existingFee + txFee tx))]> spenders
  | None => <[to := mkGasSpender to (GetAddressLabel to) (tx_Gas tx) (pretty (txFee tx))]> spenders
  end.

(** Four decimals of the number [t / 10000]. *)
Definition zeroPad (n : nat) (s : string) : string := String.concat "" (replicate (n - String.length s) "0") ++ s.
Definition fixed4 (t : Z) : string := pretty (t / 10 ^ 4) ++ "." ++ zeroPad 4 (pretty (t mod 10 ^ 4)).

(** [fmt.Sprintf("%.4f", f / 1e18)] over [big.Float]: the integer sets the
    precision, at least 64 bits; the text is rounded from the quotient, halves
    to even. *)
Definition feePrec (f : Z) : Z := Z.max 64 (Z.log2 f + 1).
Definition formatFee (f : Z) : string :=
  let sign := if f <? 0 then "-" else "" in
  match flt_Quo (feePrec (Z.abs f)) (flt_SetInt (Z.abs f)) (Flt (5 ^ 18) 18) with
  | FltZero => sign ++ "0.0000"
  | FltInf => if f <? 0 then "-Inf" else "+Inf"
  | Flt m e => sign ++ fixed4 (roundHalfEven (m * 10 ^ 4) e)
  end.

(** The loop over the map: a text that is no number would be a nil [*big.Int]. *)
Fixpoint formatSpenders {S} (l : list GasSpender) : GoM S (list GasSpender) :=
  match l with
  | [] => mret []
  | s :: rest =>
    match SetString10 (gs_TotalFee s) with
    | None => go_panic "invalid memory address or nil pointer dereference"
    | Some f =>
      rest' ← formatSpenders rest;
      mret (mkGasSpender (gs_Address s) (gs_Label s) (gs_TotalGas s) (formatFee f) :: rest')
    end
  end.

(** [AnalyzeGas]. *)
Definition AnalyzeGas `{GoRange} {S} (block : EthBlock) : GoM S (list GasSpender) :=
  result ← formatSpenders (range_spenders (foldl addSpending ∅ (blk_Transactions block)));
  let result := sort_spenders result in
  mret (if (5 <? length result)%nat then take 5 result else result).

(** ** Events and metrics of a block *)

(** The calls of the event hook, with the members of the maps. *)
Inductive HookEvent : Type :=
| HkBlock (number : Z) (hash parentHash : string) (timestamp txCount latencyMs : Z) (latencyDisplay : string)
    (latestChain syncLag : Z) (tps : float64)
| HkLeaderboard (l : list GasSpender)
| HkTransfer (t : Transfer) (value blockNumber : string).

(** [p.metrics] and what the hook received. *)
Record Shown (R : Type) := mkShown { sh_metrics : option (Meter R); sh_events : list HookEvent }.
Arguments mkShown {R}.
Arguments sh_metrics {R}.
Arguments sh_events {R}.

(** [time.Since(time.Unix(sec, 0))] in nanoseconds at the time [now] (in
    nanoseconds since 1970): a [Time] counts seconds from the year 1 in an int64,
    a [Duration] saturates. *)
Definition unixToInternal : Z := 62135596800.
Definition timeSince (now sec : Z) : Z :=
  let d := now - (i64 (sec + unixToInternal) - unixToInternal) * secondNs in
  Z.max min_i64 (Z.min max_i64 d).

Section shown.
Context {R : Type} {PR : Prometheus R} {U : Uint256Lib}.
Local Abbreviation M := (GoM (Shown R)).

(** A call on [p.metrics]. *)
Definition onMetrics (c : MetricCall) : M unit := λ s,
match sh_metrics s with
| None => (s, Panic "invalid memory address or nil pointer dereference")
| Some m => let '(m', o) := metricCall c m in (mkShown (Some m') (sh_events s), o)
end.
(** [if p.metrics != nil { ... }]. *)
Definition ifMetrics (m : M unit) : M unit :=
s ← gets id; match sh_metrics s with None => mret tt | Some _ => m end.
Definition hook (e : HookEvent) : M unit := modify (λ s, mkShown (sh_metrics s) (sh_events s ++ [e])%list).

Definition latencyMs (now blockTime : Z) : Z := Z.max 0 (go_quot (timeSince now (i64 blockTime)) 1000000).
Definition latencyDisplay (chainID ms : Z) : string :=
if (chainID =? 31337) && (3600000 <? ms) then "0.00s (Replay)" else pretty ms ++ "ms".
(** The last height of the chain the metrics saw, and the lag behind it. *)
Definition latestChainOf (s : Shown R) : Z := match sh_metrics s with Some m => mt_lastChainHeight (me_core m) | None => 0 end.
Definition syncLagOf (number : Z) (s : Shown R) : Z :=
match sh_metrics s with Some m => Z.max 0 (i64 (mt_lastChainHeight (me_core m) - i64 number)) | None => 0 end.

(** The loop over the activities. *)
Fixpoint pushTransfers (activities : list Transfer) : M unit :=
match activities with
| [] => mret tt
| t :: rest =>
  ifMetrics (onMetrics (McTransferSeen (tr_Type t)));;
  hook (HkTransfer t (Uint256_String (Some (tr_Amount t))) (pretty (tr_BlockNumber t)));;
  pushTransfers rest
end.

(** [pushEvents]; [hooked]: the hook is set.  [GetWindowTPS] is called on
  [p.metrics] whether it is nil or not. *)
Definition pushEvents (hooked : bool) (chainID now : Z) (block : EthBlock) (activities : list Transfer) (leaderboard : list GasSpender) : M unit :=
if hooked then
  s ← gets id;
  let number := big_Uint64 (blk_Number block) in
  let ms := latencyMs now (blk_Time block) in
  match sh_metrics s with
  | None => go_panic "invalid memory address or nil pointer dereference"
  | Some m =>
    hook (HkBlock number (blk_Hash block) (blk_ParentHash block) (blk_Time block) (Z.of_nat (length (blk_Transactions block)))
            ms (latencyDisplay chainID ms) (latestChainOf s) (syncLagOf number s) (GetWindowTPS now (me_core m)));;
    hook (HkLeaderboard leaderboard);;
    ifMetrics (onMetrics (McActivity now (Z.of_nat (length activities))));;
    pushTransfers activities
  end
else mret tt.

(** [Duration.Seconds()]. *)
Definition Seconds (d : Z) : float64 :=
float_add (float_of_Z (Z.quot d secondNs)) (float_div (float_of_Z (Z.rem d secondNs)) (float_of_Z secondNs)).
(** [max(0, x)] of floats. *)
Definition maxZero (x : float64) : float64 := if SFltb x (float_of_Z 0) then float_of_Z 0 else x.

(** [updateMetrics], [elapsed] after the start of the block. *)
Definition e2eLatency (now blockTime : Z) : float64 := maxZero (Seconds (timeSince now (Z.min blockTime max_i64))).
Definition updateMetrics (now elapsed : Z) (block : EthBlock) : M unit :=
ifMetrics (
  onMetrics (McBlockProcessed now (Seconds elapsed));;
  onMetrics (McSyncHeight (metricHeight (blk_Number block)));;
  onMetrics (McLatency (e2eLatency now (blk_Time block)))).

(** The end of [ProcessBlock]. *)
Definition showBlock {GO : GoRange} (hooked : bool) (chainID now elapsed : Z) (block : EthBlock) (activities : list Transfer) : M unit :=
leaderboard ← AnalyzeGas block;
pushEvents hooked chainID now block activities leaderboard;;
updateMetrics now elapsed block.
End shown.

(** ** processor_core.go: accessors and the retry worker *)

Section processor_core.
Context {AT : AddressText}.

(** [SetWatchedAddresses]: the set, which nothing reads. *)
Definition SetWatchedAddresses (addresses : list string) : gset Z := list_to_set (HexToAddress <$> addresses).

(** [GetSymbol]: through the enricher if there is one. *)
Definition prGetSymbol (addr : Z) : GoM (option MetadataEnricher) string := λ e,
match e with
| Some e => let '(e', o) := Enricher.GetSymbol addr e in (Some e', o)
| None => (None, Val (substring 0 10 (addr_Hex addr) ++ "..."))
end.
End processor_core.

(** [StartRetryWorker] over what its queue holds (nothing sends to it): one
    attempt per block, errors are logged, a panic is recovered and ends the
    worker.  The result is what is left in the queue. *)
Fixpoint retryWorker {W} {PG : Postgres W} (env : ProcEnv) (queue : list BlockData) : GoM (Processor W) (list BlockData) :=
  match queue with
  | [] => mret []
  | data :: rest => λ p,
    match ProcessBlockRetry env data 1 p with
    | (p', Val _) => retryWorker env rest p'
    | (p', Panic _) => (p', Val rest)
    end
  end.

(** ** Lemmas: the text of a fee *)

(** A quotient of integers, rounded with its remainder as the sticky bit. *)
Lemma round_even_quo prec n y e : 0 < prec → 0 < y → 2 ^ prec ≤ n / y →
  ∃ q x, round_even prec (n / y) e (negb (n mod y =? 0)) = (q, e + x) ∧ 0 < x ∧ 2 ^ (prec - 1) ≤ q ≤ 2 ^ prec ∧
         Z.abs (q * 2 ^ x * y - n) * 2 ^ prec ≤ n.
Proof.
  intros Hp Hy Hm. set (m := n / y) in *. assert (H0 : 0 < m) by (pose proof (Z.pow_pos_nonneg 2 prec); lia).
  assert (Hn : n = m * y + n mod y ∧ 0 ≤ n mod y < y).
  { split; [rewrite Z.mul_comm; apply Z.div_mod; lia | apply Z.mod_pos_bound; lia]. }
  set (rho := n mod y) in *.
  pose proof (Z.log2_spec m H0) as [Hl Hu].
  assert (Hlp : prec ≤ Z.log2 m) by by apply Z.log2_le_pow2.
  unfold round_even. destruct (Z.leb_spec (Z.log2 m + 1 - prec) 0); [lia |].
  set (x := Z.log2 m + 1 - prec) in *. set (q := m / 2 ^ x). set (r := m mod 2 ^ x).
  assert (Hx : 2 ^ x = 2 * 2 ^ (x - 1)) by (rewrite <- Z.pow_succ_r by lia; f_equal; lia).
  assert (Hxp : 0 < 2 ^ (x - 1)) by (apply Z.pow_pos_nonneg; lia).
  assert (Hqr : m = 2 ^ x * q + r ∧ 0 ≤ r < 2 ^ x) by (split; [apply Z.div_mod; lia | apply Z.mod_pos_bound; lia]).
  assert (Hpq : 2 ^ Z.log2 m = 2 ^ (prec - 1) * 2 ^ x) by (rewrite <- Z.pow_add_r by lia; f_equal; lia).
  assert (Hpp : 2 ^ Z.succ (Z.log2 m) = 2 ^ prec * 2 ^ x) by (rewrite <- Z.pow_add_r by lia; f_equal; lia).
  assert (Hph : 2 ^ prec * 2 ^ (x - 1) = 2 ^ Z.log2 m) by (rewrite <- Z.pow_add_r by lia; f_equal; lia).
  eexists _, x. split; [reflexivity |]. split; [lia |].
  assert (Hq : 2 ^ (prec - 1) ≤ q < 2 ^ prec) by (split; [apply Z.div_le_lower_bound | apply Z.div_lt_upper_bound]; lia).
  set (up := (2 ^ (x - 1) <? r) || _).
  assert (Hup : if up then 2 ^ (x - 1) ≤ r else r < 2 ^ (x - 1) ∨ (r = 2 ^ (x - 1) ∧ rho = 0)).
  { unfold up. destruct (Z.ltb_spec (2 ^ (x - 1)) r), (Z.eqb_spec r (2 ^ (x - 1))), (Z.odd q), (Z.eqb_spec rho 0); simpl; lia. }
  split; [destruct up; lia |]. set (h := 2 ^ (x - 1)) in *.
  assert (Herr : Z.abs ((q + (if up then 1 else 0)) * 2 ^ x * y - n) ≤ h * y).
  { destruct Hn as [Hn Hr], Hqr as [Hqr Hr2]. rewrite Hx. rewrite Hx in Hqr, Hr2. rewrite Hn, Hqr. destruct up; nia. }
  assert (Hmy : 2 ^ prec * h * y ≤ m * y) by nia. nia.
Qed.

Lemma roundHalfEven_near m e : 0 ≤ m →
  0 ≤ roundHalfEven m e ∧
  if 0 <=? e then roundHalfEven m e = m * 2 ^ e else 2 * Z.abs (roundHalfEven m e * 2 ^ (- e) - m) ≤ 2 ^ (- e).
Proof.
  intros Hm. unfold roundHalfEven. destruct (Z.leb_spec 0 e) as [He | He].
  { split; [| done]. pose proof (Z.pow_nonneg 2 e). nia. }
  set (D := 2 ^ (- e)). assert (HD : D = 2 * 2 ^ (- e - 1)) by (unfold D; rewrite <- Z.pow_succ_r by lia; f_equal; lia).
  assert (Hh : 0 < 2 ^ (- e - 1)) by (apply Z.pow_pos_nonneg; lia). set (h := 2 ^ (- e - 1)) in *.
  pose proof (Z.div_mod m D ltac:(lia)) as Hdm. pose proof (Z.mod_pos_bound m D ltac:(lia)) as Hr.
  assert (Hq : 0 ≤ m / D) by (apply Z.div_pos; lia).
  destruct (Z.ltb_spec h (m mod D)), (Z.eqb_spec h (m mod D)), (Z.odd (m / D)); simpl; nia.
Qed.

(** The text of a fee is that of a multiple of 0.0001 within half of it of the
    fee, up to [2 ^ -64] of the fee. *)
Definition near_fee (t f : Z) : Prop := 0 ≤ t ∧ Z.abs (t * 10 ^ 14 - f) * 2 ^ 65 ≤ 10 ^ 14 * 2 ^ 64 + 2 * f.

Lemma fee_scaled f s q x prec : 0 ≤ f → 64 ≤ prec → 0 ≤ s → 0 ≤ x → 0 ≤ q →
  Z.abs (q * 2 ^ x * 5 ^ 18 - f * 2 ^ s) * 2 ^ prec ≤ f * 2 ^ s →
  near_fee (roundHalfEven (q * 10 ^ 4) (0 - 18 - s + x)) f.
Proof.
  intros Hf Hp Hs Hx Hq Herr.
  assert (Herr64 : Z.abs (q * 2 ^ x * 5 ^ 18 - f * 2 ^ s) * 2 ^ 64 ≤ f * 2 ^ s).
  { assert (2 ^ 64 ≤ 2 ^ prec) by (apply Z.pow_le_mono_r; lia). nia. }
  clear Herr. destruct (roundHalfEven_near (q * 10 ^ 4) (0 - 18 - s + x)) as [Ht H]; [lia |].
  set (t := roundHalfEven _ _) in *. split; [done |].
  assert (H2s : 0 < 2 ^ s) by (apply Z.pow_pos_nonneg; lia). assert (H2x : 0 < 2 ^ x) by (apply Z.pow_pos_nonneg; lia).
  destruct (Z.leb_spec 0 (0 - 18 - s + x)) as [He | He].
  - assert (E : t * 10 ^ 14 * 2 ^ s = q * 2 ^ x * 5 ^ 18).
    { rewrite H. assert (Ep : 2 ^ x = 2 ^ (0 - 18 - s + x) * 2 ^ s * 2 ^ 18) by (rewrite <- !Z.pow_add_r by lia; f_equal; lia).
      rewrite Ep. change (10 ^ 4) with (5 ^ 4 * 2 ^ 4). change (10 ^ 14) with (5 ^ 14 * 2 ^ 14). ring. }
    rewrite <- E, <- Z.mul_sub_distr_r, Z.abs_mul, (Z.abs_eq (2 ^ s)) in Herr64 by lia.
    assert (Z.abs (t * 10 ^ 14 - f) * 2 ^ 64 ≤ f) by nia. lia.
  - set (k := - (0 - 18 - s + x)) in *. assert (H2k : 0 < 2 ^ k) by (apply Z.pow_pos_nonneg; lia).
    assert (Ek : 2 ^ k * 2 ^ x = 2 ^ s * 2 ^ 18) by (rewrite <- !Z.pow_add_r by lia; f_equal; lia).
    assert (H1 : Z.abs (q * 10 ^ 18 - f * 2 ^ k) * 2 ^ 64 ≤ f * 2 ^ k).
    { apply (Z.mul_le_mono_pos_r _ _ _ H2x).
      replace (Z.abs (q * 10 ^ 18 - f * 2 ^ k) * 2 ^ 64 * 2 ^ x) with (Z.abs ((q * 10 ^ 18 - f * 2 ^ k) * 2 ^ x) * 2 ^ 64)
        by (rewrite Z.abs_mul, (Z.abs_eq (2 ^ x)) by lia; ring).
      replace ((q * 10 ^ 18 - f * 2 ^ k) * 2 ^ x) with (2 ^ 18 * (q * 2 ^ x * 5 ^ 18 - f * 2 ^ s)).
      2: { change (10 ^ 18) with (5 ^ 18 * 2 ^ 18). rewrite Z.mul_sub_distr_r, <- (Z.mul_assoc f), Ek. ring. }
      rewrite Z.abs_mul, <- (Z.mul_assoc f), Ek. lia. }
    apply (Z.mul_le_mono_pos_r _ _ _ H2k).
    replace (Z.abs (t * 10 ^ 14 - f) * 2 ^ 65 * 2 ^ k) with (Z.abs ((t * 10 ^ 14 - f) * 2 ^ k) * 2 ^ 65)
      by (rewrite Z.abs_mul, (Z.abs_eq (2 ^ k)) by lia; ring).
    replace ((t * 10 ^ 14 - f) * 2 ^ k) with (10 ^ 14 * (t * 2 ^ k - q * 10 ^ 4) + (q * 10 ^ 18 - f * 2 ^ k)) by ring.
    pose proof (Z.abs_triangle (10 ^ 14 * (t * 2 ^ k - q * 10 ^ 4)) (q * 10 ^ 18 - f * 2 ^ k)) as Htri.
    rewrite (Z.abs_mul (10 ^ 14)) in Htri. lia.
Qed.

Lemma formatFee_near f : 0 ≤ f → Z.log2 f < 2 ^ 29 → ∃ t, formatFee f = fixed4 t ∧ near_fee t f.
Proof.
  intros Hf Hlog. unfold formatFee. rewrite (proj2 (Z.ltb_ge f 0)), Z.abs_eq by lia. unfold flt_SetInt.
  destruct (Z.eqb_spec f 0) as [-> | Hf0]; [exists 0; split; [done | split; lia] |].
  unfold flt_Quo. set (prec := feePrec f). set (s := Z.max 0 _).
  assert (Hprec : 64 ≤ prec ≤ 2 ^ 29) by (unfold prec, feePrec; lia).
  pose proof (Z.log2_nonneg f) as Hl0. change (Z.log2 (5 ^ 18)) with 41 in s.
  assert (Hs : 0 ≤ s ∧ prec + 2 + 41 ≤ Z.log2 f + s ∧ s ≤ prec + 43) by (unfold s; lia).
  assert (Hn : 2 ^ (prec + 2 + 41) ≤ f * 2 ^ s).
  { apply (Z.le_trans _ (2 ^ (Z.log2 f + s))); [apply Z.pow_le_mono_r; lia |]. rewrite Z.pow_add_r by lia.
    pose proof (Z.log2_spec f ltac:(lia)). pose proof (Z.pow_pos_nonneg 2 s). nia. }
  assert (Hm : 2 ^ prec ≤ f * 2 ^ s / 5 ^ 18).
  { apply Z.div_le_lower_bound; [done |]. rewrite !Z.pow_add_r in Hn by lia. change (2 ^ 2) with 4 in Hn.
    pose proof (Z.pow_pos_nonneg 2 prec). lia. }
  unfold setExpAndRound. destruct (Z.eqb_spec (f * 2 ^ s / 5 ^ 18) 0) as [E |]; [rewrite E in Hm; pose proof (Z.pow_pos_nonneg 2 prec); lia |].
  destruct (round_even_quo prec (f * 2 ^ s) (5 ^ 18) (0 - 18 - s)) as (q & x & -> & Hx & Hq & Herr); [lia | done | done |].
  assert (Hq0 : 0 < q) by (pose proof (Z.pow_pos_nonneg 2 (prec - 1)); lia).
  assert (Hql : prec - 1 ≤ Z.log2 q ≤ prec).
  { split; [apply Z.log2_le_pow2; lia | rewrite <- (Z.log2_pow2 prec) by lia; apply Z.log2_le_mono; lia]. }
  assert (Hxl : x ≤ s + Z.log2 f + 1).
  { apply Z.nlt_ge. intros Hc. assert (H2 : 2 ^ (s + Z.log2 f + 2) ≤ 2 ^ x) by (apply Z.pow_le_mono_r; lia).
    pose proof (Z.log2_spec f ltac:(lia)) as [_ Hu]. assert (E : 2 ^ (s + Z.log2 f + 2) = 2 * 2 ^ Z.succ (Z.log2 f) * 2 ^ s).
    { rewrite <- Z.pow_succ_r, <- Z.pow_add_r by lia. f_equal. lia. }
    assert (0 < 2 ^ s) by (apply Z.pow_pos_nonneg; lia). assert (2 ^ 64 ≤ 2 ^ prec) by (apply Z.pow_le_mono_r; lia). nia. }
  unfold flt_exp, MinExp, MaxExp. rewrite (proj2 (Z.ltb_ge _ (- 2 ^ 31))), (proj2 (Z.ltb_ge (2 ^ 31 - 1) _)) by lia.
  eexists. split; [reflexivity |]. apply (fee_scaled f s q x prec); lia.
Qed.

(** ** Lemmas: the leaderboard *)

(** The transactions of a receiver, and the entry they add up to. *)
Definition ownTxs (a : string) (txs : list Tx) : list Tx := filter (λ tx, spenderOf tx = a) txs.
Definition totalGas (a : string) (txs : list Tx) : Z := u64 (sumZ (tx_Gas <$> ownTxs a txs)).
Definition totalFee (a : string) (txs : list Tx) : Z := sumZ (txFee <$> ownTxs a txs).
Definition spendingOf (a : string) (txs : list Tx) : option GasSpender :=
  match ownTxs a txs with
  | [] => None
  | _ => Some (mkGasSpender a (GetAddressLabel a) (totalGas a txs) (pretty (totalFee a txs)))
  end.

Lemma ownTxs_snoc a txs tx : ownTxs a (txs ++ [tx])%list = (ownTxs a txs ++ if decide (spenderOf tx = a) then [tx] else [])%list.
Proof. unfold ownTxs. by rewrite filter_app, filter_cons, filter_nil. Qed.

Lemma spenders_spec txs a : Forall (λ tx, is_u64 (tx_Gas tx)) txs →
  foldl addSpending ∅ txs !! a = spendingOf a txs.
Proof.
  induction txs as [| tx txs IH] using rev_ind; [done |]. intros [H Hg]%Forall_app. specialize (IH H).
  apply Forall_cons in Hg as [Hg _]. rewrite foldl_app. simpl. unfold addSpending at 1.
  unfold spendingOf, totalGas, totalFee in *. rewrite ownTxs_snoc.
  destruct (decide (spenderOf tx = a)) as [<- | Hne].
  2: { rewrite app_nil_r, <- IH. destruct (foldl _ _ _ !! spenderOf tx); by rewrite lookup_insert_ne. }
  rewrite IH. destruct (ownTxs (spenderOf tx) txs) as [| t0 own] eqn:E; rewrite lookup_insert_eq.
  - simpl. unfold sumZ. simpl. rewrite !Z.add_0_r. by rewrite u64_id.
  - cbn [app gs_Address gs_Label gs_TotalGas gs_TotalFee]. rewrite SetString10_pretty.
    rewrite !(app_comm_cons own). rewrite !fmap_app, !sumZ_app. unfold add_u64, u64, wrap_u.
    rewrite Z.add_mod_idemp_l by done. cbn [default]. unfold sumZ at 3 6. simpl. by rewrite !Z.add_0_r.
Qed.

(** An entry as it is shown. *)
Definition shownSpender (s : GasSpender) : GasSpender :=
  mkGasSpender (gs_Address s) (gs_Label s) (gs_TotalGas s) (formatFee (default 0 (SetString10 (gs_TotalFee s)))).

Lemma formatSpenders_ok {S} (l : list GasSpender) (st : S) : Forall (λ s, is_Some (SetString10 (gs_TotalFee s))) l →
  formatSpenders l st = (st, Val (shownSpender <$> l)).
Proof.
  induction l as [| s l IH]; [done |]. intros [[f Hf] H]%Forall_cons. simpl. unfold shownSpender at 1. rewrite Hf.
  unfold mbind, GoM_bind. by rewrite (IH H).
Qed.

(** The leaderboard comes from the map's entries. *)
Lemma AnalyzeGas_list {GO : GoRange} block :
  let m := foldl addSpending ∅ (blk_Transactions block) in
  (∀ a g, m !! a = Some g → gs_Address g = a ∧ is_Some (SetString10 (gs_TotalFee g))) →
  ∃ l rest, (∀ S (st : S), AnalyzeGas block st = (st, Val l)) ∧ (l ++ rest)%list ≡ₚ shownSpender <$> (map_to_list m).*2 ∧
    StronglySorted gasOrdered (l ++ rest) ∧ length l = Nat.min 5 (size m).
Proof.
  intros m Hm. pose proof (range_spenders_perm m) as Hr.
  assert (Hall : Forall (λ s, is_Some (SetString10 (gs_TotalFee s))) (range_spenders m)).
  { rewrite Hr. apply Forall_forall. intros g ([a g'] & -> & Hin%elem_of_map_to_list)%list_elem_of_fmap. by eapply Hm. }
  set (sorted := sort_spenders (shownSpender <$> range_spenders m)).
  assert (Hl : length sorted = size m).
  { unfold sorted. rewrite (Permutation_length (sort_spenders_perm _)), length_fmap, Hr, length_fmap. apply length_map_to_list. }
  exists (take 5 sorted), (drop 5 sorted). rewrite take_drop. split_and!.
  - intros S st. unfold AnalyzeGas. unfold mbind, GoM_bind. fold m. rewrite (formatSpenders_ok _ st Hall). fold sorted.
    destruct (Nat.ltb_spec 5 (length sorted)); [done |]. by rewrite take_ge by lia.
  - unfold sorted. by rewrite sort_spenders_perm, Hr.
  - apply sort_spenders_sorted.
  - rewrite length_take. by rewrite Hl.
Qed.

Lemma sumZ_bound {A} (f : A → Z) (l : list A) B : Forall (λ x, 0 ≤ f x ≤ B) l → 0 ≤ sumZ (f <$> l) ≤ Z.of_nat (length l) * B.
Proof.
  induction l as [| x l IH]; [done |]. intros [Hx H]%Forall_cons. specialize (IH H). unfold sumZ in *.
  cbn [fmap list_fmap foldr length]. rewrite Nat2Z.inj_succ. nia.
Qed.

(** What go-ethereum guarantees of a decoded transaction: the gas fits 64 bits,
    the price 256. *)
Definition tx_decoded (tx : Tx) : Prop := is_u64 (tx_Gas tx) ∧ 0 ≤ tx_GasPrice tx < 2 ^ 256.

Lemma totalFee_bound a txs : Forall tx_decoded txs → Z.of_nat (length txs) < 2 ^ 64 → 0 ≤ totalFee a txs ∧ Z.log2 (totalFee a txs) < 2 ^ 29.
Proof.
  intros H Hl. assert (Hb : 0 ≤ totalFee a txs ≤ Z.of_nat (length (ownTxs a txs)) * 2 ^ 320).
  { apply sumZ_bound. apply Forall_forall. intros tx [_ Hin]%list_elem_of_filter. rewrite Forall_forall in H.
    destruct (H tx Hin) as [[H1 H2] H3]. unfold txFee, max_u64 in *. nia. }
  assert (Hlen : Z.of_nat (length (ownTxs a txs)) ≤ Z.of_nat (length txs)) by (apply Nat2Z.inj_le, length_filter).
  split; [lia |]. destruct (decide (totalFee a txs = 0)) as [-> |]; [done |].
  apply (Z.lt_trans _ 384); [| done]. apply Z.log2_lt_pow2; [lia |]. change (2 ^ 384) with (2 ^ 64 * 2 ^ 320). nia.
Qed.

Lemma spendingOf_some a txs g : spendingOf a txs = Some g ↔
  a ∈ spenderOf <$> txs ∧ g = mkGasSpender a (GetAddressLabel a) (totalGas a txs) (pretty (totalFee a txs)).
Proof.
  assert (H : a ∈ spenderOf <$> txs ↔ ownTxs a txs ≠ []).
  { rewrite list_elem_of_fmap. split.
    - intros (tx & -> & Hin) E. apply (not_elem_of_nil tx). rewrite <- E. by apply list_elem_of_filter.
    - intros Hne. destruct (ownTxs a txs) as [| tx own] eqn:E; [done |].
      assert (Hin : tx ∈ ownTxs a txs) by (rewrite E; left). apply list_elem_of_filter in Hin as [<- Hin]. by exists tx. }
  rewrite H. unfold spendingOf. destruct (ownTxs a txs); naive_solver.
Qed.

Section entries.
Context (m : gmap string GasSpender) (txs : list Tx).
Context (Hin : ∀ a g, m !! a = Some g ↔
  a ∈ spenderOf <$> txs ∧ g = mkGasSpender a (GetAddressLabel a) (totalGas a txs) (pretty (totalFee a txs))).

Lemma shown_entries g : g ∈ shownSpender <$> (map_to_list m).*2 ↔
  ∃ a, a ∈ spenderOf <$> txs ∧ g = mkGasSpender a (GetAddressLabel a) (totalGas a txs) (formatFee (totalFee a txs)).
Proof using Hin.
  split.
  - intros (g0 & -> & ([a g1] & -> & [Ha ->]%elem_of_map_to_list%Hin)%list_elem_of_fmap)%list_elem_of_fmap. exists a. split; [done |]. unfold shownSpender. simpl.
    by rewrite SetString10_pretty.
  - intros (a & Ha & ->). apply list_elem_of_fmap.
    exists (mkGasSpender a (GetAddressLabel a) (totalGas a txs) (pretty (totalFee a txs))). split.
    + unfold shownSpender. simpl. by rewrite SetString10_pretty.
    + apply list_elem_of_fmap. eexists (a, _). split; [reflexivity |]. by apply elem_of_map_to_list, Hin.
Qed.

Lemma shown_addresses : NoDup (gs_Address <$> (shownSpender <$> (map_to_list m).*2)).
Proof using Hin.
  rewrite <- !list_fmap_compose. rewrite (list_fmap_ext _ fst).
  - apply NoDup_fst_map_to_list.
  - intros i [a g] Hi. apply list_elem_of_lookup_2, elem_of_map_to_list, Hin in Hi as [_ ->]. done.
Qed.

Lemma spenders_size : size m = size (list_to_set (spenderOf <$> txs) : gset string).
Proof using Hin.
  rewrite <- size_dom. f_equal. apply set_eq. intros a. rewrite elem_of_dom, elem_of_list_to_set. unfold is_Some.
  setoid_rewrite Hin. naive_solver.
Qed.
End entries.

(** Nothing in the leaderboard panics. *)
Lemma AnalyzeGas_returns {GO : GoRange} block : Forall tx_decoded (blk_Transactions block) →
  ∃ l, ∀ S (st : S), AnalyzeGas block st = (st, Val l).
Proof.
  intros Hdec. destruct (AnalyzeGas_list block) as (l & rest & E & _).
  - intros a g. rewrite spenders_spec by (eapply Forall_impl; [exact Hdec | by intros tx [H _]]). intros [_ ->]%spendingOf_some.
    simpl. by rewrite SetString10_pretty.
  - exists l. intros S st. exact (E S st).
Qed.

(** ** Lemmas: events *)

Section shown_lemmas.
Context {R : Type} {PR : Prometheus R} {U : Uint256Lib}.

(** Working metrics, and what the hook received. *)
Definition shown_ok (evs : list HookEvent) (s : Shown R) : Prop := ∃ m, sh_metrics s = Some m ∧ meter_ok m ∧ sh_events s = evs.
Definition shownHeight (s : Shown R) : Z := match sh_metrics s with Some m => mt_lastSyncHeight (me_core m) | None => 0 end.

Lemma shown_some evs s : shown_ok evs s → is_Some (sh_metrics s).
Proof. intros (m & -> & _). by eexists. Qed.

(** An allowed call keeps them working. *)
Lemma onMetrics_wp c evs s (P : Metrics → Prop) : call_allowed c = true → shown_ok evs s →
  (∀ m, meter_ok m → sh_metrics s = Some m → wp (metricCall c) (λ _ m', P (me_core m')) m) →
  wp (onMetrics c) (λ o s', o = Val tt ∧ shown_ok evs s' ∧ ∃ m', sh_metrics s' = Some m' ∧ P (me_core m')) s.
Proof.
  intros Hc (m & E & Hm & Ev) HP. specialize (HP m Hm E). unfold wp, onMetrics in *. rewrite E.
  pose proof (metricCall_ok c m Hc Hm) as H. unfold wp in H. destruct (metricCall c m) as [m' o]. cbn [fst snd] in *. destruct H as [-> H].
  split; [done |]. split; [by exists m' |]. by exists m'.
Qed.
Lemma onMetrics_ok c evs s : call_allowed c = true → shown_ok evs s → wp (onMetrics c) (λ o s', o = Val tt ∧ shown_ok evs s') s.
Proof.
  intros Hc Hs. eapply wp_mono; [apply (onMetrics_wp c evs s (λ _, True)); [done.. |] |].
  - intros m Hm _. eapply wp_mono; [by apply metricCall_ok |]. done.
  - intros o s' (H1 & H2 & _). done.
Qed.

Lemma ifMetrics_wp (k : GoM (Shown R) unit) s (Q : outcome unit → Shown R → Prop) :
  is_Some (sh_metrics s) → wp k Q s → wp (ifMetrics k) Q s.
Proof. intros [m E] H. unfold ifMetrics. apply wp_bind, wp_gets. unfold id. by rewrite E. Qed.

Lemma hook_wp e evs s : shown_ok evs s → wp (hook e) (λ o s', o = Val tt ∧ shown_ok (evs ++ [e])%list s') s.
Proof. intros (m & E & Hm & <-). apply wp_modify. split; [done |]. by exists m. Qed.

(** Steps in a row. *)
Lemma shown_seq {B} (k : GoM (Shown R) unit) (f : GoM (Shown R) B) evs s (Q : outcome B → Shown R → Prop) :
  wp k (λ o s', o = Val tt ∧ shown_ok evs s') s → (∀ s', shown_ok evs s' → wp f Q s') → wp (k;; f) Q s.
Proof. intros Hk Hf. apply wp_bind. eapply wp_mono; [exact Hk |]. intros o s' [-> H]. by apply Hf. Qed.

Definition hookTransfer (t : Transfer) : HookEvent := HkTransfer t (Uint256_String (Some (tr_Amount t))) (pretty (tr_BlockNumber t)).

Lemma pushTransfers_wp l evs s : Forall (λ t, utf8Valid (tr_Type t) = true) l → shown_ok evs s →
  wp (pushTransfers l) (λ o s', o = Val tt ∧ shown_ok (evs ++ (hookTransfer <$> l))%list s') s.
Proof.
  intros Hl. revert evs s. induction Hl as [| t l Ht Hl IH]; intros evs s Hs; simpl; [apply wp_ret; by rewrite app_nil_r |].
  apply (shown_seq _ _ evs); [apply ifMetrics_wp; [by eapply shown_some | by apply onMetrics_ok] |]. intros s1 H1.
  apply (shown_seq _ _ (evs ++ [hookTransfer t])%list); [by apply hook_wp |]. intros s2 H2.
  eapply wp_mono; [by apply IH |]. intros o s3 [-> H3]. split; [done |]. by rewrite <- app_assoc in H3.
Qed.

(** The event of a block. *)
Definition hookBlock (chainID now : Z) (block : EthBlock) (m : Meter R) : HookEvent :=
  let number := big_Uint64 (blk_Number block) in
  let ms := latencyMs now (blk_Time block) in
  HkBlock number (blk_Hash block) (blk_ParentHash block) (blk_Time block) (Z.of_nat (length (blk_Transactions block))) ms
    (latencyDisplay chainID ms) (mt_lastChainHeight (me_core m)) (Z.max 0 (i64 (mt_lastChainHeight (me_core m) - i64 number)))
    (Monitor.GetWindowTPS now (me_core m)).
Definition hookBlockOf (chainID now : Z) (block : EthBlock) (s : Shown R) : list HookEvent :=
  match sh_metrics s with Some m => [hookBlock chainID now block m] | None => [] end.

Lemma pushEvents_wp chainID now block activities leaderboard evs s :
  Forall (λ t, utf8Valid (tr_Type t) = true) activities → shown_ok evs s →
  wp (pushEvents true chainID now block activities leaderboard) (λ o s', o = Val tt ∧
    shown_ok (evs ++ hookBlockOf chainID now block s ++ HkLeaderboard leaderboard :: (hookTransfer <$> activities))%list s') s.
Proof.
  intros Ht Hs. pose proof Hs as (m & E & Hm & Hev). unfold pushEvents, hookBlockOf. apply wp_bind, wp_gets. unfold id. rewrite E. cbv zeta.
  unfold latestChainOf, syncLagOf. rewrite E.
  apply (shown_seq _ _ (evs ++ [hookBlock chainID now block m])%list); [by apply hook_wp |]. intros s1 H1.
  eapply shown_seq; [by apply hook_wp |]. intros s2 H2.
  eapply shown_seq; [apply ifMetrics_wp; [by eapply shown_some | by apply onMetrics_ok] |]. intros s3 H3.
  eapply wp_mono; [by apply pushTransfers_wp |]. intros o s4 [-> H4]. split; [done |].
  by rewrite <- !app_assoc in H4.
Qed.

Lemma syncHeight_core h m : meter_ok m → wp (metricCall (McSyncHeight h)) (λ _ m', mt_lastSyncHeight (me_core m') = h) m.
Proof.
  intros Hr. cbn [metricCall]. unfold mUpdateCurrentSyncHeight. apply wp_bind. eapply wp_mono; [by apply on_wp |].
  intros o m1 (-> & Hr1 & Hc & _). apply wp_bind, wp_modify. unfold setLag. apply wp_bind, wp_gets.
  eapply wp_mono; [by apply on_wp |]. intros o m2 (_ & _ & -> & _). done.
Qed.
Lemma latency_core x m : meter_ok m → wp (metricCall (McLatency x)) (λ _ m', me_core m' = me_core m) m.
Proof. intros Hr. eapply wp_mono; [by apply on_wp |]. by intros o m2 (_ & _ & -> & _). Qed.

Lemma updateMetrics_wp now elapsed block evs s : shown_ok evs s →
  wp (Events.updateMetrics now elapsed block) (λ o s', o = Val tt ∧ shown_ok evs s' ∧ shownHeight s' = metricHeight (blk_Number block)) s.
Proof.
  intros Hs. unfold Events.updateMetrics. apply ifMetrics_wp; [by eapply shown_some |].
  apply (shown_seq _ _ evs); [by apply onMetrics_ok |]. intros s1 H1. apply wp_bind.
  eapply wp_mono; [apply (onMetrics_wp _ evs _ (λ c, mt_lastSyncHeight c = metricHeight (blk_Number block))); [done | done |] |].
  { intros m Hm _. by apply syncHeight_core. }
  intros o s2 (-> & H2 & m2 & E2 & Hh).
  eapply wp_mono; [apply (onMetrics_wp _ evs _ (λ c, c = me_core m2)); [done | done |] |].
  { intros m Hm E. rewrite E2 in E. simplify_eq. by apply latency_core. }
  intros o s3 (-> & H3 & m3 & E3 & Hc). split; [done |]. split; [done |]. unfold shownHeight. by rewrite E3, Hc.
Qed.
End shown_lemmas.

(** ** Properties *)

(** C31: the leaderboard of a block has one entry for each of its five largest
    receivers (fewer if it has fewer): the receiver in lower case or the text for
    contract creations, its label, the sum of the gas limits of its transactions
    modulo [2^64] and the sum of limit times price, shown in ether to four
    decimals; entries are in falling order of gas and no receiver left out has
    more. *)
Theorem leaderboard_spec {GO : GoRange} {S} (block : EthBlock) (st : S) :
  let txs := blk_Transactions block in
  Forall tx_decoded txs → Z.of_nat (length txs) < 2 ^ 64 →
  ∃ l, AnalyzeGas block st = (st, Val l) ∧
    length l = Nat.min 5 (size (list_to_set (spenderOf <$> txs) : gset string)) ∧
    StronglySorted gasOrdered l ∧ NoDup (gs_Address <$> l) ∧
    (∀ g, g ∈ l → let a := gs_Address g in
       a ∈ spenderOf <$> txs ∧ gs_Label g = GetAddressLabel a ∧ gs_TotalGas g = totalGas a txs ∧
       ∃ t, gs_TotalFee g = fixed4 t ∧ near_fee t (totalFee a txs)) ∧
    (∀ tx g, tx ∈ txs → spenderOf tx ∉ gs_Address <$> l → g ∈ l → totalGas (spenderOf tx) txs ≤ gs_TotalGas g).
Proof.
  intros txs Hdec Hlen. set (m := foldl addSpending ∅ txs).
  assert (Hm : ∀ a, m !! a = spendingOf a txs).
  { intros a. apply spenders_spec. eapply Forall_impl; [exact Hdec |]. by intros tx [H _]. }
  assert (Hin : ∀ a g, m !! a = Some g ↔ a ∈ spenderOf <$> txs ∧ g = mkGasSpender a (GetAddressLabel a) (totalGas a txs) (pretty (totalFee a txs))).
  { intros a g. rewrite Hm. apply spendingOf_some. }
  destruct (AnalyzeGas_list block) as (l & rest & E & Hp & Hs & Hl).
  { intros a g [_ ->]%Hin. simpl. by rewrite SetString10_pretty. }
  fold txs m in Hp, Hl. exists l.
  assert (Hent : ∀ g, g ∈ (l ++ rest)%list ↔ ∃ a, a ∈ spenderOf <$> txs ∧
            g = mkGasSpender a (GetAddressLabel a) (totalGas a txs) (formatFee (totalFee a txs))).
  { intros g. rewrite Hp. exact (shown_entries m txs Hin g). }
  split_and!; [done | | | | |].
  - rewrite Hl. f_equal. exact (spenders_size m txs Hin).
  - by apply StronglySorted_app_1_l in Hs.
  - apply (NoDup_app _ (gs_Address <$> rest)). rewrite <- fmap_app, Hp. exact (shown_addresses m txs Hin).
  - intros g Hg. destruct (proj1 (Hent g)) as (a & Ha & ->); [apply elem_of_app; by left |]. simpl. split_and!; [done.. |].
    destruct (totalFee_bound a txs Hdec Hlen) as [H0 H1]. by apply formatFee_near.
  - intros tx g Htx Hout Hg. pose (g' := mkGasSpender (spenderOf tx) (GetAddressLabel (spenderOf tx)) (totalGas (spenderOf tx) txs) (formatFee (totalFee (spenderOf tx) txs))).
    assert (Hg' : g' ∈ (l ++ rest)%list) by (apply Hent; exists (spenderOf tx); split; [by apply list_elem_of_fmap_2 | done]).
    apply elem_of_app in Hg' as [Hg' | Hg']; [exfalso; apply Hout, list_elem_of_fmap; by exists g' |].
    exact (StronglySorted_app_1_elem_of gasOrdered l rest g g' Hs Hg Hg').
Qed.

(** The end of the processing of a block, with the hook set and the metrics
    registered, for activities whose types are UTF-8 (the Processor's are constants): nothing panics; the hook receives the block's event, the
    leaderboard and one event per activity, in order and nothing else; the
    latency and the lag are not negative, the transactions per second are those
    before the block; the height of the metrics is the block's, as the storage
    model records it, and the metrics keep working. *)
Theorem show_block_spec {GO : GoRange} {R} {PR : Prometheus R} {U : Uint256Lib} (chainID now elapsed : Z) (block : EthBlock)
    (activities : list Transfer) (m : Meter R) (evs : list HookEvent) :
  Forall tx_decoded (blk_Transactions block) → Forall (λ t, utf8Valid (tr_Type t) = true) activities → meter_ok m →
  ∃ l m', AnalyzeGas block tt = (tt, Val l) ∧
    showBlock true chainID now elapsed block activities (mkShown (Some m) evs) =
      (mkShown (Some m') (evs ++ hookBlock chainID now block m :: HkLeaderboard l :: (hookTransfer <$> activities)), Val tt) ∧
    0 ≤ latencyMs now (blk_Time block) ∧ 0 ≤ syncLagOf (big_Uint64 (blk_Number block)) (mkShown (Some m) evs) ∧
    mt_lastSyncHeight (me_core m') = metricHeight (blk_Number block) ∧ meter_ok m'.
Proof.
  intros Hdec Ht Hm. destruct (AnalyzeGas_returns block Hdec) as [l El]. exists l.
  assert (H : wp (showBlock true chainID now elapsed block activities) (λ o s', o = Val tt ∧
    shown_ok (evs ++ hookBlock chainID now block m :: HkLeaderboard l :: (hookTransfer <$> activities))%list s' ∧
    shownHeight s' = metricHeight (blk_Number block)) (mkShown (Some m) evs)).
  { unfold showBlock. apply wp_bind. unfold wp at 1. rewrite El. apply wp_bind.
    eapply wp_mono; [apply (pushEvents_wp _ _ _ _ _ evs); [done | by exists m] |]. intros o s1 [-> H1]. by apply updateMetrics_wp. }
  unfold wp in H. destruct (showBlock _ _ _ _ _ _ _) as [[m1 evs1] o]. cbn [fst snd] in H. destruct H as (-> & (m' & E & Hm' & E2) & Hh).
  simpl in E, E2. subst m1 evs1. exists m'. split_and!; [apply El | done | | | done | done].
  - unfold latencyMs. lia.
  - unfold syncLagOf. simpl. lia.
Qed.

(** Without metrics the hook is a trap: the check for nil metrics comes before
    the call that needs them, not around it. *)
Lemma no_metrics_panics {R} {PR : Prometheus R} {U : Uint256Lib} chainID now block activities leaderboard (evs : list HookEvent) :
  pushEvents (R := R) true chainID now block activities leaderboard (mkShown None evs) =
    (mkShown None evs, Panic "invalid memory address or nil pointer dereference").
Proof. reflexivity. Qed.

(** The clamp of the block time protects the conversion, not the addition after
    it: a time too late for an int64 of seconds since the year 1 lies in the past,
    and the latency is the longest duration, 292 years. *)
Lemma future_block_latency now t : 0 ≤ now < 2 ^ 63 → 2 ^ 63 - unixToInternal ≤ t →
  timeSince now (Z.min t max_i64) = max_i64.
Proof.
  intros Hn Ht. unfold timeSince. set (u := Z.min t max_i64).
  assert (Hu : 2 ^ 63 - unixToInternal ≤ u ≤ max_i64) by (unfold u, unixToInternal, max_i64 in *; lia).
  assert (E : i64 (u + unixToInternal) = u + unixToInternal - 2 ^ 64).
  { unfold i64, wrap_s, unixToInternal, max_i64 in *.
    assert (Em : (u + 62135596800) mod 2 ^ 64 = u + 62135596800) by (apply Z.mod_small; lia). rewrite Em.
    rewrite (proj2 (Z.ltb_ge _ _)) by lia. done. }
  rewrite E. unfold secondNs, min_i64, max_i64 in *. lia.
Qed.

(** A block without a body ends the worker; what waits behind it stays. *)
Lemma retry_worker_dies {W} {PG : Postgres W} (env : ProcEnv) (n r : option Z) (logs : list Log) (rest : list BlockData) (p : Processor W) :
  ∃ p', retryWorker env (mkBlockData n r None None logs :: rest) p = (p', Val rest).
Proof. by eexists. Qed.

(** ** Witnesses *)

#[export] Instance gasOrdered_dec : RelDecision gasOrdered.
Proof. intros a b. unfold gasOrdered. apply _. Defined.
#[export] Instance gasOrdered_total : Total gasOrdered.
Proof. intros a b. unfold gasOrdered. lia. Qed.
#[export] Instance gasOrdered_trans : Transitive gasOrdered.
Proof. intros a b c. unfold gasOrdered. lia. Qed.

Definition keyOrder : GoRange := {|
  range_spenders m := (map_to_list m).*2;
  range_spenders_perm m := reflexivity _;
  sort_spenders := merge_sort gasOrdered;
  sort_spenders_perm := merge_sort_Permutation gasOrdered;
  sort_spenders_sorted := StronglySorted_merge_sort gasOrdered
|}.

Definition gasBlock : EthBlock := mkEthBlock 7 "0x07" "0x06" 1700000000 30000000 84000 None
  [mkTx "0xa" (Some "0xF00D") 1 21000 2000000000; mkTx "0xb" None 0 900000 1000000000;
   mkTx "0xc" (Some "0xf00d") 5 42000 3000000000].

Lemma gasBlock_decoded : Forall tx_decoded (blk_Transactions gasBlock).
Proof. repeat apply Forall_cons_2; try apply Forall_nil_2; unfold tx_decoded, is_u64, max_u64; simpl; lia. Qed.

Example gas_leaderboard :
  let GO := keyOrder in
  AnalyzeGas gasBlock tt = (tt, Val [mkGasSpender "0xcontract_creation" "" 900000 "0.0009"; mkGasSpender "0xf00d" "" 63000 "0.0002"]).
Proof. by vm_compute. Qed.

Lemma leaderboard_spec_witness :
  let GO := keyOrder in ∃ l, AnalyzeGas gasBlock tt = (tt, Val l) ∧ length l = 2%nat ∧ StronglySorted gasOrdered l.
Proof.
  intros GO. destruct (leaderboard_spec gasBlock tt gasBlock_decoded) as (l & E & Hl & Hs & _); [by vm_compute |].
  exists l. split; [exact E |]. split; [| exact Hs]. rewrite Hl. by vm_compute.
Defined.

Definition freshMeter : Meter Registry :=
  mkMeter (fst (Metrics.NewMetrics (mkRegistry ∅ ∅))) (Monitor.NewMetrics 1700000000000000000).
Lemma freshMeter_ok : meter_ok freshMeter.
Proof. unfold meter_ok. by repeat apply Forall_cons_2 || apply Forall_nil_2. Qed.

Lemma show_block_spec_witness :
  let GO := keyOrder in let U := decimalUint256 in
  ∃ m', showBlock true 1 1700000001000000000 5000000 gasBlock [] (mkShown (Some freshMeter) []) =
    (mkShown (Some m') [hookBlock 1 1700000001000000000 gasBlock freshMeter;
       HkLeaderboard [mkGasSpender "0xcontract_creation" "" 900000 "0.0009"; mkGasSpender "0xf00d" "" 63000 "0.0002"]], Val tt) ∧
    mt_lastSyncHeight (me_core m') = 7.
Proof.
  intros GO U.
  destruct (show_block_spec 1 1700000001000000000 5000000 gasBlock [] freshMeter [] gasBlock_decoded (Forall_nil_2 _) freshMeter_ok)
    as (l & m' & El & E & _ & _ & Hh & _).
  exists m'. split; [| exact Hh]. rewrite E. pose proof gas_leaderboard as Eg. cbv zeta in Eg. unfold GO in El. rewrite Eg in El.
  injection El as <-. done.
Defined.
