(* ===== verification/LegacyPool.v ===== *)
(** * The basic RPC pool (internal/engine/rpc_pool_core.go, rpc_pool_requests.go)
    and the settings around the enhanced one (rpc_pool_health.go)

    The pool used on main nets takes its clients in turn and passes on what the
    client answers.  The enhanced pool's rate limiters and its health-check
    goroutine follow. *)

From S2P Require Import Prelude GoInt Types RpcPool.
From Stdlib Require Import ZArith Lia String.
From stdpp Require Import base gmap strings list numbers pretty.
Open Scope string_scope.
Open Scope Z_scope.

(** ** The basic pool *)

(** rpc_types.go, [RPCClientPool]: the clients with their health, the size and
    the index. *)
Record RPCClientPool (W : Type) := mkRPCClientPool {
  bp_clients : list rpcNode;
  bp_pool : LegacyPool;
  bp_world : W
}.
Arguments mkRPCClientPool {W}.
Arguments bp_clients {W}.
Arguments bp_pool {W}.
Arguments bp_world {W}.

(** [NewRPCClientPoolWithTimeout] (the timeout is not used): what cannot be
    dialled is left out. *)
Definition NewRPCClientPoolWithTimeout {W} (urls : list string) (dial : string → option GoErr) (w : W) : result GoErr (RPCClientPool W) :=
  let clients := omap (λ u, match dial u with None => Some (mkNode u true 0 0 0 0) | Some _ => None end) urls in
  let size := i32 (Z.of_nat (length clients)) in
  if size =? 0 then Err (Errorf ("no healthy RPC nodes available (all " ++ pretty (length urls) ++ " URLs failed)"))
  else Ok (mkRPCClientPool clients (mkLegacyPool size 0) w).
Definition NewRPCClientPool {W} (urls : list string) (dial : string → option GoErr) (w : W) : result GoErr (RPCClientPool W) :=
  NewRPCClientPoolWithTimeout urls dial w.

Section basic.
Context {W : Type} (env : NodeEnv W).
Local Abbreviation M := (GoM (RPCClientPool W)).

Definition bpset_pool (v : LegacyPool) (p : RPCClientPool W) : RPCClientPool W := mkRPCClientPool (bp_clients p) v (bp_world p).
Definition bpset_world (v : W) (p : RPCClientPool W) : RPCClientPool W := mkRPCClientPool (bp_clients p) (bp_pool p) v.

(** Every method: the next client, and its answer. *)
Definition basicCall {A} (call : nat → GoM W (result GoErr A)) : M (result GoErr A) :=
node ← zoom bp_pool bpset_pool legacyGetNext;
match node with
| None => mret (Err (Errorf "no RPC nodes available"))
| Some k => zoom bp_world bpset_world (call (Z.to_nat k))
end.

Definition BlockByNumber (number : Z) : M (result GoErr EthBlock) := basicCall (λ i, ne_BlockByNumber env i number).
Definition HeaderByNumber (number : option Z) : M (result GoErr EthBlock) := basicCall (λ i, ne_HeaderByNumber env i number).
Definition FilterLogs (q : FilterQuery) : M (result GoErr (list Log)) := basicCall (λ i, ne_FilterLogs env i q).
Definition GetLatestBlockNumber : M (result GoErr Z) :=
header ← HeaderByNumber None;
mret (match header with Ok h => Ok (blk_Number h) | Err e => Err e end).

Definition GetHealthyNodeCount (p : RPCClientPool W) : Z := Z.of_nat (length (filter (λ n, isHealthy n = true) (bp_clients p))).
Definition GetTotalNodeCount (p : RPCClientPool W) : Z := Z.of_nat (length (bp_clients p)).

(** [SetRateLimit(_, _)]: nothing. *)
Definition SetRateLimit (rps : float64) (burst : Z) : M unit := mret tt.

(** [Close]: every client, in order. *)
Definition Close (close : nat → GoM W unit) : M unit :=
p ← gets id;
(fix closeAll (l : list nat) : M unit :=
   match l with [] => mret tt | i :: rest => zoom bp_world bpset_world (close i);; closeAll rest end) (seq 0 (length (bp_clients p))).

(** Calls in a row. *)
Fixpoint basicCalls {A} (calls : list (nat → GoM W (result GoErr A))) : M (list (result GoErr A)) :=
match calls with
| [] => mret []
| c :: rest => r ← basicCall c; rs ← basicCalls rest; mret (r :: rs)
end.

(** The basic pool as the engine's [RPCClient]. *)
Definition basicClient : RPCClient (RPCClientPool W) := mkRPCClient _ BlockByNumber FilterLogs GetLatestBlockNumber.
End basic.

(** ** rpc_pool_core.go: the limiters of the enhanced pool *)

(** A limiter's rate per second and burst. *)
Definition LimiterSettings : Type := float64 * Z.
Record PoolLimits := mkPoolLimits { pl_global : LimiterSettings; pl_nodes : gmap string LimiterSettings }.

(** The constructor's limiters: one for the pool, one for every URL. *)
Definition newLimits (rps : Z) (urls : list string) : PoolLimits :=
  let l := (float_of_Z rps, rps * 2) in
  mkPoolLimits l (list_to_map ((λ u, (u, l)) <$> urls)).
(** [SetRateLimit]. *)
Definition setLimits (rps : float64) (burst : Z) (rpcURLs : list string) (pl : PoolLimits) : PoolLimits :=
  mkPoolLimits (rps, burst) (foldl (λ m u, <[u := (rps, burst)]> m) (pl_nodes pl) rpcURLs).

(** ** rpc_pool_health.go *)

(** [StartHealthCheck] over some ticks: a panic is recovered and ends it. *)
Fixpoint healthLoop {W} (env : NodeEnv W) (ticks : nat) : GoM (EnhancedPool W) unit :=
  match ticks with
  | O => mret tt
  | S ticks' => λ p,
    match checkHealth env p with
    | (p', Val _) => healthLoop env ticks' p'
    | (p', Panic _) => (p', Val tt)
    end
  end.

(** ** Lemmas *)

Section lemmas.
Context {W A : Type}.

(** The index moves on by one and the client is its remainder. *)
Lemma basicCall_wp (call : nat → GoM W (result GoErr A)) (ans : nat → result GoErr A) (p : RPCClientPool W) :
  let size := lp_size (bp_pool p) in let index := lp_index (bp_pool p) in
  0 < size → 0 ≤ index → index + 1 < 2 ^ 31 →
  (∀ k w, wp (call k) (λ o _, o = Val (ans k)) w) →
  wp (basicCall call) (λ o p', o = Val (ans (Z.to_nat ((index + 1) mod size))) ∧ bp_clients p' = bp_clients p ∧
    bp_pool p' = mkLegacyPool size (index + 1)) p.
Proof.
  intros size index Hs Hi Hw Hans. apply wp_bind, wp_zoom.
  assert (E : legacyGetNext (bp_pool p) = (mkLegacyPool size (index + 1), Val (Some ((index + 1) mod size)))).
  { replace (bp_pool p) with (mkLegacyPool size index) by (unfold size, index; by destruct (bp_pool p)). apply legacyGetNext_step; [done | lia | done]. }
  unfold wp. rewrite E. cbn [fst snd]. apply wp_zoom. eapply wp_mono; [apply Hans |]. intros o w ->. by split_and!.
Qed.

Lemma basicCalls_wp (calls : list (nat → GoM W (result GoErr A))) (ans : nat → nat → result GoErr A) (p : RPCClientPool W) :
  let size := lp_size (bp_pool p) in let index := lp_index (bp_pool p) in
  0 < size → 0 ≤ index → index + Z.of_nat (length calls) < 2 ^ 31 →
  (∀ j c k w, calls !! j = Some c → wp (c k) (λ o _, o = Val (ans j k)) w) →
  wp (basicCalls calls) (λ o p', o = Val ((λ j, ans j (Z.to_nat ((index + 1 + Z.of_nat j) mod size))) <$> seq 0 (length calls)) ∧
    bp_clients p' = bp_clients p ∧ bp_pool p' = mkLegacyPool size (index + Z.of_nat (length calls))) p.
Proof.
  revert ans p. induction calls as [| c calls IH]; intros ans p size index Hs Hi Hw Hans; simpl.
  { apply wp_ret. split_and!; [done | done |]. rewrite Z.add_0_r. unfold size, index. by destruct (bp_pool p). }
  simpl length in Hw. apply wp_bind. eapply wp_mono.
  { apply (basicCall_wp c (ans 0%nat)); [done | done | lia |]. intros k w. by apply Hans. }
  intros o p1 (-> & Hc1 & Hp1). apply wp_bind. eapply wp_mono.
  { apply (IH (λ j, ans (S j)) p1); try rewrite Hp1; cbn [lp_size lp_index]; [done | lia | lia |].
    intros j c' k w Hj. by apply (Hans (S j)). }
  intros o p2 (-> & Hc2 & Hp2). apply wp_ret. rewrite Hc2, Hc1, Hp2, Hp1. cbn [lp_size lp_index]. fold size index.
  split_and!; [| done | f_equal; lia]. do 2 f_equal; [do 3 f_equal; lia |].
  rewrite <- (fmap_S_seq 0), <- list_fmap_compose. apply list_fmap_ext. intros j x _. unfold compose. do 3 f_equal. lia.
Qed.
End lemmas.

Lemma filter_all {A} (P : A → Prop) `{!∀ x, Decision (P x)} (l : list A) : Forall P l → filter P l = l.
Proof. induction 1 as [| x l Hx _ IH]; [done |]. by rewrite filter_cons_True, IH. Qed.

Lemma length_omap_le {A B} (f : A → option B) (l : list A) : (length (omap f l) ≤ length l)%nat.
Proof. induction l as [| x l IH]; [done |]. simpl. destruct (f x); simpl; change (list_omap A B f l) with (omap f l); lia. Qed.

(** Every limiter has the settings given last. *)
Lemma setLimits_all rps burst urls pl u : u ∈ urls → pl_nodes (setLimits rps burst urls pl) !! u = Some (rps, burst).
Proof.
  unfold setLimits. simpl. generalize (pl_nodes pl). induction urls as [| v urls IH] using rev_ind; intros m Hu; [by apply elem_of_nil in Hu |].
  rewrite foldl_app. simpl. destruct (decide (v = u)) as [-> | Hne]; [by rewrite lookup_insert_eq |].
  rewrite lookup_insert_ne by done. apply IH. apply elem_of_app in Hu as [Hu | ->%list_elem_of_singleton]; done.
Qed.

(** ** Properties *)

(** The basic pool has no fail-over: of a sequence of calls, before the 32-bit
    index wraps, call [j] goes to client [(index + 1 + j) mod size] and returns
    that client's answer, error or not; no client's health ever changes. *)
Theorem basic_pool_no_failover {W A} (calls : list (nat → GoM W (result GoErr A))) (ans : nat → nat → result GoErr A)
    (urls : list string) (dial : string → option GoErr) (w : W) (p : RPCClientPool W) :
  NewRPCClientPool urls dial w = Ok p → Z.of_nat (length urls) < 2 ^ 31 → Z.of_nat (length calls) < 2 ^ 31 →
  (∀ j c k w, calls !! j = Some c → wp (c k) (λ o _, o = Val (ans j k)) w) →
  let size := Z.of_nat (length (bp_clients p)) in
  0 < size ∧
  wp (basicCalls calls) (λ o p', o = Val ((λ j, ans j (Z.to_nat ((1 + Z.of_nat j) mod size))) <$> seq 0 (length calls)) ∧
    GetHealthyNodeCount p' = size ∧ GetTotalNodeCount p' = size) p.
Proof.
  intros E Hu Hcs Hans size. unfold NewRPCClientPool, NewRPCClientPoolWithTimeout in E. set (clients := omap _ urls) in E.
  assert (Hlen : (length clients ≤ length urls)%nat).
  { apply length_omap_le. }
  rewrite i32_small in E by lia. destruct (Z.eqb_spec (Z.of_nat (length clients)) 0); [done |]. injection E as <-.
  split; [unfold size; simpl; lia |]. eapply wp_mono; [apply (basicCalls_wp _ ans); simpl; [lia | done | lia | done] |].
  intros o p' (-> & Hc & _). simpl. split; [done |]. unfold GetHealthyNodeCount, GetTotalNodeCount. rewrite Hc. simpl. split; [| done].
  f_equal. f_equal. apply filter_all. unfold clients. apply Forall_forall. intros node (u & _ & E)%list_elem_of_omap.
  destruct (dial u); [done |]. by simplify_eq.
Qed.

(** ** Witnesses *)

Lemma basic_pool_no_failover_witness :
  let ans (j k : nat) : result GoErr Z := if (k =? 1)%nat then Err (Errorf "down") else Ok (Z.of_nat k) in
  let call (k : nat) : GoM unit (result GoErr Z) := mret (ans 0%nat k) in
  ∃ p, NewRPCClientPool ["http://a"; "http://b"] (λ _, None) tt = Ok p ∧
    snd (basicCalls [call; call; call] p) = Val [Err (Errorf "down"); Ok 0; Err (Errorf "down")].
Proof.
  intros ans call. eexists. split; [reflexivity |].
  destruct (basic_pool_no_failover [call; call; call] ans ["http://a"; "http://b"] (λ _, None) tt _ eq_refl) as (_ & H).
  - done.
  - done.
  - intros j c k w Hj. assert (c = call) as ->; [| done]. destruct j as [| [| [| j]]]; simpl in Hj; by simplify_eq.
  - destruct H as [H _]. exact H.
Defined.
