(* ===== verification/Sockets.v ===== *)
(** * Websocket connections (internal/web/hub.go)

    The origin check, the request that joins the hub, and the two pumps of a
    connection: the reader with its deadline and its messages, the writer that
    takes from the client's channel.  The connection is what it delivers and how
    it answers writes; times are nanoseconds. *)

From S2P Require Import Prelude GoInt Types Json Policy WebHub.
From Stdlib Require Import ZArith Lia String.
From stdpp Require Import base gmap strings list.
Open Scope string_scope.
Open Scope Z_scope.

Definition writeWait : Z := 30 * 1000000000.
Definition pongWait : Z := 60 * 1000000000.
Definition pingPeriod : Z := go_quot (pongWait * 9) 10.
Definition maxMessageSize : Z := 512.

(** ** Joining *)

(** [upgrader.CheckOrigin]. *)
Definition CheckOrigin (origin : string) : bool :=
  if String.eqb origin "" then true
  else if Contains origin "localhost" || Contains origin "127.0.0.1" || Contains origin "mp1" then true
  else Contains origin "st6160.click".

Section handle.
Context (marshal : HubEvent → option string).

(** [HandleWS]: [upgrade] is the answer of the upgrader past the origin check.
  Whether the pumps were started. *)
Definition HandleWS (origin : string) (upgrade : option GoErr) (c : nat) : GoM Hub bool :=
if CheckOrigin origin then
  match upgrade with
  | Some _ => mret false
  | None => hubStep marshal (HcRegister c);; mret true
  end
else mret false.
End handle.

(** ** The reader *)

(** The struct that [readPump] decodes. *)
Record ClientMsg := mkClientMsg { cm_Type : string; cm_Address : string; cm_Status : string }.

Definition intoData (d : string * string) (v : Json) : option (string * string) :=
  match v with
  | JObj fs =>
    address ← foldl (λ acc v, acc ≫= λ a, intoString a v) (Some (fst d)) (fieldValues "address" fs);
    status ← foldl (λ acc v, acc ≫= λ a, intoString a v) (Some (snd d)) (fieldValues "status" fs);
    Some (address, status)
  | JNull => Some d
  | _ => None
  end.
(** [json.Unmarshal]; [None] is text that is no JSON. *)
Definition decodeMsg (message : option Json) : option ClientMsg :=
  match message with
  | Some JNull => Some (mkClientMsg "" "" "")
  | Some (JObj fs) =>
    type ← decodeField "" intoString "type" fs;
    d ← decodeField ("", "") intoData "data" fs;
    Some (mkClientMsg type (fst d) (snd d))
  | _ => None
  end.

(** What arrives, with its time. *)
Inductive ReadEvent : Type := RePong (t : Z) | ReMessage (t size : Z) (message : option Json) | ReFail (t : Z).
Definition re_time (e : ReadEvent) : Z := match e with RePong t | ReMessage t _ _ | ReFail t => t end.

(** The read deadline, the calls of the two callbacks, whether the pump runs,
    and what its [defer] did. *)
Record Reader := mkReader {
  rd_deadline : Z;
  rd_activity : nat;
  rd_meta : list string;
  rd_running : bool;
  rd_unregistered : bool
}.

Section reader.
(** Whether [OnActivity] and [OnNeedMeta] are set. *)
Context (hasActivity hasMeta : bool).

Definition activity (n : nat) : nat := if hasActivity then n else 0%nat.

(** [defer]: the client unregisters and the connection is closed. *)
Definition stopReader (r : Reader) : Reader := mkReader (rd_deadline r) (rd_activity r) (rd_meta r) false true.

(** The calls that a message brings about. *)
Definition metaOf (message : option Json) : list string :=
match decodeMsg message with
| Some msg => if String.eqb (cm_Type msg) "NEED_METADATA" && hasMeta then [cm_Address msg] else []
| None => []
end.
Definition beatsOf (message : option Json) : nat :=
match decodeMsg message with
| Some msg => if String.eqb (cm_Type msg) "HEARTBEAT" then 1%nat else 0%nat
| None => 0%nat
end.

(** One event: past the deadline, or over the read limit, [ReadMessage] fails.
  A pong moves the deadline. *)
Definition readStep (r : Reader) (e : ReadEvent) : Reader :=
if rd_running r then
  if rd_deadline r <? re_time e then stopReader r
  else
    match e with
    | RePong t => mkReader (t + pongWait) (rd_activity r + activity 1) (rd_meta r) true (rd_unregistered r)
    | ReMessage t size message =>
      if maxMessageSize <? size then stopReader r
      else mkReader (rd_deadline r) (rd_activity r + activity (1 + beatsOf message)) (rd_meta r ++ metaOf message) true (rd_unregistered r)
    | ReFail _ => stopReader r
    end
else r.

(** [readPump] from the time it starts. *)
Definition readPump (start : Z) (events : list ReadEvent) : Reader :=
foldl readStep (mkReader (start + pongWait) 0 [] true false) events.

(** The messages the pump reads. *)
Definition messagesOf (events : list ReadEvent) : list (option Json) :=
omap (λ e, match e with ReMessage _ _ m => Some m | _ => None end) events.
Definition pongsOf (events : list ReadEvent) : list Z :=
omap (λ e, match e with RePong t => Some t | _ => None end) events.
End reader.

(** ** The writer *)

Inductive WriteEvent : Type := WeMessage (message : string) | WeClosed | WeTick.
(** The answers of [NextWriter], [Write] and [Close], or of [WriteMessage]. *)
Record WriteAnswer := mkWriteAnswer { wa_next : option GoErr; wa_write : option GoErr; wa_close : option GoErr }.
(** What reaches the peer: [FrBroken] is a frame whose text could not be
    written whole. *)
Inductive Frame : Type := FrText (message : string) | FrBroken | FrPing | FrClose.

Record Writer := mkWriter { wr_frames : list Frame; wr_running : bool; wr_closed : bool }.

Definition stopWriter (frames : list Frame) : Writer := mkWriter frames false true.

(** One iteration; an error of [Write] is only logged. *)
Definition writeStep (answer : WriteAnswer) (w : Writer) (e : WriteEvent) : Writer :=
  if wr_running w then
    let frames := wr_frames w in
    match e with
    | WeClosed => stopWriter (match wa_write answer with None => frames ++ [FrClose] | Some _ => frames end)
    | WeMessage message =>
      match wa_next answer with
      | Some _ => stopWriter frames
      | None =>
        match wa_close answer with
        | Some _ => stopWriter frames
        | None => mkWriter (frames ++ [match wa_write answer with None => FrText message | Some _ => FrBroken end]) true false
        end
      end
    | WeTick =>
      match wa_write answer with
      | Some _ => stopWriter frames
      | None => mkWriter (frames ++ [FrPing]) true false
      end
    end
  else w.

(** [writePump]. *)
Definition writePump (events : list (WriteAnswer * WriteEvent)) : Writer :=
  foldl (λ w ae, writeStep (fst ae) w (snd ae)) (mkWriter [] true false) events.

(** The texts among the frames, and what was taken from the channel. *)
Definition textsOf (frames : list Frame) : list string := omap (λ f, match f with FrText m => Some m | _ => None end) frames.
Definition takenOf (events : list (WriteAnswer * WriteEvent)) : list string :=
  omap (λ ae, match snd ae with WeMessage m => Some m | _ => None end) events.

(** ** Lemmas *)

(** How long a reader lives, from the events alone: the part read before the
    first one that is late, too large or an error. *)
Fixpoint livePrefix (deadline : Z) (events : list ReadEvent) : list ReadEvent :=
  match events with
  | [] => []
  | e :: rest =>
    if deadline <? re_time e then []
    else match e with
         | RePong t => e :: livePrefix (t + pongWait) rest
         | ReMessage _ size _ => if maxMessageSize <? size then [] else e :: livePrefix deadline rest
         | ReFail _ => []
         end
  end.
(** The deadline that the last pong set. *)
Definition deadlineAfter (deadline : Z) (events : list ReadEvent) : Z :=
  match list.last (pongsOf events) with Some t => t + pongWait | None => deadline end.

Lemma livePrefix_prefix d events : livePrefix d events `prefix_of` events.
Proof.
  revert d. induction events as [| e events IH]; intros d; simpl; [done |].
  destruct (d <? re_time e); [apply prefix_nil |]. destruct e; simpl; [apply prefix_cons, IH | | apply prefix_nil].
  destruct (_ <? _); [apply prefix_nil | apply prefix_cons, IH].
Qed.

Lemma deadlineAfter_cons d e events :
  deadlineAfter d (e :: events) = deadlineAfter (match e with RePong t => t + pongWait | _ => d end) events.
Proof.
  unfold deadlineAfter. destruct e as [t | |]; [| done..].
  change (pongsOf (RePong t :: events)) with (t :: pongsOf events). rewrite last_cons. by destruct (list.last (pongsOf events)).
Qed.

Lemma cons_live (e : ReadEvent) l events : l = events ↔ e :: l = e :: events.
Proof. split; congruence. Qed.

Section reader_lemmas.
Context (hasActivity hasMeta : bool).
Local Abbreviation step := (readStep hasActivity hasMeta).

(** What a stretch of events adds to the calls. *)
Definition callsOf (events : list ReadEvent) : nat :=
(length (pongsOf events) + list_sum ((λ m, 1 + beatsOf m) <$> messagesOf events))%nat.

Lemma callsOf_pong t l : callsOf (RePong t :: l) = S (callsOf l).
Proof. done. Qed.
Lemma callsOf_message t size m l : callsOf (ReMessage t size m :: l) = (1 + beatsOf m + callsOf l)%nat.
Proof.
unfold callsOf. change (pongsOf (ReMessage t size m :: l)) with (pongsOf l).
change (messagesOf (ReMessage t size m :: l)) with (m :: messagesOf l). rewrite fmap_cons. set (k := _ <$> messagesOf l). change (list_sum ((1 + beatsOf m)%nat :: k)) with (1 + beatsOf m + list_sum k)%nat. lia.
Qed.

Lemma stopped_stays events r : rd_running r = false → foldl step r events = r.
Proof. intros Hr. induction events as [| e events IH]; [done |]. simpl. unfold readStep at 2. by rewrite Hr. Qed.

Lemma reader_spec events d a meta :
let r := foldl step (mkReader d a meta true false) events in
let live := livePrefix d events in
rd_unregistered r = negb (rd_running r) ∧ (rd_running r = true ↔ live = events) ∧
rd_deadline r = deadlineAfter d live ∧ rd_activity r = (a + activity hasActivity (callsOf live))%nat ∧
rd_meta r = (meta ++ concat (metaOf hasMeta <$> messagesOf live))%list.
Proof.
revert d a meta. induction events as [| e events IH]; intros d a meta.
{ simpl. unfold callsOf, activity. simpl. split_and!; [done.. | destruct hasActivity; simpl; lia | by rewrite app_nil_r]. }
assert (Hstop : ∀ r0, r0 = stopReader (mkReader d a meta true false) → let r := foldl step r0 events in
  rd_unregistered r = negb (rd_running r) ∧ (rd_running r = true ↔ [] = e :: events) ∧ rd_deadline r = deadlineAfter d [] ∧
  rd_activity r = (a + activity hasActivity (callsOf []))%nat ∧ rd_meta r = (meta ++ concat (metaOf hasMeta <$> messagesOf []))%list).
{ intros r0 -> r. unfold r. rewrite stopped_stays by done. unfold callsOf, activity. simpl.
  split_and!; [done.. | destruct hasActivity; simpl; lia | by rewrite app_nil_r]. }
simpl. unfold readStep at 2 4 6 8 10 12. cbn [rd_running rd_deadline].
destruct (Z.ltb_spec d (re_time e)); [by apply Hstop |].
destruct e as [t | t size m | t].
- cbn [rd_deadline rd_activity rd_meta rd_unregistered]. destruct (IH (t + pongWait) (a + activity hasActivity 1)%nat meta) as (H1 & H2 & H3 & H4 & H5).
  split_and!; [exact H1 | rewrite H2; apply cons_live | by rewrite H3, deadlineAfter_cons | | exact H5].
  rewrite H4, callsOf_pong. unfold activity. destruct hasActivity; lia.
- destruct (_ <? size); [by apply Hstop |]. cbn [rd_deadline rd_activity rd_meta rd_unregistered].
  destruct (IH d (a + activity hasActivity (1 + beatsOf m))%nat (meta ++ metaOf hasMeta m)%list) as (H1 & H2 & H3 & H4 & H5).
  split_and!; [exact H1 | rewrite H2; apply cons_live | by rewrite H3, deadlineAfter_cons | |].
  + rewrite H4, callsOf_message. unfold activity. destruct hasActivity; lia.
  + rewrite H5, <- app_assoc. done.
- by apply Hstop.
Qed.
End reader_lemmas.

(** The writer. *)
Definition noClose (frames : list Frame) : Prop := FrClose ∉ frames.

Lemma writer_stopped events w : wr_running w = false → foldl (λ w ae, writeStep (fst ae) w (snd ae)) w events = w.
Proof. intros Hw. induction events as [| ae events IH]; [done |]. simpl. unfold writeStep at 2. by rewrite Hw. Qed.

Lemma textsOf_app l k : textsOf (l ++ k) = (textsOf l ++ textsOf k)%list.
Proof. apply omap_app. Qed.

(** What the rest of the events adds to the frames, and when it stops. *)
Lemma writer_spec events frames :
  let w := foldl (λ w ae, writeStep (fst ae) w (snd ae)) (mkWriter frames true false) events in
  wr_closed w = negb (wr_running w) ∧
  ∃ more, wr_frames w = (frames ++ more)%list ∧ textsOf more `sublist_of` takenOf events ∧
    (Forall (λ ae, wa_write (fst ae) = None) events → textsOf more `prefix_of` takenOf events ∧ FrBroken ∉ more ∧
      (wr_running w = true → textsOf more = takenOf events)) ∧
    (∀ l k, more = (l ++ FrClose :: k)%list → k = [] ∧ wr_running w = false).
Proof.
  revert frames. induction events as [| [an e] events IH]; intros frames.
  { simpl. split; [done |]. exists []. rewrite app_nil_r. split_and!; [done | apply sublist_nil_l | |].
    - intros _. split_and!; [done | by intros ?%elem_of_nil | done].
    - intros [] k; done. }
  (* an event that ends the pump, with at most a close frame *)
  assert (Hstop : ∀ last, last = [] ∨ last = [FrClose] → writeStep an (mkWriter frames true false) e = stopWriter (frames ++ last) →
    let w := foldl (λ w ae, writeStep (fst ae) w (snd ae)) (mkWriter frames true false) ((an, e) :: events) in
    wr_closed w = negb (wr_running w) ∧
    ∃ more, wr_frames w = (frames ++ more)%list ∧ textsOf more `sublist_of` takenOf ((an, e) :: events) ∧
      (Forall (λ ae, wa_write (fst ae) = None) ((an, e) :: events) → textsOf more `prefix_of` takenOf ((an, e) :: events) ∧ FrBroken ∉ more ∧
        (wr_running w = true → textsOf more = takenOf ((an, e) :: events))) ∧
      (∀ l k, more = (l ++ FrClose :: k)%list → k = [] ∧ wr_running w = false)).
  { intros last Hl Hstep w. unfold w. cbn [foldl fst snd]. rewrite Hstep, writer_stopped by done. split; [done |]. exists last.
    assert (Ht : textsOf last = []) by by destruct Hl as [-> | ->]. rewrite Ht. split_and!; [done | apply sublist_nil_l | |].
    - intros _. split_and!; [apply prefix_nil | destruct Hl as [-> | ->]; set_solver | done].
    - intros l k E. destruct Hl as [-> | ->]; destruct l as [| f [| ? ?]]; simpl in E; simplify_eq; try done. }
  (* an event that adds a frame *)
  assert (Hgo : ∀ f, f ≠ FrClose → writeStep an (mkWriter frames true false) e = mkWriter (frames ++ [f]) true false →
    textsOf [f] `sublist_of` takenOf [(an, e)] → (wa_write an = None → textsOf [f] = takenOf [(an, e)] ∧ f ≠ FrBroken) →
    let w := foldl (λ w ae, writeStep (fst ae) w (snd ae)) (mkWriter frames true false) ((an, e) :: events) in
    wr_closed w = negb (wr_running w) ∧
    ∃ more, wr_frames w = (frames ++ more)%list ∧ textsOf more `sublist_of` takenOf ((an, e) :: events) ∧
      (Forall (λ ae, wa_write (fst ae) = None) ((an, e) :: events) → textsOf more `prefix_of` takenOf ((an, e) :: events) ∧ FrBroken ∉ more ∧
        (wr_running w = true → textsOf more = takenOf ((an, e) :: events))) ∧
      (∀ l k, more = (l ++ FrClose :: k)%list → k = [] ∧ wr_running w = false)).
  { intros f Hf Hstep Hsub Heq w. unfold w. cbn [foldl fst snd]. rewrite Hstep.
    destruct (IH (frames ++ [f])%list) as (Hc & more & Hfr & Hs & Hp & Hlast). split; [done |]. exists (f :: more).
    change (takenOf ((an, e) :: events)) with (takenOf ([(an, e)] ++ events)). unfold takenOf. rewrite omap_app.
    change (f :: more) with ([f] ++ more)%list. rewrite textsOf_app. split_and!.
    - by rewrite Hfr, <- app_assoc.
    - by apply sublist_app.
    - intros [Ha Hall]%Forall_cons. destruct (Heq Ha) as [-> Hb]. destruct (Hp Hall) as (H1 & H2 & H3). split_and!.
      + by apply prefix_app.
      + intros [E | E]%elem_of_cons; [by apply Hb | by apply H2].
      + intros Hr. f_equal. by apply H3.
    - intros [| f' l] k E; simpl in E; simplify_eq. by eapply Hlast. }
  destruct e as [m | |]; unfold writeStep in Hstop, Hgo; cbn [wr_running wr_frames] in Hstop, Hgo.
  - destruct (wa_next an); [apply (Hstop []); [by left | by rewrite app_nil_r] |].
    destruct (wa_close an); [apply (Hstop []); [by left | by rewrite app_nil_r] |].
    destruct (wa_write an) as [x |]; [apply (Hgo FrBroken) | apply (Hgo (FrText m))]; try done. apply sublist_nil_l.
  - destruct (wa_write an); [apply (Hstop []); [by left | by rewrite app_nil_r] | apply (Hstop [FrClose]); [by right | done]].
  - destruct (wa_write an); [apply (Hstop []); [by left | by rewrite app_nil_r] | apply (Hgo FrPing); done].
Qed.

(** ** Properties *)

(** A reader lives on pongs: it runs exactly as long as every event comes by the
    deadline, no message is over the limit and nothing fails; the deadline is a
    minute after the last pong (or the start), whatever messages came since; the
    callbacks are called for what was read and for nothing after; it unregisters
    the client when it stops and not before. *)
Theorem reader_lives_on_pongs (hasActivity hasMeta : bool) (start : Z) (events : list ReadEvent) :
  let r := readPump hasActivity hasMeta start events in
  let live := livePrefix (start + pongWait) events in
  live `prefix_of` events ∧ (rd_running r = true ↔ live = events) ∧ rd_unregistered r = negb (rd_running r) ∧
  rd_deadline r = deadlineAfter (start + pongWait) live ∧
  rd_activity r = activity hasActivity (callsOf live) ∧
  rd_meta r = concat (metaOf hasMeta <$> messagesOf live).
Proof.
  intros r live. destruct (reader_spec hasActivity hasMeta events (start + pongWait) 0 []) as (H1 & H2 & H3 & H4 & H5).
  split_and!; [apply livePrefix_prefix | done..].
Qed.

(** Messages do not move the deadline: without a pong the reader ends at the
    first event more than a minute after the start. *)
Lemma messages_do_not_keep_alive (hasActivity hasMeta : bool) (start : Z) (events : list ReadEvent) (e : ReadEvent) (rest : list ReadEvent) :
  pongsOf events = [] → start + pongWait < re_time e →
  rd_running (readPump hasActivity hasMeta start (events ++ e :: rest)) = false.
Proof.
  intros Hp He. apply not_true_is_false. intros Hr.
  apply (proj1 (proj2 (reader_spec hasActivity hasMeta _ (start + pongWait) 0 []))) in Hr. revert Hr.
  induction events as [| e0 events IH]; simpl; [by rewrite (proj2 (Z.ltb_lt _ _)) by done |].
  destruct (_ <? re_time e0); [done |]. destruct e0 as [t | t size m | t]; [done | | done].
  destruct (_ <? size); [done |]. intros [= Hr]. by apply IH.
Qed.

(** The writer keeps the order: what reaches the peer as text is, in order, among
    what was taken from the channel; a broken frame apart, it is its beginning,
    and all of it while the pump runs.  With the hub's side of the channel: a
    beginning of what the hub gave the client.  After the close frame nothing
    follows, and the connection is closed exactly when the pump has ended. *)
Theorem writer_in_order (events : list (WriteAnswer * WriteEvent)) (cl : Client) :
  (takenOf events ++ cl_send cl)%list = cl_log cl →
  let w := writePump events in
  wr_closed w = negb (wr_running w) ∧ textsOf (wr_frames w) `sublist_of` takenOf events ∧
  (Forall (λ ae, wa_write (fst ae) = None) events →
     textsOf (wr_frames w) `prefix_of` cl_log cl ∧ FrBroken ∉ wr_frames w ∧
     (wr_running w = true → (textsOf (wr_frames w) ++ cl_send cl)%list = cl_log cl)) ∧
  (∀ l k, wr_frames w = (l ++ FrClose :: k)%list → k = [] ∧ wr_running w = false).
Proof.
  intros Hlog w. destruct (writer_spec events []) as (Hc & more & Hf & Hs & Hp & Hlast). unfold w, writePump. rewrite Hf.
  split_and!; [done | done | | done]. intros Hall. destruct (Hp Hall) as (H1 & H2 & H3). split_and!; [| done |].
  - etransitivity; [exact H1 |]. rewrite <- Hlog. by exists (cl_send cl).
  - intros Hr. simpl. by rewrite H3.
Qed.

(** The origin check is a search for a substring: any origin that contains one
    of the names passes, whoever owns its domain. *)
Lemma origin_is_substring (name a b : string) : name ∈ ["localhost"; "127.0.0.1"; "mp1"; "st6160.click"] →
  CheckOrigin (a ++ name ++ b) = true.
Proof.
  intros Hn. unfold CheckOrigin. destruct (String.eqb _ ""); [done |]. pose proof (Contains_mid a name b) as H.
  repeat (apply elem_of_cons in Hn as [-> | Hn]); [.. | by apply elem_of_nil in Hn]; rewrite H; rewrite ?orb_true_r; try done.
  by destruct (_ || _).
Qed.
Example foreign_origin_accepted : CheckOrigin "https://mp1.attacker.example" = true ∧ CheckOrigin "https://example.org" = false.
Proof. done. Qed.

(** An origin that is refused leaves the hub as it is. *)
Lemma refused_origin (marshal : HubEvent → option string) origin upgrade c h :
  CheckOrigin origin = false → HandleWS marshal origin upgrade c h = (h, Val false).
Proof. intros H. unfold HandleWS. by rewrite H. Qed.
(** An accepted one joins it. *)
Lemma accepted_origin (marshal : HubEvent → option string) origin c h :
  CheckOrigin origin = true → hub_ok h →
  wp (HandleWS marshal origin None c) (λ o h', o = Val true ∧ hub_ok h') h.
Proof.
  intros H Hok. unfold HandleWS. rewrite H. apply wp_bind. eapply wp_mono; [by apply hubStep_ok |]. intros o h' [-> Hok']. by apply wp_ret.
Qed.

(** ** Witnesses *)

Definition okAnswer : WriteAnswer := mkWriteAnswer None None None.

Lemma writer_in_order_witness :
  let w := writePump [(okAnswer, WeMessage "a"); (okAnswer, WeTick); (okAnswer, WeMessage "b")] in
  (textsOf (wr_frames w) ++ ["c"])%list = ["a"; "b"; "c"].
Proof.
  intros w.
  destruct (writer_in_order [(okAnswer, WeMessage "a"); (okAnswer, WeTick); (okAnswer, WeMessage "b")]
    (mkClient true ["c"] ["a"; "b"; "c"])) as (_ & _ & H & _); [done |].
  apply H; [by repeat constructor | done].
Defined.
