(* ===== verification/Demo.v ===== *)
(** * The demo deployment (cmd/demo/deploy.go) and the pages (internal/web/static.go)

    The command deploys a token on the local node and sends ten transfers.  The
    node and the keys are interfaces; what was sent is recorded with its nonce
    and the node's answer.  The pages choose their names from the environment. *)

From S2P Require Import Prelude GoInt Types Text Processor Codecs Simulator.
From Stdlib Require Import ZArith Lia String.
From stdpp Require Import base strings list pretty.
Open Scope string_scope.
Open Scope Z_scope.

(** ** deploy.go *)

(** What the command calls on the node. *)
Class DemoNode {EC : EthCrypto} (W : Type) := {
  dn_ChainID : GoM W (result GoErr Z);
  dn_PendingNonceAt : Z → GoM W (result GoErr Z);
  dn_SuggestGasPrice : GoM W (result GoErr Z);
  dn_SendTransaction : SignedTx → GoM W (option GoErr);
  dn_WaitMined : SignedTx → GoM W (result GoErr Z)
}.

(** The transactions handed to the node, with the answer, and the node. *)
Record Demo (W : Type) := mkDemo { dm_sent : list (TxData * option GoErr); dm_world : W }.
Arguments mkDemo {W}.
Arguments dm_sent {W}.
Arguments dm_world {W}.

(** How the command ends: [log.Fatalf], an early return with its message, or
    the end with the address of the contract. *)
Inductive DemoEnd : Type := DeFatal (e : GoErr) | DeReturned (message : string) | DeComplete (contract : Z).

Definition demoKey : string := "4f3edf983ac636a65a842ce7c78d9aa706d3b113bce9c46f30d7d21715b23b1d".
(** [common.HexToAddress] of the literal. *)
Definition recipientAddress : Z := 0x70997970C51812e339D9B73b0245ad59e5E05a77.

(** The calldata of [sendTransfer]: the selector, the address as it is, a word
    whose last byte is 100. *)
Definition transferData (to : Z) : list Z :=
  ([0xa9; 0x05; 0x9c; 0xbb] ++ addr_Bytes to ++ replicate 31 0 ++ [100])%list.

Section demo.
Context {EC : EthCrypto} {W : Type} {DN : DemoNode W}.
(** The bytes of [SimpleERC20Bytecode]; the error of [NewKeyedTransactorWithChainID]. *)
Context (bytecode : list Z) (transactor : Z → option GoErr).
Local Abbreviation M := (GoM (Demo W)).

Definition dmNode {A} (m : GoM W A) : M A := zoom dm_world (λ w d, mkDemo (dm_sent d) w) m.
Definition send (signed : SignedTx) : M (option GoErr) :=
err ← dmNode (dn_SendTransaction signed);
modify (λ d, mkDemo (dm_sent d ++ [(stx_tx signed, err)])%list (dm_world d));;
mret err.

Definition deployContract (key : ec_Key) (nonce gasPrice chainID : Z) : M (result GoErr Z) :=
match transactor chainID with
| Some e => mret (Err e)
| None =>
  match ec_SignTx (mkTxData nonce None 0 3000000 gasPrice bytecode) chainID key with
  | Err e => mret (Err e)
  | Ok signed =>
    err ← send signed;
    match err with Some e => mret (Err e) | None => dmNode (dn_WaitMined signed) end
  end
end.

Definition sendTransfer (key : ec_Key) (nonce gasPrice chainID contract to : Z) : M (option GoErr) :=
match transactor chainID with
| Some e => mret (Some e)
| None =>
  match ec_SignTx (mkTxData nonce (Some contract) 0 100000 gasPrice (transferData to)) chainID key with
  | Err e => mret (Some e)
  | Ok signed => send signed
  end
end.

(** The loop of transfers; an error is logged. *)
Fixpoint sendTransfers (key : ec_Key) (nonce gasPrice chainID contract : Z) (l : list Z) : M unit :=
match l with
| [] => mret tt
| i :: rest =>
  sendTransfer key (add_u64 nonce i) gasPrice chainID contract recipientAddress;;
  sendTransfers key nonce gasPrice chainID contract rest
end.

(** [main]; [dial] is the answer of [ethclient.Dial]. *)
Definition demoMain (dial : option GoErr) : M DemoEnd :=
match dial with
| Some e => mret (DeFatal e)
| None =>
  r ← dmNode dn_ChainID;
  match r with
  | Err e => mret (DeReturned ("Failed to get chain ID: " ++ Error e))
  | Ok chainID =>
    match ec_HexToECDSA demoKey with
    | Err e => mret (DeReturned ("Failed to parse private key: " ++ Error e))
    | Ok key =>
      r ← dmNode (dn_PendingNonceAt (ec_Address key));
      match r with
      | Err e => mret (DeReturned ("Failed to get nonce: " ++ Error e))
      | Ok nonce =>
        r ← dmNode dn_SuggestGasPrice;
        match r with
        | Err e => mret (DeReturned ("Failed to get gas price: " ++ Error e))
        | Ok gasPrice =>
          r ← deployContract key nonce gasPrice chainID;
          match r with
          | Err e => mret (DeReturned ("Failed to deploy contract: " ++ Error e))
          | Ok contract =>
            sendTransfers key (add_u64 nonce 1) gasPrice chainID contract (seqZ 0 10);;
            mret (DeComplete contract)
          end
        end
      end
    end
  end
end.
End demo.

(** ** static.go *)

Record DashboardData := mkDashboardData {
  dd_Title : string; dd_Environment : string; dd_PostgresDS : string; dd_GrafanaHost : string; dd_Version : string
}.

(** The data of the template, from the environment and [r.URL.Hostname()]. *)
Definition dashboardData (getenv : string → string) (urlHostname : string) : DashboardData :=
  let sepolia := String.eqb (getenv "CHAIN_ID") "11155111" in
  mkDashboardData
    (if String.eqb (getenv "APP_TITLE") "" then "🚀 Web3 Indexer Dashboard" else getenv "APP_TITLE")
    (if sepolia then "sepolia" else "demo")
    (if sepolia then "Web3-sepolia-DB" else "Web3-demo-DB")
    (if String.eqb (getenv "GRAFANA_HOST") "" then
       if String.eqb urlHostname "" then "localhost" else urlHostname
     else getenv "GRAFANA_HOST")
    "v2.2.0-intelligence-engine".

(** [RenderDashboard]: [read] is the embedded file, [parse] the template. *)
Definition RenderDashboard (read : string → result GoErr string) (parse : string → option (DashboardData → string))
    (getenv : string → string) (urlHostname : string) : Response string :=
  match read "dashboard.html" with
  | Err _ => HttpError 404 "Dashboard template not found"
  | Ok text =>
    match parse text with
    | None => HttpError 500 "Template parsing error"
    | Some execute => HttpOK (execute (dashboardData getenv urlHostname))
    end
  end.
(** [RenderSecurity]. *)
Definition RenderSecurity (read : string → result GoErr string) : Response string :=
  match read "security.html" with
  | Err _ => HttpError 404 "Security page not found"
  | Ok text => HttpOK text
  end.

(** ** Lemmas *)

Section demo_lemmas.
Context {EC : EthCrypto} {W : Type} {DN : DemoNode W} (bytecode : list Z) (transactor : Z → option GoErr).

(** The node's calls return. *)
Definition node_answers : Prop :=
(∀ w, wp dn_ChainID (λ o _, ∃ r, o = Val r) w) ∧ (∀ a w, wp (dn_PendingNonceAt a) (λ o _, ∃ r, o = Val r) w) ∧
(∀ w, wp dn_SuggestGasPrice (λ o _, ∃ r, o = Val r) w) ∧ (∀ s w, wp (dn_SendTransaction s) (λ o _, ∃ r, o = Val r) w) ∧
(∀ s w, wp (dn_WaitMined s) (λ o _, ∃ r, o = Val r) w).

Lemma dmNode_wp {A} (m : GoM W A) (d : Demo W) : (∀ w, wp m (λ o _, ∃ r, o = Val r) w) →
  wp (dmNode m) (λ o d', (∃ r, o = Val r) ∧ dm_sent d' = dm_sent d) d.
Proof. intros H. apply wp_zoom. eapply wp_mono; [apply H |]. intros o w Ho. done. Qed.

Lemma send_wp signed d : (∀ s w, wp (dn_SendTransaction s) (λ o _, ∃ r, o = Val r) w) →
  wp (send signed) (λ o d', ∃ e, o = Val e ∧ dm_sent d' = (dm_sent d ++ [(stx_tx signed, e)])%list) d.
Proof.
  intros H. apply wp_bind. eapply wp_mono; [by apply dmNode_wp |]. intros o d1 [[e ->] E]. apply wp_bind, wp_modify.
  apply wp_ret. exists e. simpl. by rewrite E.
Qed.

(** Without an error in the signatures, one attempt. *)
Lemma sendTransfer_wp key nonce gasPrice chainID contract to d : (∀ s w, wp (dn_SendTransaction s) (λ o _, ∃ r, o = Val r) w) →
  transactor chainID = None → (∀ tx, ∃ s, ec_SignTx tx chainID key = Ok s) →
  wp (sendTransfer transactor key nonce gasPrice chainID contract to) (λ o d', ∃ e, o = Val e ∧
    dm_sent d' = (dm_sent d ++ [(mkTxData nonce (Some contract) 0 100000 gasPrice (transferData to), e)])%list) d.
Proof.
  intros Hs Ht Hsig. unfold sendTransfer. rewrite Ht. destruct (Hsig (mkTxData nonce (Some contract) 0 100000 gasPrice (transferData to))) as [s E].
  rewrite E. apply ec_SignTx_spec in E as [<- _]. by apply send_wp.
Qed.

Lemma sendTransfers_wp key nonce gasPrice chainID contract l d : (∀ s w, wp (dn_SendTransaction s) (λ o _, ∃ r, o = Val r) w) →
  transactor chainID = None → (∀ tx, ∃ s, ec_SignTx tx chainID key = Ok s) →
  wp (sendTransfers transactor key nonce gasPrice chainID contract l) (λ o d', o = Val tt ∧ ∃ es, length es = length l ∧
    dm_sent d' = (dm_sent d ++ zip ((λ i, mkTxData (add_u64 nonce i) (Some contract) 0 100000 gasPrice (transferData recipientAddress)) <$> l) es)%list) d.
Proof.
  intros Hs Ht Hsig. revert d. induction l as [| i l IH]; intros d; simpl.
  { apply wp_ret. split; [done |]. exists []. by rewrite app_nil_r. }
  apply wp_bind. eapply wp_mono; [by apply sendTransfer_wp |]. intros o d1 (e & -> & E1).
  eapply wp_mono; [apply IH |]. intros o d2 (-> & es & Hl & E2). split; [done |]. exists (e :: es). simpl.
  rewrite E2, E1, <- app_assoc. split; [lia | done].
Qed.
End demo_lemmas.

(** Zeros after a number shift it. *)
Lemma SetBytes_shift l k : SetBytes (l ++ replicate k 0) = SetBytes l * 2 ^ (8 * Z.of_nat k).
Proof.
  induction k as [| k IH]; [rewrite app_nil_r; simpl; lia |].
  replace (replicate (S k) 0) with (replicate k 0 ++ [0])%list by (symmetry; rewrite <- replicate_cons_app; done).
  rewrite app_assoc, SetBytes_snoc, IH. replace (8 * Z.of_nat (S k)) with (8 * Z.of_nat k + 8) by lia. rewrite Z.pow_add_r by lia. lia.
Qed.

(** ** Properties *)

(** What the contract would read of a transfer's calldata, zeros following its
    end as in the EVM: the address is not padded to a word, so the first
    argument is the address shifted by twelve bytes, of which the low 160 bits
    are no longer the receiver, and the amount is 100 shifted by as much; the
    data is twelve bytes short of two arguments. *)
Theorem demo_transfer_misread (to : Z) : 0 ≤ to < 2 ^ 160 →
  let data := transferData to in
  length data = 56%nat ∧ take 4 data = [0xa9; 0x05; 0x9c; 0xbb] ∧
  SetBytes (take 32 (drop 4 data)) = to * 2 ^ 96 ∧
  SetBytes (drop 36 data ++ replicate 12 0) = 100 * 2 ^ 96 ∧
  (to ≠ 0 → SetBytes (take 32 (drop 4 data)) ≠ to).
Proof.
  intros Hto data. destruct (SetBytes_fixed 20 to) as [Hv Hl]; [exact Hto |].
  assert (E : SetBytes (take 32 (drop 4 data)) = to * 2 ^ 96).
  { unfold data, transferData. rewrite drop_app_length' by done. rewrite take_app_ge by (unfold addr_Bytes; rewrite Hl; lia).
    unfold addr_Bytes. rewrite Hl. change (take (32 - 20) (replicate 31 0 ++ [100])) with (replicate 12 0). by rewrite SetBytes_shift, Hv. }
  split_and!; [| done | exact E | | rewrite E; lia].
  - unfold data, transferData, addr_Bytes. by rewrite !length_app, Hl.
  - unfold data, transferData. rewrite app_assoc, drop_app_ge by (rewrite length_app; unfold addr_Bytes; rewrite Hl; simpl; lia).
    rewrite length_app. unfold addr_Bytes. rewrite Hl. by vm_compute.
Qed.

(** The nonces of the transfers are fixed before the first is sent: one that the
    node refuses leaves a gap, behind which the later ones wait. *)
Theorem demo_nonces_fixed {EC : EthCrypto} {W : Type} {DN : DemoNode W} (transactor : Z → option GoErr)
    (key : ec_Key) (nonce gasPrice chainID contract : Z) (l : list Z) (w : W) :
  (∀ s w, wp (dn_SendTransaction s) (λ o _, ∃ r, o = Val r) w) →
  transactor chainID = None → (∀ tx, ∃ s, ec_SignTx tx chainID key = Ok s) →
  wp (sendTransfers transactor key nonce gasPrice chainID contract l)
     (λ o d', o = Val tt ∧ td_Nonce <$> (dm_sent d').*1 = add_u64 nonce <$> l) (mkDemo [] w).
Proof.
  intros Hs Ht Hsig. eapply wp_mono; [by apply sendTransfers_wp |]. intros o d (-> & es & Hl & E). split; [done |].
  rewrite E. simpl. rewrite fst_zip by (rewrite length_fmap; lia). by rewrite <- list_fmap_compose.
Qed.

(** A request to the server has only a path in its URL, so the host name is
    empty and the default is always localhost. *)
Lemma dashboard_host (getenv : string → string) : getenv "GRAFANA_HOST" = "" → dd_GrafanaHost (dashboardData getenv "") = "localhost".
Proof. intros H. unfold dashboardData. by rewrite H. Qed.

(** ** Witnesses *)

Lemma demo_transfer_misread_witness : SetBytes (take 32 (drop 4 (transferData recipientAddress))) ≠ recipientAddress.
Proof. destruct (demo_transfer_misread recipientAddress) as (_ & _ & _ & _ & H); [done |]. by apply H. Defined.

(** A node that takes every transaction but the third transfer. *)
#[local] Instance toyDemoNode : DemoNode (EC := toyCrypto) nat := {|
  dn_ChainID := mret (Ok 31337);
  dn_PendingNonceAt _ := mret (Ok 0);
  dn_SuggestGasPrice := mret (Ok 1);
  dn_SendTransaction _ := λ w, (S w, Val (if (w =? 2)%nat then Some (Errorf "txpool is full") else None));
  dn_WaitMined _ := mret (Ok 7)
|}.

Lemma demo_nonces_fixed_witness :
  td_Nonce <$> (dm_sent (fst (sendTransfers (EC := toyCrypto) (λ _, None) 5 1 1 31337 7 (seqZ 0 4) (mkDemo [] 0%nat)))).*1 = [1; 2; 3; 4].
Proof.
  pose proof (demo_nonces_fixed (EC := toyCrypto) (λ _, None) 5 1 1 31337 7 (seqZ 0 4) 0%nat) as H.
  refine (proj2 (H _ _ _)); [intros s w; by eexists | done | intros tx; by eexists].
Defined.
