(* ===== verification/Loops.v ===== *)
(** * Background loops (self_healing.go, reconciler.go, watchdog_deadlock.go,
    internal/monitor/quota_monitor.go)

    The goroutines that run an operation at every tick of a timer, with whatever
    other goroutines do between two ticks, and the daily reset of the quota. *)

From S2P Require Import Prelude GoInt Types GlobalState Database Orchestrator Sequencer Monitor Guards Watchdog.
From Stdlib Require Import ZArith Lia String Sorted.
From stdpp Require Import base gmap strings list.
Open Scope string_scope.
Open Scope Z_scope.

(** ** A loop over a ticker *)

(** What the [select] of the loop sees, and the steps of other goroutines on
    the same state in between. *)
Inductive TickCase (S : Type) : Type := TcTick (now : Z) | TcOther (m : GoM S unit) | TcDone.
Arguments TcTick {S}.
Arguments TcOther {S}.
Arguments TcDone {S}.

(** [for { select { case <-ctx.Done(): return; case <-ticker.C: body } }];
    whether the loop still runs. *)
Fixpoint tickLoop {S A} (body : Z → GoM S A) (cs : list (TickCase S)) : GoM S bool :=
  match cs with
  | [] => mret true
  | TcDone :: _ => mret false
  | TcTick now :: rest => body now;; tickLoop body rest
  | TcOther m :: rest => m;; tickLoop body rest
  end.

(** self_healing.go, [SelfHealer.Start]: every five seconds. *)
Definition healInterval : Z := 5 * 1000000000.
Definition startHealer {W} {OW : OrchWorld W} (cs : list (TickCase (Orchestrator W))) : GoM (Orchestrator W) bool :=
  tickLoop (λ _, auditAndHeal) cs.

(** reconciler.go, [StartPeriodicAudit]. *)
Definition StartPeriodicAudit {W} {PG : Postgres W} (rpcPool : RPCClient W) (lookback : Z) (cs : list (TickCase W)) : GoM W bool :=
  tickLoop (λ _, performAudit rpcPool lookback) cs.

(** watchdog_deadlock.go, [Start] and [Stop] (the cancel function is there once
    the watchdog was started): a disabled watchdog starts nothing, an error of
    a check is logged.  [done]: the context of the checks is cancelled. *)
Definition startWatchdog {S V W} {DU : DBUpdater W} {OW : OrchWorld V} (rpcPool : RPCClient W) (done : bool)
    (cs : list (TickCase (DeadlockWatchdog S V W))) : GoM (DeadlockWatchdog S V W) bool :=
  d ← gets id;
  if negb (dw_enabled d) then mret false
  else tickLoop (λ now, checkAndHeal rpcPool now done) cs.

(** ** The quota's day *)

(** Times in nanoseconds since 1970, UTC. *)
Definition dayNs : Z := 86400 * 1000000000.
Definition dayOf (t : Z) : Z := t / dayNs.
(** quota_monitor.go, [calculateNextReset]: [time.Date] with the day after. *)
Definition calculateNextReset (now : Z) : Z := (dayOf now + 1) * dayNs.

(** One round of [startResetTimer]: the time when it looks at the clock, by how
    much the sleep is late, what was counted by then, and the time when the next
    reset is computed. *)
Record ResetRound := mkResetRound { rr_now : Z; rr_late : Z; rr_calls : nat; rr_after : Z }.
Definition wakeOf (resetTime : Z) (r : ResetRound) : Z :=
  if 0 <? resetTime - rr_now r then resetTime + rr_late r else rr_now r.

(** [startResetTimer]: the times of the resets with the count each of them
    cleared. *)
Fixpoint startResetTimer (resetTime : Z) (m : QuotaMonitor) (rs : list ResetRound) : list (Z * Z) * (Z * QuotaMonitor) :=
  match rs with
  | [] => ([], (resetTime, m))
  | r :: rest =>
    let m := Nat.iter (rr_calls r) Inc m in
    let '(log, final) := startResetTimer (calculateNextReset (rr_after r)) (ResetDaily m) rest in
    ((wakeOf resetTime r, qm_dailyCalls m) :: log, final)
  end.

(** ** Lemmas *)

(** A relation that the body and the others keep from good states holds along
    the loop, which returns. *)
Lemma tickLoop_keeps {S A} (R : S → S → Prop) `{!PreOrder R} (I : S → Prop) (body : Z → GoM S A) (cs : list (TickCase S)) (s : S) :
  (∀ s s', I s → R s s' → I s') →
  (∀ now s, I s → keeps R (body now) s) → (∀ m s, TcOther m ∈ cs → I s → keeps R m s) → I s → keeps R (tickLoop body cs) s.
Proof.
  intros HI Hb. revert s. induction cs as [| c cs IH]; intros s Ho Hs; [by apply keeps_ret |].
  assert (H : ∀ s, I s → keeps R (tickLoop body cs) s) by (intros s' Hs'; apply IH; [intros m s'' Hm; apply Ho; by right | done]).
  assert (Hseq : ∀ B (k : GoM S B), keeps R k s → keeps R (k;; tickLoop body cs) s).
  { intros B k Hk. apply keeps_bind; [done |]. unfold keeps in Hk. eapply wp_mono; [exact Hk |].
    intros o s1 [[x ->] Hr]. exists x. split_and!; [done | done |]. apply H. by eapply HI. }
  destruct c as [now | m |]; simpl; [apply Hseq; by apply Hb | apply Hseq; apply Ho; [by left | done] | by apply keeps_ret].
Qed.

Lemma auditAndHeal_keeps {W} {OW : OrchWorld W} (o : Orchestrator W) : orch_ok o → keeps orch_rel auditAndHeal o.
Proof.
  intros Ho. eapply wp_mono; [by apply auditAndHeal_aligns |]. intros out o' (-> & H1 & H2 & _). split; [by eexists |]. by intros _.
Qed.

(** A step of the Orchestrator's loop, cursor resets apart. *)
Definition resetNext {W} (c : LoopCase) (o : Orchestrator W) : bool :=
  match c, or_cmdChan o with LoopMsg, msg :: _ => bool_decide (msg_Type msg = CmdResetCursor) | _, _ => false end.
Definition otherStep {W} {OW : OrchWorld W} (now : Z) (c : LoopCase) : GoM (Orchestrator W) unit :=
  o ← gets id; if resetNext c o then mret tt else loopStep now c;; mret tt.

Lemma otherStep_keeps {W} {OW : OrchWorld W} (now : Z) (c : LoopCase) (o : Orchestrator W) :
  (∀ t w, ∃ e, snd (ow_Enqueue t w) = Val e) → orch_ok o → keeps orch_rel (otherStep now c) o.
Proof.
  intros He Ho. unfold otherStep. apply wp_bind, wp_gets. unfold id. destruct (resetNext c o) eqn:Hr; [by apply (keeps_ret _) |].
  apply (keeps_seq _); [| intros; apply (keeps_ret _)]. apply loopStep_keeps; [done | | done].
  intros msg rest -> Hc E. unfold resetNext in Hr. rewrite Hc in Hr. by rewrite bool_decide_eq_true_2 in Hr.
Qed.

(** The reconciler only reads. *)
Lemma auditAll_reads {W} {PG : Postgres W} (rpcPool : RPCClient W) (numbers : list Z) (w : W) :
  (∀ n w, keeps (λ w w', pg_tables w' = pg_tables w) (rpc_BlockByNumber rpcPool n) w) →
  keeps (λ w w', pg_tables w' = pg_tables w) (auditAll rpcPool numbers) w.
Proof.
  intros Hr. assert (Hpre : PreOrder (λ w w' : W, pg_tables w' = pg_tables w)) by (split; [done | intros a b c H1 H2; by rewrite H2]).
  assert (Hq : ∀ A (f : Tables → A) w, keeps (λ w w' : W, pg_tables w' = pg_tables w) (pg_Query A f) w).
  { intros A f w0. eapply wp_mono; [apply pg_Query_spec |]. intros o w' (-> & r & -> & _). split; [by eexists | done]. }
  revert w. induction numbers as [| n numbers IH]; intros w; simpl; [by apply keeps_ret |].
  apply keeps_seq; [done | | intros v w1; apply keeps_seq; [done | apply IH | intros vs w2; by apply keeps_ret]].
  apply keeps_seq; [done | apply Hr |]. intros [b | e] w1; [| by apply keeps_ret].
  apply keeps_seq; [done | apply Hq |]. intros a w2. by apply keeps_ret.
Qed.

Lemma nextReset_after t : t < calculateNextReset t ≤ t + dayNs ∧ dayOf (calculateNextReset t) = dayOf t + 1.
Proof.
  unfold calculateNextReset, dayOf. assert (Hd : 0 < dayNs) by done.
  pose proof (Z.div_mod t dayNs ltac:(lia)). pose proof (Z.mod_pos_bound t dayNs Hd).
  split; [nia | apply Z.div_mul; lia].
Qed.

(** Rounds in the order of time: each looks at the clock after the last one's
    computation, sleeps are not early. *)
Fixpoint timely (resetTime : Z) (since : Z) (rs : list ResetRound) : Prop :=
  match rs with
  | [] => True
  | r :: rest => since ≤ rr_now r ∧ 0 ≤ rr_late r ∧ wakeOf resetTime r ≤ rr_after r ∧ timely (calculateNextReset (rr_after r)) (rr_after r) rest
  end.

Lemma wakeOf_ge resetTime r : 0 ≤ rr_late r → resetTime ≤ wakeOf resetTime r ∧ rr_now r ≤ wakeOf resetTime r.
Proof. intros Hl. unfold wakeOf. destruct (Z.ltb_spec 0 (resetTime - rr_now r)); lia. Qed.

Lemma startResetTimer_days resetTime since m rs : timely resetTime since rs →
  Forall (λ e, resetTime ≤ fst e) (startResetTimer resetTime m rs).1 ∧
  StronglySorted Z.lt (dayOf ∘ fst <$> (startResetTimer resetTime m rs).1).
Proof.
  revert resetTime since m. induction rs as [| r rs IH]; intros resetTime since m; simpl; [intros _; split; constructor |].
  intros (Hn & Hl & Ha & Ht). specialize (IH _ _ (ResetDaily (Nat.iter (rr_calls r) Inc m)) Ht).
  destruct (startResetTimer _ _ rs) as [log final]. simpl in *. destruct IH as [Hge Hs].
  destruct (wakeOf_ge resetTime r Hl) as [Hw _]. destruct (nextReset_after (rr_after r)) as [[Hlt _] Hday].
  split.
  - constructor; [done |]. eapply Forall_impl; [exact Hge |]. simpl. intros e He. lia.
  - constructor; [done |]. apply Forall_fmap. eapply Forall_impl; [exact Hge |]. intros e He. unfold compose.
    assert (dayOf (wakeOf resetTime r) ≤ dayOf (rr_after r)) by (apply Z.div_le_mono; [done | lia]).
    assert (dayOf (calculateNextReset (rr_after r)) ≤ dayOf (fst e)) by (apply Z.div_le_mono; [done |]; exact He). cbn beta in *. cbn [fst] in *. lia.
Qed.

Lemma iter_Inc_calls k m : 0 ≤ qm_dailyCalls m → qm_dailyCalls m + Z.of_nat k ≤ max_u64 →
  qm_dailyCalls (Nat.iter k Inc m) = qm_dailyCalls m + Z.of_nat k.
Proof.
  intros H0. induction k as [| k IH]; intros Hk; [simpl; lia |]. rewrite Nat2Z.inj_succ in *.
  change (Nat.iter (S k) Inc m) with (Inc (Nat.iter k Inc m)). unfold Inc at 1. cbn [qm_dailyCalls]. rewrite IH, add_u64_id by lia. lia.
Qed.

Lemma startResetTimer_counts resetTime m rs :
  length (startResetTimer resetTime m rs).1 = length rs ∧
  (rs ≠ [] → qm_dailyCalls (startResetTimer resetTime m rs).2.2 = 0) ∧
  (qm_dailyCalls m = 0 → Forall (λ r, Z.of_nat (rr_calls r) ≤ max_u64) rs →
   snd <$> (startResetTimer resetTime m rs).1 = (λ r, Z.of_nat (rr_calls r)) <$> rs).
Proof.
  revert resetTime m. induction rs as [| r rs IH]; intros resetTime m; [by split_and! |]. simpl.
  specialize (IH (calculateNextReset (rr_after r)) (ResetDaily (Nat.iter (rr_calls r) Inc m))).
  destruct (startResetTimer _ _ rs) as [log final] eqn:E. simpl in *. destruct IH as (H1 & H2 & H3). split_and!.
  - by rewrite H1.
  - intros _. destruct rs as [| r' rs]; [simpl in E; by injection E as <- <- | by apply H2].
  - intros Hm [Hr Hc]%Forall_cons. f_equal; [rewrite iter_Inc_calls; lia | by apply H3].
Qed.

(** ** Properties *)

(** The healer beside the Orchestrator's own loop: in every interleaving of
    audits and of the loop's cases (cursor resets apart), both return, the
    Orchestrator's invariant holds and no height moves backwards; an audit at the
    end leaves the cursor at or below the fetched height. *)
Theorem healer_interleaved {W} {OW : OrchWorld W} (cs : list (Z + Z * LoopCase)) (now : Z) (o : Orchestrator W) :
  (∀ t w, ∃ e, snd (ow_Enqueue t w) = Val e) → orch_ok o →
  let cases := (λ c, match c with inl t => TcTick t | inr (t, c) => TcOther (otherStep t c) end) <$> cs in
  wp (startHealer (cases ++ [TcTick now])) (λ out o', out = Val true ∧ orch_ok o' ∧ heights_le (or_state o) (or_state o') ∧
    cs_SyncedCursor (or_state o') ≤ cs_FetchedHeight (or_state o')) o.
Proof.
  intros He Ho cases. assert (Hoth : ∀ m s, TcOther m ∈ cases → orch_ok s → keeps orch_rel m s).
  { intros m s ([t | [t c]] & E & _)%list_elem_of_fmap Hs; [done |]. simplify_eq. by apply otherStep_keeps. }
  assert (Hnd : TcDone ∉ cases) by (intros ([t | [t c]] & E & _)%list_elem_of_fmap; done).
  clearbody cases. unfold startHealer. revert o Ho. induction cases as [| c cases IH]; intros o Ho; simpl.
  - apply wp_bind. eapply wp_mono; [by apply auditAndHeal_aligns |]. intros out o1 (-> & H1 & H2 & H3 & _). apply wp_ret. by split_and!.
  - assert (H : ∀ A (k : GoM (Orchestrator W) A), keeps orch_rel k o →
      wp (k;; tickLoop (λ _, auditAndHeal) (cases ++ [TcTick now])) (λ out o', out = Val true ∧ orch_ok o' ∧
        heights_le (or_state o) (or_state o') ∧ cs_SyncedCursor (or_state o') ≤ cs_FetchedHeight (or_state o')) o).
    { intros A k Hk. apply wp_bind. eapply (wp_mono _ (λ out o1, (∃ a, out = Val a) ∧ orch_rel o o1)); [exact Hk |]. intros out o1 [[a ->] Hr]. destruct (Hr Ho) as [Ho1 Hle].
      eapply wp_mono; [apply IH; [intros m s Hm; apply Hoth; by right | intros Hd; apply Hnd; by right | done] |].
      intros out o2 (-> & H1 & H2 & H3). split_and!; [done | done | | done]. unfold heights_le in *. lia. }
    destruct c as [t | m |]; [apply H; by apply auditAndHeal_keeps | apply H; apply Hoth; [by left | done] | exfalso; apply Hnd; by left].
Qed.

(** The audit reads: whatever it finds, the tables stay as they are. *)
Theorem audits_only_read {W} {PG : Postgres W} (rpcPool : RPCClient W) (lookback : Z) (ticks : list Z) (w : W) :
  (∀ n w, keeps (λ w w', pg_tables w' = pg_tables w) (rpc_BlockByNumber rpcPool n) w) →
  wp (StartPeriodicAudit rpcPool lookback (TcTick <$> ticks)) (λ o w', o = Val true ∧ pg_tables w' = pg_tables w) w.
Proof.
  intros Hr. revert w. induction ticks as [| t ticks IH]; intros w; [by apply wp_ret |]. cbn [fmap list_fmap].
  apply wp_bind. eapply (wp_mono _ (λ o w', (∃ v, o = Val v) ∧ pg_tables w' = pg_tables w)).
  - apply wp_bind. eapply wp_mono; [apply pg_Query_spec |]. intros o w1 (-> & r & -> & _). destruct r as [maxNum | e]; [| apply wp_ret; split; [by eexists | done]].
    destruct (maxNum =? 0); [apply wp_ret; split; [by eexists | done] |]. by apply auditAll_reads.
  - intros o w1 [[v ->] E]. eapply wp_mono; [apply IH |]. intros o w2 [-> E2]. by rewrite E2.
Qed.

(** The quota is reset at most once a day (UTC), never before the day that the
    last reset fixed; a reset clears what was counted since the last one. *)
Theorem quota_reset_daily (start : Z) (m : QuotaMonitor) (rs : list ResetRound) :
  timely (calculateNextReset start) start rs →
  let '(log, (resetTime, m')) := startResetTimer (calculateNextReset start) m rs in
  length log = length rs ∧ Forall (λ e, dayOf start < dayOf (fst e)) log ∧
  StronglySorted Z.lt (dayOf ∘ fst <$> log) ∧ (rs ≠ [] → qm_dailyCalls m' = 0) ∧
  (m = NewQuotaMonitor → Forall (λ r, Z.of_nat (rr_calls r) ≤ max_u64) rs → snd <$> log = (λ r, Z.of_nat (rr_calls r)) <$> rs).
Proof.
  intros Ht. destruct (startResetTimer_days _ _ m _ Ht) as [Hge Hs].
  destruct (startResetTimer (calculateNextReset start) m rs) as [log [resetTime m']] eqn:E. simpl in Hge, Hs.
  destruct (nextReset_after start) as [_ Hday].
  destruct (startResetTimer_counts (calculateNextReset start) m rs) as (H1 & H2 & H3). rewrite E in H1, H2, H3. simpl in H1, H2, H3.
  split_and!; [done | | done | done |].
  - eapply Forall_impl; [exact Hge |]. intros e He.
    assert (dayOf (calculateNextReset start) ≤ dayOf (fst e)) by (by apply Z.div_le_mono). lia.
  - intros -> Hc. by apply H3.
Qed.

(** A watchdog that was not enabled starts nothing, whatever ticks follow. *)
Lemma disabled_watchdog {S V W} {DU : DBUpdater W} {OW : OrchWorld V} (rpcPool : RPCClient W) (done : bool)
    (cs : list (TickCase (DeadlockWatchdog S V W))) (d : DeadlockWatchdog S V W) :
  dw_enabled d = false → startWatchdog rpcPool done cs d = (d, Val false).
Proof. intros H. unfold startWatchdog, mbind, GoM_bind, gets, id. by rewrite H. Qed.

(** ** Witnesses *)

Lemma healer_interleaved_witness :
  let OW := depthsWorld in
  let cs := [inl 5; inr (6, LoopMsg); inl 7; inr (8, LoopDone)] in
  let o' := fst (startHealer (((λ c, match c with inl t => TcTick t | inr (t, c) => TcOther (otherStep t c) end) <$> cs) ++ [TcTick 9]) sampleOrch) in
  orch_ok o' ∧ cs_SyncedCursor (or_state o') ≤ cs_FetchedHeight (or_state o').
Proof.
  intros OW cs o'. destruct (healer_interleaved cs 9 sampleOrch) as (_ & H1 & _ & H2); [intros t w; by exists None | apply sampleOrch_ok |].
  by split.
Defined.

Definition headerClient : RPCClient PgSim :=
  mkRPCClient _ (λ n, mret (Ok (mkEthBlock n "0x" "0x" 0 0 0 None []))) (λ _, mret (Ok [])) (mret (Ok 0)).

Lemma audits_only_read_witness :
  let w := mkPgSim InitSchema emptyTables None [] in
  ps_tables (fst (StartPeriodicAudit headerClient 50 (TcTick <$> [1; 2]) w)) = emptyTables.
Proof. intros w. destruct (audits_only_read headerClient 50 [1; 2] w) as [_ H]; [by intros n w'; split; [eexists |] | exact H]. Defined.

(** A timer started a second before midnight, two days of calls. *)
Definition sampleRounds : list ResetRound :=
  [mkResetRound (dayNs - 1000000000) 5 3 (dayNs + 10); mkResetRound (dayNs + 20) 0 8 (2 * dayNs + 30)].

Lemma quota_reset_daily_witness :
  let log := fst (startResetTimer (calculateNextReset (dayNs - 1000000000)) NewQuotaMonitor sampleRounds) in
  snd <$> log = [3; 8] ∧ StronglySorted Z.lt (dayOf ∘ fst <$> log).
Proof.
  intros log. pose proof (quota_reset_daily (dayNs - 1000000000) NewQuotaMonitor sampleRounds) as H.
  unfold log. destruct (startResetTimer _ _ sampleRounds) as [l [r m]]. destruct H as (_ & _ & H1 & _ & H2).
  - by repeat split.
  - split; [| exact H1]. apply H2; [done |]. by repeat constructor.
Defined.
