(* ===== verification/Integrity.v ===== *)
(** * The integrity audit (scripts/verify_integrity.go)

    The command reads the newest thousand blocks of the database and checks that
    they form a chain.  The file states what the verdict means for the stored
    rows, and shows that the steps of the AsyncWriter keep the stored blocks a
    chain while the database is up ([Chain] composes them with the rest). *)

From S2P Require Import Prelude GoInt Types GlobalState Database Orchestrator AsyncWriter Processor Api.
From Stdlib Require Import ZArith Lia String Sorted.
From stdpp Require Import base numbers gmap strings list pretty.
Open Scope string_scope.
Open Scope Z_scope.

(** ** The command *)

(** The database, the lines printed, the report file. *)
Record Audit (W : Type) := mkAudit { au_db : W; au_console : list string; au_report : list string }.
Arguments mkAudit {W}.
Arguments au_db {W}.
Arguments au_console {W}.
Arguments au_report {W}.

(** The errors of [sqlx.Connect] and [os.OpenFile], the time, and how much of the
    line a failing write leaves in the file. *)
Record AuditEnv := mkAuditEnv {
  av_connect : option GoErr;
  av_open : option GoErr;
  av_timestamp : string;
  av_written : option nat
}.

(** [log.Fatalf], [return] or the end of [main], [os.Exit(1)]. *)
Inductive AuditEnd : Type := AuFatal (message : string) | AuReturned | AuExit1.

(** [database/sql] converts the numbers to int64. *)
Definition scanInt64 (bs : list ModelBlock) : result GoErr (list ModelBlock) :=
  if forallb (λ b, (min_i64 <=? mb_Number b) && (mb_Number b <=? max_i64)) bs then Ok bs
  else Err (Errorf "sql: Scan error on column number: value out of range").

Definition hashBroken (current previous : ModelBlock) : string :=
  "🚨 HASH CHAIN BROKEN: Block #" ++ pretty (mb_Number current) ++ " parent_hash does not match #" ++
  pretty (mb_Number previous) ++ " hash!".
Definition sequenceGap (current previous : ModelBlock) : string :=
  "🚨 SEQUENCE GAP DETECTED: Missing blocks between #" ++ pretty (mb_Number current) ++ " and #" ++ pretty (mb_Number previous).

Definition auditStatus (errors : Z) : string :=
  if 0 <? errors then "FAIL (" ++ pretty errors ++ " errors)" else "PASS".
Definition auditLine (timestamp : string) (errors : Z) (blocks : list ModelBlock) : string :=
  "[" ++ timestamp ++ "] Integrity Check: " ++ auditStatus errors ++ " | Checked " ++ pretty (Z.of_nat (List.length blocks)) ++
  " blocks | Head: #" ++ pretty (default 0 (mb_Number <$> head blocks)) ++ String (Ascii.ascii_of_nat 10) "".

Section audit.
Context {W : Type} {PG : Postgres W}.
Local Abbreviation M := (GoM (Audit W)).

Definition auDb {A} (m : GoM W A) : M A := zoom au_db (λ w s, mkAudit w (au_console s) (au_report s)) m.
Definition Println (line : string) : M unit := modify (λ s, mkAudit (au_db s) (au_console s ++ [line])%list (au_report s)).
Definition appendReport (line : string) (written : option nat) : M unit :=
modify (λ s, mkAudit (au_db s) (au_console s)
               (au_report s ++ [match written with None => line | Some n => String.substring 0 n line end])%list).

(** The loop over the pairs of neighbours. *)
Fixpoint auditPairs (blocks : list ModelBlock) (errors : Z) : M Z :=
match blocks with
| current :: rest =>
  match rest with
  | previous :: _ =>
    errors ← (if String.eqb (mb_ParentHash current) (mb_Hash previous) then mret errors
              else Println (hashBroken current previous);; mret (errors + 1));
    errors ← (if mb_Number current =? i64 (mb_Number previous + 1) then mret errors
              else Println (sequenceGap current previous);; mret (errors + 1));
    auditPairs rest errors
  | [] => mret errors
  end
| [] => mret errors
end.

(** [main]. *)
Definition verifyIntegrity (env : AuditEnv) : M AuditEnd :=
match av_connect env with
| Some e => mret (AuFatal ("❌ Integrity Check Failed: Database connection error: " ++ Error e))
| None =>
  Println "🔍 Starting Data Integrity Audit...";;
  r ← auDb (pg_Query (list ModelBlock) (latestBlocks 1000));
  match (match r with Ok bs => scanInt64 bs | Err e => Err e end) with
  | Err e => mret (AuFatal ("❌ Failed to fetch blocks: " ++ Error e))
  | Ok blocks =>
    if (List.length blocks <? 2)%nat then Println "⚠️ Insufficient data for integrity check.";; mret AuReturned
    else
      errors ← auditPairs blocks 0;
      match av_open env with
      | Some e => mret (AuFatal ("Failed to open report file: " ++ Error e))
      | None =>
        appendReport (auditLine (av_timestamp env) errors blocks) (av_written env);;
        Println ("✅ Audit Complete. Status: " ++ auditStatus errors ++ ". Report saved to docs/integrity_report.log");;
        mret (if 0 <? errors then AuExit1 else AuReturned)
      end
  end
end.
End audit.

(** ** What the audit stands for *)

Definition keyed_blocks (t : Tables) : Prop := map_Forall (λ k b, mb_Number b = k) (t_blocks t).

(** From [top] down, the row of every number is linked to the row of the number
    below it, [len] times. *)
Definition linked_rows (t : Tables) (top len : Z) : Prop :=
  ∀ i, 0 ≤ i < len →
    ∃ b p, t_blocks t !! (top - i) = Some b ∧ t_blocks t !! (top - i - 1) = Some p ∧ mb_ParentHash b = mb_Hash p.
(** The newest [n] rows are consecutive and linked by their hashes. *)
Definition linked_top (n : nat) (t : Tables) : Prop :=
  ∃ top, is_Some (t_blocks t !! top) ∧ (∀ k, is_Some (t_blocks t !! k) → k ≤ top) ∧
    linked_rows t top (Z.of_nat (Nat.min n (size (t_blocks t))) - 1).

(** The stored blocks are those from [lo] to [n], linked, the last with hash [h]. *)
Record stored_chain (lo n : Z) (h : string) (t : Tables) : Prop := {
  sc_keyed : keyed_blocks t;
  sc_range : ∀ k, is_Some (t_blocks t !! k) ↔ lo ≤ k ≤ n;
  sc_linked : ∀ k b p, t_blocks t !! k = Some b → t_blocks t !! (k - 1) = Some p → mb_ParentHash b = mb_Hash p;
  sc_last : ∀ b, t_blocks t !! n = Some b → mb_Hash b = h
}.

(** A list of rows, newest first, that is a chain. *)
Definition good_pair (c p : ModelBlock) : Prop := mb_ParentHash c = mb_Hash p ∧ mb_Number c = mb_Number p + 1.
Fixpoint falling_chain (bs : list ModelBlock) : Prop :=
  match bs with
  | c :: rest => match rest with p :: _ => good_pair c p | [] => True end ∧ falling_chain rest
  | [] => True
  end.

(** ** Lemmas: the loop *)

Section loop.
Context {W : Type} {PG : Postgres W}.
Implicit Types s : Audit W.

Definition same_files s s' : Prop := au_db s' = au_db s ∧ au_report s' = au_report s.

Lemma Println_wp line s (Q : outcome unit → Audit W → Prop) :
(∀ s', same_files s s' → Q (Val tt) s') → wp (Println line) Q s.
Proof. intros H. apply wp_modify, H. by split. Qed.

(** One comparison: it adds to the errors exactly when it fails. *)
Lemma count_wp (ok : bool) line errors s (Q : outcome Z → Audit W → Prop) :
(∀ s', same_files s s' → Q (Val (if ok then errors else errors + 1)) s') →
wp (if ok then mret errors else Println line;; mret (errors + 1)) Q s.
Proof.
intros H. destruct ok; [apply wp_ret, H; by split |]. apply wp_bind, Println_wp. intros s' Hs. by apply wp_ret, H.
Qed.

Lemma auditPairs_wp bs errors s :
Forall (λ b, is_i64 (mb_Number b)) bs → StronglySorted (λ x y, x >= y ∧ x ≠ y) (mb_Number <$> bs) → 0 ≤ errors →
wp (auditPairs bs errors)
   (λ o s', same_files s s' ∧ ∃ n, o = Val n ∧ errors ≤ n ∧ (n = errors ↔ falling_chain bs)) s.
Proof.
revert errors s. induction bs as [| c rest IH]; intros errors s Hi Hs He; [apply wp_ret; split; [done | exists errors; split_and!; [done | lia | done]] |].
apply Forall_cons in Hi as [Hc Hi]. inversion Hs as [| ? ? Hs' Hall]; subst.
destruct rest as [| p rest']; [apply wp_ret; split; [done | exists errors; split_and!; [done | lia | simpl; tauto]] |].
assert (Hp : i64 (mb_Number p + 1) = mb_Number p + 1).
{ apply Forall_cons in Hi as [Hp _]. apply Forall_cons in Hall as [[H1 H2] _]. apply i64_id.
  unfold is_i64, min_i64, max_i64 in *. lia. }
cbn [auditPairs falling_chain] in IH |- *.
apply wp_bind, count_wp. intros s1 [Hd1 Hr1]. apply wp_bind, count_wp. intros s2 [Hd2 Hr2].
rewrite Hp. destruct (String.eqb_spec (mb_ParentHash c) (mb_Hash p)) as [E1 | E1], (Z.eqb_spec (mb_Number c) (mb_Number p + 1)) as [E2 | E2];
  (eapply wp_mono; [apply IH; [done | done | lia] |]); intros o s3 ([Hd3 Hr3] & n & -> & Hle & Hn);
  (split; [split; congruence | exists n; split; [done |]; split; [lia |]]); unfold good_pair.
- rewrite Hn. tauto.
- split; [lia | intros [[_ H] _]; lia].
- split; [lia | intros [[H _] _]; done].
- split; [lia | intros [[H _] _]; done].
Qed.
End loop.

(** ** Lemmas: the newest rows *)

Lemma falling_linked (t : Tables) l c :
  keyed_blocks t → StronglySorted (λ x y, x >= y ∧ x ≠ y) (mb_Number <$> c :: l) →
  (∀ b, b ∈ c :: l → t_blocks t !! mb_Number b = Some b) →
  (∀ k d, t_blocks t !! k = Some d → k < mb_Number c → d ∈ l ∨ ∀ b, b ∈ l → k < mb_Number b) →
  falling_chain (c :: l) ↔ linked_rows t (mb_Number c) (Z.of_nat (List.length l)).
Proof.
  intros Hk. revert c. induction l as [| p l IH]; intros c Hs Hin Hout.
  { split; [intros _ i; simpl; lia | done]. }
  inversion Hs as [| ? ? Hs' Hall]; subst. apply Forall_cons in Hall as [[H1 H2] _]. fold (fmap mb_Number (p :: l)) in Hs'.
  inversion Hs' as [| ? ? _ Hp]; subst. rewrite Forall_fmap, Forall_forall in Hp. unfold compose in Hp.
  assert (Hc : t_blocks t !! mb_Number c = Some c) by (apply Hin; by left).
  assert (Hpt : t_blocks t !! mb_Number p = Some p) by (apply Hin; right; by left).
  assert (IHp : falling_chain (p :: l) ↔ linked_rows t (mb_Number p) (Z.of_nat (List.length l))).
  { apply (IH p); [done | intros b Hb; apply Hin; by right |]. intros k d Hd Hlt.
    destruct (Hout k d Hd) as [[-> | Hd']%elem_of_cons | Ho]; [lia | | by left |].
    - rewrite <- (Hk _ _ Hd) in Hlt. lia.
    - right. intros b Hb. apply Ho. by right. }
  change (falling_chain (c :: p :: l)) with (good_pair c p ∧ falling_chain (p :: l)). rewrite IHp, length_cons. split.
  - intros [[E1 E2] H] i Hi. destruct (decide (i = 0)) as [-> |].
    + exists c, p. replace (mb_Number c - 0) with (mb_Number c) by lia.
      replace (mb_Number c - 1) with (mb_Number p) by lia. done.
    + destruct (H (i - 1)) as (b & q & Hb & Hq & E); [lia |]. exists b, q.
      replace (mb_Number c - i) with (mb_Number p - (i - 1)) by lia. by split_and!.
  - intros H. assert (mb_Number c = mb_Number p + 1 ∧ mb_ParentHash c = mb_Hash p) as [E1 E2].
    { destruct (H 0) as (b & q & Hb & Hq & E); [lia |].
      replace (mb_Number c - 0) with (mb_Number c) in * by lia. simplify_eq.
      pose proof (Hk _ _ Hq) as Hqn. simpl in Hqn.
      destruct (Hout _ _ Hq) as [[-> | Hql]%elem_of_cons | Ho]; [lia | split; [lia | done] | |].
      - destruct (Hp q Hql). lia.
      - specialize (Ho p ltac:(by left)). lia. }
    split; [done |]. intros i Hi. destruct (H (i + 1)) as (b & q & Hb & Hq & E); [lia |]. exists b, q.
    replace (mb_Number p - i) with (mb_Number c - (i + 1)) by lia. by split_and!.
Qed.

Lemma latest_rows n t : keyed_blocks t → isLatest Z.ge mb_Number n (t_blocks t) (latestBlocks n t).
Proof. intros H. apply (latest_spec Z.ge byNumber); [| exact H]. intros x y. unfold byNumber. lia. Qed.

(** For at least one row, the falling list is a chain exactly when the newest
    rows are linked. *)
Lemma falling_top n t :
  keyed_blocks t → (1 ≤ List.length (latestBlocks n t))%nat → falling_chain (latestBlocks n t) ↔ linked_top n t.
Proof.
  intros Hk. destruct (latest_rows n t Hk) as (Hs & Hl & Hin & Hout).
  destruct (latestBlocks n t) as [| c l] eqn:El; [simpl; lia |]. intros _.
  inversion Hs as [| ? ? _ Hc]; subst. rewrite Forall_fmap, Forall_forall in Hc. unfold compose in Hc.
  assert (Hct : t_blocks t !! mb_Number c = Some c) by (apply Hin; by left).
  assert (Htop : ∀ k, is_Some (t_blocks t !! k) → k ≤ mb_Number c).
  { intros k [d Hd]. destruct (Hout c k d) as [Hdl | [H _]]; [by left | done | | lia].
    rewrite <- (Hk _ _ Hd). apply elem_of_cons in Hdl as [-> | Hdl]; [done |]. destruct (Hc d Hdl). lia. }
  rewrite (falling_linked t l c); [| done.. |].
  - assert (En : Z.of_nat (Nat.min n (size (t_blocks t))) - 1 = Z.of_nat (List.length l)) by (rewrite <- Hl; simpl; lia).
    split.
    + intros H. exists (mb_Number c). rewrite En. split_and!; [by eexists | done | done].
    + intros (top & [b Hb] & Hmax & H). rewrite En in H.
      assert (top = mb_Number c) as ->; [| done].
      assert (mb_Number c ≤ top) by (apply Hmax; by eexists). assert (top ≤ mb_Number c) by (apply Htop; by eexists). lia.
  - intros k d Hd Hlt. assert (Hne : d ≠ c) by (intros ->; rewrite (Hk _ _ Hd) in Hlt; lia).
    destruct (decide (d ∈ l)) as [| Hnd]; [by left |]. right. intros b Hb.
    destruct (Hout b k d) as [[-> | ?]%elem_of_cons | [H1 H2]]; [by right | done..| lia].
Qed.

(** ** Lemmas: the command *)

Section command.
Context {W : Type} {PG : Postgres W}.

Lemma auDb_wp {A} (m : GoM W A) Q (s : Audit W) :
wp m (λ o w, Q o (mkAudit w (au_console s) (au_report s))) (au_db s) → wp (auDb m) Q s.
Proof. intros H. by apply wp_zoom. Qed.

Lemma scanInt64_ok bs r : scanInt64 bs = Ok r → r = bs ∧ Forall (λ b, is_i64 (mb_Number b)) bs.
Proof.
unfold scanInt64. destruct (forallb _ bs) eqn:E; [| done]. intros [= <-]. split; [done |].
rewrite forallb_forall in E. apply Forall_forall. intros b Hb. specialize (E b (proj1 (list_elem_of_In _ _) Hb)).
unfold is_i64. lia.
Qed.

(** What the audit of a database with keyed rows says. *)
Definition verdict (env : AuditEnv) (s : Audit W) (o : outcome AuditEnd) (s' : Audit W) : Prop :=
au_db s' = au_db s ∧ ∃ e, o = Val e ∧
let t := pg_tables (au_db s) in
match e with
| AuFatal _ => au_report s' = au_report s
| AuReturned => (size (t_blocks t) < 2)%nat ∧ au_report s' = au_report s ∨
                linked_top 1000 t ∧
                  (av_written env = None → au_report s' = (au_report s ++ [auditLine (av_timestamp env) 0 (latestBlocks 1000 t)])%list)
| AuExit1 => ¬ linked_top 1000 t ∧ (2 ≤ size (t_blocks t))%nat
end.

Lemma verifyIntegrity_wp env s :
keyed_blocks (pg_tables (au_db s)) → wp (verifyIntegrity env) (verdict env s) s.
Proof.
intros Hk. unfold verifyIntegrity. destruct (av_connect env); [apply wp_ret; split; [done | by eexists] |].
apply wp_bind, Println_wp. intros s1 [Hd1 Hr1]. rewrite <- Hd1 in Hk.
apply wp_bind, auDb_wp. eapply wp_mono; [apply pg_Query_spec |]. intros o w (-> & r & -> & Hr).
destruct (latest_rows 1000 _ Hk) as (Hsort & Hlen & _). pose proof (falling_top 1000 _ Hk) as Hfall.
destruct (match r with Ok bs => scanInt64 bs | Err e => Err e end) as [blocks | e] eqn:Ebs;
  [| apply wp_ret; split; [done | eexists; split; [done | apply Hr1]]].
destruct r as [bs | ]; [| done]. apply scanInt64_ok in Ebs as [-> Hi]. rewrite (Hr bs eq_refl) in *. clear Hr bs.
rewrite Hd1 in *. set (bs := latestBlocks 1000 (pg_tables (au_db s))) in *.
destruct (Nat.ltb_spec (List.length bs) 2) as [Hlt | Hge].
{ apply wp_bind, Println_wp. intros s2 [Hd2 Hr2]. apply wp_ret. split; [done |]. exists AuReturned. split; [done |]. left.
  split; [lia | by rewrite Hr2]. }
apply wp_bind. eapply wp_mono; [apply auditPairs_wp; [done | done | lia] |]. simpl.
intros o s2 ([Hd2 Hr2] & n & -> & Hn & Hiff). specialize (Hfall ltac:(lia)). simpl in Hd2, Hr2.
destruct (av_open env); [apply wp_ret; split; [done | eexists; split; [done | simpl; congruence]] |].
apply wp_bind, wp_modify, wp_bind, Println_wp. intros s3 [Hd3 Hr3]. simpl in Hd3, Hr3. apply wp_ret.
split; [congruence |]. destruct (Z.ltb_spec 0 n); eexists; (split; [done |]).
- split; [| lia]. rewrite <- Hfall, <- Hiff. lia.
- right. split; [apply Hfall, Hiff; lia |]. intros Hw. rewrite Hw in Hr3. replace n with 0 in Hr3 by lia. by rewrite Hr3, Hr2, Hr1.
Qed.
End command.

(** ** Lemmas: what is stored is a chain *)

Lemma persisted_t_blocks chainID latest batch t :
  t_blocks (persisted chainID latest batch t) =
  foldl (λ m b, insertNew m (mb_Number b) (blockRow b)) (t_blocks t) (pt_Block <$> batch).
Proof. unfold persisted. by destruct (batch ≫= pt_Transfers). Qed.

Fixpoint lastHash (h : string) (bs : list EthBlock) : string :=
  match bs with [] => h | b :: rest => lastHash (blk_Hash b) rest end.

Lemma insert_chain lo n h t b :
  stored_chain lo n h t → lo ≤ n + 1 → blk_Number b = n + 1 → blk_ParentHash b = h →
  stored_chain lo (n + 1) (blk_Hash b) (tset_blocks (insertNew (t_blocks t) (blk_Number b) (blockRow (modelBlock b))) t).
Proof.
  intros [Hk Hr Hl Hh] Hlo Hn Hp. unfold insertNew. rewrite Hn.
  assert (Hnone : t_blocks t !! (n + 1) = None).
  { apply eq_None_not_Some. intros H%Hr. lia. }
  rewrite Hnone. constructor; simpl.
  - apply map_Forall_insert_2; [done | exact Hk].
  - intros k. rewrite lookup_insert_is_Some, Hr. lia.
  - intros k c p Hc Hpk. apply lookup_insert_Some in Hc as [[<- <-] | [Hne Hc]].
    + rewrite lookup_insert_ne in Hpk by lia. replace (n + 1 - 1) with n in Hpk by lia. simpl. rewrite (Hh _ Hpk). done.
    + apply lookup_insert_Some in Hpk as [[E <-] | [_ Hpk]]; [| by apply (Hl k)].
      assert (lo ≤ k ≤ n) by (apply Hr; by eexists). lia.
  - intros c Hc. rewrite lookup_insert_eq in Hc. by simplify_eq.
Qed.

Lemma store_chain lo bs n h t :
  stored_chain lo n h t → lo ≤ n + 1 → Processor.consecutive n bs → linkedPrefix h bs = bs →
  stored_chain lo (n + Z.of_nat (List.length bs)) (lastHash h bs)
    (tset_blocks (foldl (λ m b, insertNew m (mb_Number b) (blockRow b)) (t_blocks t) (modelBlock <$> bs)) t).
Proof.
  revert n h t. induction bs as [| b bs IH]; intros n h t Hs Hlo Hc Hp.
  { simpl. rewrite Z.add_0_r. by destruct t. }
  destruct Hc as (Hn & _ & _ & Hc). simpl in Hp. destruct (String.eqb_spec h (blk_ParentHash b)) as [E |]; [| done].
  injection Hp as Hp. rewrite length_cons. replace (n + Z.of_nat (S (List.length bs))) with (n + 1 + Z.of_nat (List.length bs)) by lia.
  apply (IH (n + 1) (blk_Hash b) (tset_blocks (insertNew (t_blocks t) (blk_Number b) (blockRow (modelBlock b))) t)); [| lia | done | done].
  by apply insert_chain with h.
Qed.

Lemma stored_chain_blocks lo n h t t' : t_blocks t = t_blocks t' → stored_chain lo n h t → stored_chain lo n h t'.
Proof. intros E [? ? ? ?]. constructor; unfold keyed_blocks in *; by rewrite <- E. Qed.

(** The prefix that is stored is itself linked and consecutive. *)
Lemma linkedPrefix_idem h bs : linkedPrefix h (linkedPrefix h bs) = linkedPrefix h bs.
Proof.
  revert h. induction bs as [| b bs IH]; intros h; [done |]. simpl.
  destruct (String.eqb h (blk_ParentHash b)) eqn:E; [| done]. simpl. by rewrite E, IH.
Qed.
Lemma linkedPrefix_consecutive n h bs : Processor.consecutive n bs → Processor.consecutive n (linkedPrefix h bs).
Proof.
  revert n h. induction bs as [| b bs IH]; intros n h; [done |]. simpl. intros (? & ? & ? & ?).
  destruct (String.eqb h (blk_ParentHash b)); [| done]. simpl. split_and!; [done.. | by apply IH].
Qed.

(** Numbers between [lo] and [n] are at most [n - lo + 1]. *)
Lemma range_size {A} (m : gmap Z A) lo n :
  (∀ k, is_Some (m !! k) → lo ≤ k ≤ n) → Z.of_nat (size m) ≤ Z.max 0 (n - lo + 1).
Proof.
  intros H. rewrite <- size_dom.
  assert (Hsub : dom m ⊆ (list_to_set (seqZ lo (n - lo + 1)) : gset Z)).
  { intros k Hk%elem_of_dom%H. apply elem_of_list_to_set, elem_of_seqZ. lia. }
  apply subseteq_size in Hsub. rewrite size_list_to_set, length_seqZ in Hsub by apply NoDup_seqZ. lia.
Qed.

(** A stored chain passes the audit. *)
Lemma stored_chain_linked lo n h t : stored_chain lo n h t → t_blocks t ≠ ∅ → linked_top 1000 t.
Proof.
  intros [Hk Hr Hl _] Hne. destruct (map_choose _ Hne) as (k & b & Hkb).
  assert (Hlo : lo ≤ k ≤ n) by (apply Hr; by eexists).
  assert (Hsz : Z.of_nat (size (t_blocks t)) ≤ Z.max 0 (n - lo + 1)) by (apply range_size; intros j; apply Hr).
  exists n. split_and!; [apply Hr; lia | intros j Hj%Hr; lia |]. intros i Hi.
  destruct (proj2 (Hr (n - i))) as [c Hc]; [lia |]. destruct (proj2 (Hr (n - i - 1))) as [p Hp]; [lia |].
  exists c, p. split_and!; [done.. | by apply (Hl (n - i))].
Qed.

(** ** A database that is up *)

(** While [up] holds, transactions of statements the schema knows succeed. *)
Class Reliable (W : Type) {PG : Postgres W} := {
  up : W → Prop;
  up_Begin w : up w → wp (pg_BeginTxx false) (λ o w', o = Val None ∧ up w') w;
  up_TxExec st w : up w → is_Some (pg_tx w) → stmt_ok (pg_schema w) st = true →
    wp (pg_TxExec false st) (λ o w', o = Val None ∧ up w') w;
  up_Commit w : up w → is_Some (pg_tx w) → wp pg_Commit (λ o w', o = Val None ∧ up w') w;
  up_Rollback w : up w → wp pg_Rollback (λ _ w', up w') w
}.

#[export] Program Instance PgSim_Reliable : Reliable PgSim := {| up := λ s, ps_faults s = [] |}.
Next Obligation. intros [sch t tx f] Hf. simpl in Hf. subst f. done. Qed.
Next Obligation.
  intros st [sch t tx f] Hf [t' Ht'] Hok. simpl in *. subst f. unfold wp, sim_TxExec. simpl.
  destruct tx as [[t0 |] |]; [| done..]. by rewrite Hok.
Qed.
Next Obligation.
  intros [sch t tx f] Hf [t' Ht']. simpl in *. subst f. destruct tx as [[t0 |] |]; done.
Qed.
Next Obligation. done. Qed.

Section reliable.
Context {W : Type} {PG : Postgres W} {R : Reliable W}.

(** Both specifications of one operation at once. *)
Lemma wp_both {S A} (m : GoM S A) (P Q : outcome A → S → Prop) s : wp m P s → wp m Q s → wp m (λ o s', P o s' ∧ Q o s') s.
Proof. by split. Qed.

(** A step inside a transaction of a database that is up, with the schema [sch]. *)
Context (sch : Schema).
Definition tx_up (F : Tables → Tables) (w w' : W) : Prop :=
up w' ∧ pg_schema w' = sch ∧ pg_tables w' = pg_tables w ∧ ∃ t, pg_tx w = Some t ∧ pg_tx w' = Some (F t).
Definition runs_up {A} (body : GoM W A) (F : Tables → Tables) : Prop :=
∀ w, up w → pg_schema w = sch → is_Some (pg_tx w) → wp body (λ o w', (∃ a, o = Val a) ∧ tx_up F w w') w.

Lemma exec_up st : stmt_ok sch st = true → runs_up (pg_TxExec false st) (stmt_run st).
Proof.
intros Hok w Hw Hs Ht. rewrite <- Hs in Hok. eapply wp_mono; [apply wp_both; [by apply up_TxExec | apply pg_TxExec_spec] |].
intros o w' ([-> Hu] & e & [= <-] & Hs' & Ht' & Hn & _). destruct (Hn eq_refl) as (_ & _ & t & H1 & H2).
split; [by eexists |]. split; [done |]. split; [congruence |]. split; [done | by exists t].
Qed.

Lemma ret_up {A} (a : A) : runs_up (mret a) id.
Proof. intros w Hw Hs [t Ht]. apply wp_ret. split; [by eexists |]. do 3 (split; [done |]). by exists t. Qed.

Lemma seq_up {A B} (m : GoM W A) (k : A → GoM W B) F G :
runs_up m F → (∀ a, runs_up (k a) G) → runs_up (m ≫= k) (λ t, G (F t)).
Proof.
intros Hm Hk w Hw Hs Ht. apply wp_bind. eapply wp_mono; [by apply Hm |].
intros o w1 ([a ->] & Hw1 & Hs1 & Ht1 & t & Hx & Hx1). eapply wp_mono; [apply Hk; [done | done | by eexists] |].
intros o w2 (Ho & Hw2 & Hs2 & Ht2 & t2 & Hx2 & Hx3). split; [done |]. split_and!; [done | done | congruence |].
exists t. split; [done |]. rewrite Hx3. congruence.
Qed.

Lemma flushStatements_up chainID latest batch :
serves_flush sch = true → batch ≠ [] → runs_up (flushStatements false chainID latest batch) (persisted chainID latest batch).
Proof.
intros Hsch Hne. unfold flushStatements, persisted.
apply andb_prop in Hsch as [Hsch H4]. apply andb_prop in Hsch as [Hsch H3]. apply andb_prop in Hsch as [H1 H2].
assert (Hb : runs_up (InsertBlocksBatchTx false (pt_Block <$> batch)) (stmt_run (insertBlocksStmt (pt_Block <$> batch)))).
{ destruct batch; [done |]. apply exec_up. exact H1. }
assert (Ht : runs_up (InsertTransfersBatchTx false (batch ≫= pt_Transfers))
          (λ t, match batch ≫= pt_Transfers with [] => t | l => stmt_run (insertTransfersStmt l) t end)).
{ destruct (batch ≫= pt_Transfers); [apply ret_up | apply exec_up; exact H2]. }
assert (Hc : ∀ a b, runs_up (pg_TxExec false (upsertCheckpointStmt a b)) (stmt_run (upsertCheckpointStmt a b))) by (intros; apply exec_up; exact H3).
assert (Hst : ∀ a b c d, runs_up (pg_TxExec false (upsertStatusStmt a b c d)) (stmt_run (upsertStatusStmt a b c d))) by (intros; apply exec_up; exact H4).
intros w Hw Hs Hx. eapply wp_mono; [apply (seq_up _ _ _ _ Hb (λ _, seq_up _ _ _ _ Ht (λ _,
  seq_up _ _ _ _ (Hc _ _) (λ _, seq_up _ _ _ _ (Hst _ _ _ _) (λ _, ret_up tt))))); done |].
intros o w' (Ho & Hu & Hw' & Htb & t & Hx1 & Hx2).
do 4 (split; [done |]). by exists t.
Qed.

(** With the database up, a flush stores its batch. *)
Lemma flush_up batch (w : AsyncWriter W) :
batch ≠ [] → aw_ephemeralMode w = false → aw_done w = false → up (aw_db w) → pg_schema (aw_db w) = sch → serves_flush sch = true →
wp (flush batch) (λ o w', o = Val tt ∧ same_queue w w' ∧ up (aw_db w') ∧
    aw_out w' = (aw_out w ++ [(CmdCommitDisk, DUint64 (maxHeight batch))])%list ∧
    pg_tables (aw_db w') = persisted (aw_chainID w) (aw_latestHeight w) batch (pg_tables (aw_db w))) w.
Proof.
intros Hne He Hd Hu Hs Hsch. unfold flush. destruct batch as [| t0 batch0] eqn:Eb; [done |]. rewrite <- Eb in *. clear Eb.
apply wp_bind, wp_gets. unfold id. rewrite He, Hd.
apply wp_bind, onDb_wp. eapply wp_mono; [apply wp_both; [by apply up_Begin | apply pg_BeginTxx_spec] |].
intros o d1 ([-> Hu1] & e & [= <-] & Hs1 & Ht1 & Hn1). destruct (Hn1 eq_refl) as [_ Hx1].
apply wp_bind, onDb_wp. simpl. eapply wp_mono; [apply flushStatements_up; [done | done | done | congruence | by eexists] |].
intros o d2 ([a ->] & Hu2 & Hs2 & Ht2 & t & Hx & Hx2). simpl in *. simplify_eq.
apply wp_bind, onDb_wp. simpl. eapply wp_mono; [apply wp_both; [apply up_Commit; [done | by eexists] | apply pg_Commit_spec] |].
intros o d3 ([-> Hu3] & e & [= <-] & Hs3 & _ & Hn3 & _). specialize (Hn3 eq_refl). simpl in *.
apply wp_bind, wp_modify, wp_bind, wp_modify, onDb_wp. simpl.
eapply wp_mono; [apply wp_both; [by apply up_Rollback | apply pg_Rollback_spec] |].
intros o d4 (Hu4 & -> & Hs4 & Ht4 & _). simpl.
split; [done |]. split; [split_and!; simpl; congruence |]. split; [done |]. split; [done |]. rewrite Ht4. congruence.
Qed.
End reliable.

(** ** Lemmas: storing the queue keeps the chain *)

(** What is stored, from [lo] to [from] at least, followed by the queue is the
    chain up to [n] with hash [h]. *)
Definition on_chain (lo from n : Z) (h : string) (queue : list PersistTask) (t : Tables) : Prop :=
  ∃ n0 h0 bs, stored_chain lo n0 h0 t ∧ (lo ≤ from + 1 ∧ from ≤ n0) ∧ Processor.consecutive n0 bs ∧ linkedPrefix h0 bs = bs ∧
    pt_Block <$> queue = modelBlock <$> bs ∧ n = n0 + Z.of_nat (List.length bs) ∧ h = lastHash h0 bs.

Lemma consecutive_app n b1 b2 :
  Processor.consecutive n (b1 ++ b2) ↔ Processor.consecutive n b1 ∧ Processor.consecutive (n + Z.of_nat (List.length b1)) b2.
Proof.
  revert n. induction b1 as [| b b1 IH]; intros n; simpl; [by rewrite Z.add_0_r; tauto |].
  rewrite IH. replace (n + 1 + Z.of_nat (List.length b1)) with (n + Z.of_nat (S (List.length b1))) by lia. tauto.
Qed.
Lemma linkedPrefix_app h b1 b2 :
  linkedPrefix h (b1 ++ b2) = (b1 ++ b2)%list → linkedPrefix h b1 = b1 ∧ linkedPrefix (lastHash h b1) b2 = b2.
Proof.
  revert h. induction b1 as [| b b1 IH]; intros h; simpl; [done |].
  destruct (String.eqb h (blk_ParentHash b)); [| done]. intros [= H]. apply IH in H as [-> ?]. done.
Qed.
Lemma lastHash_app h b1 b2 : lastHash h (b1 ++ b2) = lastHash (lastHash h b1) b2.
Proof. revert h. induction b1 as [| b b1 IH]; intros h; [done | apply IH]. Qed.

(** Storing the first part of the queue. *)
Lemma on_chain_store lo from n h batch rest t chainID latest :
  on_chain lo from n h (batch ++ rest) t → on_chain lo from n h rest (persisted chainID latest batch t).
Proof.
  intros (n0 & h0 & bs & Hs & [Hlo Hfrom] & Hc & Hp & Hq & -> & ->). rewrite fmap_app in Hq. symmetry in Hq.
  apply fmap_app_inv in Hq as (b1 & b2 & E1 & E2 & ->). apply consecutive_app in Hc as [Hc1 Hc2].
  apply linkedPrefix_app in Hp as [Hp1 Hp2].
  exists (n0 + Z.of_nat (List.length b1)), (lastHash h0 b1), b2.
  split_and!; [| lia | lia | done | done | done | rewrite length_app; lia | apply lastHash_app].
  eapply stored_chain_blocks, (store_chain lo b1 n0 h0 t Hs ltac:(lia) Hc1 Hp1). by rewrite persisted_t_blocks, <- E1.
Qed.

(** A writer on a database that is up and has what a flush names, before the
    writer's shutdown. *)
Record wr_ok `{R : Reliable W} (w : AsyncWriter W) : Prop := {
  wo_up : up (aw_db w);
  wo_schema : serves_flush (pg_schema (aw_db w)) = true;
  wo_done : aw_done w = false;
  wo_mode : aw_ephemeralMode w = false
}.

Section feeding.
Context {W : Type} {PG : Postgres W} {R : Reliable W} (lo from n : Z) (h : string).
Implicit Types (w : AsyncWriter W) (rest : list PersistTask).

Definition chained rest w : Prop := on_chain lo from n h rest (pg_tables (aw_db w)).

Lemma flush_chained batch rest w :
wr_ok w → chained (batch ++ rest) w →
wp (flush batch) (λ o w', o = Val tt ∧ wr_ok w' ∧ aw_taskChan w' = aw_taskChan w ∧ aw_batch w' = aw_batch w ∧ chained rest w') w.
Proof.
intros Hw Hc. destruct (decide (batch = [])) as [-> | Hne]; [by apply wp_ret |].
destruct Hw as [Hu Hs Hd Hm]. eapply wp_mono; [by apply (flush_up (pg_schema (aw_db w))) |].
intros o w' (-> & (Hq & Hb & Hcap & Hd' & _ & _ & Hm' & _ & Hs') & Hu' & Ho & Ht).
split_and!; [done | constructor; congruence || done | done | done |].
unfold chained. rewrite Ht. by apply on_chain_store.
Qed.

Lemma flushBatch_chained rest w :
wr_ok w → chained (aw_batch w ++ rest) w →
wp flushBatch (λ o w', o = Val tt ∧ wr_ok w' ∧ aw_taskChan w' = aw_taskChan w ∧ aw_batch w' = [] ∧ chained rest w') w.
Proof.
intros Hw Hc. apply wp_bind, wp_gets. unfold id. apply wp_bind. case_match eqn:E.
- apply bool_decide_eq_true in E. rewrite E in Hc. apply wp_ret, wp_modify.
  split_and!; [done | by destruct Hw | done..].
- eapply wp_mono; [by apply flush_chained |]. intros o w1 (-> & Hwk & Hq & Hb & Hc1). apply wp_modify.
  split_and!; [done | by destruct Hwk | done..].
Qed.

Lemma emergencyDrain_chained rest w :
wr_ok w → aw_batch w = [] → chained (aw_taskChan w ++ rest) w →
wp emergencyDrain (λ o w', o = Val tt ∧ wr_ok w' ∧ aw_batch w' = [] ∧ chained (aw_taskChan w' ++ rest) w') w.
Proof.
intros Hw Hb Hc. apply wp_bind, wp_gets. unfold id.
case_match; [by apply wp_ret |].
do 3 apply wp_bind, wp_modify. apply wp_bind. set (k := Z.to_nat _). eapply wp_mono.
{ apply (flush_chained _ (drop k (aw_taskChan w) ++ rest)); [by destruct Hw |]. unfold chained. simpl. by rewrite app_assoc, take_drop. }
simpl. intros o w1 (-> & Hwk & Hq & Hb1 & Hc1). apply wp_modify. simpl. rewrite Hq.
split_and!; [done | by destruct Hwk | congruence | done].
Qed.

Lemma awStep_chained c rest w :
wr_ok w → chained (aw_batch w ++ aw_taskChan w ++ rest) w →
wp (awStep c) (λ o w', (∃ b, o = Val b) ∧ wr_ok w' ∧ chained (aw_batch w' ++ aw_taskChan w' ++ rest) w') w.
Proof.
intros Hw Hc. assert (Hfb : ∀ w rest, wr_ok w → chained (aw_batch w ++ rest) w → ∀ b : bool,
  wp (flushBatch;; mret b) (λ o w', (∃ b, o = Val b) ∧ wr_ok w' ∧ aw_taskChan w' = aw_taskChan w ∧ aw_batch w' = [] ∧ chained rest w') w).
{ intros w1 r H1 H2 b. apply wp_bind. eapply wp_mono; [by apply flushBatch_chained |]. intros o w2 (-> & H). apply wp_ret. split; [by eexists | done]. }
assert (Hfin : ∀ b : bool, wp (flushBatch;; mret b) (λ o w', (∃ b, o = Val b) ∧ wr_ok w' ∧ chained (aw_batch w' ++ aw_taskChan w' ++ rest) w') w).
{ intros b. eapply wp_mono; [by apply (Hfb w (aw_taskChan w ++ rest)%list) |]. intros o w' (? & ? & Hq & -> & ?). by rewrite Hq. }
destruct c; [apply Hfin | | apply Hfin |].
- apply wp_bind, wp_gets. unfold id. destruct (aw_taskChan w) as [| task q] eqn:Eq.
  { apply wp_ret. split; [by eexists |]. split; [done | by rewrite Eq]. }
  do 2 apply wp_bind, wp_modify. apply wp_bind, wp_gets. unfold id. simpl.
  set (w1 := wset_batch _ _). assert (Hw1 : wr_ok w1) by (by destruct Hw).
  assert (Hc1 : chained (aw_batch w1 ++ q ++ rest) w1) by (unfold chained; simpl; by rewrite <- app_assoc).
  case_match.
  + apply wp_bind. eapply wp_mono; [by apply (flushBatch_chained (q ++ rest)%list) |].
    intros o w2 (-> & Hwk2 & Hq & Hb & Hc2). apply wp_bind.
    eapply wp_mono; [apply (emergencyDrain_chained rest); [done | done | by rewrite Hq] |].
    intros o w3 (-> & Hwk3 & Hb3 & Hc3). apply wp_ret. split; [by eexists |]. by rewrite Hb3.
  + case_match; [| apply wp_ret; split; [by eexists |]; by split].
    eapply wp_mono; [by apply (Hfb w1 (q ++ rest)%list) |]. intros o w2 (Ho & Hwk & Hq & Hb & Hc2).
    split; [done |]. split; [done |]. by rewrite Hb, Hq.
- apply wp_bind, wp_modify, wp_ret. split; [by eexists |]. split; [by destruct Hw | done].
Qed.

(** A task accepted by the queue. *)
Lemma Enqueue_chained t rest w :
wr_ok w → Z.of_nat (List.length (aw_taskChan w)) < aw_cap w → chained (aw_batch w ++ aw_taskChan w ++ t :: rest) w →
wp (Enqueue t) (λ o w', o = Val None ∧ wr_ok w' ∧ chained (aw_batch w' ++ aw_taskChan w' ++ rest) w') w.
Proof.
intros Hw Hroom Hc. apply wp_bind, wp_gets. unfold id. rewrite (proj2 (Z.ltb_lt _ _)) by done. apply wp_bind, wp_modify, wp_ret.
split_and!; [done | by destruct Hw |]. unfold chained. simpl. by rewrite <- app_assoc.
Qed.
End feeding.

(** The audit of tables that hold a chain. *)
Lemma audit_of_chain {W} {PG : Postgres W} lo n h env (s : Audit W) :
  stored_chain lo n h (pg_tables (au_db s)) → wp (verifyIntegrity env) (λ o _, o ≠ Val AuExit1) s.
Proof.
  intros Hs. eapply wp_mono; [apply verifyIntegrity_wp, Hs |]. intros o s' (_ & e & -> & He) [= ->].
  destruct He as [Hn Hsz]. apply Hn. eapply stored_chain_linked; [done |]. intros E. rewrite E, map_size_empty in Hsz. lia.
Qed.

(** ** Properties *)

(** C13: What the integrity audit proves.  Whatever errors occur, the audit
    changes no table, and its exit decides the integrity of the newest thousand
    rows: exit status 1 means that they are not the consecutive numbers below the
    highest one linked by parent hash; a normal end with a report means that they
    are, and the report then says PASS with their count and the highest number. *)
Theorem audit_decides_chain {W} {PG : Postgres W} (env : AuditEnv) (s : Audit W) :
  keyed_blocks (pg_tables (au_db s)) →
  wp (verifyIntegrity env)
     (λ o s', au_db s' = au_db s ∧ ∃ e, o = Val e ∧
        let t := pg_tables (au_db s) in
        match e with
        | AuFatal _ => au_report s' = au_report s
        | AuReturned => (size (t_blocks t) < 2)%nat ∧ au_report s' = au_report s ∨
            linked_top 1000 t ∧
              (av_written env = None → au_report s' = (au_report s ++ [auditLine (av_timestamp env) 0 (latestBlocks 1000 t)])%list)
        | AuExit1 => ¬ linked_top 1000 t ∧ (2 ≤ size (t_blocks t))%nat
        end) s.
Proof. apply verifyIntegrity_wp. Qed.

(** ** Witnesses *)

Definition chainDb (bs : list EthBlock) (faults : list bool) : PgSim :=
  mkPgSim deployedSchema (stmt_run (insertBlocksStmt (modelBlock <$> bs)) emptyTables) None faults.
Definition auditNow : AuditEnv := mkAuditEnv None None "2026-02-15T00:00:00Z" None.

Lemma audit_decides_chain_witness :
  let audit bs := mkAudit (chainDb bs []) [] [] in
  snd (verifyIntegrity auditNow (audit [chainBlock 5 "h5" "h4"; chainBlock 6 "h6" "h5"])) = Val AuReturned ∧
  linked_top 1000 (pg_tables (au_db (audit [chainBlock 5 "h5" "h4"; chainBlock 6 "h6" "h5"]))) ∧
  snd (verifyIntegrity auditNow (audit [chainBlock 5 "h5" "h4"; chainBlock 7 "h7" "h6"])) = Val AuExit1 ∧
  ¬ linked_top 1000 (pg_tables (au_db (audit [chainBlock 5 "h5" "h4"; chainBlock 7 "h7" "h6"]))).
Proof.
  assert (Hk : ∀ bs, keyed_blocks (stmt_run (insertBlocksStmt bs) emptyTables)).
  { intros bs. unfold keyed_blocks. simpl. generalize (map_Forall_empty (M := gmap Z) (λ k b, mb_Number b = k)).
    generalize (∅ : gmap Z ModelBlock). induction bs as [| b bs IH]; intros m Hm; [done |]. simpl. apply IH.
    unfold insertNew. case_match; [done |]. by apply map_Forall_insert_2. }
  cbn zeta. split_and!; [vm_compute; reflexivity | | vm_compute; reflexivity |].
  - destruct (audit_decides_chain auditNow (mkAudit (chainDb [chainBlock 5 "h5" "h4"; chainBlock 6 "h6" "h5"] []) [] [])) as (_ & e & He & H);
      [apply Hk |]. vm_compute in He. injection He as <-. destruct H as [[Hsz _] | [H _]]; [| exact H].
    vm_compute in Hsz. lia.
  - destruct (audit_decides_chain auditNow (mkAudit (chainDb [chainBlock 5 "h5" "h4"; chainBlock 7 "h7" "h6"] []) [] [])) as (_ & e & He & H);
      [apply Hk |]. vm_compute in He. injection He as <-. exact (proj1 H).
Defined.
