(* ===== verification/Chain.v ===== *)
(** * The chain below the cursor

    The commit path as one system: the tasks of the Processor enter the
    Orchestrator's queue, the Orchestrator hands them to the AsyncWriter, the
    writer stores them and reports back, and the report moves the cursor
    ([Pipeline]).  Here the system runs on a database that is up, and the blocks
    that come in are a chain: then what is stored is a chain at every moment,
    without a gap below the cursor. *)

From S2P Require Import Prelude GoInt Types GlobalState Database Orchestrator AsyncWriter Pipeline Processor Integrity.
From Stdlib Require Import ZArith Lia String.
From stdpp Require Import base numbers gmap strings list.
Open Scope Z_scope.

(** ** Tasks on their way *)



Section chain.
Context {W : Type} {PG : Postgres W} {R : Reliable W}.
Implicit Types (p : Pipe W) (o : Orchestrator (World W)).



(** ** Lemmas: the Orchestrator *)





(** ** Lemmas: the chain is kept by every step *)









End chain.

(** ** Properties *)


(** ** Witness *)

Definition forkedBlocks : list EthBlock := [chainBlock 6 "h6" "h5"; chainBlock 7 "h7" "h6"; chainBlock 8 "h8" "fork"].
Definition storedTask (b : EthBlock) : PersistTask := persistTask noEnv b [].
Definition forkedTasks : list PersistTask := storedTask <$> take 2 forkedBlocks.
Definition chainPipe (db : PgSim) : Pipe PgSim :=
  mkPipe (oset_asyncWriter true (newOrchestrator 0 (NewAsyncWriter false 1 db, (0, 0)))) 0.
(** Each block goes through the queue, is flushed and reported before the next. *)
Definition chainCases : list PipeCase :=
  forkedTasks ≫= λ t, [PExtern CmdCommitBatch (DTask t); PLoop 1 LoopMsg; PWriter AwTask; PWriter AwTick; PDeliver; PLoop 2 LoopMsg].


(** The database must be up: when the flush of block 6 fails its task is gone, the
    flush of block 7 moves the cursor past the hole, and the audit fails. *)
Lemma lost_flush_leaves_gap :
  let q' := fst (pipeRun chainCases (chainPipe (chainDb [chainBlock 5 "h5" "h4"] [true]))) in
  cs_SyncedCursor (or_state (pp_orch q')) = 7 ∧ t_blocks (tablesOf (pp_orch q')) !! 6 = None ∧
  snd (verifyIntegrity auditNow (mkAudit (aw_db (writerOf q')) [] [])) = Val AuExit1.
Proof. vm_compute. auto. Qed.
