(* ===== verification/Logging.v ===== *)
(** * Structured logging (internal/engine/logger.go)

    The global logger with its level and format, and the record each helper
    hands to it.  A handler is what it wrote: the records at or above its level.
    The text of a line is [log/slog]'s. *)

From S2P Require Import Prelude GoInt Types.
From Stdlib Require Import ZArith Lia String.
From stdpp Require Import base numbers strings list.
Open Scope string_scope.
Open Scope Z_scope.

(** ** log/slog *)

Definition LevelDebug : Z := -4.
Definition LevelInfo : Z := 0.
Definition LevelWarn : Z := 4.
Definition LevelError : Z := 8.

Inductive AttrValue : Type := AvString (s : string) | AvInt (n : Z) | AvFloat64 (f : float64).
Record LogRecord := mkLogRecord { lg_level : Z; lg_msg : string; lg_attrs : list (string * AttrValue) }.

(** The default logger prints through package log, the two others to stdout. *)
Inductive LogFormat : Type := FmtDefault | FmtText | FmtJSON.

(** The global [Logger], [slog]'s default, and what was written. *)
Record SlogLogger := mkSlogLogger { lo_format : LogFormat; lo_level : Z }.
Record Logs := mkLogs { ls_Logger : SlogLogger; ls_default : SlogLogger; ls_written : list (LogFormat * LogRecord) }.

Definition defaultLogger : SlogLogger := mkSlogLogger FmtDefault LevelInfo.
(** At start [Logger = slog.Default()]. *)
Definition startLogs : Logs := mkLogs defaultLogger defaultLogger [].

(** [Enabled] and [Handle]. *)
Definition logTo (l : SlogLogger) (r : LogRecord) : GoM Logs unit :=
  if lo_level l <=? lg_level r then modify (λ s, mkLogs (ls_Logger s) (ls_default s) (ls_written s ++ [(lo_format l, r)])%list)
  else mret tt.
Definition logWith (level : Z) (msg : string) (attrs : list (string * AttrValue)) : GoM Logs unit :=
  s ← gets id; logTo (ls_Logger s) (mkLogRecord level msg attrs).
Definition Logger_Info := logWith LevelInfo.
Definition Logger_Warn := logWith LevelWarn.
Definition Logger_Error := logWith LevelError.

(** [err.Error()] of an interface that may be nil. *)
Definition errText (err : option GoErr) : GoM Logs string :=
  match err with Some e => mret (Error e) | None => go_panic "runtime error: invalid memory address or nil pointer dereference" end.

(** ** logger.go *)

Definition logLevelOf (level : string) : Z :=
  if String.eqb level "debug" then LevelDebug
  else if String.eqb level "info" then LevelInfo
  else if String.eqb level "warn" then LevelWarn
  else if String.eqb level "error" then LevelError
  else LevelInfo.

Definition InitLogger (getenv : string → string) (level : string) : GoM Logs unit :=
  let logLevel := logLevelOf level in
  (if String.eqb (getenv "LOG_FORMAT") "text"
   then modify (λ s, mkLogs (mkSlogLogger FmtText logLevel) (ls_default s) (ls_written s))
   else modify (λ s, mkLogs (mkSlogLogger FmtJSON logLevel) (ls_default s) (ls_written s)));;
  modify (λ s, mkLogs (ls_Logger s) (ls_Logger s) (ls_written s)).

Definition LogBlockProcessing (blockNumber blockHash : string) (duration : float64) : GoM Logs unit :=
  Logger_Info "block_processed"
    [("block_number", AvString blockNumber); ("block_hash", AvString blockHash); ("duration_seconds", AvFloat64 duration)].
Definition LogReorgDetected (blockNumber expectedParent actualParent : string) : GoM Logs unit :=
  Logger_Warn "reorg_detected"
    [("block_number", AvString blockNumber); ("expected_parent", AvString expectedParent); ("actual_parent", AvString actualParent)].
Definition LogReorgHandled (blocksAffected : Z) (ancestorBlock : string) : GoM Logs unit :=
  Logger_Info "reorg_handled" [("blocks_affected", AvInt blocksAffected); ("ancestor_block", AvString ancestorBlock)].
Definition LogFetcherPaused (reason : string) : GoM Logs unit := Logger_Info "fetcher_paused" [("reason", AvString reason)].
Definition LogFetcherResumed : GoM Logs unit := Logger_Info "fetcher_resumed" [].
Definition LogRPCRetry (method : string) (attempt : Z) (err : option GoErr) : GoM Logs unit :=
  text ← errText err;
  Logger_Warn "rpc_retry" [("method", AvString method); ("attempt", AvInt attempt); ("error", AvString text)].
Definition LogCheckpointResumed (lastSyncedBlock startBlock : string) : GoM Logs unit :=
  Logger_Info "checkpoint_resumed" [("last_synced_block", AvString lastSyncedBlock); ("start_block", AvString startBlock)].
Definition LogDatabaseError (operation : string) (err : option GoErr) : GoM Logs unit :=
  text ← errText err;
  Logger_Error "database_error" [("operation", AvString operation); ("error", AvString text)].
Definition LogRPCRequestFailed (stage url : string) (err : option GoErr) : GoM Logs unit :=
  text ← errText err;
  Logger_Warn "rpc_request_failed" [("stage", AvString stage); ("url", AvString url); ("error", AvString text)].
Definition LogTransactionFailed (stage blockNum : string) (err : option GoErr) : GoM Logs unit :=
  text ← errText err;
  Logger_Error "transaction_failed" [("stage", AvString stage); ("block_number", AvString blockNum); ("error", AvString text)].
Definition LogBufferFull (bufferSize : Z) (expectedBlock : string) : GoM Logs unit :=
  Logger_Error "sequencer_buffer_full" [("buffer_size", AvInt bufferSize); ("expected_block", AvString expectedBlock)].

(** ** Lemmas *)

(** A record is written exactly when its level reaches the logger's. *)
Lemma logWith_wp level msg attrs s :
  wp (logWith level msg attrs) (λ o s', o = Val tt ∧ ls_Logger s' = ls_Logger s ∧ ls_default s' = ls_default s ∧
    ls_written s' = (ls_written s ++ (if lo_level (ls_Logger s) <=? level
                                      then [(lo_format (ls_Logger s), mkLogRecord level msg attrs)] else []))%list) s.
Proof.
  apply wp_bind, wp_gets. unfold id, logTo. simpl. case_match; [by apply wp_modify |]. apply wp_ret. by rewrite app_nil_r.
Qed.

(** After [InitLogger] both the engine's helpers and every [slog] call go to one
    handler; its level is one of four, whatever the text. *)
Lemma InitLogger_wp getenv level s :
  wp (InitLogger getenv level) (λ o s', o = Val tt ∧ ls_default s' = ls_Logger s' ∧ ls_written s' = ls_written s ∧
    lo_level (ls_Logger s') = logLevelOf level ∧ lo_format (ls_Logger s') ≠ FmtDefault) s.
Proof. apply wp_bind. case_match; by apply wp_modify, wp_modify. Qed.

Lemma logLevelOf_range level : logLevelOf level ∈ [LevelDebug; LevelInfo; LevelWarn; LevelError].
Proof. unfold logLevelOf. rewrite !elem_of_cons. repeat case_match; auto 10. Qed.

(** Errors are written under every configuration: no level silences them. *)
Lemma errors_always_written getenv level msg attrs s :
  wp (InitLogger getenv level;; Logger_Error msg attrs)
     (λ o s', o = Val tt ∧ ∃ f, ls_written s' = (ls_written s ++ [(f, mkLogRecord LevelError msg attrs)])%list) s.
Proof.
  apply wp_bind. eapply wp_mono; [apply InitLogger_wp |]. intros o s1 (-> & _ & Hw & Hl & _).
  eapply wp_mono; [apply logWith_wp |]. intros o s2 (-> & _ & _ & H). split; [done |].
  assert (Hle : (lo_level (ls_Logger s1) <=? LevelError) = true).
  { rewrite Hl. pose proof (logLevelOf_range level) as Hr. rewrite !elem_of_cons, elem_of_nil in Hr.
    destruct Hr as [-> | [-> | [-> | [-> | []]]]]; reflexivity. }
  rewrite Hle in H. exists (lo_format (ls_Logger s1)). by rewrite H, Hw.
Qed.

(** An unknown level is info, a level name in capitals too. *)
Lemma unknown_level_is_info : logLevelOf "WARN" = LevelInfo ∧ logLevelOf "" = LevelInfo ∧ logLevelOf "trace" = LevelInfo.
Proof. done. Qed.

(** The helpers evaluate [err.Error()] before the level is looked at: a nil error
    panics even when nothing would be written. *)
Lemma nil_error_panics method attempt s : ∃ why, snd (LogRPCRetry method attempt None s) = Panic why.
Proof. by eexists. Qed.
