(* ===== verification/Tools.v ===== *)
(** * Development tools (tools/docs_index/main.go, tools/chaos/main.go,
    tools/stress/main.go)

    The generator of the documentation index over a directory of files given by
    their lines; the injector of random transactions over the interfaces of the
    demo's node; the load generator's loop over a clock. *)

From S2P Require Import Prelude GoInt Types Text Processor Codecs Simulator Demo.
From Stdlib Require Import ZArith Lia String Ascii.
From stdpp Require Import base numbers strings list pretty.
Open Scope string_scope.
Open Scope Z_scope.

(** ** docs_index: what it reads *)

Record DocFileInfo := mkDocFileInfo { df_Path : string; df_Title : string; df_Description : string; df_Category : string }.
Definition dset_Category (c : string) (d : DocFileInfo) : DocFileInfo := mkDocFileInfo (df_Path d) (df_Title d) (df_Description d) c.

(** An entry of a directory; the lines [bufio.Scanner] yields for a file that can
    be opened. *)
Record DirEntry := mkDirEntry { de_Name : string; de_IsDir : bool; de_Lines : option (list string) }.

(** [strings.TrimPrefix] and [strings.Trim(s, q)] for a cutset of one byte. *)
Definition TrimPrefix (s prefix : string) : string :=
  if String.prefix prefix s then sdrop (String.length prefix) s else s.
Definition TrimByte (s q : string) : string := srev (trimLeft [q] (srev (trimLeft [q] s))).
Definition HasSuffix (s suffix : string) : bool := String.prefix (srev suffix) (srev s).
Definition quote : string := String (ascii_of_nat 34) "".
Definition ln (s : string) : string := s ++ String (ascii_of_nat 10) "".

(** The scan: the title so far and the lines of the front matter. *)
Fixpoint scanDoc (relPath : string) (lines : list string) (inFrontMatter : bool) (title : string) (front : list string) : string * list string :=
  match lines with
  | [] => (title, front)
  | line :: rest =>
    if String.eqb line "---" then
      if negb inFrontMatter then scanDoc relPath rest true title front else (title, front)
    else if inFrontMatter then scanDoc relPath rest inFrontMatter title (front ++ [line])%list
    else if String.prefix "# " line && String.eqb title relPath
    then scanDoc relPath rest inFrontMatter (TrimPrefix line "# ") front
    else scanDoc relPath rest inFrontMatter title front
  end.

Definition fieldValue (line key : string) : string := TrimByte (TrimSpace (TrimPrefix line key)) quote.
Definition frontLine (info : DocFileInfo) (line : string) : DocFileInfo :=
  let info := if String.prefix "title:" line
              then mkDocFileInfo (df_Path info) (fieldValue line "title:") (df_Description info) (df_Category info) else info in
  if String.prefix "ai_context:" line
  then mkDocFileInfo (df_Path info) (df_Title info) (fieldValue line "ai_context:") (df_Category info) else info.

Definition extractDocInfo (file : option (list string)) (relPath : string) : DocFileInfo :=
  match file with
  | None => mkDocFileInfo relPath relPath "" ""
  | Some lines =>
    let (title, front) := scanDoc relPath lines false relPath [] in
    foldl frontLine (mkDocFileInfo relPath title "" "") front
  end.

(** ** docs_index: what it writes *)

Definition docCategories : list string := ["01-Architecture"; "02-Database"; "03-Web3-RPC"; "04-Observability"; "99-Operations"].
(** The loop of [main]; a directory that cannot be read is skipped. *)
Definition collectDocs (readDir : string → option (list DirEntry)) (cat : string) : list DocFileInfo :=
  match readDir cat with
  | None => []
  | Some files =>
    (λ file, let filePath := cat ++ "/" ++ de_Name file in dset_Category cat (extractDocInfo (de_Lines file) filePath))
    <$> filter (λ file, (negb (de_IsDir file) && HasSuffix (de_Name file) ".md") = true) files
  end.

Definition docLine (doc : DocFileInfo) : string :=
  let desc := if String.eqb (df_Description doc) "" then "" else " - " ++ df_Description doc in
  ln ("- [" ++ df_Title doc ++ "](" ++ df_Path doc ++ ")" ++ desc).
(** The strings written, in order, when the file can be created. *)
Definition generateSummary (categories : list string) (docsByCat : string → list DocFileInfo) : list string :=
  ([ln (ln "# Documentation Index");
    ln (ln "Welcome to the Web3 Indexer documentation. This index is automatically generated.")]
   ++ (categories ≫= λ cat,
         match docsByCat cat with
         | [] => []
         | docs => [ln ("## " ++ cat)%string] ++ (docLine <$> docs) ++ [ln ""]
         end)
   ++ [ln "---"; ln "*Last Updated: Sunday, February 15, 2026*"])%list.
Definition docsIndexMain (readDir : string → option (list DirEntry)) : list string :=
  generateSummary docCategories (collectDocs readDir).

(** ** docs_index: lemmas *)

Definition isRule (line : string) : Prop := line = "---".

(** Once in the front matter every line is collected up to the closing rule. *)
Lemma scanDoc_front relPath front rest title acc :
  Forall (λ l, ¬ isRule l) front → scanDoc relPath (front ++ "---" :: rest) true title acc = (title, (acc ++ front)%list).
Proof.
  revert acc. induction front as [| l front IH]; intros acc Hf; [simpl; by rewrite app_nil_r |].
  apply Forall_cons in Hf as [Hl Hf]. cbn [scanDoc app]. rewrite (proj2 (String.eqb_neq _ _)) by done.
  rewrite IH by done. by rewrite <- app_assoc.
Qed.

(** A file that opens with front matter is described by it alone: the scan stops
    at the closing rule, so no heading is ever looked at. *)
Lemma front_matter_decides relPath front rest rest' :
  Forall (λ l, ¬ isRule l) front →
  extractDocInfo (Some ("---" :: front ++ "---" :: rest)%list) relPath = extractDocInfo (Some ("---" :: front ++ "---" :: rest')%list) relPath ∧
  (Forall (λ l, String.prefix "title:" l = false) front →
   df_Title (extractDocInfo (Some ("---" :: front ++ "---" :: rest)%list) relPath) = relPath).
Proof.
  intros Hf. unfold extractDocInfo. cbn [scanDoc]. simpl negb. rewrite !scanDoc_front by done. split; [done |].
  intros Ht. simpl. generalize (eq_refl (df_Title (mkDocFileInfo relPath relPath "" ""))).
  generalize (mkDocFileInfo relPath relPath "" "") at 2 3. revert Ht. clear Hf.
  induction front as [| l front IH]; intros Ht d Hd; [done |]. apply Forall_cons in Ht as [Hl Ht]. cbn [foldl].
  apply IH; [done |]. unfold frontLine. rewrite Hl. by case_match.
Qed.

(** Without a rule the title is the first heading. *)
Lemma scanDoc_heading relPath before line rest :
  Forall (λ l, ¬ isRule l ∧ String.prefix "# " l = false) before → Forall (λ l, ¬ isRule l) rest →
  String.prefix "# " line = true → TrimPrefix line "# " ≠ relPath →
  df_Title (extractDocInfo (Some (before ++ line :: rest)%list) relPath) = TrimPrefix line "# ".
Proof.
  intros Hb Hr Hl Hne. unfold extractDocInfo.
  assert (E : scanDoc relPath (before ++ line :: rest) false relPath [] = (TrimPrefix line "# ", [])).
  { induction Hb as [| l before [H1 H2] Hb IH].
    - cbn [app scanDoc]. rewrite (proj2 (String.eqb_neq line "---")) by (intros ->; by vm_compute in Hl).
      rewrite Hl, String.eqb_refl. cbn [andb]. clear Hl.
      induction Hr as [| l rest H Hr IH]; [done |]. cbn [scanDoc].
      rewrite (proj2 (String.eqb_neq l "---")) by done. rewrite (proj2 (String.eqb_neq _ _) Hne), andb_false_r. apply IH.
    - cbn [app scanDoc]. rewrite (proj2 (String.eqb_neq l "---")) by done. by rewrite H2. }
  by rewrite E.
Qed.

Lemma string_app_assoc (a b c : string) : (a ++ b) ++ c = a ++ (b ++ c).
Proof. induction a as [| x a IH]; [done | exact (f_equal (String x) IH)]. Qed.
Lemma srev_app_spec s acc : srev_app s acc = srev s ++ acc.
Proof.
  unfold srev. revert acc. induction s as [| c s IH]; intros acc; [done |]. simpl.
  by rewrite IH, (IH (String c "")), string_app_assoc.
Qed.
Lemma srev_cons c s : srev (String c s) = srev s ++ String c "".
Proof. apply (srev_app_spec s (String c "")). Qed.
Lemma srev_snoc s c : srev (s ++ String c "") = String c (srev s).
Proof. induction s as [| d s IH]; [done |]. change (srev (String d (s ++ String c "")) = String c (srev (String d s))).
  by rewrite !srev_cons, IH. Qed.
Lemma srev_involutive s : srev (srev s) = s.
Proof. induction s as [| c s IH]; [done |]. by rewrite srev_cons, srev_snoc, IH. Qed.

(** Text that neither begins nor ends with a double quote. *)
Definition bare (s : string) : Prop := String.prefix quote s = false ∧ String.prefix quote (srev s) = false.

Lemma prefix_quote c s t : String.prefix quote (String c s) = String.prefix quote (String c t).
Proof. simpl. case_match; [by destruct s, t | done]. Qed.

Lemma trimLeft_quoted s : String.prefix quote s = false → trimLeft [quote] (quote ++ s) = s.
Proof.
  intros H. destruct s as [| c s]; [reflexivity |].
  transitivity (trimLeft_fuel [quote] (S (String.length s)) (String c s)); [reflexivity |].
  cbn [trimLeft_fuel List.find]. by rewrite H.
Qed.
Lemma trimLeft_bare s : String.prefix quote s = false → trimLeft [quote] s = s.
Proof.
  intros H. destruct s as [| c s]; [done |]. unfold trimLeft. change (String.length (String c s)) with (S (String.length s)).
  cbn [trimLeft_fuel List.find]. by rewrite H.
Qed.

(** A quoted value is read back: what the front matter says is what the index
    shows. *)
Lemma fieldValue_quoted key value : bare value → fieldValue (key ++ " " ++ quote ++ value ++ quote) key = value.
Proof.
  intros [Hl Hr]. unfold fieldValue, TrimPrefix.
  assert (Hp : ∀ t, String.prefix key (key ++ t) = true).
  { intros t. induction key as [| c key IH]; [by destruct t |]. simpl. by destruct (ascii_dec c c). }
  rewrite Hp, sdrop_app.
  assert (E : TrimSpace (" " ++ quote ++ value ++ quote) = quote ++ value ++ quote).
  { unfold TrimSpace.
    assert (E1 : trimLeft spaces (" " ++ quote ++ value ++ quote) = quote ++ value ++ quote) by reflexivity.
    rewrite E1. change (quote ++ value ++ quote) with (String (ascii_of_nat 34) (value ++ String (ascii_of_nat 34) "")) at 1.
    rewrite srev_cons, srev_snoc.
    assert (E2 : ∀ t, trimLeft (srev <$> spaces) (String (ascii_of_nat 34) t) = String (ascii_of_nat 34) t) by (intros; reflexivity).
    change (String ?c ?a ++ ?b) with (String c (a ++ b)). rewrite E2, srev_cons, srev_snoc, srev_involutive. done. }
  rewrite E. unfold TrimByte.
  change (quote ++ value ++ quote) with (quote ++ (value ++ quote)).
  assert (Hlq : trimLeft [quote] (quote ++ (value ++ quote)) = if String.eqb value "" then "" else value ++ quote).
  { destruct value as [| c v]; [reflexivity |]. apply (trimLeft_quoted (String c (v ++ quote))). by rewrite (prefix_quote c _ v). }
  rewrite Hlq. destruct (String.eqb_spec value "") as [-> |]; [reflexivity |].
  change (value ++ quote) with (value ++ String (ascii_of_nat 34) ""). rewrite srev_snoc.
  change (String (ascii_of_nat 34) (srev value)) with (quote ++ srev value). rewrite trimLeft_quoted by done.
  apply srev_involutive.
Qed.


(** Every markdown file of a category's directory has its line, under the heading
    of its category. *)
Lemma summary_lists readDir cat files e :
  cat ∈ docCategories → readDir cat = Some files → e ∈ files → de_IsDir e = false → HasSuffix (de_Name e) ".md" = true →
  docLine (dset_Category cat (extractDocInfo (de_Lines e) (cat ++ "/" ++ de_Name e))) ∈ docsIndexMain readDir ∧
  ln ("## " ++ cat) ∈ docsIndexMain readDir.
Proof.
  intros Hc Hr He Hd Hs. set (doc := dset_Category _ _).
  assert (Hdoc : doc ∈ collectDocs readDir cat).
  { unfold collectDocs. rewrite Hr. apply list_elem_of_fmap. exists e. split; [done |].
    apply list_elem_of_filter. by rewrite Hd, Hs. }
  assert (H : ∀ x, x ∈ (ln ("## " ++ cat) :: (docLine <$> collectDocs readDir cat))%list → x ∈ docsIndexMain readDir).
  { intros x Hx. unfold docsIndexMain, generateSummary. rewrite !elem_of_app. right. left.
    apply list_elem_of_bind. exists cat. split; [| done]. destruct (collectDocs readDir cat) as [| d l] eqn:E; [by apply elem_of_nil in Hdoc |].
    rewrite <- E in *. apply elem_of_cons in Hx as [-> | Hx]; [by left |]. rewrite !elem_of_app. by right; left. }
  split; apply H; [right; by apply list_elem_of_fmap_2 | by left].
Qed.

(** ** chaos *)

Definition chaosKeys : list string := [
  "ac0974bec39a17e36ba4a6b4d238ff944bacb478cbed5efcae784d7bf4f2ff80";
  "59c6995e998f97a5a0044966f0945389dc9e86dae88c7a8412f4603b6b78690d";
  "5de4111afa1a4b94908f83103eb1f1706367c2e68ca870fc3fb9a804cdab365a"].

(** The random source and [anvil_mine], beside the node. *)
Class ChaosWorld {EC : EthCrypto} (W : Type) := {
  cw_node :: DemoNode W;
  cw_randInt : Z → GoM W (result GoErr Z);
  cw_randRead : nat → GoM W (result GoErr (list Z));
  cw_mine : GoM W (option GoErr);
  cw_randInt_spec n w : wp (cw_randInt n) (λ o _, ∃ r, o = Val r ∧ ∀ x, r = Ok x → 0 ≤ x < n) w
}.

(** An account ([ch_Key]: a key that parsed) and the transactions handed to the
    node, with their account and the answer. *)
Record ChaosAccount {EC : EthCrypto} := mkChaosAccount { ch_Address : Z; ch_Key : ec_Key; ch_Nonce : Z }.
Arguments mkChaosAccount {EC}.
Record Chaos {EC : EthCrypto} (W : Type) := mkChaos {
  cs_accounts : list ChaosAccount;
  cs_sent : list (nat * TxData * option GoErr);
  cs_world : W
}.
Arguments mkChaos {EC W}.
Arguments cs_accounts {EC W}.
Arguments cs_sent {EC W}.
Arguments cs_world {EC W}.

Definition chaosTransfer : list Z :=
  hexBytes "a9059cbb00000000000000000000000070997970c51812dc3a010c7d01b50e0d17dc79ee0000000000000000000000000000000000000000000000000000000000000001".
Definition chaosApprove : list Z :=
  hexBytes "095ea7b30000000000000000000000003c44cdddb6a900fa2b585dd299e03d12fa4293bcffffffffffffffffffffffffffffffffffffffffffffffffffffffffffffffff".
Definition chaosDeploy : list Z :=
  hexBytes "6080604052348015600f57600080fd5b50603e80601d6000396000f3fe6080604052600080fdfea2646970667358221220ec73696c6c7920636f6e7472616374206279206169206167656e7464736f6c63430008120033".

Section chaos.
Context {EC : EthCrypto} {W : Type} {CW : ChaosWorld W}.
Local Abbreviation M := (GoM (Chaos W)).

Definition csWorld {A} (m : GoM W A) : M A := zoom cs_world (λ w s, mkChaos (cs_accounts s) (cs_sent s) w) m.
Definition chaosIntn (n : Z) : M Z :=
if n <=? 0 then mret 0
else r ← csWorld (cw_randInt n); mret match r with Ok x => x | Err _ => 0 end.
Definition accountAt (i : Z) : M ChaosAccount :=
s ← gets id;
match cs_accounts s !! Z.to_nat i with
| Some a => if 0 <=? i then mret a else go_panic "runtime error: index out of range"
| None => go_panic "runtime error: index out of range"
end.
Definition randomAddress : M Z :=
s ← gets id;
i ← chaosIntn (Z.of_nat (List.length (cs_accounts s)));
a ← accountAt i;
mret (ch_Address a).

(** The transaction of each action; [None]: the goroutine returned. *)
Definition chaosTx (action nonce gasPrice : Z) : M (option TxData) :=
if action =? 0 then
  to ← randomAddress; mret (Some (mkTxData nonce (Some to) (10 ^ 15) 21000 gasPrice []))
else if action =? 1 then
  mret (Some (mkTxData nonce (Some 0xA0b86991c6218b36c1d19D4a2e9Eb0cE3606eB48) 0 100000 gasPrice chaosTransfer))
else if action =? 2 then
  mret (Some (mkTxData nonce (Some 0xdAC17F958D2ee523a2206206994597C13D831ec7) 0 100000 gasPrice chaosApprove))
else if action =? 3 then
  mret (Some (mkTxData nonce None 0 500000 gasPrice chaosDeploy))
else
  r ← csWorld (cw_randRead 2000);
  match r with
  | Err _ => mret None
  | Ok data => to ← randomAddress; mret (Some (mkTxData nonce (Some to) 0 1000000 gasPrice data))
  end.

(** [client.SendTransaction], recorded with the account. *)
Definition chaosSend (i : nat) (signed : SignedTx) : M (option GoErr) :=
err ← csWorld (dn_SendTransaction signed);
modify (λ s, mkChaos (cs_accounts s) (cs_sent s ++ [(i, stx_tx signed, err)])%list (cs_world s));;
mret err.
Definition bumpNonce (i : nat) : M unit :=
modify (λ s, mkChaos (alter (λ a, mkChaosAccount (ch_Address a) (ch_Key a) (add_u64 (ch_Nonce a) 1)) i (cs_accounts s)) (cs_sent s) (cs_world s)).

(** One goroutine, which holds its account's mutex: errors of the gas price are
    dropped with the value the client returns for them ([0] here for a nil
    price); a transaction that could not be signed is a nil pointer. *)
Definition chaosRound (chainID : Z) : M unit :=
s ← gets id;
i ← chaosIntn (Z.of_nat (List.length (cs_accounts s)));
acc ← accountAt i;
r ← csWorld dn_SuggestGasPrice;
let gasPrice := match r with Ok g => g | Err _ => 0 end in
action ← chaosIntn 5;
tx ← chaosTx action (ch_Nonce acc) gasPrice;
match tx with
| None => mret tt
| Some tx =>
  match ec_SignTx tx chainID (ch_Key acc) with
  | Err _ => go_panic "runtime error: invalid memory address or nil pointer dereference"
  | Ok signed =>
    err ← chaosSend (Z.to_nat i) signed;
    match err with None => bumpNonce (Z.to_nat i) | Some _ => mret tt end;;
    csWorld cw_mine;;
    mret tt
  end
end.

(** The accounts of [main]; a nonce that could not be read is 0. *)
Fixpoint chaosAccounts (keys : list string) : GoM W (list ChaosAccount) :=
match keys with
| [] => mret []
| pkHex :: rest =>
  match ec_HexToECDSA pkHex with
  | Err _ => go_panic "runtime error: invalid memory address or nil pointer dereference"
  | Ok pk =>
    r ← dn_PendingNonceAt (ec_Address pk);
    l ← chaosAccounts rest;
    mret (mkChaosAccount (ec_Address pk) pk (match r with Ok n => n | Err _ => 0 end) :: l)
  end
end.
Fixpoint chaosRounds (n : nat) (chainID : Z) : M unit :=
match n with O => mret tt | S n' => chaosRound chainID;; chaosRounds n' chainID end.
End chaos.

(** ** chaos: lemmas *)

Section chaos_lemmas.
Context {EC : EthCrypto} {W : Type} {CW : ChaosWorld W}.
Implicit Types (s : Chaos W).

Lemma csWorld_wp {A} (m : GoM W A) (Q : outcome A → Chaos W → Prop) s :
(∀ o w', Q o (mkChaos (cs_accounts s) (cs_sent s) w')) → wp (csWorld m) Q s.
Proof. intros H. apply wp_zoom. unfold wp. apply H. Qed.

(** The accounts and the record are as before. *)
Definition same_accounts s s' : Prop := cs_accounts s' = cs_accounts s ∧ cs_sent s' = cs_sent s.

(** A computation that only reads the accounts, followed by another. *)
Definition reads {A} (m : GoM (Chaos W) A) (P : A → Prop) : Prop :=
∀ s, wp m (λ o s', same_accounts s s' ∧ ∀ a, o = Val a → P a) s.
Lemma reads_ret {A} (a : A) (P : A → Prop) : P a → reads (mret a) P.
Proof. intros H s. apply wp_ret. split; [done | by intros ? [= <-]]. Qed.
Lemma reads_bind {A B} (m : GoM (Chaos W) A) (k : A → GoM (Chaos W) B) (P : A → Prop) Q :
reads m P → (∀ a, P a → reads (k a) Q) → reads (m ≫= k) Q.
Proof.
intros Hm Hk s. apply wp_bind. eapply wp_mono; [apply Hm |]. intros o s1 [[H1 H2] Ha].
destruct o as [a | why]; [| by split_and!]. eapply wp_mono; [by apply (Hk a), Ha |]. intros o s2 [[H3 H4] Hb].
split; [split; congruence | done].
Qed.
Lemma reads_world {A} (m : GoM W A) : reads (csWorld m) (λ _, True).
Proof. intros s. by apply csWorld_wp. Qed.
Lemma reads_gets {A} (f : Chaos W → A) : reads (gets f) (λ _, True).
Proof. intros s. by apply wp_gets. Qed.
Lemma reads_panic {A} why (P : A → Prop) : reads (go_panic why) P.
Proof. intros s. by apply wp_panic. Qed.

Lemma chaosIntn_reads n : reads (chaosIntn n) (λ _, True).
Proof. unfold chaosIntn. case_match; [by apply reads_ret |]. apply (reads_bind _ _ (λ _, True)); [apply reads_world | intros; by apply reads_ret]. Qed.
Lemma accountAt_reads i : reads (accountAt i) (λ _, True).
Proof.
apply (reads_bind _ _ (λ _, True)); [apply reads_gets |]. intros s _. case_match; [| apply reads_panic].
case_match; [by apply reads_ret | apply reads_panic].
Qed.
Lemma randomAddress_reads : reads randomAddress (λ _, True).
Proof.
apply (reads_bind _ _ (λ _, True)); [apply reads_gets |]. intros s _.
apply (reads_bind _ _ (λ _, True)); [apply chaosIntn_reads |]. intros i _.
apply (reads_bind _ _ (λ _, True)); [apply accountAt_reads |]. intros; by apply reads_ret.
Qed.
(** Whatever the action, the transaction carries the nonce it was given. *)
Lemma chaosTx_reads action nonce gasPrice : reads (chaosTx action nonce gasPrice) (λ o, ∀ tx, o = Some tx → td_Nonce tx = nonce).
Proof.
assert (Hto : ∀ f : Z → TxData, (∀ to, td_Nonce (f to) = nonce) →
  reads (to ← randomAddress; mret (Some (f to))) (λ o, ∀ tx, o = Some tx → td_Nonce tx = nonce)).
{ intros f Hf. apply (reads_bind _ _ (λ _, True)); [apply randomAddress_reads |]. intros to _. apply reads_ret. by intros ? [= <-]. }
unfold chaosTx. repeat case_match; try (apply reads_ret; by intros ? [= <-]); [by apply Hto |].
apply (reads_bind _ _ (λ _, True)); [apply reads_world |]. intros [data | e] _; [by apply Hto | by apply reads_ret].
Qed.

Lemma reads_then {A B} (m : GoM (Chaos W) A) (k : A → GoM (Chaos W) B) P (Q : outcome B → Chaos W → Prop) s :
reads m P → (∀ why s1, same_accounts s s1 → Q (Panic why) s1) → (∀ a s1, same_accounts s s1 → P a → wp (k a) Q s1) →
wp (m ≫= k) Q s.
Proof.
intros Hm Hp Hk. apply wp_bind. eapply wp_mono; [apply Hm |]. intros [a | why] s1 [H1 H2]; [by apply Hk, H2 | by apply Hp].
Qed.
#[local] Instance same_accounts_trans : Transitive same_accounts.
Proof. intros s1 s2 s3 [H1 H2] [H3 H4]. split; congruence. Qed.

(** What one round does: nothing, or one transaction of one account with the
    account's nonce, which moves on exactly when the node accepts it. *)
Definition sent_one s s' : Prop :=
∃ i acc tx err, cs_accounts s !! i = Some acc ∧ td_Nonce tx = ch_Nonce acc ∧ cs_sent s' = (cs_sent s ++ [(i, tx, err)])%list ∧
  (∃ signed w, stx_tx signed = tx ∧ stx_from signed = ec_Address (ch_Key acc) ∧ snd (dn_SendTransaction signed w) = Val err) ∧
  cs_accounts s' = match err with
                   | None => <[i := mkChaosAccount (ch_Address acc) (ch_Key acc) (add_u64 (ch_Nonce acc) 1)]> (cs_accounts s)
                   | Some _ => cs_accounts s
                   end.
Definition round_ok s s' : Prop := same_accounts s s' ∨ sent_one s s'.

Lemma alter_lookup {A} (f : A → A) i (l : list A) a : l !! i = Some a → alter f i l = <[i := f a]> l.
Proof.
intros H. apply list_eq. intros j. destruct (decide (i = j)) as [-> | Hne].
- rewrite list_lookup_alter_eq, H, list_lookup_insert_eq by (by eapply lookup_lt_Some). done.
- by rewrite list_lookup_alter_ne, list_lookup_insert_ne.
Qed.

Lemma chaosSend_wp i acc signed s s1 :
same_accounts s s1 → cs_accounts s !! i = Some acc → td_Nonce (stx_tx signed) = ch_Nonce acc → stx_from signed = ec_Address (ch_Key acc) →
wp (err ← chaosSend i signed; match err with None => bumpNonce i | Some _ => mret tt end;; csWorld cw_mine;; mret tt)
   (λ _ s', round_ok s s') s1.
Proof.
intros [Ha Hs] Hi Hn Hf. apply wp_bind, wp_bind, wp_zoom. unfold wp at 1.
destruct (dn_SendTransaction signed (cs_world s1)) as [w' [err | why]] eqn:E; simpl; [| by left].
apply wp_bind, wp_modify, wp_ret, wp_bind. simpl.
assert (Hsend : ∃ signed0 w, stx_tx signed0 = stx_tx signed ∧ stx_from signed0 = ec_Address (ch_Key acc) ∧ snd (dn_SendTransaction signed0 w) = Val err).
{ exists signed, (cs_world s1). by rewrite E. }
destruct err as [e |]; [apply wp_ret | apply wp_modify]; apply wp_bind, csWorld_wp; intros o w2; (destruct o; [apply wp_ret |]); right;
  exists i, acc, (stx_tx signed); [exists (Some e) | exists (Some e) | exists None | exists None]; simpl; rewrite ?Hs, ?Ha;
  (do 4 (split; [done |])); try done; by rewrite (alter_lookup _ _ _ acc).
Qed.

Lemma chaosRound_wp chainID s : wp (chaosRound chainID) (λ _ s', round_ok s s') s.
Proof.
apply wp_bind, wp_gets. unfold id.
apply (reads_then _ _ _ _ _ (chaosIntn_reads _)); [intros; by left |]. intros i s1 H1 _.
apply wp_bind, wp_bind, wp_gets. unfold id. destruct (cs_accounts s1 !! Z.to_nat i) as [acc |] eqn:Ei; [| apply wp_panic; by left].
case_match; [| apply wp_panic; by left]. apply wp_ret.
apply (reads_then _ _ _ _ _ (reads_world _)); [intros; left; by etransitivity |]. intros r s2 H2 _. cbn zeta.
apply (reads_then _ _ _ _ _ (chaosIntn_reads _)); [intros; left; by do 2 (etransitivity; [done |]) |]. intros action s3 H3 _.
apply (reads_then _ _ _ _ _ (chaosTx_reads _ _ _)); [intros; left; by do 3 (etransitivity; [done |]) |]. intros otx s4 H4 Hn.
assert (Hs4 : same_accounts s s4) by (do 3 (etransitivity; [done |]); done).
destruct otx as [tx |]; [| apply wp_ret; by left].
destruct (ec_SignTx tx chainID (ch_Key acc)) as [signed | e] eqn:Esign; [| apply wp_panic; by left].
apply ec_SignTx_spec in Esign as [Et Ef]. apply (chaosSend_wp _ acc); [done | rewrite <- Ei; symmetry; f_equal; apply H1 | | done].
rewrite Et. by apply Hn.
Qed.

Lemma chaosRounds_ind (I : Chaos W → Prop) n chainID s :
(∀ s s', I s → round_ok s s' → I s') → I s → wp (chaosRounds n chainID) (λ _ s', I s') s.
Proof.
intros HI. revert s. induction n as [| n IH]; intros s Hs; [by apply wp_ret |].
apply wp_bind. eapply wp_mono; [apply chaosRound_wp |]. intros [u | why] s1 H1; [apply IH |]; by eapply HI.
Qed.

(** The accepted transactions of an account. *)
Definition acceptedOf (i : nat) (sent : list (nat * TxData * option GoErr)) : list Z :=
omap (λ x, match x with (j, tx, None) => if (j =? i)%nat then Some (td_Nonce tx) else None | _ => None end) sent.

(** Whatever the random choices, the transactions of an account that the node
    accepted have consecutive nonces from the account's first, and the next one
    is the nonce it holds. *)
Lemma chaos_nonces (accounts : list ChaosAccount) n chainID w i acc :
accounts !! i = Some acc → is_u64 (ch_Nonce acc) →
wp (chaosRounds n chainID)
   (λ _ s', ∃ acc', cs_accounts s' !! i = Some acc' ∧
      let k := List.length (acceptedOf i (cs_sent s')) in
      acceptedOf i (cs_sent s') = (λ j, u64 (ch_Nonce acc + j)) <$> seqZ 0 (Z.of_nat k) ∧
      ch_Nonce acc' = u64 (ch_Nonce acc + Z.of_nat k))
   (mkChaos accounts [] w).
Proof.
intros Hi Hu. apply (chaosRounds_ind (λ s', ∃ acc', cs_accounts s' !! i = Some acc' ∧ _)).
- intros s s' (acc' & Ha & Hacc & Hn) [[Hs1 Hs2] | Hone]; [exists acc'; by rewrite Hs1, Hs2 |].
  destruct Hone as (j & aj & tx & err & Hj & Htx & Hsent & _ & Hacs).
  assert (E : acceptedOf i (cs_sent s') = (acceptedOf i (cs_sent s) ++ match err with None => if (j =? i)%nat then [td_Nonce tx] else [] | _ => [] end)%list).
  { rewrite Hsent. unfold acceptedOf. rewrite omap_app. f_equal. simpl. destruct err; [done |]. by destruct (j =? i)%nat. }
  rewrite E, Hacs. destruct err as [e |]; [exists acc'; by rewrite app_nil_r |].
  destruct (Nat.eqb_spec j i) as [-> | Hne]; [| exists acc'; by rewrite app_nil_r, list_lookup_insert_ne].
  simplify_eq. eexists. rewrite list_lookup_insert_eq by (by eapply lookup_lt_Some). split; [done |]. simpl.
  rewrite length_app, Nat2Z.inj_add. simpl. rewrite Htx, Hn, seqZ_app, fmap_app, <- Hacc by lia.
  split; [done |]. unfold add_u64, u64, wrap_u. rewrite Zplus_mod_idemp_l. f_equal. lia.
- exists acc. split; [done |]. simpl. split; [done |]. rewrite Z.add_0_r. by rewrite u64_id.
Qed.

(** An account whose nonce is behind is stuck: while the node refuses its nonce
    (as it does for good once another sender of the same key used it) no round
    changes the nonce, for it is never read again. *)
Lemma chaos_stuck (accounts : list ChaosAccount) n chainID w i acc :
accounts !! i = Some acc →
(∀ signed w, stx_from signed = ec_Address (ch_Key acc) → td_Nonce (stx_tx signed) = ch_Nonce acc →
   ∃ e, snd (dn_SendTransaction signed w) = Val (Some e)) →
wp (chaosRounds n chainID) (λ _ s', cs_accounts s' !! i = Some acc ∧ acceptedOf i (cs_sent s') = []) (mkChaos accounts [] w).
Proof.
intros Hi Hrefuse. apply (chaosRounds_ind (λ s', cs_accounts s' !! i = Some acc ∧ acceptedOf i (cs_sent s') = [])); [| done].
intros s s' [Ha Hacc] [[Hs1 Hs2] | (j & aj & tx & err & Hj & Htx & Hsent & (signed & w0 & <- & Hf & Hsd) & Hacs)]; [by rewrite Hs1, Hs2 |].
rewrite Hsent, Hacs. unfold acceptedOf. rewrite omap_app. fold (acceptedOf i (cs_sent s)). rewrite Hacc. simpl.
destruct err as [e |]; [done |]. destruct (Nat.eqb_spec j i) as [-> | Hne]; [| by rewrite list_lookup_insert_ne].
simplify_eq. destruct (Hrefuse signed w0 Hf Htx) as [e He]. congruence.
Qed.
End chaos_lemmas.

(** The injector signs with the keys of the simulator. *)
Lemma chaos_shares_keys : chaosKeys = sa_pk <$> proAccounts.
Proof. reflexivity. Qed.

(** ** stress *)

Definition generateMockTransactions (n : Z) : list TxData :=
  (λ i, mkTxData i (Some 0) 0 21000 1 []) <$> seqZ 0 n.
Definition generateMockLogs (n : Z) : list Log :=
  (λ _, mkLog 0xA0b86991c6218b36c1d19D4a2e9Eb0cE3606eB48
          [0xddf252ad1be2c89b69c2b068fc378daa952ba7f163c4a11628f55a4df523b3ef] (replicate 31 0 ++ [1])%list 0 "" 0) <$> seqZ 0 n.
(** The data of one iteration, which is dropped; [hash] is go-ethereum's hash of
    the header. *)
Definition stressData (hash : Z → Z → string) (now i : Z) : BlockData :=
  mkBlockData (Some i) None
    (Some (mkEthBlock i (hash i now) "0x0000000000000000000000000000000000000000000000000000000000000123" now 0 0 None [])) None
    (generateMockLogs 50).

Definition stressLimit : Z := 30 * 1000000000.
(** The loop of [main] from iteration [i] on, [fuel] iterations to go: the
    blocks counted.  [elapsed i]: the time since the start at iteration [i]. *)
Definition stressStops (elapsed : Z → Z) (i : Z) : bool := (i mod 1000 =? 0) && (stressLimit <? elapsed i).
Fixpoint stressLoop (elapsed : Z → Z) (fuel : nat) (i count : Z) : Z :=
  match fuel with
  | O => count
  | S fuel' =>
    let count := count + 1 in
    if stressStops elapsed i then count else stressLoop elapsed fuel' (i + 1) count
  end.
Definition stressMain (elapsed : Z → Z) : Z := stressLoop elapsed (Z.to_nat 1000000) 0 0.

Lemma stressLoop_app elapsed (k fuel : nat) i count :
  (k ≤ fuel)%nat → (∀ j, i ≤ j < i + Z.of_nat k → stressStops elapsed j = false) →
  stressLoop elapsed fuel i count = stressLoop elapsed (fuel - k) (i + Z.of_nat k) (count + Z.of_nat k).
Proof.
  revert fuel i count. induction k as [| k IH]; intros fuel i count Hk Hj.
  { rewrite Nat.sub_0_r, !Z.add_0_r. done. }
  destruct fuel as [| fuel]; [lia |]. cbn [stressLoop]. rewrite (Hj i) by lia. rewrite IH by first [lia | intros; apply Hj; lia].
  rewrite Nat.sub_succ. f_equal; lia.
Qed.

(** No check before the [k]-th thousand sees the time run out. *)
Definition quietUntil (elapsed : Z → Z) (k : Z) : Prop := ∀ j, 0 ≤ j < k → elapsed (1000 * j) ≤ stressLimit.
Lemma quiet_stops elapsed k i : quietUntil elapsed k → 0 ≤ i < 1000 * k → stressStops elapsed i = false.
Proof.
  intros H Hi. unfold stressStops. destruct (Z.eqb_spec (i mod 1000) 0) as [E |]; [| done].
  pose proof (Z_div_mod_eq_full i 1000) as Hd. rewrite E in Hd. simpl. apply Z.ltb_ge.
  replace i with (1000 * (i / 1000)) by lia. apply H. lia.
Qed.
Lemma first_late elapsed (n : nat) :
  quietUntil elapsed (Z.of_nat n) ∨ ∃ k, 0 ≤ k < Z.of_nat n ∧ stressLimit < elapsed (1000 * k) ∧ quietUntil elapsed k.
Proof.
  induction n as [| n [IH | (k & Hk & H)]]; [left; intros j; lia | | right; exists k; split; [lia | done]].
  destruct (decide (stressLimit < elapsed (1000 * Z.of_nat n))); [right; exists (Z.of_nat n); split; [lia | done] |].
  left. intros j Hj. destruct (decide (j = Z.of_nat n)) as [-> |]; [lia | apply IH; lia].
Qed.

(** The load ends: with a million blocks, or with the first block of a thousand
    that starts after the thirty seconds. *)
Lemma stress_ends elapsed :
  (∃ k, 0 ≤ k < 1000 ∧ stressLimit < elapsed (1000 * k) ∧ quietUntil elapsed k ∧ stressMain elapsed = 1000 * k + 1) ∨
  (quietUntil elapsed 1000 ∧ stressMain elapsed = 1000000).
Proof.
  unfold stressMain. assert (HN : Z.of_nat (Z.to_nat 1000000) = 1000000) by apply Z2Nat.id, Z.leb_le, eq_refl.
  revert HN. generalize (Z.to_nat 1000000). intros N HN.
  destruct (first_late elapsed 1000) as [H | (k & Hk & Hlate & H)].
  - right. split; [done |]. rewrite (stressLoop_app _ N) by (lia || (intros j Hj; apply (quiet_stops _ 1000); [done | lia])).
    rewrite Nat.sub_diag. simpl. lia.
  - left. exists k. do 3 (split; [done || lia |]).
    rewrite (stressLoop_app _ (Z.to_nat (1000 * k))) by (lia || (intros j Hj; apply (quiet_stops _ k); [done | lia])).
    destruct (N - Z.to_nat (1000 * k))%nat as [| m] eqn:Em; [lia |]. cbn [stressLoop].
    replace (0 + Z.of_nat (Z.to_nat (1000 * k))) with (1000 * k) by lia. unfold stressStops.
    replace ((1000 * k) mod 1000) with 0 by (rewrite Z.mul_comm, Z_mod_mult; done).
    rewrite (proj2 (Z.ltb_lt _ _)) by done. done.
Qed.

(** An iteration touches nothing but the counter: the figure printed as
    transactions per second counts blocks that were never processed. *)
Lemma stress_counts_blocks hash now i : bd_Number (stressData hash now i) = Some i ∧ List.length (generateMockLogs 50) = 50%nat ∧
  blk_Transactions <$> bd_Block (stressData hash now i) = Some [].
Proof. done. Qed.
