(* ===== verification/Lifecycle.v ===== *)
(** * Construction and shutdown

    What makes and ends the long-lived objects: the repository with its token
    metadata (internal/database/repository.go, processor_core.go), the emulator
    (emulator_core.go, nonce_manager.go), the HTTP server (cmd/indexer/api_server.go),
    the websocket listener's [Stop] (wss_listener.go), the throttled hub's
    goroutines (internal/web/hub_throttle.go), and the single-block fetch
    (fetcher_block.go). *)

From S2P Require Import Prelude GoInt Types Text Database Fetcher Repository Codecs Simulator Demo Emulator WebHub.
From Stdlib Require Import ZArith Lia String.
From stdpp Require Import base numbers gmap strings list pretty.
Open Scope string_scope.
Open Scope Z_scope.

(** ** repository.go *)

(** [Repository], with the pool limits [NewRepository] sets on its handle. *)
Record PoolLimits := mkPoolLimits { pl_maxOpen : Z; pl_maxIdle : Z; pl_maxLifetime : Z; pl_maxIdleTime : Z }.
Record Repository (D : Type) := mkRepository { repo_db : D; repo_limits : option PoolLimits }.
Arguments mkRepository {D}.
Arguments repo_db {D}.
Arguments repo_limits {D}.
Definition minuteNs : Z := 60 * 1000000000.
(** [connect] is the answer of [sqlx.Connect]. *)
Definition NewRepository {D} (connect : result GoErr D) : result GoErr (Repository D) :=
  match connect with
  | Err e => Err (WrapErr "failed to connect to database: " e)
  | Ok db => Ok (mkRepository db (Some (mkPoolLimits 25 10 (5 * minuteNs) (1 * minuteNs))))
  end.
Definition NewRepositoryFromDB {D} (db : D) : Repository D := mkRepository db None.

(** [SaveTokenMetadata] and [LoadAllMetadata], the same in the repository and in
    [repositoryAdapter]. *)
Definition saveMetadataStmt (meta : Database.TokenMetadata) (address : string) : Stmt :=
  mkStmt Ttoken_metadata ["address"; "symbol"; "decimals"; "name"; "updated_at"] (Some ["address"])
    (λ t, tset_metadata (<[ToLower address := meta]> (t_metadata t)) t).
Section metadata.
Context {W : Type} {PG : Postgres W}.
Definition Repo_SaveTokenMetadata (meta : Database.TokenMetadata) (address : string) : GoM W (option GoErr) :=
pg_Exec false (saveMetadataStmt meta address).
Definition Repo_LoadAllMetadata : GoM W (result GoErr (gmap string Database.TokenMetadata)) :=
rows ← pg_Query (list (string * Database.TokenMetadata)) (λ t, map_to_list (t_metadata t));
mret match rows with
     | Err e => Err e
     | Ok rows => Ok (foldl (λ result row, <[ToLower row.1 := row.2]> result) ∅ rows)
     end.
(** processor_core.go, the adapter's own [UpdateTokenSymbol] and
  [UpdateTokenDecimals]. *)
Definition ra_UpdateTokenSymbol (tokenAddress symbol : string) : GoM W (option GoErr) :=
pg_Exec false (tokenSymbolStmt tokenAddress symbol).
Definition ra_UpdateTokenDecimals (_ : string) (_ : Z) : GoM W (option GoErr) := mret None.
End metadata.

(** ** The emulator *)

(** nonce_manager.go, [NewNonceManager]. *)
Definition NewNonceManager {W} (pendingNonceAt : Z → GoM W (result GoErr Z)) (addr : Z) : GoM W (result GoErr Z) :=
  r ← pendingNonceAt addr;
  mret match r with Err e => Err (WrapErr "failed to get initial nonce: " e) | Ok nonce => Ok nonce end.

(** emulator_core.go: the settings [NewEmulator] fixes beside those of
    [Emulator]; an option changes them. *)
Record EmulatorShell := mkEmulatorShell {
  es_fromAddr : Z;
  es_chainID : Z;
  es_txAmount : Z;
  es_blockInterval : Z;
  es_txInterval : Z;
  es_emulator : Emulator
}.
Definition WithTxInterval (d : Z) (e : EmulatorShell) : EmulatorShell :=
  if 0 <? d then mkEmulatorShell (es_fromAddr e) (es_chainID e) (es_txAmount e) (es_blockInterval e) d (es_emulator e) else e.

Definition trim0x (s : string) : string :=
  if String.prefix "0x" s then sdrop 2 s else s.

Section emulator.
Context {EC : EthCrypto} {W : Type} {DN : DemoNode W}.
Definition dialEmulator (dial : option GoErr) (privKeyHex : string) (opts : list (EmulatorShell → EmulatorShell))
  : GoM W (result GoErr EmulatorShell) :=
match dial with
| Some e => mret (Err (WrapErr "failed to connect to RPC: " e))
| None =>
  match ec_HexToECDSA (trim0x privKeyHex) with
  | Err e => mret (Err (WrapErr "invalid private key: " e))
  | Ok privKey =>
    let fromAddr := ec_Address privKey in
    r ← dn_ChainID;
    match r with
    | Err e => mret (Err (WrapErr "failed to get chain ID: " e))
    | Ok chainID =>
      nm ← NewNonceManager dn_PendingNonceAt fromAddr;
      match nm with
      | Err e => mret (Err e)
      | Ok nonce =>
        let emu := mkEmulatorShell fromAddr chainID 100 (3 * 1000000000) (5 * 1000000000) (mkEmulator nonce 0 0 0 0 0 500 20 []) in
        mret (Ok (foldl (λ e opt, opt e) emu opts))
      end
    end
  end
end.
End emulator.

(** ** The HTTP server *)

(** [http.Server]: listening, or shut down, after which it refuses to listen. *)
Inductive HttpState : Type := HsCreated | HsListening | HsClosed.
(** The server's [srv] and whether [Start] has returned. *)
Record ServerRun := mkServerRun { sr_srv : option HttpState; sr_returned : bool }.
(** The steps of [Start] (the assignment under the lock, [ListenAndServe]) and of
    [Shutdown] (the read under the lock, then [srv.Shutdown]). *)
Inductive ServerStep : Type := SsAssign | SsListen | SsShutdown.
Definition serverStep (c : ServerStep) (s : ServerRun) : ServerRun :=
  match c, sr_srv s with
  | SsAssign, _ => mkServerRun (Some HsCreated) (sr_returned s)
  | SsListen, Some HsCreated => mkServerRun (Some HsListening) (sr_returned s)
  | SsListen, Some HsClosed => mkServerRun (Some HsClosed) true
  | SsListen, _ => s
  | SsShutdown, Some HsListening => mkServerRun (Some HsClosed) true
  | SsShutdown, Some _ => mkServerRun (Some HsClosed) (sr_returned s)
  | SsShutdown, None => s
  end.
Definition serverRun (cs : list ServerStep) : ServerRun := foldl (λ s c, serverStep c s) (mkServerRun None false) cs.
Definition serving (s : ServerRun) : bool := match sr_srv s with Some HsListening => true | _ => false end.

(** ** wss_listener.go, [Stop] *)

(** [stopOnce], [stopCh], and the client, if there is one, with the number of
    times it was closed. *)
Record WssStop := mkWssStop { wq_once : bool; wq_closed : bool; wq_client : option nat }.
Definition closeStopCh : GoM WssStop unit :=
  s ← gets id;
  if wq_closed s then go_panic closeOfClosed else modify (λ s, mkWssStop (wq_once s) true (wq_client s)).
Definition wssStop : GoM WssStop unit :=
  s ← gets id;
  if wq_once s then mret tt
  else
    modify (λ s, mkWssStop true (wq_closed s) (wq_client s));;
    closeStopCh;;
    s ← gets id;
    match wq_client s with
    | Some n => modify (λ s, mkWssStop (wq_once s) (wq_closed s) (Some (S n)))
    | None => mret tt
    end.
Fixpoint wssStops (n : nat) : GoM WssStop unit := match n with O => mret tt | S n' => wssStop;; wssStops n' end.

(** ** hub_throttle.go: the goroutines *)

(** [time.NewTicker]. *)
Definition timeTicker {S} (d : Z) : GoM S unit :=
  if d <=? 0 then go_panic "non-positive interval for NewTicker" else mret tt.

(** The base hub's steps and the ticks of [throttledBroadcaster]; events come
    through [BroadcastWithThrottle].  Steps are taken whole. *)
Inductive ThrottleCase : Type := ThHub (x : HubCase) | ThTick | ThEvent (e : HubEvent).
Record ThrottleStats := mkThrottleStats {
  ts_total_events : Z; ts_dropped_events : Z; ts_aggregated_batches : Z; ts_pending_events : Z; ts_buffer_capacity : Z
}.
Definition GetStats (t : ThrottledHub) : ThrottleStats :=
  mkThrottleStats (th_totalEvents t) (th_droppedEvents t) (th_aggregatedBatches t)
    (Z.of_nat (List.length (th_aggregateEvents t))) aggregateCap.

Section throttle.
Context (marshal : HubEvent → option string).
Definition throttleStep (c : ThrottleCase) : GoM ThrottledHub unit :=
match c with
| ThHub x => zoom th_hub tset_hub (hubStep marshal x)
| ThTick => flushAggregatedEvents marshal (λ _, mret tt)
| ThEvent e => BroadcastWithThrottle marshal e (λ _, mret tt)
end.
Fixpoint throttleSteps (cs : list ThrottleCase) : GoM ThrottledHub unit :=
match cs with [] => mret tt | c :: rest => throttleStep c;; throttleSteps rest end.
(** [RunWithThrottling] of a hub made by [NewThrottledHub throttleInterval]. *)
Definition RunWithThrottling (throttleInterval : Z) (cs : list ThrottleCase) : GoM ThrottledHub unit :=
timeTicker (throttleIntervalOf throttleInterval);;
throttleSteps cs.
End throttle.

(** ** fetcher_block.go, [fetchBlockWithLogs] *)

(** The block of a header alone. *)
Definition headerBlock (h : EthBlock) : EthBlock :=
  mkEthBlock (blk_Number h) (blk_Hash h) (blk_ParentHash h) (blk_Time h) (blk_GasLimit h) (blk_GasUsed h) (blk_BaseFee h) [].
Definition fetchBlockWithLogs {W} (pool : RPCClient W) (header : GoM W (result GoErr EthBlock)) (ctxErr nilErr : GoErr) (bn : Z)
    : GoM (Fetcher W) (result GoErr (EthBlock * list Log)) :=
  r ← fetchHeaderWithRetry 3 header ctxErr nilErr;
  match r with
  | Err e => mret (Err e)
  | Ok h =>
    f ← gets id;
    let filterQuery := mkFilterQuery bn bn (fe_watchedAddresses f) [[TransferEventHash]] in
    logs ← onPool (rpc_FilterLogs pool filterQuery);
    mret (Ok (headerBlock h, match logs with Ok l => l | Err _ => [] end))
  end.

(** ** Lemmas: the repository *)

(** What is saved is loaded, under the lower-case address, when the stored keys
    are in lower case, which saving maintains. *)
Definition lower_keys (t : Tables) : Prop := map_Forall (λ k _, ToLower k = k) (t_metadata t).

Lemma foldl_lower (rows : list (string * Database.TokenMetadata)) (m : gmap string Database.TokenMetadata) k v :
  NoDup rows.*1 → Forall (λ r, ToLower r.1 = r.1) rows → (k, v) ∈ rows →
  foldl (λ result row, <[ToLower row.1 := row.2]> result) m rows !! k = Some v.
Proof.
  revert m. induction rows as [| [k0 v0] rows IH]; intros m Hnd Hl Hin; [by apply elem_of_nil in Hin |].
  apply NoDup_cons in Hnd as [Hk0 Hnd]. apply Forall_cons in Hl as [Hl0 Hl]. cbn [foldl fst snd] in *. rewrite Hl0.
  apply elem_of_cons in Hin as [[= -> ->] | Hin]; [| by apply IH].
  assert (Hout : ∀ m : gmap string Database.TokenMetadata, foldl (λ result row, <[ToLower row.1 := row.2]> result) m rows !! k0 = m !! k0); [| by rewrite Hout, lookup_insert_eq].
  clear -Hk0 Hl. induction rows as [| [k1 v1] rows IH]; intros m; [done |]. cbn [foldl fst snd] in *.
  apply Forall_cons in Hl as [Hl1 Hl]. apply not_elem_of_cons in Hk0 as [Hne Hk0].
  rewrite IH by done. simpl in Hl1. rewrite Hl1. by apply lookup_insert_ne.
Qed.

Section metadata_lemmas.
Context {W : Type} {PG : Postgres W}.

Lemma save_load_metadata (meta : Database.TokenMetadata) address (w : W) :
lower_keys (pg_tables w) → ToLower (ToLower address) = ToLower address →
wp (Repo_SaveTokenMetadata meta address;; Repo_LoadAllMetadata)
   (λ o w', lower_keys (pg_tables w') ∧ ∃ r, o = Val r ∧
      ∀ m, r = Ok m → t_metadata (pg_tables w') !! ToLower address = Some meta → m !! ToLower address = Some meta) w.
Proof.
intros Hl Hi. apply wp_bind. eapply wp_mono; [apply pg_Exec_spec |]. intros o w1 (e & -> & _ & Hn & Hf).
assert (Hl1 : lower_keys (pg_tables w1)).
{ assert (H : lower_keys (stmt_run (saveMetadataStmt meta address) (pg_tables w))).
  { unfold lower_keys. simpl. by apply map_Forall_insert_2. }
  destruct e as [e |]; [destruct (Hf ltac:(done)) as [-> | ->] | destruct (Hn eq_refl) as (_ & _ & ->)]; done. }
apply wp_bind. eapply wp_mono; [apply pg_Query_spec |]. intros o w2 (-> & r & -> & Hr). apply wp_ret. split; [done |].
eexists. split; [done |]. intros m Hm Hk. destruct r as [rows |]; [| done]. injection Hm as <-. rewrite (Hr rows eq_refl).
apply foldl_lower; [apply NoDup_fst_map_to_list | | by apply elem_of_map_to_list].
apply Forall_forall. intros [k v] Hkv%elem_of_map_to_list. by apply (Hl1 k v).
Qed.

(** A saved statement is accepted by the schema the program creates. *)
Lemma save_metadata_ok meta address : stmt_ok InitSchema (saveMetadataStmt meta address) = true.
Proof. reflexivity. Qed.
End metadata_lemmas.

(** ** Lemmas: the emulator *)

(** An emulator that is constructed starts at the nonce the node reported; the
    options only touch the interval, and keep it positive. *)
Lemma dialEmulator_ok {EC : EthCrypto} {W : Type} {DN : DemoNode W} dial key ds (w : W) e w' :
  dialEmulator dial key (WithTxInterval <$> ds) w = (w', Val (Ok e)) →
  dial = None ∧ (∃ k, ec_HexToECDSA (trim0x key) = Ok k ∧ es_fromAddr e = ec_Address k) ∧ 0 < es_txInterval e ∧
  (∃ w0 w1, dn_PendingNonceAt (es_fromAddr e) w0 = (w1, Val (Ok (em_pendingNonce (es_emulator e))))).
Proof.
  unfold dialEmulator. destruct dial; [done |]. destruct (ec_HexToECDSA (trim0x key)) as [k |] eqn:Ek; [| done].
  unfold mbind, GoM_bind. destruct (dn_ChainID w) as [w1 [[chain |] |]] eqn:Ec; [| done..].
  unfold NewNonceManager, mbind, GoM_bind. destruct (dn_PendingNonceAt (ec_Address k) w1) as [w2 [[nonce |] |]] eqn:En; [| done..].
  cbn. intros [= <- <-].
  assert (H : ∀ ds e0, 0 < es_txInterval e0 → let e := foldl (λ e opt, opt e) e0 (WithTxInterval <$> ds) in
    es_fromAddr e = es_fromAddr e0 ∧ es_emulator e = es_emulator e0 ∧ 0 < es_txInterval e).
  { clear. induction ds as [| d ds IH]; intros e0 He; [done |]. cbn [fmap list_fmap foldl].
    destruct (IH (WithTxInterval d e0)) as (-> & -> & Hd); unfold WithTxInterval; [case_match; simpl; lia |].
    split_and!; [by case_match.. | exact Hd]. }
  destruct (H ds (mkEmulatorShell (ec_Address k) chain 100 (3 * 1000000000) (5 * 1000000000) (mkEmulator nonce 0 0 0 0 0 500 20 []))) as (-> & -> & Hp);
    [simpl; lia |]. split_and!; [done | by exists k | done | by exists w1, w2].
Qed.

(** ** Lemmas: the server *)

(** Once [Start] has stored the server, [Shutdown] leaves nothing serving,
    whenever the listening happens. *)
Lemma shutdown_stops cs1 cs2 :
  SsAssign ∉ cs2 → sr_srv (serverRun cs1) ≠ None → serving (serverRun (cs1 ++ SsShutdown :: cs2)) = false.
Proof.
  intros Ha Hs. unfold serverRun in *. rewrite foldl_app. cbn [foldl]. set (s := foldl _ _ cs1) in *. clearbody s.
  assert (Hc : sr_srv (serverStep SsShutdown s) = Some HsClosed) by (by destruct s as [[[] |] r]).
  revert Hc. generalize (serverStep SsShutdown s). clear s Hs. induction cs2 as [| c cs2 IH]; intros s Hc; [unfold serving; cbn [foldl]; by rewrite Hc |].
  apply not_elem_of_cons in Ha as [Hne Ha]. cbn [foldl]. apply IH; [done |]. by destruct c; [| unfold serverStep; rewrite Hc..].
Qed.
(** A signal that comes before that finds no server, reports a clean shutdown,
    and the server starts to listen afterwards. *)
Lemma early_shutdown_misses : serving (serverRun [SsShutdown; SsAssign; SsListen]) = true.
Proof. reflexivity. Qed.

(** ** Lemmas: [Stop] *)

(** Stopping any number of times closes the channel and the client once. *)
Lemma wssStops_wp n client :
  wp (wssStops (S n)) (λ o s, o = Val tt ∧ s = mkWssStop true true (S <$> client)) (mkWssStop false false client).
Proof.
  assert (H : ∀ n s, wq_once s = true → wp (wssStops n) (λ o s', o = Val tt ∧ s' = s) s).
  { clear. induction n as [| n IH]; intros s Hs; [by apply wp_ret |].
    cbn [wssStops]. apply wp_bind, wp_bind, wp_gets. unfold id. rewrite Hs. by apply wp_ret, IH. }
  cbn [wssStops]. apply wp_bind. eapply (wp_mono _ (λ o s, o = Val tt ∧ s = mkWssStop true true (S <$> client))); [| intros o s (-> & ->); by apply H].
  apply wp_bind, wp_gets. unfold id. simpl. apply wp_bind, wp_modify. simpl. apply wp_bind, wp_bind, wp_gets. unfold id. simpl.
  apply wp_modify. simpl. apply wp_bind, wp_gets. unfold id. simpl. destruct client; [by apply wp_modify | by apply wp_ret].
Qed.

(** ** Lemmas: the throttled hub *)

(** The constructor bounds the interval from above only: zero is a panic. *)
Lemma RunWithThrottling_interval marshal d cs t : d <= 0 → ∃ why, snd (RunWithThrottling marshal d cs t) = Panic why.
Proof.
  intros Hd. assert (E : (throttleIntervalOf d <=? 0) = true).
  { unfold throttleIntervalOf. destruct (Z.ltb_spec 200000000 d); apply Z.leb_le; lia. }
  eexists. unfold RunWithThrottling, timeTicker. by rewrite E.
Qed.

(** With a positive interval, and steps that do not overlap, the throttled hub
    never panics and its statistics always show room in the buffer. *)
Lemma RunWithThrottling_ok marshal d cs :
  0 < d →
  wp (RunWithThrottling marshal d cs)
     (λ o t, o = Val tt ∧ hub_ok (th_hub t) ∧ 0 <= ts_pending_events (GetStats t) < ts_buffer_capacity (GetStats t)) NewThrottledHub.
Proof.
  intros Hd. unfold RunWithThrottling, timeTicker.
  assert (E : (throttleIntervalOf d <=? 0) = false).
  { unfold throttleIntervalOf. destruct (Z.ltb_spec 200000000 d); apply Z.leb_gt; lia. }
  rewrite E. apply wp_bind, wp_ret. simpl.
  assert (H : ∀ t, hub_ok (th_hub t) → Z.of_nat (List.length (th_aggregateEvents t)) < aggregateCap →
    wp (throttleSteps marshal cs) (λ o t', o = Val tt ∧ hub_ok (th_hub t') ∧ Z.of_nat (List.length (th_aggregateEvents t')) < aggregateCap) t).
  { induction cs as [| c cs IH]; intros t Hok Hl; [by apply wp_ret |]. cbn [throttleSteps]. apply wp_bind.
    apply (wp_mono _ (λ o t', o = Val tt ∧ hub_ok (th_hub t') ∧ Z.of_nat (List.length (th_aggregateEvents t')) < aggregateCap));
      [| intros o t' (-> & H1 & H2); by apply IH].
    destruct c as [x | | e]; simpl.
    - apply wp_zoom. eapply wp_mono; [by apply hubStep_ok |]. by intros o h [-> Hh].
    - eapply wp_mono; [apply throttledFlush_wp; [intros; by apply wp_ret | done] |]. intros o t' (-> & ? & ->). by split_and!.
    - by apply throttle_bounded. }
  eapply wp_mono; [apply H; [| unfold aggregateCap; simpl; lia] |].
  - split; simpl; [intros c Hc; by apply elem_of_empty in Hc | done | unfold broadcastCap; lia].
  - intros o t (-> & Hok & Hl). split_and!; [done | done | simpl; lia | exact Hl].
Qed.

(** ** Lemmas: the single block *)

(** A failed log query is a block without logs: the caller cannot tell. *)
Lemma fetchBlockWithLogs_swallows {W} (pool : RPCClient W) header ctxErr nilErr bn (f : Fetcher W) w1 h e w2 :
  header (fe_world f) = (w1, Val (Ok h)) →
  rpc_FilterLogs pool (mkFilterQuery bn bn (fe_watchedAddresses f) [[TransferEventHash]]) w1 = (w2, Val (Err e)) →
  snd (fetchBlockWithLogs pool header ctxErr nilErr bn f) = Val (Ok (headerBlock h, [])).
Proof.
  intros Hh Hl. unfold fetchBlockWithLogs. cbn [fetchHeaderWithRetry].
  unfold mbind, GoM_bind, onPool, zoom, gets. rewrite Hh. cbn. by rewrite Hl.
Qed.
