(* ===== verification/Signatures.v ===== *)
(** * Event signatures (internal/engine/signatures.go, erc20Bytecode of
    internal/emulator/emulator_core.go)

    The topic of an event is the Keccak-256 hash of its signature.  The hash is
    defined here after its specification (Keccak-f[1600], rate 1088, the padding
    of Ethereum) so that the constants of the engine can be compared with it. *)

From S2P Require Import Prelude GoInt Types Codecs Sequencer Fetcher Processor Simulator Demo Tools.
From Stdlib Require Import ZArith Lia String Ascii.
From stdpp Require Import base numbers strings list.
Open Scope string_scope.
Open Scope Z_scope.

(** ** Keccak-256 *)

Module Keccak.
(** Lanes of 64 bits; lane (x, y) has the index x + 5 y. *)
Definition mask64 (z : Z) : Z := Z.land z (2 ^ 64 - 1).
Definition rotl (z n : Z) : Z := mask64 (Z.lor (Z.shiftl z n) (Z.shiftr z (64 - n))).
Definition lane (s : list Z) (x y : Z) : Z := nth (Z.to_nat (x mod 5 + 5 * (y mod 5))) s 0.
Definition coords : list (Z * Z) := flat_map (λ y, map (λ x, (x, y)) [0; 1; 2; 3; 4]) [0; 1; 2; 3; 4].
Definition offsets : list Z := [
   0;  1; 62; 28; 27;
  36; 44;  6; 55; 20;
   3; 10; 43; 25; 39;
  41; 45; 15; 21;  8;
  18;  2; 61; 56; 14].
Definition roundConstants : list Z := [
  0x0000000000000001; 0x0000000000008082; 0x800000000000808A; 0x8000000080008000;
  0x000000000000808B; 0x0000000080000001; 0x8000000080008081; 0x8000000000008009;
  0x000000000000008A; 0x0000000000000088; 0x0000000080008009; 0x000000008000000A;
  0x000000008000808B; 0x800000000000008B; 0x8000000000008089; 0x8000000000008003;
  0x8000000000008002; 0x8000000000000080; 0x000000000000800A; 0x800000008000000A;
  0x8000000080008081; 0x8000000000008080; 0x0000000080000001; 0x8000000080008008].

Definition theta (s : list Z) : list Z :=
  let c := map (λ x, foldl Z.lxor 0 (map (lane s x) [0; 1; 2; 3; 4])) [0; 1; 2; 3; 4] in
  let d := map (λ x, Z.lxor (nth (Z.to_nat ((x + 4) mod 5)) c 0) (rotl (nth (Z.to_nat ((x + 1) mod 5)) c 0) 1)) [0; 1; 2; 3; 4] in
  map (λ xy, Z.lxor (lane s (fst xy) (snd xy)) (nth (Z.to_nat (fst xy)) d 0)) coords.
Definition rhoPi (s : list Z) : list Z :=
  map (λ xy, let (x, y) := (xy : Z * Z) in rotl (lane s (x + 3 * y) x) (lane offsets (x + 3 * y) x)) coords.
Definition chi (s : list Z) : list Z :=
  map (λ xy, let (x, y) := (xy : Z * Z) in
    Z.lxor (lane s x y) (Z.land (Z.lxor (lane s (x + 1) y) (2 ^ 64 - 1)) (lane s (x + 2) y))) coords.
Definition iota (rc : Z) (s : list Z) : list Z := match s with [] => [] | a :: rest => Z.lxor a rc :: rest end.
Definition keccakF (s : list Z) : list Z := foldl (λ s rc, iota rc (chi (rhoPi (theta s)))) s roundConstants.

(** Bytes into lanes, little end first. *)
Fixpoint lanes (n : nat) (bs : list Z) : list Z :=
  match n with
  | O => []
  | S n' => foldr (λ b acc, b + 256 * acc) 0 (firstn 8 bs) :: lanes n' (skipn 8 bs)
  end.
Fixpoint laneBytes (k : nat) (z : Z) : list Z := match k with O => [] | S k' => z mod 256 :: laneBytes k' (z / 256) end.

Definition rate : nat := 136.
Definition pad (bs : list Z) : list Z :=
  let n := (rate - (List.length bs mod rate))%nat in
  (bs ++ if (n =? 1)%nat then [0x81] else [0x01] ++ repeat 0 (n - 2) ++ [0x80])%list.
Fixpoint absorb (blocks : nat) (bs : list Z) (s : list Z) : list Z :=
  match blocks with
  | O => s
  | S blocks' =>
    let block := (lanes 17 (firstn rate bs) ++ repeat 0 8)%list in
    absorb blocks' (skipn rate bs) (keccakF (map (λ p, Z.lxor (fst p) (snd p)) (combine s block)))
  end.
(** The 32 bytes of the digest. *)
Definition digest (bs : list Z) : list Z :=
  let padded := pad bs in
  firstn 32 (flat_map (laneBytes 8) (absorb (List.length padded / rate) padded (repeat 0 25))).
End Keccak.

(** A text as bytes, the topic of a signature, the selector of a method. *)
Definition textBytes (s : string) : list Z := map (λ c, Z.of_nat (nat_of_ascii c)) (list_ascii_of_string s).
Definition eventTopic (signature : string) : Z := SetBytes (Keccak.digest (textBytes signature)).
Definition selector (signature : string) : list Z := firstn 4 (Keccak.digest (textBytes signature)).

Example keccak_empty : eventTopic "" = 0xc5d2460186f7233c927e7db2dcc703c0e500b653ca82273b7bfad8045d85a470.
Proof. vm_compute. reflexivity. Qed.
Example keccak_transfer : eventTopic "Transfer(address,address,uint256)" = 0xddf252ad1be2c89b69c2b068fc378daa952ba7f163c4a11628f55a4df523b3ef.
Proof. vm_compute. reflexivity. Qed.

(** ** The constants of the repository *)

(** The events the comments of signatures.go name. *)
Definition transferTopic : Z := eventTopic "Transfer(address,address,uint256)".
Definition approvalTopic : Z := eventTopic "Approval(address,address,uint256)".
Definition swapTopic : Z := eventTopic "Swap(address,address,int256,int256,uint160,uint128,int24)".
Definition mintTopic : Z := eventTopic "Mint(address,uint256)".

(** emulator_core.go, the code of the token the emulator deploys: eleven bytes of
    constructor, the body with the topic of LOG3 as the operand of PUSH32. *)
Definition erc20Bytecode : list Z := hexBytes
  "603180600b6000396000f3602435600052600435337fddf252ad1be2c89b69c2b068fc378daa952ba7f163c4a11628f55a4df523b3ef60206000a300".
Definition push32 : Z := 0x7f.
Definition operandAt (k : nat) (code : list Z) : Z := SetBytes (take 32 (drop (S k) code)).

(** The topics of a filter, as [eth_getLogs] documents them: position by
    position, an empty list matches anything, a longer filter than log nothing. *)
Fixpoint topicsMatch (q : list (list Z)) (topics : list Z) : bool :=
  match q, topics with
  | [], _ => true
  | _ :: _, [] => false
  | alternatives :: q', t :: ts =>
    (match alternatives with [] => true | _ => bool_decide (t ∈ alternatives) end) && topicsMatch q' ts
  end.

(** ** Lemmas *)

Lemma transferTopic_eq : transferTopic = 0xddf252ad1be2c89b69c2b068fc378daa952ba7f163c4a11628f55a4df523b3ef.
Proof. vm_compute. reflexivity. Qed.
Lemma swapTopic_eq : swapTopic = 0xc42079f94a6350d7e6235f29174924f928cc2ac818eb64fed8004e115fbcca67.
Proof. vm_compute. reflexivity. Qed.

(** A first topic the engine does not know. *)
Lemma ProcessLog_unknown env l topic rest :
  topic ∉ [TransferEventHash; SwapEventHash; ApprovalEventHash; MintEventHash] → log_Topics l = topic :: rest →
  ∃ t, ProcessLog env l = Some t ∧ (tr_Type t ∉ ["TRANSFER"; "SWAP"; "APPROVE"; "MINT"]) ∧ tr_To t = "multiple" ∧ tr_Amount t = 0.
Proof.
  intros Ht Hl. rewrite !not_elem_of_cons in Ht. destruct Ht as (H1 & H2 & H3 & H4 & _).
  assert (E : classifyLog l topic = ("CONTRACT_EVENT", addrHexLower (log_Address l), "multiple", 0)).
  { unfold classifyLog. by rewrite !(proj2 (Z.eqb_neq _ _)). }
  unfold ProcessLog. rewrite Hl, E. eexists. split; [done |]. simpl. split_and!; [| done | done].
  rewrite !not_elem_of_cons. case_match; repeat split; try done; apply not_elem_of_nil.
Qed.

(** The selectors in the calldata are right. *)
Lemma selectors_ok :
  selector "transfer(address,uint256)" = [0xa9; 0x05; 0x9c; 0xbb] ∧ selector "approve(address,uint256)" = [0x09; 0x5e; 0xa7; 0xb3] ∧
  take 4 (transferData recipientAddress) = selector "transfer(address,uint256)" ∧
  take 4 chaosTransfer = selector "transfer(address,uint256)" ∧ take 4 chaosApprove = selector "approve(address,uint256)".
Proof. vm_compute. repeat split; reflexivity. Qed.

(** The injector of the load test logs the true topic, so that its logs are no
    transfers to the engine. *)
Lemma stress_logs_topic n l : l ∈ generateMockLogs n → log_Topics l = [transferTopic].
Proof. rewrite transferTopic_eq. intros [i [-> _]]%list_elem_of_fmap. done. Qed.

(** ** Properties *)

(** C4: The engine does not know the events it indexes.  Of the constants of
    signatures.go only the one of Approval is the hash of its event; those of
    Transfer, Swap and Mint are not.  A log of a real transfer, and so every log
    of the emulator's own token, is not filed as a transfer: it becomes an event
    to "multiple" with amount 0, the value lost; and where the Fetcher filters by
    watched tokens, or the Sequencer fetches a block again, the query never
    matches it. *)
Theorem transfers_unrecognised :
  (approvalTopic = ApprovalEventHash ∧ transferTopic ≠ TransferEventHash ∧ swapTopic ≠ SwapEventHash ∧ mintTopic ≠ MintEventHash) ∧
  (nth 21 erc20Bytecode 0 = push32 ∧ operandAt 21 erc20Bytecode = transferTopic) ∧
  (∀ env l topic rest, topic ∈ [transferTopic; swapTopic; mintTopic] → log_Topics l = topic :: rest →
     ∃ t, ProcessLog env l = Some t ∧ (tr_Type t ∉ ["TRANSFER"; "SWAP"; "APPROVE"; "MINT"]) ∧ tr_To t = "multiple" ∧ tr_Amount t = 0) ∧
  (∀ watched start last topic rest, watched ≠ [] → topic ∈ [transferTopic; swapTopic; mintTopic] →
     topicsMatch (q_Topics (rangeQuery watched start last)) (topic :: rest) = false) ∧
  (∀ n rest, topicsMatch (q_Topics (retryQuery n)) (transferTopic :: rest) = false).
Proof.
  assert (Hbad : ∀ topic, topic ∈ [transferTopic; swapTopic; mintTopic] → topic ∉ [TransferEventHash; SwapEventHash; ApprovalEventHash; MintEventHash]).
  { intros topic Ht. assert (H : Forall (λ t, (bool_decide (t ∉ [TransferEventHash; SwapEventHash; ApprovalEventHash; MintEventHash])) = true)
                                   [transferTopic; swapTopic; mintTopic]) by (vm_compute; by repeat constructor).
    rewrite Forall_forall in H. eapply bool_decide_eq_true_1. by apply H. }
  split_and!; [vm_compute; reflexivity | by vm_compute | by vm_compute | by vm_compute | reflexivity | by vm_compute | | |].
  - intros env l topic rest Ht. by apply ProcessLog_unknown, Hbad.
  - intros watched start last topic rest Hw Ht%Hbad. unfold rangeQuery. destruct watched; [done |]. simpl.
    rewrite bool_decide_eq_false_2; [done |]. rewrite list_elem_of_singleton. intros ->. apply Ht. by left.
  - intros n rest. unfold retryQuery. cbn [q_Topics topicsMatch]. rewrite bool_decide_eq_false_2; [done |]. rewrite list_elem_of_singleton. intros E.
    apply (Hbad transferTopic); [apply list_elem_of_here | rewrite E; apply list_elem_of_here].
Qed.

(** ** Witness *)

(** A transfer of a million units of a token, as a node reports it. *)
Definition realTransfer : Log := mkLog 0xA0b86991c6218b36c1d19D4a2e9Eb0cE3606eB48 [transferTopic; 0xaa; 0xbb] [0x0f; 0x42; 0x40] 7 "0xt" 0.
Lemma transfers_unrecognised_witness :
  (∃ t, ProcessLog noEnv realTransfer = Some t ∧ tr_Amount t = 0 ∧ tr_To t = "multiple") ∧
  topicsMatch (q_Topics (rangeQuery [log_Address realTransfer] 7 7)) (log_Topics realTransfer) = false.
Proof.
  destruct transfers_unrecognised as (_ & _ & Hlog & Hquery & _). split.
  - destruct (Hlog noEnv realTransfer transferTopic [0xaa; 0xbb]) as (t & H1 & _ & H2 & H3); [apply list_elem_of_here | reflexivity |]. exists t. split; [exact H1 | split; assumption].
  - apply (Hquery [log_Address realTransfer] 7 7 transferTopic [0xaa; 0xbb]); [done | apply list_elem_of_here].
Defined.
